(* ===== verification/_CoqProject ===== *)
-Q . S2P
Prelude.v
KvStore.v
Acpi.v
AcpiDump.v
Vdso.v
Ramfs.v
RamfsFlush.v
RamfsNommu.v
SockOpt.v
SocketAttrs.v
SockOptSpec.v
SockOptRead.v
SockLife.v
SockMem.v
SockLock.v
Socket.v
Fork.v
ForkMm.v
ForkTask.v
ProcStatus.v
SockReg.v
SockCtl.v
Tcpdump.v
SocketCalls.v
SocketFile.v
SocketMsg.v
SocketMsgSpec.v
SockDefaults.v
SocketKernel.v
ForkRest.v
SyscallTables.v
Syscalls.v
