(* ===== verification/Prelude.v ===== *)
(** * OShm: a verification development

    The repository holds a set of changes to the Linux 5.15.178 kernel
    (src/kvm/linux-5.15.178), two UEFI applications (src/edk2) and a packet capture tool
    (src/tcpdump).  This library models the code of these parts and proves what makes them
    correct, and where they are not, exactly how.

    ** The parts and how they meet

    - The key-value store (kernel/kv_store.c): two system calls on a hash table with a
      lock per bucket.  The table hangs off the task; kernel/fork.c decides whether a new
      task shares it.
    - Task creation (kernel/fork.c): copy_process gives a new task its shared or copied
      parts, its key-value table and its default socket attributes; clone, clone3 and
      unshare lead to it or share its conventions.  Below it are the duplication of the
      address space, kernel stacks and the structures of tasks and groups.
    - The files of a task (fs/proc/array.c): status, which ends with its socket attributes,
      stat, statm and children.
    - Socket attributes (kernel/set_thread_socket_attrs.c, fs/proc/array.c,
      net/core/sock.c): a limit, a counter and a priority per thread, read by
      __sock_create and sock_init_data and shown in /proc/<pid>/status.
    - The socket layer (net/socket.c): creation, release and descriptors with the
      per-thread limit, and the calls on open sockets, messages included.
    - The sock layer (net/core/sock.c) below it: options, allocation and destruction,
      memory accounting, the lock of a socket and its backlog, the receive queue, control
      messages, registration of protocols.  sock_init_data gives a new
      socket the priority of its thread, which SO_PRIORITY would check.
    - The system call tables (include/uapi/asm-generic/unistd.h, include/linux/syscalls.h,
      kernel/sys_ni.c, arch/x86/entry/syscalls/syscall_64.tbl): numbers, prototypes and
      missing calls, through which the three new calls are reached.
    - ramfs with persistence (fs/ramfs/inode.c, file-mmu.c, file-nommu.c): a directory can
      be bound to a mount through /proc/fs/ramfs/bind; fsync, the sync file and every
      write then copy a file there, atomically by a rename.
    - The vDSO (arch/x86/entry/vdso/vma.c, vget_task_struct_info.c): a third special area
      shows a process its own task_struct; a user-side function reads it.
    - The custom ACPI table: MyAddAcpiApp.c installs it from the firmware,
      drivers/acpi/my_acpi_message.c shows its text in sysfs; MyAcpi.c lists and
      overwrites tables.
    - The capture tool (custom_tcpdump.c, main.c) over libpcap.

    ** Files

    - Prelude.v (this file): C integers at their width ([wrapu], [wraps], the notations of
      [cint_scope]), error numbers, little-endian bytes, numbers in text, tactics
      ([bool_prop], [split_cases]), the hint database [oshm], lemmas on lists and maps.
    - KvStore.v, module [KvStore]: [write_kv] and [read_kv] as functions; the same calls on
      several threads, one lock operation or loop iteration per step ([cstep]); [copy_kv]
      and the system of processes ([kstep]).
    - Acpi.v: modules [Firmware] (UefiMain and the table) and [Kernel] (mytb_show, module
      load and unload), with the C layout rule ([struct_offsets]) for the two declarations
      of the structure.  AcpiDump.v: the inspection tool on a byte memory.
    - Vdso.v: the fault handlers and mapping functions of vma.c and get_task_struct_info.
    - Ramfs.v: modules [Inodes], [Mount], [ProcBind], [Lifecycle].  RamfsFlush.v: the class
      [VFS] with its laws, modules [CopyFlush], [Sync], and [MapFS], an instance.
      RamfsNommu.v: file-nommu.c on page frames.
    - SockOpt.v: a socket as its fields, sock_setsockopt and sk_getsockopt on bytes, the
      setters of the kernel, sock_init_data_uid.  SockOptSpec.v: types of the fields,
      failures, what an unprivileged caller can reach.  SockOptRead.v: reading back.
    - SockLife.v: modules [Life] (sk_alloc, sk_clone_lock, sk_free with the resources held)
      and [Packets] (packets in flight, as a step relation).  SockMem.v: modules [Pages],
      [Optmem] and [Send].  SockLock.v: owners, sleepers, arriving packets ([lstep]).
    - SocketAttrs.v: the system call, the status lines, the priority.  Socket.v: modules
      [Layer] (sockets, files, descriptors, module references) and [Limit].
      SocketCalls.v: bind to shutdown on user memory, with a trace of what a call did.
      SocketMsg.v: sendmsg, recvmsg, their multiple forms and socketcall;
      SocketMsgSpec.v: their theorems.  SocketFile.v: modules [Ioctl], [Async] and
      [FileOps], a socket as a file.
    - SockReg.v: modules [Protos] and [Families], registration.  SockCtl.v: modules
      [SendCtl], [RecvCtl], [RcvQueue] (as a step relation) and [Frag].
    - Fork.v: modules [CopyProcess], [Clone], [Unshare].  ForkMm.v: a ledger of what is held,
      modules [Dup] (dup_mm), [MmLife] (the two counts of an address space), [Exe] (its
      executable) and [Vfork], the last three as step relations.  ForkTask.v: modules
      [Stacks], [Limits], [Walk] (walk_process_tree), [Release] and [Pidfd].
      ForkRest.v: modules [Seccomp] and [Oom] (step relations), [KernelTasks], [OwnFiles] and
      [StartUp].
    - ProcStatus.v: modules [Status], [Stat] and [Children], the text of the files.
    - SockDefaults.v: modules [Route] (with the class [DstOps] of route references), [Inuse],
      [Stamp], [Callbacks], [Release], [Orphan], [ProtoFile] and [Copy].  SocketKernel.v:
      modules [KernAccept], [KernAddr], [Hooks], [Boot] and [Overhead].
    - SyscallTables.v: the tables line by line, with their preprocessor conditions.
      Syscalls.v: modules [Unistd] (a model of the preprocessor, and a static analysis of the
      file that is proved sound), [Ni], [Wrapper], [Dispatch] and [X86].
    - Tcpdump.v: modules [Capture] and [Main].

    Names are those of the source; a definition that models a part of a function says so.
    State is passed explicitly or through a small state monad per component; an error is
    the negative number the code returns; [None] is undefined behaviour (a bad pointer, a
    BUG, a resource given back twice), so that theorems which show [Some] show its absence.

    ** What the theorems show

    - Key-value store: the interleaved calls are linearizable to a finite map, exclude each
      other per bucket and make progress; threads share a store, processes do not.
    - copy_process: on every failure everything acquired is given back, but for the two
      paths of the key-value arrays, which are described exactly; on success the child
      shares and holds what the flags say.  unshare replaces every part that was asked for
      and is shared, and no other, or nothing; one refused flag leaks.  clone3 passes on
      only checked arguments.
    - Address spaces and tasks: dup_mm copies the areas in order and holds exactly what the
      copy needs, or gives everything back; an address space is torn down and freed once; an
      executable is never writable; stacks are exclusive and reused clean; task and signal
      structures are freed once; the walk of the process tree agrees with the recursive one
      and ends.
    - Files of a task: no name of a task can forge a line of status or a field of stat;
      signal sets read back; stat hides addresses from those who may not trace; the children
      are listed once each and all references returned.
    - Sockets: the calls are atomic on sockets, files, descriptors and references; the
      limits a thread sets bound its counter, which never goes down, so that only a higher
      limit or none lets a thread at its limit create sockets again; a call on an open socket
      is balanced, asks the security hook first and touches only the user memory it may; a
      message is vetted before it is passed on, and the multiple forms report exactly what
      was sent; beyond what the handlers it calls write by themselves, an ioctl writes only
      into its own request, of the size its caller's word length gives it.
    - Options: every field keeps the range of its type through any calls, reads return the
      normalised value that was set, within the buffer; without capabilities a caller cannot
      raise priorities or marks by options, but can through its thread's priority level.
    - Life of a socket: what it takes it gives back, and it lives as long as its owner or a
      packet; a failing clone gives back more than it took.  Charges of pages and option
      memory balance and stay in their limits; a sender waits only while it must.
    - Registration: protocols have distinct counters and exactly their caches, failures are
      atomic; sockets are created only in registered families.  Control messages change only
      what the caller may change, and report only what was asked for; the receive queue is in
      order and within its bounds; pieces of pages never overlap.
    - Lock: one thread inside at a time, packets handled in order of arrival, none lost, and
      emptying the backlog ends under any flood.
    - System calls: in every configuration the numbers are distinct and in range; by number,
      and with any garbage in the upper halves of the registers, a value written to the store
      is read back; missing calls answer -ENOSYS, but a kernel without the socket attributes
      does not link; the x86-64 table agrees with the generic one.
    - Around sockets: a writer that sleeps is woken as soon as every packet has been freed,
      if the send buffer is at least twice the number of freeing processors and one, and in a
      smaller one it may sleep for ever; a socket is freed once although
      lookups go on; route references balance; counters, time stamps and copies are exact;
      kernel_accept is atomic but escapes the limit; addresses given by the kernel are kept.
    - New tasks: no thread escapes a seccomp filter, processes with one memory have one oom
      score, exec has its own file table.
    - ramfs: the tree stays well formed; a mount leaks and misuses no memory as
      long as no two binds, nor a bind and a flush, overlap, and since no lock keeps them
      apart, uses freed memory when they do; options and bind requests round-trip; a flush
      is atomic, terminates, and gives back what it took, but for one path; a write is
      followed by one exactly when its guards allow; the nommu variant attaches and frees exactly its pages.
    - vDSO: mapping is all or nothing if the search for room succeeds; when it does not,
      the error is missed and taken for an address, at which the areas are tried; the user sees its task_struct at the pointer returned.
    - ACPI: the text stored by the firmware is the text the kernel shows, checksums are
      valid, resources are freed once; overwriting a table may read past the new one.
    - Capture tool: the buffer holds whole packets in order; SIGINT never stops it.

    ** Fuel and bounds

    The copy loop of a flush takes fuel: its theorems ask for more fuel than the file has
    bytes (each iteration but the last copies one at least) and then show a result.
    PrintHeader takes fuel for the chain of FADT pointers; its theorem gives the depth.
    walk_process_tree takes fuel, and its theorem shows that there is enough.
    The loop of sock_alloc_send_pskb has a turn for each observation it is given.
    [digits] has fuel 64, enough for 64-bit numbers.  Loops over an array recurse on the
    number of iterations left.

    ** Parameters

    Code outside the repository is a parameter with its documented behaviour as named
    hypotheses: boot services, the memory manager, the VFS, protocol families and security
    hooks, user memory and page allocators, namespaces and cgroups, libpcap.  Each
    hypothesis that a theorem has is met by an instance in its witness.

    ** Not modelled

    What is left of fork.c, socket.c and sock.c is initialisation without decisions (slab
    caches, lock classes, RCU and debugging fields of a new task) and tables of functions;
    of syscalls.h, tracing metadata and declarations of functions inside the kernel; of
    sched.h, the declarations of the stock scheduler.  RCU grace periods are taken as over;
    retries of sequence locks, log messages and trace points are left out, as is
    the release_cb of a protocol in release_sock, the saturation of reference counters, the
    references that ksm and khugepaged take on an address space (their registration is
    counted) and the contexts of userfaultfd.  User memory changes only by the call that is
    modelled.  A task's vtask pages are those of one task, although threads that share the
    address space see those of the first to fault.  The send buffer of the wake-up model
    is constant.  Left out too are linker
    scripts, build files, and the Python, CUDA and shell programs. *)

From Stdlib Require Export ZArith Lia.
From stdpp Require Export base list gmap fin_maps strings.
#[global] Open Scope Z_scope.
#[global] Set Default Goal Selector "!".
#[export] Set Warnings "-clear-no-such-hyp".

(** ** Machine integers

    A [w]-bit unsigned (signed) C integer is a [Z] in the range [in_u w]
    ([in_s w]); [wrapu w] ([wraps w]) is the conversion to that type. *)

Declare Scope cint_scope.
Delimit Scope cint_scope with cint.

Definition wrapu (w x : Z) : Z := x mod 2 ^ w.
Definition wraps (w x : Z) : Z := (x + 2 ^ (w - 1)) mod 2 ^ w - 2 ^ (w - 1).
Definition in_u (w x : Z) : Prop := 0 <= x < 2 ^ w.
Definition in_s (w x : Z) : Prop := - 2 ^ (w - 1) <= x < 2 ^ (w - 1).

Notation "x +u64 y" := (wrapu 64 (x + y)) (at level 50, left associativity) : cint_scope.
Notation "x -u64 y" := (wrapu 64 (x - y)) (at level 50, left associativity) : cint_scope.
Notation "x *u64 y" := (wrapu 64 (x * y)) (at level 40, left associativity) : cint_scope.

(** C's truth value of an integer expression. *)
Definition ztrue (x : Z) : bool := negb (x =? 0).

(** [x & mask] used as a condition. *)
Definition flag (x mask : Z) : bool := ztrue (Z.land x mask).

(** ** Error numbers (include/uapi/asm-generic/errno-base.h), returned negated. *)
Definition EPERM : Z := 1.
Definition ENOENT : Z := 2.
Definition ESRCH : Z := 3.
Definition EINTR : Z := 4.
Definition EIO : Z := 5.
Definition EBADF : Z := 9.
Definition EAGAIN : Z := 11.
Definition ENOMEM : Z := 12.
Definition EACCES : Z := 13.
Definition EFAULT : Z := 14.
Definition EEXIST : Z := 17.
Definition ENODEV : Z := 19.
Definition ENOTDIR : Z := 20.
Definition EINVAL : Z := 22.
Definition ENFILE : Z := 23.
Definition EMFILE : Z := 24.
Definition EFBIG : Z := 27.
Definition ENOSPC : Z := 28.
Definition EDOM : Z := 33.
Definition ERANGE : Z := 34.
Definition ENOSYS : Z := 38.
Definition ENOTSOCK : Z := 88.
Definition ENOPROTOOPT : Z := 92.
Definition EOPNOTSUPP : Z := 95.
Definition EAFNOSUPPORT : Z := 97.
Definition ENOBUFS : Z := 105.
Definition ENOPARAM : Z := 519.

(** ** Tactics *)

Create HintDb oshm.

(** Case analysis on the first boolean test or option in the goal, keeping its
    equation, with boolean comparisons turned into propositions. *)
Ltac bool_prop :=
  repeat match goal with
  | H : (_ && _)%bool = true |- _ => apply andb_true_iff in H as [? ?]
  | H : (_ || _)%bool = false |- _ => apply orb_false_iff in H as [? ?]
  | H : negb _ = true |- _ => apply negb_true_iff in H
  | H : negb _ = false |- _ => apply negb_false_iff in H
  | H : (_ =? _) = true |- _ => apply Z.eqb_eq in H
  | H : (_ =? _) = false |- _ => apply Z.eqb_neq in H
  | H : (_ <? _) = true |- _ => apply Z.ltb_lt in H
  | H : (_ <? _) = false |- _ => apply Z.ltb_ge in H
  | H : (_ <=? _) = true |- _ => apply Z.leb_le in H
  | H : (_ <=? _) = false |- _ => apply Z.leb_gt in H
  end.

Ltac case_if_goal :=
  match goal with
  | |- context [if ?b then _ else _] => destruct b eqn:?
  | |- context [match ?o with Some _ => _ | None => _ end] => destruct o eqn:?
  end.

Ltac split_cases := repeat (case_if_goal; bool_prop; simpl in *; try congruence).

(** ** Lemmas on machine integers *)

Lemma wrapu_range w x : 0 <= w -> in_u w (wrapu w x).
Proof. intros Hw. apply Z.mod_pos_bound. apply Z.pow_pos_nonneg; lia. Qed.

Lemma wrapu_id w x : in_u w x -> wrapu w x = x.
Proof. intros H. by apply Z.mod_small. Qed.

Lemma wraps_range w x : 0 < w -> in_s w (wraps w x).
Proof.
  intros Hw. unfold wraps, in_s.
  assert (0 < 2 ^ w) by (apply Z.pow_pos_nonneg; lia).
  assert (2 ^ w = 2 * 2 ^ (w - 1)).
  { rewrite <- (Z.pow_succ_r 2 (w - 1)) by lia. f_equal. lia. }
  pose proof (Z.mod_pos_bound (x + 2 ^ (w - 1)) (2 ^ w)). lia.
Qed.

Lemma wraps_add_l w x y : 0 < w -> wraps w (wraps w x + y) = wraps w (x + y).
Proof.
  intros Hw. unfold wraps. f_equal.
  replace ((x + 2 ^ (w - 1)) mod 2 ^ w - 2 ^ (w - 1) + y + 2 ^ (w - 1)) with ((x + 2 ^ (w - 1)) mod 2 ^ w + y) by lia.
  rewrite Zplus_mod_idemp_l. f_equal. lia.
Qed.

Lemma wraps_id w x : 0 < w -> in_s w x -> wraps w x = x.
Proof.
  intros Hw H. unfold wraps, in_s in *.
  assert (2 ^ w = 2 * 2 ^ (w - 1)).
  { rewrite <- (Z.pow_succ_r 2 (w - 1)) by lia. f_equal. lia. }
  rewrite Z.mod_small; lia.
Qed.

Lemma wrapu_wrapu w x : 0 <= w -> wrapu w (wrapu w x) = wrapu w x.
Proof. intros Hw. apply wrapu_id, wrapu_range, Hw. Qed.

#[export] Hint Resolve wrapu_range wraps_range : oshm.

(** Masking an unsigned 64-bit value with [~(2^k - 1)] rounds it down. *)
Lemma land_mask64 k x :
  0 <= k -> in_u 64 x -> Z.land x (wrapu 64 (Z.lnot (2 ^ k - 1))) = x - x mod 2 ^ k.
Proof.
  intros Hk Hx. assert (wrapu 64 (Z.lnot (2 ^ k - 1)) = Z.land (Z.lnot (Z.ones k)) (Z.ones 64)) as ->.
  { unfold wrapu. rewrite <- Z.land_ones by lia. do 2 f_equal. rewrite Z.ones_equiv. lia. }
  rewrite (Z.land_comm (Z.lnot _)), Z.land_assoc, Z.land_ones, (Z.mod_small x) by (done || lia).
  rewrite <- Z.ldiff_land, Z.ldiff_ones_r, Z.shiftr_div_pow2, Z.shiftl_mul_pow2 by lia.
  assert (2 ^ k <> 0) by (apply Z.pow_nonzero; lia). pose proof (Z.div_mod x (2 ^ k)). lia.
Qed.

(** ** Bytes

    A byte is a [Z] in [in_u 8]; memory blocks are lists of bytes.  [le_bytes n x] is
    the little-endian image of an [n]-byte unsigned integer, [le_value] its value. *)

Fixpoint le_bytes (n : nat) (x : Z) : list Z :=
  match n with
  | O => []
  | S n' => x mod 256 :: le_bytes n' (x / 256)
  end.

Fixpoint le_value (l : list Z) : Z :=
  match l with
  | [] => 0
  | b :: l' => b + 256 * le_value l'
  end.

Definition bytes_ok (l : list Z) : Prop := Forall (in_u 8) l.

Fixpoint bytes_of_string (s : string) : list Z :=
  match s with
  | EmptyString => []
  | String a s' => Z.of_nat (Ascii.nat_of_ascii a) :: bytes_of_string s'
  end.

(** [n] bytes of a block from offset [off]; [None] when they are not all inside. *)
Definition slice (off n : nat) (l : list Z) : option (list Z) :=
  if bool_decide (off + n <= length l)%nat then Some (take n (drop off l)) else None.

(** [strnlen(s, n)] on a block: the offset of the first NUL, at most [n]. *)
Fixpoint strnlen (l : list Z) (n : nat) : nat :=
  match n, l with
  | S n', b :: l' => if b =? 0 then O else S (strnlen l' n')
  | _, _ => O
  end.

Lemma length_le_bytes n x : length (le_bytes n x) = n.
Proof. revert x. induction n as [|n IH]; intros x; simpl; [done|]. by rewrite IH. Qed.

Lemma le_bytes_ok n x : bytes_ok (le_bytes n x).
Proof.
  revert x. induction n as [|n IH]; intros x; simpl; constructor; [|apply IH].
  unfold in_u. pose proof (Z.mod_pos_bound x 256). lia.
Qed.

Lemma le_value_bytes n x : le_value (le_bytes n x) = x mod 256 ^ Z.of_nat n.
Proof.
  revert x. induction n as [|n IH]; intros x; [by rewrite Z.mod_1_r|].
  simpl le_bytes. simpl le_value. rewrite IH, Nat2Z.inj_succ, Z.pow_succ_r by lia.
  rewrite Z.rem_mul_r by (try apply Z.pow_pos_nonneg; lia). lia.
Qed.

Lemma strnlen_le l n : (strnlen l n <= n)%nat.
Proof.
  revert l. induction n as [|n IH]; intros [|b l]; simpl; try lia.
  destruct (b =? 0); [lia|]. specialize (IH l). lia.
Qed.

Lemma strnlen_le_length l n : (strnlen l n <= length l)%nat.
Proof.
  revert l. induction n as [|n IH]; intros [|b l]; simpl; try lia.
  destruct (b =? 0); [lia|]. specialize (IH l). lia.
Qed.

(** The bytes before [strnlen] are not NUL. *)
Lemma strnlen_no_nul l n i b : l !! i = Some b -> (i < strnlen l n)%nat -> b <> 0.
Proof.
  revert l i. induction n as [|n IH]; intros [|c l] i Hi Hlt; simpl in *; try lia.
  destruct (Z.eqb_spec c 0); [lia|]. destruct i as [|i]; simplify_eq/=; [done|].
  apply (IH l i); [done|lia].
Qed.

Lemma strnlen_stop l n :
  (strnlen l n < n)%nat -> (strnlen l n < length l)%nat -> l !! strnlen l n = Some 0.
Proof.
  revert l. induction n as [|n IH]; intros [|c l] H1 H2; simpl in *; try lia.
  destruct (Z.eqb_spec c 0) as [->|]; [done|]. simpl. apply IH; lia.
Qed.

#[export] Hint Resolve le_bytes_ok : oshm.

(** ** Numbers in text *)

(** Digits of an unsigned number; fuel 64 is enough for 64-bit numbers. *)
Definition digit (d : Z) : Z := if d <? 10 then 48 + d else 87 + d.
Fixpoint digits (base : Z) (fuel : nat) (x : Z) (acc : list Z) : list Z :=
  match fuel with
  | O => acc
  | S n => if x <? base then digit x :: acc
           else digits base n (x / base) (digit (x mod base) :: acc)
  end.
Definition fmt_lx (x : Z) : list Z := digits 16 64 (wrapu 64 x) [].
Definition fmt_d (x : Z) : list Z :=
  if x <? 0 then 45 :: digits 10 64 (- x) [] else digits 10 64 x [].

(** The number decimal text denotes. *)
Definition dec_value (l : list Z) : Z := foldl (fun a d => 10 * a + (d - 48)) 0 l.
Definition dec_int (l : list Z) : Z :=
  match l with
  | d :: l' => if d =? 45 then - dec_value l' else dec_value l
  | [] => 0
  end.

Lemma digits10_value fuel x acc :
  0 <= x < 10 ^ Z.of_nat fuel ->
  dec_value (digits 10 fuel x acc) = foldl (fun a d => 10 * a + (d - 48)) x acc.
Proof.
  revert x acc. induction fuel as [|n IH]; intros x acc Hx.
  - replace x with 0 by (simpl in Hx; lia). done.
  - rewrite Nat2Z.inj_succ, Z.pow_succ_r in Hx by lia. simpl. unfold digit.
    destruct (Z.ltb_spec x 10).
    + unfold dec_value. simpl. f_equal. lia.
    + pose proof (Z.div_mod x 10). pose proof (Z.mod_pos_bound x 10).
      rewrite IH; simpl; [|split; [apply Z.div_pos; lia|apply Z.div_lt_upper_bound; lia]].
      destruct (Z.ltb_spec (x mod 10) 10); [f_equal; lia|lia].
Qed.

(** Decimal text starts with a digit, not with a sign. *)
Lemma digits10_head fuel x acc d :
  0 <= x -> (forall d', head acc = Some d' -> 48 <= d' <= 57) ->
  head (digits 10 fuel x acc) = Some d -> 48 <= d <= 57.
Proof.
  revert x acc. induction fuel as [|n IH]; intros x acc Hx Ha; simpl; [apply Ha|]. unfold digit at 1.
  destruct (Z.ltb_spec x 10); [intros [= <-]; lia|].
  apply IH; [apply Z.div_pos; lia|]. intros d' [= <-]. unfold digit.
  pose proof (Z.mod_pos_bound x 10). destruct (Z.ltb_spec (x mod 10) 10); lia.
Qed.

Lemma fmt_d_value x : in_s 32 x -> dec_int (fmt_d x) = x.
Proof.
  unfold in_s. intros Hx. change (2 ^ (32 - 1)) with 2147483648 in Hx.
  assert (2147483648 < 10 ^ Z.of_nat 64) as Hp by reflexivity.
  unfold fmt_d. destruct (Z.ltb_spec x 0).
  - unfold dec_int. change (45 =? 45) with true. cbv iota. rewrite digits10_value; [simpl; lia|].
    split; [lia|]. eapply Z.le_lt_trans; [|exact Hp]. lia.
  - unfold dec_int. destruct (digits 10 64 x []) as [|d l] eqn:E.
    + pose proof (digits10_value 64 x []) as Hv. rewrite E in Hv. apply Hv.
      split; [lia|]. eapply Z.le_lt_trans; [|exact Hp]. lia.
    + assert (48 <= d <= 57) by (apply (digits10_head 64 x []); [done|done|by rewrite E]).
      destruct (Z.eqb_spec d 45); [lia|]. rewrite <- E. apply digits10_value.
      split; [lia|]. eapply Z.le_lt_trans; [|exact Hp]. lia.
Qed.

(** ** Lists *)

Lemma filter_id {A} (P : A -> Prop) `{forall x, Decision (P x)} (l : list A) :
  (forall x, x ∈ l -> P x) -> filter P l = l.
Proof.
  induction l as [|x l IH]; intros Hl; [done|].
  rewrite filter_cons_True by (apply Hl; left).
  f_equal. apply IH. intros y Hy. apply Hl. by right.
Qed.

(** The number of elements a test accepts. *)
Fixpoint countb {A} (f : A -> bool) (l : list A) : nat :=
  match l with
  | [] => 0
  | x :: l' => (if f x then 1 else 0) + countb f l'
  end.

Lemma countb_ext {A} (f g : A -> bool) l :
  (forall x, x ∈ l -> f x = g x) -> countb f l = countb g l.
Proof.
  induction l as [|x l IH]; intros H; simpl; [done|].
  rewrite (H x) by left. f_equal. apply IH. intros y Hy. apply H. by right.
Qed.

Lemma countb_app {A} (f : A -> bool) l1 l2 : countb f (l1 ++ l2) = (countb f l1 + countb f l2)%nat.
Proof. induction l1 as [|x l1 IH]; simpl; [done|]. rewrite IH. lia. Qed.

Lemma countb_none {A} (f : A -> bool) l : (forall x, x ∈ l -> f x = false) -> countb f l = 0%nat.
Proof.
  induction l as [|x l IH]; intros H; simpl; [done|].
  rewrite (H x) by left. apply IH. intros y Hy. apply H. by right.
Qed.

(** ** Maps *)

Lemma alter_twice {A} (f g : A -> A) k (m : gmap Z A) :
  alter f k (alter g k m) = alter (f ∘ g) k m.
Proof.
  apply map_eq. intros i. destruct (decide (i = k)) as [->|].
  - rewrite !lookup_alter_eq. by destruct (m !! k).
  - by rewrite !lookup_alter_ne.
Qed.

Lemma alter_id_at {A} (f : A -> A) k x (m : gmap Z A) :
  m !! k = Some x -> f x = x -> alter f k m = m.
Proof.
  intros Hk Hf. apply map_eq. intros i. destruct (decide (i = k)) as [->|].
  - by rewrite lookup_alter_eq, Hk; simpl; rewrite Hf.
  - by rewrite lookup_alter_ne.
Qed.

Lemma alter_as_insert {A} (f : A -> A) k x (m : gmap Z A) :
  m !! k = Some x -> alter f k m = <[k:=f x]> m.
Proof.
  intros Hk. apply map_eq. intros i. destruct (decide (i = k)) as [->|].
  - by rewrite lookup_alter_eq, Hk, lookup_insert_eq.
  - by rewrite lookup_alter_ne, lookup_insert_ne.
Qed.

(** ** Counting the entries of a map *)

Section Count.
Context {A : Type} (P : A -> Prop) {Hdec : forall a, Decision (P a)}.
Definition countm (m : gmap Z A) : Z := Z.of_nat (size (filter (fun ka => P ka.2) m)).
Lemma countm_nonneg m : 0 <= countm m.
Proof. unfold countm. lia. Qed.
Lemma countm_insert k a m : m !! k = None -> countm (<[k := a]> m) = countm m + (if decide (P a) then 1 else 0).
Proof.
  intros Hk. unfold countm. rewrite map_filter_insert. cbn [snd]. destruct (decide (P a)).
  - rewrite map_size_insert_None; [lia|]. apply map_lookup_filter_None. by left.
  - rewrite delete_id by done. lia.
Qed.
Lemma countm_delete k a m : m !! k = Some a -> countm (delete k m) = countm m - (if decide (P a) then 1 else 0).
Proof.
  intros Hk. rewrite <- (insert_delete_id m k a Hk) at 2. rewrite countm_insert by apply lookup_delete_eq. lia.
Qed.
Lemma countm_update k a b m : m !! k = Some a ->
  countm (<[k := b]> m) = countm m - (if decide (P a) then 1 else 0) + (if decide (P b) then 1 else 0).
Proof.
  intros Hk. rewrite <- insert_delete_eq, countm_insert by apply lookup_delete_eq. by rewrite (countm_delete k a m Hk).
Qed.
Lemma countm_pos k a m : m !! k = Some a -> P a -> 0 < countm m.
Proof.
  intros Hk Ha. pose proof (countm_delete k a m Hk) as H. rewrite decide_True in H by done.
  pose proof (countm_nonneg (delete k m)). lia.
Qed.
End Count.
