(* ===== verification/KvStore.v ===== *)
(** * The per-process key-value store (src/kvm/linux-5.15.178/kernel/kv_store.c)

    [write_kv] and [read_kv] work on the 1024-bucket hash table that
    [current->kv_store] points to; every bucket has its own spin lock.  The file
    gives three views of it and relates them:
    - the system calls as functions on the table, the whole critical section of a
      call being one step ([write_kv], [read_kv]);
    - the specification: a finite map from keys to values ([spec_call]);
    - the calls as they run on several threads that share the table, one lock
      operation or one loop iteration at a time ([cstep]). *)

From S2P Require Import Prelude.

Module KvStore.

(** [struct my_data], less the list node: a bucket is the list of its nodes. *)
Record my_data := MyData { key : Z; value : Z }.

#[global] Instance my_data_eq_dec : EqDecision my_data.
Proof. solve_decision. Defined.

Definition KV_BUCKETS : nat := 1024.

(** [int hash = k & 0x3FF;] *)
Definition kv_hash (k : Z) : nat := Z.to_nat (Z.land k 0x3FF).

(** The [hlist_for_each_entry] loop of [write_kv]: the first node with key [k]
    gets the value [v]; [None] when the loop ends without a match. *)
Fixpoint hlist_assign (k v : Z) (l : list my_data) : option (list my_data) :=
  match l with
  | [] => None
  | d :: l' =>
      if key d =? k then Some (MyData (key d) v :: l')
      else match hlist_assign k v l' with
           | Some l'' => Some (d :: l'')
           | None => None
           end
  end.

(** The [hlist_for_each_entry] loop of [read_kv]. *)
Fixpoint hlist_find (k : Z) (l : list my_data) : option Z :=
  match l with
  | [] => None
  | d :: l' => if key d =? k then Some (value d) else hlist_find k l'
  end.

(** [SYSCALL_DEFINE2(write_kv, int, k, int, v)]; [kmalloc_ok] says whether the
    allocation of a new node succeeds. *)
Definition write_kv (kmalloc_ok : bool) (k v : Z) (kv : list (list my_data))
    : Z * list (list my_data) :=
  let hash := kv_hash k in
  match hlist_assign k v (kv !!! hash) with
  | Some l => (0, <[hash:=l]> kv)
  | None =>
      if kmalloc_ok then (0, <[hash:=MyData k v :: kv !!! hash]> kv)
      else (- ENOMEM, kv)
  end.

(** [SYSCALL_DEFINE1(read_kv, int, k)] *)
Definition read_kv (k : Z) (kv : list (list my_data)) : Z :=
  let hash := kv_hash k in
  match kv !!! hash with
  | [] => -3
  | l => match hlist_find k l with Some v => v | None => -2 end
  end.

(** The state [copy_process] gives a new process (kernel/fork.c): 1024 empty
    buckets. *)
Definition kv_init : list (list my_data) := replicate KV_BUCKETS [].

(** ** Specification: a finite map *)

Inductive kv_op := OpWrite (k v : Z) | OpRead (k : Z).

(** What one call may do to the map and return. *)
Inductive spec_call : gmap Z Z -> kv_op -> Z -> gmap Z Z -> Prop :=
| spec_write m k v : spec_call m (OpWrite k v) 0 (<[k:=v]> m)
| spec_write_nomem m k v :
    m !! k = None -> spec_call m (OpWrite k v) (- ENOMEM) m
| spec_read_hit m k v : m !! k = Some v -> spec_call m (OpRead k) v m
| spec_read_miss m k r :
    m !! k = None -> r = -2 \/ r = -3 -> spec_call m (OpRead k) r m.

(** The map a table stands for. *)
Definition pair_of (d : my_data) : Z * Z := (key d, value d).
Definition kv_abs (kv : list (list my_data)) : gmap Z Z :=
  list_to_map (pair_of <$> concat kv).

(** Well-formedness: 1024 buckets, every node in the bucket of its key's hash,
    no key twice in a bucket. *)
Definition bucket_wf (i : nat) (b : list my_data) : Prop :=
  NoDup (key <$> b) /\ Forall (fun d => kv_hash (key d) = i) b.
Definition kv_wf (kv : list (list my_data)) : Prop :=
  length kv = KV_BUCKETS /\ forall i b, kv !! i = Some b -> bucket_wf i b.

(** ** Lemmas: one bucket *)

Lemma kv_hash_lt k : (kv_hash k < KV_BUCKETS)%nat.
Proof.
  unfold kv_hash, KV_BUCKETS. change 0x3FF with (Z.ones 10).
  rewrite Z.land_ones by lia.
  pose proof (Z.mod_pos_bound k (2 ^ 10)). lia.
Qed.
#[local] Hint Resolve kv_hash_lt : oshm.

Lemma find_None_iff k l : hlist_find k l = None <-> k ∉ key <$> l.
Proof.
  induction l as [|d l IH]; simpl; [split; [intros _; apply not_elem_of_nil|done]|].
  rewrite not_elem_of_cons. destruct (Z.eqb_spec (key d) k); naive_solver.
Qed.

Lemma assign_None_iff k v l : hlist_assign k v l = None <-> k ∉ key <$> l.
Proof.
  induction l as [|d l IH]; simpl; [split; [intros _; apply not_elem_of_nil|done]|].
  rewrite not_elem_of_cons. destruct (Z.eqb_spec (key d) k); [naive_solver|].
  destruct (hlist_assign k v l); naive_solver.
Qed.

Lemma assign_keys k v l l' : hlist_assign k v l = Some l' -> key <$> l' = key <$> l.
Proof.
  revert l'. induction l as [|d l IH]; simpl; intros l' H; [done|].
  destruct (key d =? k); [by simplify_eq|].
  destruct (hlist_assign k v l); simplify_eq/=. f_equal. by apply IH.
Qed.

Lemma assign_find k v l l' j :
  hlist_assign k v l = Some l' ->
  hlist_find j l' = if decide (j = k) then Some v else hlist_find j l.
Proof.
  revert l'. induction l as [|d l IH]; simpl; intros l' H; [done|].
  destruct (Z.eqb_spec (key d) k); simplify_eq/=.
  - destruct (Z.eqb_spec (key d) j); case_decide; congruence.
  - destruct (hlist_assign k v l); simplify_eq/=.
    rewrite (IH _ eq_refl). destruct (Z.eqb_spec (key d) j); case_decide; congruence.
Qed.

Lemma bucket_wf_keys i b b' :
  key <$> b' = key <$> b -> bucket_wf i b -> bucket_wf i b'.
Proof.
  intros E [Hn Hf]. split; [by rewrite E|].
  change (Forall ((fun x => kv_hash x = i) ∘ key) b) in Hf.
  apply Forall_fmap in Hf. rewrite <- E in Hf. by apply Forall_fmap in Hf.
Qed.

Lemma bucket_wf_cons k v b :
  k ∉ key <$> b -> bucket_wf (kv_hash k) b -> bucket_wf (kv_hash k) (MyData k v :: b).
Proof. intros Hk [Hn Hf]. split; [by constructor|by constructor]. Qed.

(** ** Lemmas: the table *)

Lemma pairs_lookup k l :
  (list_to_map (pair_of <$> l) : gmap Z Z) !! k = hlist_find k l.
Proof.
  induction l as [|d l IH]; simpl; [done|].
  rewrite lookup_insert. destruct (Z.eqb_spec (key d) k); by case_decide.
Qed.

Lemma find_app k l1 l2 :
  hlist_find k (l1 ++ l2) =
  match hlist_find k l1 with Some v => Some v | None => hlist_find k l2 end.
Proof. induction l1 as [|d l IH]; simpl; [done|]. by destruct (key d =? k). Qed.

Lemma find_concat k kv h :
  (forall i b, kv !! i = Some b -> i <> h -> hlist_find k b = None) ->
  hlist_find k (concat kv) =
  match kv !! h with Some b => hlist_find k b | None => None end.
Proof.
  revert h. induction kv as [|b kv IH]; intros h Hk; simpl; [done|].
  rewrite find_app. destruct h as [|h]; simpl.
  - destruct (hlist_find k b); [done|].
    rewrite (IH (length kv)).
    + rewrite lookup_ge_None_2 by lia. done.
    + intros i b' Hi _. by apply (Hk (S i)).
  - rewrite (Hk 0%nat b) by done. apply IH.
    intros i b' Hi Hne. apply (Hk (S i)); [done|lia].
Qed.

Lemma kv_abs_lookup kv k :
  kv_wf kv -> kv_abs kv !! k = hlist_find k (kv !!! kv_hash k).
Proof.
  intros [Hlen Hwf]. unfold kv_abs. rewrite pairs_lookup.
  rewrite (find_concat k kv (kv_hash k)).
  - rewrite list_lookup_total_alt. destruct (kv !! kv_hash k) eqn:E; [done|].
    apply lookup_ge_None_1 in E. pose proof (kv_hash_lt k). lia.
  - intros i b Hi Hne. apply find_None_iff. intros Hin.
    destruct (Hwf i b Hi) as [_ Hf].
    apply list_elem_of_fmap in Hin as (d & -> & Hd).
    rewrite Forall_forall in Hf. by apply Hne, eq_sym, Hf.
Qed.

Lemma kv_bucket kv k :
  kv_wf kv -> kv !! kv_hash k = Some (kv !!! kv_hash k).
Proof.
  intros [Hlen _]. apply list_lookup_lookup_total_lt. rewrite Hlen. apply kv_hash_lt.
Qed.

Lemma kv_bucket_wf kv k : kv_wf kv -> bucket_wf (kv_hash k) (kv !!! kv_hash k).
Proof. intros H. destruct H as [? Hw] eqn:E. apply Hw. by apply kv_bucket. Qed.

Lemma kv_wf_insert kv k b :
  kv_wf kv -> bucket_wf (kv_hash k) b -> kv_wf (<[kv_hash k:=b]> kv).
Proof.
  intros [Hlen Hwf] Hb. split; [by rewrite length_insert|].
  intros i b' [(<- & <- & _)|[_ Hi]]%list_lookup_insert_Some; [done|by apply Hwf].
Qed.

Lemma kv_insert_lookup kv k j b :
  kv_wf kv ->
  <[kv_hash k:=b]> kv !!! kv_hash j =
  if decide (kv_hash j = kv_hash k) then b else kv !!! kv_hash j.
Proof.
  intros [Hlen _]. case_decide as E.
  - rewrite E, list_lookup_total_insert_eq; [done|].
    rewrite Hlen. apply kv_hash_lt.
  - by rewrite list_lookup_total_insert_ne.
Qed.

(** Updating the bucket of [k] so that [k] reads [v] and the other keys are
    unchanged is an insertion into the map. *)
Lemma kv_abs_insert kv k v b :
  kv_wf kv -> bucket_wf (kv_hash k) b ->
  (forall j, hlist_find j b =
             if decide (j = k) then Some v else hlist_find j (kv !!! kv_hash k)) ->
  kv_abs (<[kv_hash k:=b]> kv) = <[k:=v]> (kv_abs kv).
Proof.
  intros Hwf Hb Hf. apply map_eq. intros j.
  rewrite kv_abs_lookup by (by apply kv_wf_insert).
  rewrite kv_insert_lookup by done. rewrite lookup_insert.
  rewrite kv_abs_lookup by done.
  destruct (decide (k = j)) as [->|Hne].
  - rewrite decide_True by done. rewrite Hf. by rewrite decide_True.
  - destruct (decide (kv_hash j = kv_hash k)) as [E|]; [|done].
    rewrite Hf, decide_False by done. by rewrite E.
Qed.

Lemma assign_step kv k v l :
  kv_wf kv -> hlist_assign k v (kv !!! kv_hash k) = Some l ->
  bucket_wf (kv_hash k) l /\ kv_abs (<[kv_hash k:=l]> kv) = <[k:=v]> (kv_abs kv).
Proof.
  intros Hwf Ha.
  assert (bucket_wf (kv_hash k) l).
  { eapply bucket_wf_keys; [by eapply assign_keys|by apply kv_bucket_wf]. }
  split; [done|]. apply kv_abs_insert; [done|done|]. intros j. by apply assign_find.
Qed.

Lemma add_head_step kv k v :
  kv_wf kv -> k ∉ key <$> kv !!! kv_hash k ->
  bucket_wf (kv_hash k) (MyData k v :: kv !!! kv_hash k) /\
  kv_abs (<[kv_hash k:=MyData k v :: kv !!! kv_hash k]> kv) = <[k:=v]> (kv_abs kv).
Proof.
  intros Hwf Hk.
  assert (bucket_wf (kv_hash k) (MyData k v :: kv !!! kv_hash k)).
  { apply bucket_wf_cons; [done|by apply kv_bucket_wf]. }
  split; [done|]. apply kv_abs_insert; [done|done|].
  intros j. simpl. destruct (Z.eqb_spec k j); by case_decide.
Qed.

Lemma kv_init_wf : kv_wf kv_init.
Proof.
  split; [apply length_replicate|].
  intros i b [-> _]%lookup_replicate. split; constructor.
Qed.

Lemma kv_init_abs : kv_abs kv_init = ∅.
Proof. reflexivity. Qed.

(** ** The calls as functions refine the map *)

(** A [write_kv] call on a well-formed table leaves it well formed (each key
    stored once, in the bucket of its hash) and is an insertion into the map, or, when
    the node cannot be allocated, returns -ENOMEM with the table unchanged, which
    happens only for a key that was not stored. *)
Theorem write_kv_refines kmalloc_ok k v kv r kv' :
  kv_wf kv -> write_kv kmalloc_ok k v kv = (r, kv') ->
  kv_wf kv' /\ spec_call (kv_abs kv) (OpWrite k v) r (kv_abs kv').
Proof.
  unfold write_kv. intros Hwf H.
  destruct (hlist_assign k v (kv !!! kv_hash k)) as [l|] eqn:Ha.
  - injection H as <- <-. destruct (assign_step _ _ _ _ Hwf Ha) as [Hb ->].
    split; [by apply kv_wf_insert|constructor].
  - apply assign_None_iff in Ha. destruct kmalloc_ok; injection H as <- <-.
    + destruct (add_head_step _ k v Hwf Ha) as [Hb ->].
      split; [by apply kv_wf_insert|constructor].
    + split; [done|]. constructor. rewrite kv_abs_lookup by done. by apply find_None_iff.
Qed.

Lemma write_kv_refines_witness :
  kv_wf kv_init /\
  (kv_wf (snd (write_kv true 5 7 kv_init)) /\
   spec_call (kv_abs kv_init) (OpWrite 5 7) 0 (kv_abs (snd (write_kv true 5 7 kv_init)))).
Proof.
  split; [exact kv_init_wf|].
  apply (write_kv_refines true 5 7 kv_init); [exact kv_init_wf|vm_compute; reflexivity].
Defined.

Lemma read_kv_spec k kv : kv_wf kv -> spec_call (kv_abs kv) (OpRead k) (read_kv k kv) (kv_abs kv).
Proof.
  intros Hwf. unfold read_kv. pose proof (kv_abs_lookup kv k Hwf) as L.
  destruct (kv !!! kv_hash k) as [|d l] eqn:E.
  - apply spec_read_miss; [by rewrite L|by right].
  - destruct (hlist_find k (d :: l)) eqn:F.
    + by apply spec_read_hit.
    + apply spec_read_miss; [done|by left].
Qed.

(** ** Histories of calls *)

(** Any sequence of calls by the threads of a process, each with the outcome of its
    allocation. *)
Inductive call := CWrite (kmalloc_ok : bool) (k v : Z) | CRead (k : Z).

Definition exec (c : call) (kv : list (list my_data)) : Z * list (list my_data) :=
  match c with
  | CWrite ok k v => write_kv ok k v kv
  | CRead k => (read_kv k kv, kv)
  end.

Fixpoint exec_all (cs : list call) (kv : list (list my_data)) : list (list my_data) :=
  match cs with
  | [] => kv
  | c :: cs' => exec_all cs' (snd (exec c kv))
  end.

(** The value the last successful write of [k] in a history stored: in a history a
    write fails only when its allocation fails and the key is not there yet. *)
Fixpoint last_write (k : Z) (cs : list call) (acc : option Z) : option Z :=
  match cs with
  | [] => acc
  | CWrite ok j v :: cs' =>
      last_write k cs'
        (if j =? k then (if ok then Some v else match acc with Some _ => Some v | None => None end)
         else acc)
  | CRead _ :: cs' => last_write k cs' acc
  end.

Lemma exec_wf c kv : kv_wf kv -> kv_wf (snd (exec c kv)).
Proof.
  intros H. destruct c as [ok k v|k]; simpl; [|done].
  destruct (write_kv ok k v kv) eqn:E. unfold write_kv in E.
  destruct (hlist_assign k v (kv !!! kv_hash k)) eqn:A.
  - injection E as <- <-. apply kv_wf_insert; [done|]. by eapply assign_step.
  - apply assign_None_iff in A. destruct ok; injection E as <- <-; [|done].
    apply kv_wf_insert; [done|]. by eapply add_head_step.
Qed.

Lemma write_abs ok k v kv :
  kv_wf kv ->
  kv_abs (snd (write_kv ok k v kv)) =
  if ok then <[k:=v]> (kv_abs kv)
  else match kv_abs kv !! k with Some _ => <[k:=v]> (kv_abs kv) | None => kv_abs kv end.
Proof.
  intros Hwf. unfold write_kv. rewrite (kv_abs_lookup kv k Hwf).
  destruct (hlist_assign k v (kv !!! kv_hash k)) eqn:A; simpl.
  - rewrite (proj2 (assign_step _ _ _ _ Hwf A)).
    destruct ok; [done|]. destruct (hlist_find k (kv !!! kv_hash k)) eqn:F; [done|].
    apply find_None_iff, (assign_None_iff k v) in F. congruence.
  - apply assign_None_iff in A. destruct ok; simpl.
    + by apply add_head_step.
    + apply find_None_iff in A. by rewrite A.
Qed.

Lemma exec_all_abs k cs kv :
  kv_wf kv -> kv_abs (exec_all cs kv) !! k = last_write k cs (kv_abs kv !! k).
Proof.
  revert kv. induction cs as [|c cs IH]; intros kv Hwf; simpl; [done|].
  rewrite IH by (by apply exec_wf). destruct c as [ok j v|j]; simpl; [|done].
  f_equal. rewrite write_abs by done. destruct (Z.eqb_spec j k) as [->|Hne].
  - destruct ok; [by rewrite lookup_insert_eq|].
    destruct (kv_abs kv !! k) eqn:E; [by rewrite lookup_insert_eq|done].
  - destruct ok; [by rewrite lookup_insert_ne|].
    destruct (kv_abs kv !! j); [by rewrite lookup_insert_ne|done].
Qed.

Lemma exec_all_wf cs kv : kv_wf kv -> kv_wf (exec_all cs kv).
Proof. revert kv. induction cs as [|c cs IH]; intros kv H; simpl; [done|]. by apply IH, exec_wf. Qed.

(** (C2) In every history of calls that starts from the table of a new process,
    [read_kv k] returns the value of the last successful write of [k], and one of the
    two codes -2 and -3 when [k] was never successfully written. *)
Theorem read_returns_last_write k cs :
  match last_write k cs None with
  | Some v => read_kv k (exec_all cs kv_init) = v
  | None => read_kv k (exec_all cs kv_init) = -2 \/ read_kv k (exec_all cs kv_init) = -3
  end.
Proof.
  pose proof (exec_all_wf cs _ kv_init_wf) as Hwf.
  pose proof (exec_all_abs k cs _ kv_init_wf) as Ha.
  rewrite kv_init_abs, lookup_empty in Ha. rewrite <- Ha.
  pose proof (read_kv_spec k _ Hwf) as Hr. inv Hr; simplify_option_eq; naive_solver.
Qed.

(** ** The calls interleaved

    Threads of a process share the table.  A thread's program counter [pc] says where
    in the two functions it is; a step of a thread is one lock operation, one
    iteration of a list loop, or one allocation with the insertion that follows it.
    A bucket's spin lock holds the thread that owns it. *)

Inductive pc :=
| PIdle
| PLock (op : kv_op)                (* before spin_lock *)
| PWScan (k v : Z) (i : nat)        (* write_kv's loop, at the node [i] *)
| PWAlloc (k v : Z)                 (* write_kv after the loop *)
| PRCheck (k : Z)                   (* read_kv's hlist_empty test *)
| PRScan (k : Z) (i : nat)          (* read_kv's loop, at the node [i] *)
| PUnlock (op : kv_op) (r : Z)      (* before spin_unlock, result decided *)
| PRet (op : kv_op) (r : Z).        (* before return *)

Record cstate := CState {
  cs_kv : list (list my_data);
  cs_lock : list (option nat);
  cs_pc : gmap nat pc
}.

Definition op_key (op : kv_op) : Z :=
  match op with OpWrite k _ => k | OpRead k => k end.

Definition pc_entry (op : kv_op) : pc :=
  match op with OpWrite k v => PWScan k v 0 | OpRead k => PRCheck k end.

(** What an observer sees of a step: nothing, a call, the instant a call takes
    effect, or a return. *)
Inductive label :=
| LTau | LCall (t : nat) (op : kv_op) | LEff (t : nat) (op : kv_op) (r : Z)
| LRet (t : nat) (op : kv_op) (r : Z).

Definition set_pc (t : nat) (p : pc) (c : cstate) : cstate :=
  CState (cs_kv c) (cs_lock c) (<[t:=p]> (cs_pc c)).
Definition set_bucket (h : nat) (b : list my_data) (c : cstate) : cstate :=
  CState (<[h:=b]> (cs_kv c)) (cs_lock c) (cs_pc c).
Definition set_lock (h : nat) (o : option nat) (c : cstate) : cstate :=
  CState (cs_kv c) (<[h:=o]> (cs_lock c)) (cs_pc c).

(** The bucket a call works on. *)
Definition bucket (c : cstate) (k : Z) : list my_data := cs_kv c !!! kv_hash k.

Inductive cstep (t : nat) : cstate -> label -> cstate -> Prop :=
| st_call c op :
    cs_pc c !! t = Some PIdle ->
    cstep t c (LCall t op) (set_pc t (PLock op) c)
| st_lock c op :
    cs_pc c !! t = Some (PLock op) ->
    cs_lock c !! kv_hash (op_key op) = Some None ->
    cstep t c LTau (set_pc t (pc_entry op) (set_lock (kv_hash (op_key op)) (Some t) c))
| st_wscan_next c k v i d :
    cs_pc c !! t = Some (PWScan k v i) ->
    bucket c k !! i = Some d -> key d <> k ->
    cstep t c LTau (set_pc t (PWScan k v (S i)) c)
| st_wscan_hit c k v i d :
    cs_pc c !! t = Some (PWScan k v i) ->
    bucket c k !! i = Some d -> key d = k ->
    cstep t c (LEff t (OpWrite k v) 0)
      (set_pc t (PUnlock (OpWrite k v) 0)
        (set_bucket (kv_hash k) (<[i:=MyData (key d) v]> (bucket c k)) c))
| st_wscan_end c k v i :
    cs_pc c !! t = Some (PWScan k v i) ->
    bucket c k !! i = None ->
    cstep t c LTau (set_pc t (PWAlloc k v) c)
| st_walloc_ok c k v :
    cs_pc c !! t = Some (PWAlloc k v) ->
    cstep t c (LEff t (OpWrite k v) 0)
      (set_pc t (PUnlock (OpWrite k v) 0)
        (set_bucket (kv_hash k) (MyData k v :: bucket c k) c))
| st_walloc_fail c k v :
    cs_pc c !! t = Some (PWAlloc k v) ->
    cstep t c (LEff t (OpWrite k v) (- ENOMEM))
      (set_pc t (PUnlock (OpWrite k v) (- ENOMEM)) c)
| st_rcheck_empty c k :
    cs_pc c !! t = Some (PRCheck k) ->
    bucket c k = [] ->
    cstep t c (LEff t (OpRead k) (-3)) (set_pc t (PUnlock (OpRead k) (-3)) c)
| st_rcheck_some c k :
    cs_pc c !! t = Some (PRCheck k) ->
    bucket c k <> [] ->
    cstep t c LTau (set_pc t (PRScan k 0) c)
| st_rscan_next c k i d :
    cs_pc c !! t = Some (PRScan k i) ->
    bucket c k !! i = Some d -> key d <> k ->
    cstep t c LTau (set_pc t (PRScan k (S i)) c)
| st_rscan_hit c k i d :
    cs_pc c !! t = Some (PRScan k i) ->
    bucket c k !! i = Some d -> key d = k ->
    cstep t c (LEff t (OpRead k) (value d)) (set_pc t (PUnlock (OpRead k) (value d)) c)
| st_rscan_end c k i :
    cs_pc c !! t = Some (PRScan k i) ->
    bucket c k !! i = None ->
    cstep t c (LEff t (OpRead k) (-2)) (set_pc t (PUnlock (OpRead k) (-2)) c)
| st_unlock c op r :
    cs_pc c !! t = Some (PUnlock op r) ->
    cstep t c LTau (set_pc t (PRet op r) (set_lock (kv_hash (op_key op)) None c))
| st_ret c op r :
    cs_pc c !! t = Some (PRet op r) ->
    cstep t c (LRet t op r) (set_pc t PIdle c).

(** ** The atomic object the interleaved calls implement *)

(** A thread is outside a call, inside one that has not taken effect, or inside one
    that has, with its result. *)
Inductive status := SIdle | SPending (op : kv_op) | SDone (op : kv_op) (r : Z).

Inductive astep : gmap Z Z * gmap nat status -> label -> gmap Z Z * gmap nat status -> Prop :=
| as_tau a : astep a LTau a
| as_call m s t op :
    s !! t = Some SIdle -> astep (m, s) (LCall t op) (m, <[t:=SPending op]> s)
| as_eff m s t op r m' :
    s !! t = Some (SPending op) -> spec_call m op r m' ->
    astep (m, s) (LEff t op r) (m', <[t:=SDone op r]> s)
| as_ret m s t op r :
    s !! t = Some (SDone op r) -> astep (m, s) (LRet t op r) (m, <[t:=SIdle]> s).

Definition status_of (p : pc) : status :=
  match p with
  | PIdle => SIdle
  | PLock op => SPending op
  | PWScan k v _ | PWAlloc k v => SPending (OpWrite k v)
  | PRCheck k | PRScan k _ => SPending (OpRead k)
  | PUnlock op r | PRet op r => SDone op r
  end.

Definition abs_state (c : cstate) : gmap Z Z * gmap nat status :=
  (kv_abs (cs_kv c), status_of <$> cs_pc c).

(** ** The invariant *)

(** The bucket whose lock a thread holds at a program counter. *)
Definition holds (p : pc) : option nat :=
  match p with
  | PWScan k _ _ | PWAlloc k _ | PRCheck k | PRScan k _ => Some (kv_hash k)
  | PUnlock op _ => Some (kv_hash (op_key op))
  | _ => None
  end.

(** What a thread inside a critical section knows of its bucket [b]. *)
Definition scanned (p : pc) (b : list my_data) : Prop :=
  match p with
  | PWScan k _ i | PRScan k i => k ∉ key <$> take i b
  | PWAlloc k _ => k ∉ key <$> b
  | _ => True
  end.

Record cinv (c : cstate) : Prop := CInv {
  ci_wf : kv_wf (cs_kv c);
  ci_locks : length (cs_lock c) = KV_BUCKETS;
  ci_held : forall t p h, cs_pc c !! t = Some p -> holds p = Some h ->
              cs_lock c !! h = Some (Some t);
  ci_owner : forall t h, cs_lock c !! h = Some (Some t) ->
              exists p, cs_pc c !! t = Some p /\ holds p = Some h;
  ci_scan : forall t p h, cs_pc c !! t = Some p -> holds p = Some h ->
              scanned p (cs_kv c !!! h)
}.

(** The start: a new process, any number of threads outside calls. *)
Definition cinit (threads : gset nat) : cstate :=
  CState kv_init (replicate KV_BUCKETS None) (gset_to_gmap PIdle threads).

(** Executions. *)
Inductive cexec : cstate -> list label -> cstate -> Prop :=
| ce_nil c : cexec c [] c
| ce_cons t c l c' ls c'' : cstep t c l c' -> cexec c' ls c'' -> cexec c (l :: ls) c''.

Inductive aexec : gmap Z Z * gmap nat status -> list label ->
                  gmap Z Z * gmap nat status -> Prop :=
| ae_nil a : aexec a [] a
| ae_cons a l a' ls a'' : astep a l a' -> aexec a' ls a'' -> aexec a (l :: ls) a''.

(** ** Lemmas: the invariant is preserved *)

Lemma holds_lt p h : holds p = Some h -> (h < KV_BUCKETS)%nat.
Proof. destruct p; simpl; intros; simplify_eq; apply kv_hash_lt. Qed.

Lemma inv_set_pc c t p p' :
  cinv c -> cs_pc c !! t = Some p -> holds p' = holds p ->
  (forall h, holds p' = Some h -> scanned p' (cs_kv c !!! h)) ->
  cinv (set_pc t p' c).
Proof.
  intros [Hw Hl Hh Ho Hs] Ht E Hp. split; simpl; [done|done| | |].
  - intros u q h [[<- <-]|[_ Hu]]%lookup_insert_Some Hq; [|by eauto].
    rewrite E in Hq. by eauto.
  - intros u h [q [Hu Hq]]%Ho. destruct (decide (t = u)) as [<-|Hne].
    + exists p'. rewrite lookup_insert_eq. split; [done|]. congruence.
    + exists q. by rewrite lookup_insert_ne.
  - intros u q h [[<- <-]|[_ Hu]]%lookup_insert_Some Hq; eauto.
Qed.

(** Two threads never hold the lock of the same bucket. *)
Lemma held_unique c t t' p p' h :
  cinv c -> cs_pc c !! t = Some p -> cs_pc c !! t' = Some p' ->
  holds p = Some h -> holds p' = Some h -> t = t'.
Proof.
  intros Hi Ht Ht' Hp Hp'.
  pose proof (ci_held c Hi t p h Ht Hp). pose proof (ci_held c Hi t' p' h Ht' Hp').
  congruence.
Qed.

Lemma inv_set_bucket c t p p' k b :
  cinv c -> cs_pc c !! t = Some p -> holds p = Some (kv_hash k) ->
  bucket_wf (kv_hash k) b -> holds p' = Some (kv_hash k) -> scanned p' b ->
  cinv (set_pc t p' (set_bucket (kv_hash k) b c)).
Proof.
  intros Hi Ht Hp Hb Hp' Hs'. pose proof Hi as [Hw Hl Hh Ho Hs].
  split; simpl; [by apply kv_wf_insert|done| | |].
  - intros u q h [[<- <-]|[_ Hu]]%lookup_insert_Some Hq; [|by eauto].
    assert (h = kv_hash k) as -> by congruence. by eauto.
  - intros u h [q [Hu Hq]]%Ho. destruct (decide (t = u)) as [<-|Hne].
    + exists p'. rewrite lookup_insert_eq. split; [done|]. congruence.
    + exists q. by rewrite lookup_insert_ne.
  - intros u q h [[<- <-]|[Hne Hu]]%lookup_insert_Some Hq.
    + assert (h = kv_hash k) as -> by congruence.
      rewrite list_lookup_total_insert_eq; [done|]. rewrite (proj1 Hw). apply kv_hash_lt.
    + rewrite list_lookup_total_insert_ne; [by eauto|]. intros <-.
      apply Hne. by eapply held_unique.
Qed.

Lemma inv_acquire c t op :
  cinv c -> cs_pc c !! t = Some (PLock op) ->
  cs_lock c !! kv_hash (op_key op) = Some None ->
  cinv (set_pc t (pc_entry op) (set_lock (kv_hash (op_key op)) (Some t) c)).
Proof.
  intros [Hw Hl Hh Ho Hs] Ht Hfree.
  assert (holds (pc_entry op) = Some (kv_hash (op_key op))) as He by (by destruct op).
  split; simpl; [done|by rewrite length_insert| | |].
  - intros u q h [[<- <-]|[_ Hu]]%lookup_insert_Some Hq.
    + assert (h = kv_hash (op_key op)) as -> by congruence.
      apply list_lookup_insert_eq. rewrite Hl. apply kv_hash_lt.
    + pose proof (Hh u q h Hu Hq). rewrite list_lookup_insert_ne; [done|congruence].
  - intros u h [(<- & [= <-] & _)|[Hne Hh']]%list_lookup_insert_Some.
    + exists (pc_entry op). by rewrite lookup_insert_eq.
    + destruct (Ho u h Hh') as (q & Hu & Hq). exists q.
      rewrite lookup_insert_ne; [done|]. intros <-. by simplify_eq/=.
  - intros u q h [[<- <-]|[_ Hu]]%lookup_insert_Some Hq; [|by eauto].
    destruct op; simpl; [|done]. apply not_elem_of_nil.
Qed.

Lemma inv_release c t op r :
  cinv c -> cs_pc c !! t = Some (PUnlock op r) ->
  cinv (set_pc t (PRet op r) (set_lock (kv_hash (op_key op)) None c)).
Proof.
  intros Hi Ht. pose proof Hi as [Hw Hl Hh Ho Hs].
  split; simpl; [done|by rewrite length_insert| | |].
  - intros u q h [[<- <-]|[Hne Hu]]%lookup_insert_Some Hq; [done|].
    rewrite list_lookup_insert_ne; [by eauto|]. intros <-. apply Hne.
    by eapply (held_unique c t u (PUnlock op r)).
  - intros u h [(<- & [=] & _)|[Hne Hh']]%list_lookup_insert_Some.
    destruct (Ho u h Hh') as (q & Hu & Hq). exists q.
    rewrite lookup_insert_ne; [done|]. intros <-. by simplify_eq/=.
  - intros u q h [[<- <-]|[Hne Hu]]%lookup_insert_Some Hq; [done|by eauto].
Qed.

(** What a scanning thread knows after one more node. *)
Lemma scanned_next k i b d :
  k ∉ key <$> take i b -> b !! i = Some d -> key d <> k -> k ∉ key <$> take (S i) b.
Proof.
  intros Hk Hi Hne. rewrite (take_S_r _ _ _ Hi), fmap_app, not_elem_of_app.
  split; [done|]. simpl. rewrite list_elem_of_singleton. congruence.
Qed.

Lemma scanned_end k i (b : list my_data) :
  k ∉ key <$> take i b -> b !! i = None -> k ∉ key <$> b.
Proof. intros Hk Hi%lookup_ge_None. by rewrite take_ge in Hk. Qed.

(** In-place assignment at the node the scan stopped at is what the loop of
    [write_kv] computes; the value found there is what [read_kv] reads. *)
Lemma scanned_assign k v i b d :
  k ∉ key <$> take i b -> b !! i = Some d -> key d = k ->
  hlist_assign k v b = Some (<[i:=MyData (key d) v]> b).
Proof.
  revert i. induction b as [|e b IH]; intros i Hk Hi He; [done|].
  destruct i as [|i]; simplify_eq/=; [by rewrite Z.eqb_refl|].
  rewrite not_elem_of_cons in Hk. destruct Hk as [Hne Hk].
  destruct (Z.eqb_spec (key e) (key d)); [congruence|]. by rewrite (IH i).
Qed.

Lemma scanned_find k i b d :
  k ∉ key <$> take i b -> b !! i = Some d -> key d = k -> hlist_find k b = Some (value d).
Proof.
  revert i. induction b as [|e b IH]; intros i Hk Hi He; [done|].
  destruct i as [|i]; simplify_eq/=; [by rewrite Z.eqb_refl|].
  rewrite not_elem_of_cons in Hk. destruct Hk as [Hne Hk].
  destruct (Z.eqb_spec (key e) (key d)); [congruence|]. by apply (IH i).
Qed.

Ltac knows H :=
  match goal with
  | Hi : cinv ?c, Ht : cs_pc ?c !! ?t = Some ?p |- _ =>
      pose proof (ci_scan c Hi t p _ Ht eq_refl) as H; simpl in H
  end.

Lemma cinit_inv threads : cinv (cinit threads).
Proof.
  split; [apply kv_init_wf|apply length_replicate| | |].
  - by intros t p h [_ <-]%lookup_gset_to_gmap_Some Hh.
  - by intros t h [? _]%lookup_replicate.
  - by intros t p h [_ <-]%lookup_gset_to_gmap_Some Hh.
Qed.

Lemma cstep_inv t c l c' : cstep t c l c' -> cinv c -> cinv c'.
Proof.
  intros Hst Hi; inv Hst;
    try (eapply inv_set_pc; [done|eassumption|done|]; intros h Hh; simpl in Hh;
         simplify_eq; simpl; try done; knows K).
  - by apply inv_acquire.
  - by eapply scanned_next.
  - knows K. eapply inv_set_bucket; [done|eassumption|done| |done|done].
    eapply assign_step; [apply Hi|]. by apply scanned_assign.
  - by eapply scanned_end.
  - knows K. eapply inv_set_bucket; [done|eassumption|done| |done|done].
    apply add_head_step; [apply Hi|done].
  - apply not_elem_of_nil.
  - by eapply scanned_next.
  - by apply inv_release.
Qed.

(** ** Simulation *)

Lemma fmap_set_pc t p c : status_of <$> cs_pc (set_pc t p c) = <[t:=status_of p]> (status_of <$> cs_pc c).
Proof. apply fmap_insert. Qed.

(** A step that does not change a thread's abstract status. *)
Lemma abs_same t p p' c :
  cs_pc c !! t = Some p -> status_of p' = status_of p ->
  status_of <$> <[t:=p']> (cs_pc c) = status_of <$> cs_pc c.
Proof.
  intros Ht E. rewrite fmap_insert, E. apply insert_id. by rewrite lookup_fmap, Ht.
Qed.

Lemma abs_status t p c : cs_pc c !! t = Some p -> (status_of <$> cs_pc c) !! t = Some (status_of p).
Proof. intros Ht. by rewrite lookup_fmap, Ht. Qed.

Lemma cstep_sim t c l c' : cstep t c l c' -> cinv c -> astep (abs_state c) l (abs_state c').
Proof.
  intros Hst Hi; pose proof (ci_wf c Hi) as Hw; inv Hst; unfold abs_state; simpl;
    unfold bucket in *;
    try (rewrite (abs_same t _ _ c) by (done || by destruct op); apply as_tau);
    rewrite fmap_insert.
  - apply as_call. by eapply abs_status in H.
  - knows K. apply abs_status in H. apply as_eff; [done|].
    rewrite (proj2 (assign_step _ _ _ _ Hw (scanned_assign _ v _ _ _ K H0 eq_refl))).
    constructor.
  - knows K. apply abs_status in H. apply as_eff; [done|].
    rewrite (proj2 (add_head_step _ _ v Hw K)). constructor.
  - knows K. apply abs_status in H. apply as_eff; [done|]. constructor.
    rewrite kv_abs_lookup by done. by apply find_None_iff.
  - apply abs_status in H. apply as_eff; [done|]. apply spec_read_miss; [|by right].
    rewrite kv_abs_lookup by done. by rewrite H0.
  - knows K. apply abs_status in H. apply as_eff; [done|]. apply spec_read_hit.
    rewrite kv_abs_lookup by done. by eapply scanned_find.
  - knows K. apply abs_status in H. apply as_eff; [done|]. apply spec_read_miss; [|by left].
    rewrite kv_abs_lookup by done. apply find_None_iff. by eapply scanned_end.
  - apply as_ret. by eapply abs_status in H.
Qed.

Lemma cexec_sim c ls c' :
  cexec c ls c' -> cinv c -> cinv c' /\ aexec (abs_state c) ls (abs_state c').
Proof.
  induction 1 as [|t c l c' ls c'' Hs He IH]; intros Hi; [split; [done|constructor]|].
  destruct IH as [Hi' Ha]; [by eapply cstep_inv|].
  split; [done|]. econstructor; [by eapply cstep_sim|done].
Qed.

(** (C1) Linearizability: every execution of the system calls interleaved on any
    threads of a process, one loop iteration at a time, is an execution of the
    atomic map: each call takes effect at one instant between its call and its
    return, with the result it returns. *)
Theorem kv_linearizable threads ls c' :
  cexec (cinit threads) ls c' ->
  aexec (∅, gset_to_gmap SIdle threads) ls (abs_state c').
Proof.
  intros He. apply cexec_sim in He as [_ Ha]; [|apply cinit_inv].
  replace (∅, gset_to_gmap SIdle threads) with (abs_state (cinit threads)); [done|].
  unfold abs_state, cinit; simpl. by rewrite kv_init_abs, fmap_gset_to_gmap.
Qed.

Lemma kv_linearizable_witness :
  aexec (∅, gset_to_gmap SIdle {[0%nat]}) [LCall 0 (OpRead 5); LTau; LEff 0 (OpRead 5) (-3)]
    (∅, {[0%nat := SDone (OpRead 5) (-3)]}).
Proof.
  assert (cexec (cinit {[0%nat]}) [LCall 0 (OpRead 5); LTau; LEff 0 (OpRead 5) (-3)]
    (set_pc 0 (PUnlock (OpRead 5) (-3)) (set_pc 0 (PRCheck 5)
      (set_lock 5 (Some 0%nat) (set_pc 0 (PLock (OpRead 5)) (cinit {[0%nat]})))))) as He.
  { eapply ce_cons; [by apply (st_call 0)|].
    eapply ce_cons; [by apply (st_lock 0 _ (OpRead 5))|].
    eapply ce_cons; [by apply (st_rcheck_empty 0)|constructor]. }
  exact (kv_linearizable {[0%nat]} _ _ He).
Defined.

(** Mutual exclusion: in every reachable state at most one thread is inside a
    critical section of a given bucket. *)
Theorem kv_mutual_exclusion threads ls c t t' p p' h :
  cexec (cinit threads) ls c ->
  cs_pc c !! t = Some p -> cs_pc c !! t' = Some p' ->
  holds p = Some h -> holds p' = Some h -> t = t'.
Proof.
  intros He. apply cexec_sim in He as [Hi _]; [|apply cinit_inv].
  intros Ht Ht'. by eapply held_unique.
Qed.

(** Thread 0 has entered [read_kv(5)] and taken the lock of bucket 5; thread 1 has
    called [write_kv(5, 7)] and waits for it. *)
Definition demo_state : cstate :=
  set_pc 1 (PLock (OpWrite 5 7)) (set_pc 0 (PRCheck 5) (set_lock 5 (Some 0%nat)
    (set_pc 0 (PLock (OpRead 5)) (cinit {[0%nat; 1%nat]})))).

Lemma demo_exec :
  cexec (cinit {[0%nat; 1%nat]}) [LCall 0 (OpRead 5); LTau; LCall 1 (OpWrite 5 7)] demo_state.
Proof.
  eapply ce_cons; [by apply (st_call 0)|].
  eapply ce_cons; [by apply (st_lock 0 _ (OpRead 5))|].
  eapply ce_cons; [by apply (st_call 1)|constructor].
Qed.

Lemma kv_mutual_exclusion_witness :
  cs_pc demo_state !! 0%nat = Some (PRCheck 5) /\ holds (PRCheck 5) = Some 5%nat /\ 0%nat = 0%nat.
Proof.
  split; [reflexivity|]. split; [reflexivity|].
  exact (kv_mutual_exclusion {[0%nat; 1%nat]} _ demo_state 0 0 (PRCheck 5) (PRCheck 5) 5
           demo_exec eq_refl eq_refl eq_refl eq_refl).
Defined.

(** ** Progress *)

(** A thread inside its critical section can always step. *)
Lemma holder_steps c t p h :
  cinv c -> cs_pc c !! t = Some p -> holds p = Some h -> exists l c', cstep t c l c'.
Proof.
  intros Hi Ht Hh. destruct p as [|op|k v i|k v|k|k i|op r|op r]; simplify_eq/=.
  - destruct (bucket c k !! i) as [d|] eqn:E; [destruct (decide (key d = k))|];
      eauto using st_wscan_hit, st_wscan_next, st_wscan_end.
  - eauto using st_walloc_ok.
  - destruct (bucket c k) eqn:E; [eauto using st_rcheck_empty|].
    do 2 eexists. eapply st_rcheck_some; [done|congruence].
  - destruct (bucket c k !! i) as [d|] eqn:E; [destruct (decide (key d = k))|];
      eauto using st_rscan_hit, st_rscan_next, st_rscan_end.
  - eauto using st_unlock.
Qed.

(** The number of steps a thread still has to make in its critical section. *)
Definition section_left (p : pc) (b : list my_data) : nat :=
  match p with
  | PWScan _ _ i => 3 + (length b - i)
  | PWAlloc _ _ => 2
  | PRCheck _ => 3 + length b
  | PRScan _ i => 2 + (length b - i)
  | PUnlock _ _ => 1
  | _ => 0
  end.

Definition left_of (c : cstate) (t : nat) (h : nat) : nat :=
  match cs_pc c !! t with Some p => section_left p (cs_kv c !!! h) | None => 0 end.

Lemma other_keeps_bucket t t' c l c' p h :
  cstep t' c l c' -> cinv c -> t <> t' -> cs_pc c !! t = Some p -> holds p = Some h ->
  cs_pc c' !! t = Some p /\ cs_kv c' !!! h = cs_kv c !!! h.
Proof.
  intros Hst Hi Hne Ht Hh; inv Hst; simpl; (split; [by rewrite lookup_insert_ne|]); try done;
    apply list_lookup_total_insert_ne; intros <-; apply Hne;
    by eapply (held_unique c).
Qed.

Lemma own_step_decreases t c l c' p h :
  cstep t c l c' -> cs_pc c !! t = Some p -> holds p = Some h ->
  (left_of c' t h < left_of c t h)%nat.
Proof.
  intros Hst Ht Hh. unfold left_of. rewrite Ht. inv Hst; simplify_eq/=;
    rewrite lookup_insert_eq; simpl; try lia;
    match goal with H : bucket _ _ !! _ = Some _ |- _ => apply lookup_lt_Some in H end;
    unfold bucket in *; lia.
Qed.

(** (C17) Progress: in every reachable state a thread that waits for a bucket's lock
    either can take it, or the lock belongs to another thread that is inside its
    critical section and can step; each step of the owner brings it closer to the
    release, and no step of any other thread takes it further away. *)
Theorem kv_progress threads ls c t op :
  cexec (cinit threads) ls c -> cs_pc c !! t = Some (PLock op) ->
  (exists l c', cstep t c l c') \/
  (exists u p, t <> u /\ cs_pc c !! u = Some p /\ holds p = Some (kv_hash (op_key op)) /\
     (exists l c', cstep u c l c') /\
     (forall l c', cstep u c l c' ->
        (left_of c' u (kv_hash (op_key op)) < left_of c u (kv_hash (op_key op)))%nat) /\
     (forall w l c', u <> w -> cstep w c l c' ->
        left_of c' u (kv_hash (op_key op)) = left_of c u (kv_hash (op_key op)))).
Proof.
  intros He Ht. apply cexec_sim in He as [Hi _]; [|apply cinit_inv].
  destruct (lookup_lt_is_Some_2 (cs_lock c) (kv_hash (op_key op))) as [[u|] Hu].
  { rewrite (ci_locks c Hi). apply kv_hash_lt. }
  2:{ left. eauto using st_lock. }
  right. destruct (ci_owner c Hi _ _ Hu) as (p & Hp & Hh). exists u, p.
  split_and!; [|done|done|by eapply holder_steps| |].
  - intros ->. by simplify_eq.
  - intros l c' Hst. by eapply own_step_decreases.
  - intros w l c' Hne Hst. unfold left_of.
    destruct (other_keeps_bucket u w c l c' p _ Hst Hi Hne Hp Hh) as [-> ->]. by rewrite Hp.
Qed.

Lemma kv_progress_witness :
  cs_pc demo_state !! 1%nat = Some (PLock (OpWrite 5 7)) /\
  ((exists l c', cstep 1 demo_state l c') \/
   (exists u p, 1%nat <> u /\ cs_pc demo_state !! u = Some p /\ holds p = Some 5%nat /\
     (exists l c', cstep u demo_state l c') /\
     (forall l c', cstep u demo_state l c' -> (left_of c' u 5 < left_of demo_state u 5)%nat) /\
     (forall w l c', u <> w -> cstep w demo_state l c' ->
        left_of c' u 5 = left_of demo_state u 5))).
Proof.
  split; [reflexivity|].
  exact (kv_progress {[0%nat; 1%nat]} _ demo_state 1 (OpWrite 5 7) demo_exec eq_refl).
Defined.

(** ** Tasks: who shares a table (the kv_store part of copy_process, kernel/fork.c) *)

(** The tables by address, and each task's [kv_store] pointer. *)
Record ksys := KSys {
  k_heap : gmap nat (list (list my_data));
  k_task : gmap nat nat
}.

Definition CLONE_THREAD : Z := 0x00010000.

(** [if (clone_flags & CLONE_THREAD) ... else ...] of copy_process: a thread gets the
    pointers of its creator, a process newly allocated arrays with every bucket
    initialised.  [kv_store] and [kv_store_lock] are the results of the two kmalloc
    calls. *)
Definition copy_kv (clone_flags : Z) (kv_store kv_store_lock : option nat)
    (current p : nat) (s : ksys) : Z * ksys :=
  if flag clone_flags CLONE_THREAD then
    match k_task s !! current with
    | Some a => (0, KSys (k_heap s) (<[p:=a]> (k_task s)))
    | None => (0, s)
    end
  else
    match kv_store, kv_store_lock with
    | Some a, Some _ => (0, KSys (<[a:=kv_init]> (k_heap s)) (<[p:=a]> (k_task s)))
    | _, _ => (- ENOMEM, s)
    end.

Definition kv_of (t : nat) (s : ksys) : option (list (list my_data)) :=
  match k_task s !! t with Some a => k_heap s !! a | None => None end.

(** The two system calls made by task [t]; [None] when it has no table. *)
Definition sys_read_kv (t : nat) (k : Z) (s : ksys) : option Z :=
  match kv_of t s with Some kv => Some (read_kv k kv) | None => None end.

Definition sys_write_kv (t : nat) (kmalloc_ok : bool) (k v : Z) (s : ksys)
    : option (Z * ksys) :=
  match k_task s !! t with
  | Some a =>
      match k_heap s !! a with
      | Some kv =>
          let '(r, kv') := write_kv kmalloc_ok k v kv in
          Some (r, KSys (<[a:=kv']> (k_heap s)) (k_task s))
      | None => None
      end
  | None => None
  end.

(** Later activity: writes by any task and clones of new tasks; kmalloc returns
    memory that is not in use. *)
Inductive kstep : ksys -> ksys -> Prop :=
| ks_write t ok k v r s s' : sys_write_kv t ok k v s = Some (r, s') -> kstep s s'
| ks_clone flags a b cur p r s s' :
    is_Some (k_task s !! cur) -> k_task s !! p = None ->
    (forall x, a = Some x -> k_heap s !! x = None) ->
    copy_kv flags a b cur p s = (r, s') -> kstep s s'.

Inductive ksteps : ksys -> ksys -> Prop :=
| kss_refl s : ksteps s s
| kss_step s s' s'' : kstep s s' -> ksteps s' s'' -> ksteps s s''.

Definition ksys_wf (s : ksys) : Prop :=
  (forall t a, k_task s !! t = Some a -> is_Some (k_heap s !! a)) /\
  (forall a kv, k_heap s !! a = Some kv -> kv_wf kv).

Lemma kstep_task s s' t a : kstep s s' -> k_task s !! t = Some a -> k_task s' !! t = Some a.
Proof.
  destruct 1 as [u ok k v r s s' H|flags x y cur p r s s' [c Hc] Hp Hx H]; intros Ht.
  - unfold sys_write_kv in H. destruct (k_task s !! u) as [b|]; [|done].
    destruct (k_heap s !! b); [|done]. destruct (write_kv ok k v l). by simplify_eq.
  - unfold copy_kv in H. rewrite Hc in H.
    destruct (flag flags CLONE_THREAD), x, y; simplify_eq/=; try done;
      (rewrite lookup_insert_ne; [done|congruence]).
Qed.

Lemma ksteps_task s s' t a : ksteps s s' -> k_task s !! t = Some a -> k_task s' !! t = Some a.
Proof. induction 1; eauto using kstep_task. Qed.

Lemma kstep_wf s s' : kstep s s' -> ksys_wf s -> ksys_wf s'.
Proof.
  destruct 1 as [u ok k v r s s' H|flags x y cur p r s s' [c Hc] Hp Hx H]; intros [H1 H2].
  - unfold sys_write_kv in H. destruct (k_task s !! u) as [a|] eqn:Ea; [|done].
    destruct (k_heap s !! a) as [kv|] eqn:Eh; [|done].
    destruct (write_kv ok k v kv) as [r' kv'] eqn:Ew. simplify_eq/=.
    split; simpl.
    + intros t b Hb. destruct (decide (a = b)) as [<-|];
        [rewrite lookup_insert_eq; eauto|rewrite lookup_insert_ne by done; eauto].
    + intros b l [[<- <-]|[_ Hl]]%lookup_insert_Some; [|by eauto].
      replace kv' with (snd (exec (CWrite ok k v) kv)) by (simpl; by rewrite Ew).
      apply exec_wf. by eauto.
  - unfold copy_kv in H. rewrite Hc in H.
    destruct (flag flags CLONE_THREAD), x as [x|], y; simplify_eq/=; try (by split).
    1-4: split; simpl; [|done]; intros t b [[<- <-]|[_ Hb]]%lookup_insert_Some; by eauto.
    split; simpl.
    + intros t b [[<- <-]|[_ Hb]]%lookup_insert_Some; [rewrite lookup_insert_eq; eauto|].
      destruct (decide (x = b)) as [<-|];
        [rewrite lookup_insert_eq; eauto|rewrite lookup_insert_ne by done; eauto].
    + intros b l [[<- <-]|[_ Hl]]%lookup_insert_Some; [apply kv_init_wf|by eauto].
Qed.

(** Threads share one store: after a clone with CLONE_THREAD, at every later
    time, whatever is written by whom, the new thread and its creator read the same
    value (or the same miss code) for every key. *)
Theorem thread_shares_store flags x y parent child s s' s'' k :
  flag flags CLONE_THREAD = true -> is_Some (k_task s !! parent) ->
  copy_kv flags x y parent child s = (0, s') -> ksteps s' s'' ->
  sys_read_kv child k s'' = sys_read_kv parent k s''.
Proof.
  intros Hf [a Ha] Hc Hs. unfold copy_kv in Hc. rewrite Hf, Ha in Hc. simplify_eq/=.
  assert (k_task s'' !! child = Some a /\ k_task s'' !! parent = Some a) as [E1 E2].
  { split; eapply ksteps_task; try done; simpl; [by rewrite lookup_insert_eq|].
    rewrite lookup_insert. by case_decide. }
  unfold sys_read_kv, kv_of. by rewrite E1, E2.
Qed.

Definition ksys1 : ksys := KSys {[1%nat := kv_init]} {[10%nat := 1%nat]}.

(** The clone, then a write by the new thread. *)
Definition ksys2 : ksys := snd (copy_kv 0x10000 None None 10 11 ksys1).
Definition ksys3 : ksys :=
  match sys_write_kv 11 true 5 7 ksys2 with Some (_, s) => s | None => ksys2 end.

Lemma thread_shares_store_witness :
  sys_read_kv 11 5 ksys3 = sys_read_kv 10 5 ksys3 /\ sys_read_kv 10 5 ksys3 = Some 7.
Proof.
  assert (ksteps ksys2 ksys3) as Hs.
  { eapply kss_step; [|apply kss_refl]. eapply (ks_write 11 true 5 7). vm_compute. reflexivity. }
  split; [|vm_compute; reflexivity].
  exact (thread_shares_store 0x10000 None None 10 11 ksys1 ksys2 ksys3 5
           eq_refl (ex_intro _ 1%nat eq_refl) eq_refl Hs).
Defined.

(** A write by a task leaves what a task with another table reads. *)
Lemma write_other t u a b ok k v j s r s' :
  k_task s !! t = Some a -> k_task s !! u = Some b -> a <> b ->
  sys_write_kv t ok k v s = Some (r, s') -> sys_read_kv u j s' = sys_read_kv u j s.
Proof.
  intros Ht Hu Hne H. unfold sys_write_kv in H. rewrite Ht in H.
  destruct (k_heap s !! a); [|done]. destruct (write_kv ok k v l). simplify_eq.
  unfold sys_read_kv, kv_of; simpl. rewrite Hu. by rewrite lookup_insert_ne.
Qed.

(** (C26) Processes are isolated: after a clone without CLONE_THREAD the child's store
    is empty (every read misses), the parent reads what it read before, and at every
    later time a write by either leaves what the other reads. *)
Theorem process_isolated flags x parent child s s' :
  ksys_wf s -> flag flags CLONE_THREAD = false ->
  is_Some (k_task s !! parent) -> parent <> child -> k_heap s !! x = None ->
  copy_kv flags (Some x) (Some 0%nat) parent child s = (0, s') ->
  (forall k, sys_read_kv child k s' = Some (-3) /\
             sys_read_kv parent k s' = sys_read_kv parent k s) /\
  (forall s1 ok k v j r s2, ksteps s' s1 ->
     (sys_write_kv parent ok k v s1 = Some (r, s2) ->
        sys_read_kv child j s2 = sys_read_kv child j s1) /\
     (sys_write_kv child ok k v s1 = Some (r, s2) ->
        sys_read_kv parent j s2 = sys_read_kv parent j s1)).
Proof.
  intros [Hw _] Hf [a Ha] Hne Hx Hc. unfold copy_kv in Hc. rewrite Hf in Hc. simplify_eq/=.
  assert (x <> a) as Hxa by (intros ->; destruct (Hw _ _ Ha); congruence).
  split.
  - intros k. unfold sys_read_kv, kv_of; simpl.
    rewrite lookup_insert_eq, lookup_insert_eq.
    rewrite lookup_insert_ne, Ha, lookup_insert_ne by done. split; [|done].
    unfold read_kv, kv_init. rewrite lookup_total_replicate_2; [done|apply kv_hash_lt].
  - intros s1 ok k v j r s2 Hs.
    assert (k_task s1 !! parent = Some a) by
      (eapply ksteps_task; [done|]; simpl; by rewrite lookup_insert_ne).
    assert (k_task s1 !! child = Some x) by
      (eapply ksteps_task; [done|]; simpl; by rewrite lookup_insert_eq).
    split; intros Hr.
    + by eapply (write_other parent child a x).
    + by eapply (write_other child parent x a).
Qed.

Lemma process_isolated_witness :
  sys_read_kv 11 5 (snd (copy_kv 0 (Some 2%nat) (Some 0%nat) 10 11 ksys1)) = Some (-3).
Proof.
  assert (ksys_wf ksys1) as Hw.
  { split; unfold ksys1; simpl.
    - intros t a [_ <-]%lookup_singleton_Some. eexists. apply lookup_singleton_eq.
    - intros a kv [_ <-]%lookup_singleton_Some. exact kv_init_wf. }
  exact (proj1 (proj1 (process_isolated 0 2 10 11 ksys1 _ Hw eq_refl
    (ex_intro _ 1%nat eq_refl) ltac:(lia) eq_refl eq_refl) 5)).
Defined.

End KvStore.
