(* ===== verification/Acpi.v ===== *)
(** * The custom ACPI table: firmware side and kernel side

    [Firmware]: src/edk2/MyAddAcpiPkg/.../MyAddAcpiApp.c, the UEFI application that
    builds the "MYTB" table, computes its checksum and installs it.
    [Kernel]: src/kvm/linux-5.15.178/drivers/acpi/my_acpi_message.c, the module that
    finds the table and shows its string in sysfs.
    [struct_offsets] is the layout C gives a structure; the last section joins the two
    sides: the kernel shows what the firmware stored. *)

From S2P Require Import Prelude.

(** ** Structure layout *)

(** A C structure as a list of (size, alignment) of its fields; [pack] is the
    [#pragma pack] limit in force. *)
Definition round_up (x a : Z) : Z := (x + a - 1) / a * a.

Fixpoint struct_offsets (pack : Z) (off : Z) (fields : list (Z * Z)) : list Z :=
  match fields with
  | [] => []
  | (size, align) :: fs =>
      let o := round_up off (Z.min pack align) in o :: struct_offsets pack (o + size) fs
  end.

Module Firmware.

(** EFI_ACPI_DESCRIPTION_HEADER: the 36-byte header every ACPI table starts with. *)
Record header := Header {
  Signature : Z;
  Length : Z;
  Revision : Z;
  Checksum : Z;
  OemId : list Z;
  OemTableId : Z;
  OemRevision : Z;
  CreatorId : Z;
  CreatorRevision : Z
}.

(** MY_ADD_ACPI_TABLE (Include/MyAddAcpiTable.h), packed. *)
Record MY_ADD_ACPI_TABLE := MyTable {
  Hdr : header;
  MyData1 : Z;
  MyData2 : Z;
  MyString : list Z
}.

(** The fields' (size, alignment), in order. *)
Definition table_fields : list (Z * Z) := [(36, 1); (4, 4); (8, 8); (64, 1)].

Definition header_bytes (h : header) : list Z :=
  le_bytes 4 (Signature h) ++ le_bytes 4 (Length h) ++ le_bytes 1 (Revision h) ++
  le_bytes 1 (Checksum h) ++ OemId h ++ le_bytes 8 (OemTableId h) ++
  le_bytes 4 (OemRevision h) ++ le_bytes 4 (CreatorId h) ++ le_bytes 4 (CreatorRevision h).

(** The table as memory: [(UINT8* )MyTable]. *)
Definition table_bytes (t : MY_ADD_ACPI_TABLE) : list Z :=
  header_bytes (Hdr t) ++ le_bytes 4 (MyData1 t) ++ le_bytes 8 (MyData2 t) ++ MyString t.

Definition sizeof_table : Z := 112.

Definition SIGNATURE_16 (a b : Z) : Z := Z.lor a (Z.shiftl b 8).
Definition SIGNATURE_32 (a b c d : Z) : Z := Z.lor (SIGNATURE_16 a b) (Z.shiftl (SIGNATURE_16 c d) 16).
Definition SIGNATURE_64 (a b c d e f g h : Z) : Z :=
  Z.lor (SIGNATURE_32 a b c d) (Z.shiftl (SIGNATURE_32 e f g h) 32).

Definition MY_ADD_ACPI_TABLE_SIGNATURE : Z := SIGNATURE_32 77 89 84 66.
Definition MY_ADD_ACPI_TABLE_REVISION : Z := 1.

(** The loop of CalculateChecksum: [Sum = (UINT8)(Sum + Buffer[Index])]. *)
Fixpoint checksum_loop (Sum : Z) (Buffer : list Z) : Z :=
  match Buffer with
  | [] => Sum
  | b :: Buffer' => checksum_loop (wrapu 8 (Sum + b)) Buffer'
  end.

Definition CalculateChecksum (Buffer : list Z) : Z :=
  wrapu 8 (0xFF - checksum_loop 0 Buffer + 1).

(** AllocateZeroPool(sizeof(MY_ADD_ACPI_TABLE)). *)
Definition zero_table : MY_ADD_ACPI_TABLE :=
  MyTable (Header 0 0 0 0 (replicate 6 0) 0 0 0 0) 0 0 (replicate 64 0).

(** CopyMem(dst, src, n) into a block. *)
Definition copy_mem (dst src : list Z) (n : nat) : list Z := take n src ++ drop n dst.

Definition my_text : list Z :=
  bytes_of_string "This is my custom ACPI table for storing information".

(** The assignments of UefiMain between the allocation and the installation. *)
Definition fill_table (t : MY_ADD_ACPI_TABLE) : MY_ADD_ACPI_TABLE :=
  MyTable
    (Header MY_ADD_ACPI_TABLE_SIGNATURE sizeof_table MY_ADD_ACPI_TABLE_REVISION
       0
       (copy_mem (OemId (Hdr t)) (bytes_of_string "MYOEM ") 6)
       (SIGNATURE_64 77 89 65 67 80 73 84 66) 1 (SIGNATURE_32 77 89 73 68) 1)
    0x12345678 0x8877665544332211
    (copy_mem (MyString t) my_text 50).

Definition set_checksum (c : Z) (t : MY_ADD_ACPI_TABLE) : MY_ADD_ACPI_TABLE :=
  let h := Hdr t in
  MyTable (Header (Signature h) (Length h) (Revision h) c (OemId h) (OemTableId h)
             (OemRevision h) (CreatorId h) (CreatorRevision h))
    (MyData1 t) (MyData2 t) (MyString t).

Definition final_table : MY_ADD_ACPI_TABLE :=
  let t := set_checksum 0 (fill_table zero_table) in
  set_checksum (CalculateChecksum (table_bytes t)) t.

(** EFI status codes: an error has the top bit set. *)
Definition EFI_SUCCESS : Z := 0.
Definition EFI_OUT_OF_RESOURCES : Z := 0x8000000000000009.
Definition EFI_ERROR (status : Z) : bool := 0x8000000000000000 <=? status.

(** What the application does to the world, in order. *)
Inductive event :=
| EvLocateProtocol
| EvAllocate (size : Z)
| EvInstall (table : list Z) (size : Z)
| EvFreePool.

#[global] Instance event_eq_dec : EqDecision event.
Proof. solve_decision. Defined.

(** UefiMain; the firmware's answers are parameters: the statuses of LocateProtocol
    and InstallAcpiTable, and whether the pool allocation succeeds. *)
Definition UefiMain (locate_status : Z) (alloc_ok : bool)
    (InstallAcpiTable : list Z -> Z -> Z) : Z * list event :=
  if EFI_ERROR locate_status then (locate_status, [EvLocateProtocol])
  else if negb alloc_ok then
    (EFI_OUT_OF_RESOURCES, [EvLocateProtocol; EvAllocate sizeof_table])
  else
    let t := final_table in
    let evs := [EvLocateProtocol; EvAllocate sizeof_table;
                EvInstall (table_bytes t) (Length (Hdr t))] in
    let status := InstallAcpiTable (table_bytes t) (Length (Hdr t)) in
    if EFI_ERROR status then (status, evs ++ [EvFreePool])
    else (EFI_SUCCESS, evs ++ [EvFreePool]).

End Firmware.

Module Kernel.

Definition PAGE_SIZE : nat := 4096.

(** [struct my_acpi_table]: not packed here, but the ACPI header type it starts with
    is a packed 36-byte structure. *)
Definition my_acpi_table_fields : list (Z * Z) := [(36, 1); (4, 4); (8, 8); (64, 1)].
Definition my_string_offset : nat :=
  Z.to_nat (nth 3 (struct_offsets 16 0 my_acpi_table_fields) 0).

(** strnlen on mapped memory that ends with the list: [None] when it reads past it. *)
Fixpoint strnlen_mem (l : list Z) (n : nat) : option nat :=
  match n, l with
  | O, _ => Some O
  | S _, [] => None
  | S n', b :: l' => if b =? 0 then Some O else S <$> strnlen_mem l' n'
  end.

(** mytb_show: [table] is the memory of the "MYTB" table acpi_get_table found, [None]
    when it failed; [buf] is the page sysfs gives.  The result is [None] for a read
    outside the table's memory. *)
Definition mytb_show (table : option (list Z)) (buf : list Z) : option (Z * list Z) :=
  match table with
  | None => Some (- ENODEV, buf)
  | Some mem =>
      let my_string := drop my_string_offset mem in
      match strnlen_mem my_string 64 with
      | None => None
      | Some len =>
          let buf1 := if (0 <? len)%nat then take len my_string ++ drop len buf else buf in
          let buf2 := if (len <? PAGE_SIZE)%nat then <[len:=0]> buf1 else buf1 in
          Some (Z.of_nat len, buf2)
      end
  end.

(** The module's state: the directory /sys/kernel/mytb, with its reference count, and
    the file in it. *)
Record mytb_state := MytbState { mytb_kobj : option Z; mytb_file : bool }.

(** kobject_put drops a reference and destroys the directory, with its files, at zero. *)
Definition kobject_put (st : mytb_state) : mytb_state :=
  match mytb_kobj st with
  | Some n => if n <=? 1 then MytbState None false else MytbState (Some (n - 1)) (mytb_file st)
  | None => st
  end.

(** acpi_mytb_init: [table_found] is the success of acpi_get_table, [kobj_ok] that of
    kobject_create_and_add, [sysfs_ret] the result of sysfs_create_file. *)
Definition acpi_mytb_init (table_found kobj_ok : bool) (sysfs_ret : Z) (st : mytb_state)
    : Z * mytb_state :=
  if negb table_found then (- ENODEV, st)
  else if negb kobj_ok then (- ENOMEM, MytbState None (mytb_file st))
  else
    let st1 := MytbState (Some 1) (mytb_file st) in
    if negb (sysfs_ret =? 0) then (sysfs_ret, kobject_put st1)
    else (0, MytbState (Some 1) true).

Definition acpi_mytb_exit (st : mytb_state) : mytb_state := kobject_put st.

End Kernel.

(** ** Lemmas *)

Definition byte_sum (l : list Z) : Z := foldr Z.add 0 l.

Lemma byte_sum_app l1 l2 : byte_sum (l1 ++ l2) = byte_sum l1 + byte_sum l2.
Proof. induction l1 as [|b l IH]; simpl; [done|]. lia. Qed.

Lemma byte_sum_cons b l : byte_sum (b :: l) = b + byte_sum l.
Proof. reflexivity. Qed.

Lemma checksum_loop_sum s l :
  in_u 8 s -> Firmware.checksum_loop s l = (s + byte_sum l) mod 256.
Proof.
  revert s. induction l as [|b l IH]; intros s Hs; simpl.
  - rewrite Z.add_0_r. symmetry. by apply Z.mod_small.
  - rewrite IH by (apply wrapu_range; lia). unfold wrapu. change (2 ^ 8) with 256.
    rewrite Zplus_mod_idemp_l. f_equal. lia.
Qed.

Lemma checksum_fixes pre post :
  byte_sum (pre ++ Firmware.CalculateChecksum (pre ++ [0] ++ post) :: post) mod 256 = 0.
Proof.
  unfold Firmware.CalculateChecksum. rewrite checksum_loop_sum by (split; lia).
  rewrite byte_sum_app. simpl. rewrite byte_sum_app. simpl.
  unfold wrapu. change (2 ^ 8) with 256.
  set (a := byte_sum pre). set (b := byte_sum post).
  pose proof (Z.div_mod (0 + (a + (0 + b))) 256).
  pose proof (Z.div_mod (255 - (0 + (a + (0 + b))) mod 256 + 1) 256).
  apply Z.mod_divide; [lia|].
  exists ((0 + (a + (0 + b))) / 256 + 1 - (255 - (0 + (a + (0 + b))) mod 256 + 1) / 256). lia.
Qed.

(** A table is well formed when its arrays have the sizes the structure gives them. *)
Definition table_wf (t : Firmware.MY_ADD_ACPI_TABLE) : Prop :=
  length (Firmware.OemId (Firmware.Hdr t)) = 6%nat /\ length (Firmware.MyString t) = 64%nat.

(** The bytes of a table before and after its checksum byte. *)
Lemma table_bytes_split t c :
  0 <= c < 256 ->
  let h := Firmware.Hdr t in
  Firmware.table_bytes (Firmware.set_checksum c t) =
  (le_bytes 4 (Firmware.Signature h) ++ le_bytes 4 (Firmware.Length h) ++
   le_bytes 1 (Firmware.Revision h)) ++
  c :: (Firmware.OemId h ++ le_bytes 8 (Firmware.OemTableId h) ++
   le_bytes 4 (Firmware.OemRevision h) ++ le_bytes 4 (Firmware.CreatorId h) ++
   le_bytes 4 (Firmware.CreatorRevision h)) ++
  le_bytes 4 (Firmware.MyData1 t) ++ le_bytes 8 (Firmware.MyData2 t) ++ Firmware.MyString t.
Proof.
  intros Hc h. unfold Firmware.table_bytes, Firmware.header_bytes, Firmware.set_checksum.
  simpl. rewrite (Z.mod_small c 256) by lia. fold h. by rewrite <- !app_assoc.
Qed.

(** Checksum: setting the header's checksum byte of any table to
    CalculateChecksum of the table with a zero checksum makes the bytes of the whole
    table sum to zero modulo 256, which is what ACPI requires. *)
Theorem checksum_valid t :
  let t0 := Firmware.set_checksum 0 t in
  byte_sum (Firmware.table_bytes
    (Firmware.set_checksum (Firmware.CalculateChecksum (Firmware.table_bytes t0)) t0)) mod 256 = 0.
Proof.
  intros t0. assert (forall l, 0 <= Firmware.CalculateChecksum l < 256) as Hc.
  { intros l. apply (wrapu_range 8). lia. }
  rewrite (table_bytes_split t0) by apply Hc. subst t0.
  rewrite (table_bytes_split t 0) by lia. apply checksum_fixes.
Qed.

Lemma final_table_ok :
  Firmware.Length (Firmware.Hdr Firmware.final_table) = Firmware.sizeof_table /\
  Z.of_nat (length (Firmware.table_bytes Firmware.final_table)) = Firmware.sizeof_table /\
  take 4 (Firmware.table_bytes Firmware.final_table) = bytes_of_string "MYTB" /\
  byte_sum (Firmware.table_bytes Firmware.final_table) mod 256 = 0.
Proof. vm_compute. by split_and!. Qed.

(** (C33) UefiMain on every path: the pool it allocated is freed exactly once; the
    table it hands to InstallAcpiTable, if it gets that far, has the length its header
    says (112 bytes, the size argument too), starts with "MYTB" and sums to zero
    modulo 256; and the result is the first failing step's status, or success. *)
Theorem UefiMain_spec locate_status alloc_ok install :
  let '(status, evs) := Firmware.UefiMain locate_status alloc_ok install in
  (length (filter (fun e => e = Firmware.EvFreePool) evs) =
     if negb (Firmware.EFI_ERROR locate_status) && alloc_ok then 1 else 0)%nat /\
  (forall b n, Firmware.EvInstall b n ∈ evs ->
     n = Z.of_nat (length b) /\ n = Firmware.sizeof_table /\
     take 4 b = bytes_of_string "MYTB" /\ byte_sum b mod 256 = 0) /\
  status = (if Firmware.EFI_ERROR locate_status then locate_status
            else if negb alloc_ok then Firmware.EFI_OUT_OF_RESOURCES
            else let st := install (Firmware.table_bytes Firmware.final_table)
                             Firmware.sizeof_table in
                 if Firmware.EFI_ERROR st then st else Firmware.EFI_SUCCESS).
Proof.
  unfold Firmware.UefiMain.
  destruct (Firmware.EFI_ERROR locate_status); [by split_and!; [|set_solver|]|].
  destruct alloc_ok; cbn [negb andb]; [|by split_and!; [|set_solver|]].
  destruct final_table_ok as (Hl & Hn & Hs & Hc).
  rewrite Hl. clear Hl. revert Hn Hs Hc.
  generalize (Firmware.table_bytes Firmware.final_table). intros tb Hn Hs Hc.
  destruct (Firmware.EFI_ERROR (install _ _)); (split_and!; [done| |done]);
    intros b n Hin; simpl in Hin;
    assert (b = tb /\ n = Firmware.sizeof_table) as [-> ->] by set_solver; by rewrite Hn.
Qed.

(** ** The kernel shows what the firmware stored *)

Lemma strnlen_mem_spec l n :
  (n <= length l)%nat -> Kernel.strnlen_mem l n = Some (strnlen l n).
Proof.
  revert l. induction n as [|n IH]; intros [|b l] H; simpl in *; try done; [lia|].
  destruct (b =? 0); [done|]. by rewrite IH by lia.
Qed.

Lemma my_string_at t :
  table_wf t -> drop Kernel.my_string_offset (Firmware.table_bytes t) = Firmware.MyString t.
Proof.
  intros [H1 H2]. unfold Firmware.table_bytes, Firmware.header_bytes. rewrite <- !app_assoc.
  rewrite !app_assoc. apply drop_app_length'.
  rewrite !length_app, !length_le_bytes, H1. reflexivity.
Qed.

Lemma mytb_show_general t buf :
  table_wf t -> length buf = Kernel.PAGE_SIZE ->
  let len := strnlen (Firmware.MyString t) 64 in
  Kernel.mytb_show (Some (Firmware.table_bytes t)) buf =
  Some (Z.of_nat len, take len (Firmware.MyString t) ++ [0] ++ drop (S len) buf).
Proof.
  intros Hwf Hbuf len. unfold Kernel.mytb_show. rewrite my_string_at by done.
  destruct Hwf as [_ Hs]. rewrite strnlen_mem_spec by lia. fold len.
  assert (len <= 64)%nat by apply strnlen_le.
  destruct (Nat.ltb_spec len Kernel.PAGE_SIZE) as [_|?]; [|unfold Kernel.PAGE_SIZE in *; lia].
  do 2 f_equal.
  assert (len < length buf)%nat by (unfold Kernel.PAGE_SIZE in *; lia).
  assert (drop len buf = buf !!! len :: drop (S len) buf) as E.
  { apply drop_S. by apply list_lookup_lookup_total_lt. }
  destruct (Nat.ltb_spec 0 len) as [Hp|Hp].
  - rewrite E. rewrite insert_app_r_alt by (rewrite length_take; lia).
    rewrite length_take, Nat.min_l by lia. by rewrite Nat.sub_diag.
  - assert (len = 0)%nat as -> by lia. destruct buf; [simpl in *; lia|done].
Qed.

(** (C4) Round trip: for every table the firmware can store (arrays of their declared
    sizes), mytb_show finds the string at the offset the firmware put it, although one
    structure is packed and the other is not, and returns its length up to the first
    NUL (at most 64) with exactly those bytes and a NUL at the start of the page, the
    rest of the page untouched. *)
Theorem mytb_show_roundtrip t buf :
  table_wf t -> length buf = Kernel.PAGE_SIZE ->
  let len := strnlen (Firmware.MyString t) 64 in
  Kernel.mytb_show (Some (Firmware.table_bytes t)) buf =
  Some (Z.of_nat len, take len (Firmware.MyString t) ++ [0] ++ drop (S len) buf).
Proof. apply mytb_show_general. Qed.

Lemma mytb_show_roundtrip_witness :
  let buf := replicate Kernel.PAGE_SIZE 7 in
  table_wf Firmware.final_table /\
  Kernel.mytb_show (Some (Firmware.table_bytes Firmware.final_table)) buf =
  Some (50, bytes_of_string "This is my custom ACPI table for storing informati" ++
            [0] ++ drop 51 buf).
Proof.
  split; [by split|].
  refine (mytb_show_roundtrip Firmware.final_table (replicate Kernel.PAGE_SIZE 7) _ _);
    [by split|vm_compute; reflexivity].
Defined.

(** The string the firmware installs is not the text of its source: CopyMem is
    given the length 50 and the text has 52 characters, so the kernel shows it without
    its last two. *)
Theorem firmware_text_truncated buf :
  length buf = Kernel.PAGE_SIZE ->
  exists buf', Kernel.mytb_show (Some (Firmware.table_bytes Firmware.final_table)) buf =
               Some (50, buf') /\
  take 50 buf' = take 50 Firmware.my_text /\ length Firmware.my_text = 52%nat.
Proof.
  intros Hb. eexists. split; [apply mytb_show_general; [by split|done]|].
  split; [|done]. by rewrite take_app_le.
Qed.

(** Loading the module either succeeds, with the directory and its file there,
    or fails and leaves neither behind; unloading after a success removes both. *)
Theorem mytb_lifecycle table_found kobj_ok sysfs_ret :
  let '(r, st) := Kernel.acpi_mytb_init table_found kobj_ok sysfs_ret
                    (Kernel.MytbState None false) in
  (r = 0 -> st = Kernel.MytbState (Some 1) true /\
            Kernel.acpi_mytb_exit st = Kernel.MytbState None false) /\
  (r <> 0 -> st = Kernel.MytbState None false) /\
  (r = 0 <-> table_found = true /\ kobj_ok = true /\ sysfs_ret = 0).
Proof.
  unfold Kernel.acpi_mytb_init. destruct table_found; simpl; [|naive_solver].
  destruct kobj_ok; simpl; [|naive_solver].
  destruct (Z.eqb_spec sysfs_ret 0); simpl; naive_solver.
Qed.

Lemma firmware_text_truncated_witness :
  exists buf', Kernel.mytb_show (Some (Firmware.table_bytes Firmware.final_table))
                 (replicate Kernel.PAGE_SIZE 0) = Some (50, buf') /\
  take 50 buf' = take 50 Firmware.my_text /\ length Firmware.my_text = 52%nat.
Proof. apply firmware_text_truncated. vm_compute. reflexivity. Defined.
