(* ===== verification/AcpiDump.v ===== *)
(** * The ACPI inspection tool (src/edk2/MyAcpiPkg/MyAcpi.c)

    The tool walks the configuration table to the ACPI root pointer, prints the
    tables the XSDT lists, overwrites two of them and prints again.  Memory is a byte
    function; what the tool prints is a list of [out]; PrintHeader follows the
    pointers of a FADT and is defined with fuel. *)

From S2P Require Import Prelude Acpi.

Module AcpiDump.

Definition mem := Z -> Z.

Definition read (m : mem) (a : Z) (n : nat) : list Z := m <$> seqZ a (Z.of_nat n).
Definition read_le (m : mem) (a : Z) (n : nat) : Z := le_value (read m a n).

(** Field offsets of the structures of the ACPI specification the tool uses. *)
Definition RSDP_Checksum := 8.
Definition RSDP_OemId := 9.
Definition RSDP_Length := 20.
Definition RSDP_XsdtAddress := 24.
Definition HDR_Length := 4.
Definition HDR_Checksum := 9.
Definition HDR_OemId := 10.
Definition sizeof_header : Z := 36.
Definition FADT_FirmwareCtrl := 36.
Definition FADT_Dsdt := 40.
Definition FADT_XFirmwareCtrl := 132.
Definition FADT_XDsdt := 140.
Definition FACP_SIGNATURE : Z := 0x50434146.

Definition hdr_length (m : mem) (t : Z) : Z := read_le m (t + HDR_Length) 4.

(** What is printed. *)
Inductive out :=
| OFound | ORsdp (sig : list Z) (len : Z) (oem : list Z) (checksum : Z)
| OTitle (sig : list Z)
| OHeader (addr len : Z) (oem : list Z) (checksum : Z)
| ONotPresent (what : string)
| OChanging (index : Z)
| OChangingTable (index : Z) (sig : list Z)
| OBye.

(** [head->Signature >> (i * 8) & 0xff] for i < n *)
Definition sig_chars (sig : Z) (n : nat) : list Z :=
  (fun i => Z.land (Z.shiftr sig (i * 8)) 0xff) <$> seqZ 0 (Z.of_nat n).

(** VOID PrintHeader(head, isRoot); [None] when the fuel runs out. *)
Fixpoint PrintHeader (fuel : nat) (m : mem) (head : Z) (isRoot : bool) : option (list out) :=
  match fuel with
  | O => None
  | S fuel' =>
      let sig := read_le m head 4 in
      let title := if isRoot then [] else [OTitle (sig_chars sig 4)] in
      let body := [OHeader head (hdr_length m head) (read m (head + HDR_OemId) 6)
                     (read_le m (head + HDR_Checksum) 1)] in
      if sig =? FACP_SIGNATURE then
        let follow what addr :=
          if addr =? 0 then Some [ONotPresent what] else PrintHeader fuel' m addr false in
        o1 ← follow "Firmware Control" (read_le m (head + FADT_FirmwareCtrl) 4);
        o2 ← follow "DSDT" (read_le m (head + FADT_Dsdt) 4);
        o3 ← follow "X Firmware Control" (read_le m (head + FADT_XFirmwareCtrl) 8);
        o4 ← follow "X DSDT" (read_le m (head + FADT_XDsdt) 8);
        Some (title ++ body ++ o1 ++ o2 ++ o3 ++ o4)
      else Some (title ++ body)
  end.

(** The configuration table: (whether the GUID is one of the two ACPI ones, the
    VendorTable address).  The loops stop at the first ACPI entry. *)
Fixpoint find_acpi (config : list (bool * Z)) : option Z :=
  match config with
  | [] => None
  | (is_acpi, root) :: config' => if is_acpi then Some root else find_acpi config'
  end.

Definition xsdt_of (m : mem) (root : Z) : Z := read_le m (root + RSDP_XsdtAddress) 8.

(** [((UINT64 * )(Xsdt + 1))[i]] *)
Definition xsdt_entry (m : mem) (xsdt i : Z) : Z := read_le m (xsdt + sizeof_header + 8 * i) 8.

(** [(Xsdt->Length - sizeof(EFI_ACPI_DESCRIPTION_HEADER)) / sizeof(UINT64)], unsigned. *)
Definition entry_count (m : mem) (xsdt : Z) : Z :=
  wrapu 64 (hdr_length m xsdt - sizeof_header) / 8.

Fixpoint print_tables (fuel : nat) (m : mem) (addrs : list Z) : option (list out) :=
  match addrs with
  | [] => Some []
  | a :: addrs' =>
      o ← PrintHeader fuel m a false; os ← print_tables fuel m addrs'; Some (o ++ os)
  end.

Definition PrintAllACPITables (fuel : nat) (config : list (bool * Z)) (m : mem)
    : option (list out) :=
  match find_acpi config with
  | None => Some []
  | Some root =>
      let xsdt := xsdt_of m root in
      o ← PrintHeader fuel m xsdt false;
      os ← print_tables fuel m (xsdt_entry m xsdt <$> seqZ 0 (entry_count m xsdt));
      Some ([OFound; ORsdp (sig_chars (read_le m root 8) 8) (read_le m (root + RSDP_Length) 4)
               (read m (root + RSDP_OemId) 6) (read_le m (root + RSDP_Checksum) 1)] ++ o ++ os)
  end.

(** CopyMem(dst, src, n): the source is read as it was before. *)
Definition CopyMem (m : mem) (dst src n : Z) : mem :=
  fun a => if (dst <=? a) && (a <? dst + n) then m (src + (a - dst)) else m a.

Definition write8 (m : mem) (a v : Z) : mem := fun b => if b =? a then wrapu 8 v else m b.

Section Change.
(** BaseLib's CalculateCheckSum8(Buffer, Length). *)
Context (CalculateCheckSum8 : list Z -> Z).

(** VOID ChangeACPITable(index, newTable) *)
Definition ChangeACPITable (config : list (bool * Z)) (index newTable : Z) (m : mem)
    : list out * mem :=
  match find_acpi config with
  | None => ([OChanging index], m)
  | Some root =>
      let table := xsdt_entry m (xsdt_of m root) index in
      let printed := [OChanging index; OFound; OChangingTable index (sig_chars (read_le m table 4) 4)] in
      let m1 := CopyMem m table newTable (hdr_length m table) in
      let m2 := write8 m1 (table + HDR_Checksum) 0 in
      let table' := xsdt_entry m2 (xsdt_of m root) index in
      let sum := CalculateCheckSum8 (read m2 table' (Z.to_nat (hdr_length m2 table))) in
      (printed, write8 m2 (table + HDR_Checksum) sum)
  end.

(** UefiMain of MyAcpi.c, with the local variable [emptyTable = {0}] at address [emptyTable]. *)
Definition UefiMain_dump (fuel : nat) (config : list (bool * Z)) (emptyTable : Z) (m : mem)
    : option (list out * mem) :=
  o1 ← PrintAllACPITables fuel config m;
  let m0 : mem := fun a => if (emptyTable <=? a) && (a <? emptyTable + sizeof_header)
                           then 0 else m a in
  let '(p1, m1) := ChangeACPITable config 1 emptyTable m0 in
  let '(p2, m2) := ChangeACPITable config 2 emptyTable m1 in
  o2 ← PrintAllACPITables fuel config m2;
  Some (o1 ++ p1 ++ p2 ++ o2 ++ [OBye], m2).
End Change.

(** ** Lemmas *)

Lemma length_read m a n : length (read m a n) = n.
Proof. unfold read. rewrite length_fmap, length_seqZ. lia. Qed.

Lemma read_ext m m' a n :
  (forall b, a <= b < a + Z.of_nat n -> m b = m' b) -> read m a n = read m' a n.
Proof.
  intros H. unfold read. apply list_fmap_ext. intros i b Hb.
  apply H. apply lookup_seqZ in Hb. lia.
Qed.

Lemma read_split m a n i :
  (i < n)%nat ->
  read m a n = read m a i ++ m (a + Z.of_nat i) :: read m (a + Z.of_nat i + 1) (n - i - 1).
Proof.
  intros Hi. unfold read.
  replace (Z.of_nat n) with (Z.of_nat i + Z.of_nat (n - i)) by lia.
  rewrite seqZ_app, fmap_app by lia. f_equal.
  rewrite seqZ_cons by lia. simpl. do 3 f_equal; lia.
Qed.

Lemma write8_eq m a v : write8 m a v a = wrapu 8 v.
Proof. unfold write8. by rewrite Z.eqb_refl. Qed.
Lemma write8_ne m a v b : b <> a -> write8 m a v b = m b.
Proof. intros. unfold write8. by rewrite (proj2 (Z.eqb_neq b a)). Qed.

Lemma CopyMem_in m dst src n a :
  dst <= a < dst + n -> CopyMem m dst src n a = m (src + (a - dst)).
Proof. intros. unfold CopyMem. by rewrite (proj2 (Z.leb_le _ _)), (proj2 (Z.ltb_lt _ _)) by lia. Qed.
Lemma CopyMem_out m dst src n a :
  ~ (dst <= a < dst + n) -> CopyMem m dst src n a = m a.
Proof.
  intros. unfold CopyMem. destruct (Z.leb_spec dst a), (Z.ltb_spec a (dst + n)); simpl; done || lia.
Qed.

Lemma byte_sum_wrap l1 l2 x :
  byte_sum (l1 ++ wrapu 8 x :: l2) mod 256 = byte_sum (l1 ++ x :: l2) mod 256.
Proof.
  rewrite !byte_sum_app. simpl. unfold wrapu. change (2 ^ 8) with 256.
  rewrite (Z.add_comm (x mod 256)), (Z.add_comm x), !Z.add_assoc.
  apply Zplus_mod_idemp_r.
Qed.

(** PrintHeader on a table that is not a FADT stops at once. *)
Lemma PrintHeader_leaf fuel m head isRoot :
  read_le m head 4 <> FACP_SIGNATURE -> is_Some (PrintHeader (S fuel) m head isRoot).
Proof.
  intros H. simpl. rewrite (proj2 (Z.eqb_neq _ _) H). eauto.
Qed.

(** The four pointers of a FADT. *)
Definition fadt_targets (m : mem) (head : Z) : list Z :=
  [read_le m (head + FADT_FirmwareCtrl) 4; read_le m (head + FADT_Dsdt) 4;
   read_le m (head + FADT_XFirmwareCtrl) 8; read_le m (head + FADT_XDsdt) 8].

(** A header whose printing needs at most one level of recursion: a FADT's non-null
    pointers do not lead to a FADT again. *)
Definition shallow (m : mem) (head : Z) : Prop :=
  read_le m head 4 = FACP_SIGNATURE ->
  forall a, a ∈ fadt_targets m head -> a <> 0 -> read_le m a 4 <> FACP_SIGNATURE.

Lemma PrintHeader_shallow fuel m head isRoot :
  shallow m head -> is_Some (PrintHeader (S (S fuel)) m head isRoot).
Proof.
  intros Hs. destruct (decide (read_le m head 4 = FACP_SIGNATURE)) as [E|];
    [|by apply PrintHeader_leaf].
  specialize (Hs E).
  assert (forall what a, a ∈ fadt_targets m head ->
    is_Some (if a =? 0 then Some [ONotPresent what] else PrintHeader (S fuel) m a false)) as F.
  { intros what a Ha. destruct (Z.eqb_spec a 0); [eauto|]. by apply PrintHeader_leaf, Hs. }
  unfold fadt_targets in F. change (S (S fuel)) with (S (1 + fuel)). simpl in F |- *.
  rewrite E, Z.eqb_refl.
  destruct (F "Firmware Control" (read_le m (head + FADT_FirmwareCtrl) 4)) as [? ->]; [set_solver|].
  destruct (F "DSDT" (read_le m (head + FADT_Dsdt) 4)) as [? ->]; [set_solver|].
  destruct (F "X Firmware Control" (read_le m (head + FADT_XFirmwareCtrl) 8)) as [? ->]; [set_solver|].
  destruct (F "X DSDT" (read_le m (head + FADT_XDsdt) 8)) as [? ->]; [set_solver|]. simpl. eauto.
Qed.

Lemma print_tables_shallow fuel m addrs :
  Forall (shallow m) addrs -> is_Some (print_tables (S (S fuel)) m addrs).
Proof.
  induction 1 as [|a addrs Ha _ [os Hos]]; [simpl; eauto|].
  destruct (PrintHeader_shallow fuel m a false Ha) as [o Ho].
  cbn [print_tables]. rewrite Ho, Hos. simpl. eauto.
Qed.

(** Termination: when no FADT the XSDT lists points, directly, to another FADT
    (DSDT and FACS never are), the listing of all tables completes; two levels of
    recursion are enough whatever the number of tables. *)
Theorem PrintAllACPITables_terminates fuel config m :
  (forall root, find_acpi config = Some root ->
     shallow m (xsdt_of m root) /\
     Forall (shallow m) (xsdt_entry m (xsdt_of m root) <$> seqZ 0 (entry_count m (xsdt_of m root)))) ->
  is_Some (PrintAllACPITables (S (S fuel)) config m).
Proof.
  intros H. unfold PrintAllACPITables. destruct (find_acpi config) as [root|]; [|eauto].
  destruct (H root eq_refl) as [Hx He].
  destruct (PrintHeader_shallow fuel m _ false Hx) as [o Ho].
  destruct (print_tables_shallow fuel m _ He) as [os Hos].
  rewrite Ho. simpl. rewrite Hos. simpl. eauto.
Qed.

Lemma PrintAllACPITables_terminates_witness :
  is_Some (PrintAllACPITables 2 [(false, 5); (true, 100)] (fun _ => 1)).
Proof.
  apply (PrintAllACPITables_terminates 0). intros root _. split; [|apply Forall_forall];
    intros; intros E; vm_compute in E; discriminate E.
Defined.

Section ChangeSpec.
Context (CalculateCheckSum8 : list Z -> Z).
Hypothesis checksum8_ok : forall l, (byte_sum l + CalculateCheckSum8 l) mod 256 = 0.

(** ChangeACPITable on a table of at least a header's length that does not
    overlap the XSDT slot pointing to it: nothing outside the table changes; every byte
    of the table but the checksum becomes the byte at the same offset from newTable,
    over the OLD length of the table, also past the end of the 36-byte header that
    newTable points to; and the new checksum makes the table valid over its NEW
    length. *)
Theorem ChangeACPITable_spec config root index newTable m :
  find_acpi config = Some root ->
  let slot := xsdt_of m root + sizeof_header + 8 * index in
  let table := xsdt_entry m (xsdt_of m root) index in
  let len := hdr_length m table in
  sizeof_header <= len ->
  (slot + 8 <= table \/ table + len <= slot) ->
  let m' := snd (ChangeACPITable CalculateCheckSum8 config index newTable m) in
  (forall a, ~ (table <= a < table + len) -> m' a = m a) /\
  (forall i, 0 <= i < len -> i <> HDR_Checksum -> m' (table + i) = m (newTable + i)) /\
  (HDR_Checksum < hdr_length m' table ->
   byte_sum (read m' table (Z.to_nat (hdr_length m' table))) mod 256 = 0).
Proof.
  intros Hf slot table len Hlen Hsep. unfold ChangeACPITable. rewrite Hf. fold table.
  cbn [snd]. fold len. unfold sizeof_header, HDR_Checksum in *.
  set (m2 := write8 (CopyMem m table newTable len) (table + 9) 0).
  assert (xsdt_entry m2 (xsdt_of m root) index = table) as ->.
  { unfold xsdt_entry, read_le, table, xsdt_entry, read_le. f_equal. apply read_ext.
    intros b Hb. change (slot <= b < slot + 8) in Hb. unfold m2.
    rewrite write8_ne, CopyMem_out by lia. done. }
  set (c := CalculateCheckSum8 _). set (m' := write8 m2 (table + 9) c).
  assert (hdr_length m' table = hdr_length m2 table) as Hl.
  { unfold hdr_length, read_le, HDR_Length. f_equal. apply read_ext. intros b Hb.
    apply write8_ne. lia. }
  split_and!.
  - intros a Ha. unfold m', m2. rewrite !write8_ne, CopyMem_out by lia. done.
  - intros i Hi Hne. unfold m', m2. rewrite !write8_ne, CopyMem_in by lia. f_equal. lia.
  - intros H9. rewrite Hl in *. set (n := Z.to_nat (hdr_length m2 table)) in *.
    rewrite (read_split m' table n 9) by lia. change (Z.of_nat 9) with 9.
    unfold m' at 2. rewrite write8_eq, byte_sum_wrap.
    pose proof (checksum8_ok (read m2 table n)) as Hc. fold c in Hc.
    rewrite (read_split m2 table n 9) in Hc by lia. change (Z.of_nat 9) with 9 in Hc.
    unfold m2 at 2 in Hc. rewrite write8_eq in Hc.
    rewrite (read_ext m' m2 table 9), (read_ext m' m2 (table + 9 + 1) (n - 9 - 1))
      by (intros b Hb; apply write8_ne; lia).
    rewrite byte_sum_app, byte_sum_cons in *. change (wrapu 8 0) with 0 in Hc.
    rewrite <- Hc. f_equal. lia.
Qed.
End ChangeSpec.

(** A memory with a root pointer at 100, an XSDT at 200 whose entry 1 is a 40-byte
    table at 400, and the byte 77 just after the 36-byte header at 600. *)
Definition demo_mem : mem := fun a =>
  if a =? 124 then 200 else if a =? 244 then 144 else if a =? 245 then 1
  else if a =? 404 then 40 else if a =? 636 then 77 else 0.

Definition twos_complement_sum (l : list Z) : Z := (256 - byte_sum l mod 256) mod 256.

Lemma twos_complement_ok l : (byte_sum l + twos_complement_sum l) mod 256 = 0.
Proof.
  unfold twos_complement_sum. rewrite Zplus_mod_idemp_r.
  pose proof (Z.div_mod (byte_sum l) 256). apply Z.mod_divide; [lia|].
  exists (byte_sum l / 256 + 1). lia.
Qed.

Lemma ChangeACPITable_spec_witness :
  snd (ChangeACPITable twos_complement_sum [(true, 100)] 1 600 demo_mem) 436 = 77.
Proof.
  assert (xsdt_entry demo_mem (xsdt_of demo_mem 100) 1 = 400) as E by (vm_compute; reflexivity).
  pose proof (ChangeACPITable_spec twos_complement_sum twos_complement_ok
    [(true, 100)] 100 1 600 demo_mem eq_refl) as H.
  cbv zeta in H. rewrite E in H.
  assert (hdr_length demo_mem 400 = 40) as El by (vm_compute; reflexivity).
  rewrite El in H. change (xsdt_of demo_mem 100) with 200 in H.
  destruct H as (_ & H & _); [unfold sizeof_header; lia|unfold sizeof_header; lia|].
  change 436 with (400 + 36). rewrite (H 36) by (unfold HDR_Checksum; lia).
  vm_compute. reflexivity.
Defined.

End AcpiDump.
