(* ===== verification/Vdso.v ===== *)
(** * The vDSO and the task-structure mapping (src/kvm/linux-5.15.178/arch/x86)

    entry/vdso/vma.c maps three special areas into a new address space: the vDSO
    image, the vvar pages and, added here, [vtask], through which a task reads its own
    task_struct; entry/vdso/vget_task_struct_info.c is the user-side function that
    finds the task_struct in it.  The memory manager (mm/mmap.c) is a parameter:
    [get_unmapped_area], [install_special_mapping], [do_munmap].  Addresses are
    unsigned 64-bit integers. *)

From S2P Require Import Prelude.

Module Vdso.

Open Scope cint_scope.

Definition PAGE_SHIFT : Z := 12.
Definition PAGE_SIZE : Z := 4096.
Definition PAGE_MASK : Z := wrapu 64 (Z.lnot (PAGE_SIZE - 1)).
Definition PMD_SIZE : Z := 2 ^ 21.
Definition PMD_MASK : Z := wrapu 64 (Z.lnot (PMD_SIZE - 1)).
Definition DEFAULT_MAP_WINDOW : Z := 2 ^ 47 - PAGE_SIZE.
Definition MAX_ERRNO : Z := 4095.

(** asm/vdso.h and asm/mmu.h *)
Definition VVAR_TASK_STRUCT_NR_PAGES : Z := 6.
Definition VTASK_SIZE : Z := PAGE_SIZE * VVAR_TASK_STRUCT_NR_PAGES.

Definition VM_FAULT_OOM : Z := 0x1.
Definition VM_FAULT_SIGBUS : Z := 0x2.
Definition VM_FAULT_ERROR : Z := 0x873.

Definition VM_READ : Z := 0x1.
Definition VM_EXEC : Z := 0x4.
Definition VM_MAYREAD : Z := 0x10.
Definition VM_MAYWRITE : Z := 0x20.
Definition VM_MAYEXEC : Z := 0x40.
Definition VM_PFNMAP : Z := 0x400.
Definition VM_IO : Z := 0x4000.
Definition VM_DONTDUMP : Z := 0x4000000.
Definition VM_WIPEONFORK : Z := 0x2000000.

(** The flags map_vdso gives the three areas. *)
Definition vdso_flags : Z :=
  Z.lor VM_READ (Z.lor VM_EXEC (Z.lor VM_MAYREAD (Z.lor VM_MAYWRITE VM_MAYEXEC))).
Definition vvar_flags : Z :=
  Z.lor VM_READ (Z.lor VM_MAYREAD (Z.lor VM_IO (Z.lor VM_DONTDUMP VM_PFNMAP))).
Definition vtask_flags : Z :=
  Z.lor VM_READ (Z.lor VM_MAYREAD (Z.lor VM_IO (Z.lor VM_DONTDUMP
    (Z.lor VM_PFNMAP VM_WIPEONFORK)))).

(** IS_ERR_VALUE: the top 4095 unsigned values stand for errors. *)
Definition IS_ERR_VALUE (x : Z) : bool := 2 ^ 64 - MAX_ERRNO <=? x.

(** struct vdso_image (asm/vdso.h) *)
Record vdso_image := VdsoImage {
  data : Z;
  size : Z;
  sym_vvar_start : Z;
  sym_vvar_page : Z;
  sym_pvclock_page : Z;
  sym_hvclock_page : Z;
  sym_timens_page : Z;
  sym_int80_landing_pad : Z;
  sym_vdso32_sigreturn_landing_pad : Z;
  sym_vdso32_rt_sigreturn_landing_pad : Z
}.

(** The three special mappings of vma.c, and anything else. *)
Inductive special := vdso_mapping | vvar_mapping | vtask_mapping | no_mapping.
#[global] Instance special_eq_dec : EqDecision special.
Proof. solve_decision. Defined.

Record vma := Vma { vm_start : Z; vm_end : Z; vm_flags : Z; vm_special : special }.

(** The parts of an mm_struct the code uses; [ctx_*] is mm->context. *)
Record mm_struct := Mm {
  mmap : list vma;
  ctx_vdso : Z;
  ctx_vdso_image : option vdso_image;
  ctx_vtask : Z;
  mmap_locked : bool
}.

Definition set_mmap (l : list vma) (mm : mm_struct) : mm_struct :=
  Mm l (ctx_vdso mm) (ctx_vdso_image mm) (ctx_vtask mm) (mmap_locked mm).
Definition set_locked (b : bool) (mm : mm_struct) : mm_struct :=
  Mm (mmap mm) (ctx_vdso mm) (ctx_vdso_image mm) (ctx_vtask mm) b.

Definition vma_is_special_mapping (v : vma) (s : special) : bool :=
  bool_decide (vm_special v = s).

(** ** Page faults *)

(** The result of a fault handler: a page (return 0 with vmf->page set), or a code. *)
Inductive fault := FaultPage (addr : Z) | FaultCode (code : Z).

(** vdso_fault; [virt_to_page] of the image's data gives the page at that address. *)
Definition vdso_fault (image : option vdso_image) (pgoff : Z) : fault :=
  match image with
  | None => FaultCode VM_FAULT_SIGBUS
  | Some im =>
      let off := wrapu 64 (Z.shiftl pgoff PAGE_SHIFT) in
      if size im <=? off then FaultCode VM_FAULT_SIGBUS else FaultPage (data im +u64 off)
  end.

(** The clock pages a kernel has: their page frames, [None] for a null pointer. *)
Record vclocks := Vclocks {
  vvar_pfn : Z;                (* __pa_symbol(&__vvar_page) >> PAGE_SHIFT *)
  timens_vvar_pfn : option Z;  (* current->nsproxy->time_ns->vvar_page *)
  pvti_pfn : option Z;         (* pvclock_get_pvti_cpu0_va() *)
  pvclock_used : bool;         (* vclock_was_used(VDSO_CLOCKMODE_PVCLOCK) *)
  tsc_pfn : option Z;          (* hv_get_tsc_page() *)
  hvclock_used : bool          (* vclock_was_used(VDSO_CLOCKMODE_HVCLOCK) *)
}.

(** find_timens_vvar_page: only for the current address space. *)
Definition find_timens_vvar_page (vma_mm_is_current : bool) (k : vclocks) : option Z :=
  if vma_mm_is_current then timens_vvar_pfn k else None.

(** vvar_fault: the returned code and the (address, page frame) pairs handed to
    [vmf_insert_pfn], whose result is a parameter. *)
Definition vvar_fault (vmf_insert_pfn : Z -> Z -> Z) (vma_mm_is_current : bool)
    (k : vclocks) (image : option vdso_image) (pgoff address : Z) : Z * list (Z * Z) :=
  match image with
  | None => (VM_FAULT_SIGBUS, [])
  | Some im =>
      let sym_offset := wraps 64 (wraps 64 (wrapu 64 (Z.shiftl pgoff PAGE_SHIFT)) + sym_vvar_start im) in
      let insert a p := (vmf_insert_pfn a p, [(a, p)]) in
      if sym_offset =? 0 then (VM_FAULT_SIGBUS, [])
      else if sym_offset =? sym_vvar_page im then
        match find_timens_vvar_page vma_mm_is_current k with
        | Some tp =>
            let addr := address +u64 (sym_timens_page im - sym_offset) in
            let err := vmf_insert_pfn addr (vvar_pfn k) in
            if flag err VM_FAULT_ERROR then (err, [(addr, vvar_pfn k)])
            else (vmf_insert_pfn address tp, [(addr, vvar_pfn k); (address, tp)])
        | None => insert address (vvar_pfn k)
        end
      else if sym_offset =? sym_pvclock_page im then
        match pvti_pfn k with
        | Some p => if pvclock_used k then insert address p else (VM_FAULT_SIGBUS, [])
        | None => (VM_FAULT_SIGBUS, [])
        end
      else if sym_offset =? sym_hvclock_page im then
        match tsc_pfn k with
        | Some p => if hvclock_used k then insert address p else (VM_FAULT_SIGBUS, [])
        | None => (VM_FAULT_SIGBUS, [])
        end
      else if sym_offset =? sym_timens_page im then
        match find_timens_vvar_page vma_mm_is_current k with
        | None => (VM_FAULT_SIGBUS, [])
        | Some _ => insert address (vvar_pfn k)
        end
      else (VM_FAULT_SIGBUS, [])
  end.

(** struct task_metadata, one page: magic, task_offset, task_size, zeros. *)
Definition TSKM : Z := 0x54534B4D.
Definition task_metadata (task_offset task_size : Z) : list Z :=
  le_bytes 8 TSKM ++ le_bytes 8 task_offset ++ le_bytes 8 task_size ++ replicate 4072 0.

(** vtask_fault: a fresh page holding the metadata, a page frame of the task_struct
    inserted at the faulting address, or an error code. *)
Inductive vtask_result :=
| VtPage (content : list Z) | VtInsert (address pfn : Z) | VtCode (code : Z).

Definition vtask_fault (task_phys_addr sizeof_task_struct : Z) (alloc_ok : bool)
    (pgoff address : Z) : vtask_result :=
  let pfn := Z.shiftr task_phys_addr PAGE_SHIFT in
  let task_offset := Z.land task_phys_addr (wrapu 64 (Z.lnot PAGE_MASK)) in
  let metadata_pgoff := Z.shiftr VTASK_SIZE PAGE_SHIFT - 1 in
  if pgoff =? metadata_pgoff then
    if alloc_ok then VtPage (task_metadata task_offset sizeof_task_struct)
    else VtCode VM_FAULT_OOM
  else if Z.shiftr VTASK_SIZE PAGE_SHIFT <=? pgoff then VtCode VM_FAULT_SIGBUS
  else VtInsert address (pfn + pgoff).

(** ** Mapping the three areas *)

Section Mapping.
Context (get_unmapped_area : list vma -> Z -> Z -> Z).
Context (install_special_mapping : list vma -> vma -> Z + list vma).
Context (do_munmap : list vma -> Z -> Z -> list vma).

(** map_vdso; [killed] is a fatal signal during mmap_write_lock_killable. *)
Definition map_vdso (killed : bool) (image : vdso_image) (addr0 : Z) (mm0 : mm_struct)
    : Z * mm_struct :=
  if killed then (- EINTR, mm0)
  else
  let mm := set_locked true mm0 in
  let addr := get_unmapped_area (mmap mm) addr0
                (size image -u64 sym_vvar_start image +u64 VTASK_SIZE) +u64 VTASK_SIZE in
  if IS_ERR_VALUE addr then (wraps 32 addr, set_locked false mm)
  else
  let text_start := addr -u64 sym_vvar_start image in
  let vvar_len := wrapu 64 (- sym_vvar_start image) in
  let vtask_addr := addr -u64 VTASK_SIZE in
  match install_special_mapping (mmap mm)
          (Vma text_start (text_start +u64 size image) vdso_flags vdso_mapping) with
  | inl e => (e, set_locked false mm)
  | inr l1 =>
  match install_special_mapping l1
          (Vma addr (addr +u64 vvar_len) vvar_flags vvar_mapping) with
  | inl e => (e, set_locked false (set_mmap (do_munmap l1 text_start (size image)) mm))
  | inr l2 =>
  match install_special_mapping l2
          (Vma vtask_addr (vtask_addr +u64 VTASK_SIZE) vtask_flags vtask_mapping) with
  | inl e =>
      (e, set_locked false
            (set_mmap (do_munmap (do_munmap l2 addr vvar_len) text_start (size image)) mm))
  | inr l3 => (0, Mm l3 text_start (Some image) vtask_addr false)
  end end end.

(** vdso_addr; [align_vdso_addr] is in arch/x86/kernel/sys_x86_64.c and
    [random] is the value of get_random_int(). *)
Definition vdso_addr (align_vdso_addr : Z -> Z) (random : Z) (start0 len : Z) : Z :=
  let start := Z.land (start0 +u64 (PAGE_SIZE - 1)) PAGE_MASK in
  let end0 := Z.land (start +u64 len +u64 PMD_SIZE -u64 1) PMD_MASK in
  let end1 := if DEFAULT_MAP_WINDOW <=? end0 then DEFAULT_MAP_WINDOW else end0 in
  let end_ := end1 -u64 len in
  let addr :=
    if start <? end_ then
      let offset := wrapu 32 (random mod (wrapu 64 (Z.shiftr (end_ -u64 start) PAGE_SHIFT + 1))) in
      start +u64 wrapu 32 (Z.shiftl offset PAGE_SHIFT)
    else start in
  align_vdso_addr addr.

Definition map_vdso_randomized (align_vdso_addr : Z -> Z) (random start_stack : Z)
    (killed : bool) (image : vdso_image) (mm : mm_struct) : Z * mm_struct :=
  let addr := vdso_addr align_vdso_addr random start_stack
                (wrapu 32 (size image -u64 sym_vvar_start image)) in
  map_vdso killed image addr mm.

(** map_vdso_once: refuses when one of the three areas is already mapped. *)
Definition is_ours (v : vma) : bool :=
  vma_is_special_mapping v vdso_mapping || vma_is_special_mapping v vvar_mapping ||
  vma_is_special_mapping v vtask_mapping.

Definition map_vdso_once (killed : bool) (image : vdso_image) (addr : Z) (mm : mm_struct)
    : Z * mm_struct :=
  if existsb is_ours (mmap mm) then (- EEXIST, set_locked false mm)
  else map_vdso killed image addr (set_locked false mm).

Definition load_vdso32 (vdso32_enabled : Z) (killed : bool) (vdso_image_32 : vdso_image)
    (mm : mm_struct) : Z * mm_struct :=
  if negb (vdso32_enabled =? 1) then (0, mm) else map_vdso killed vdso_image_32 0 mm.

Definition arch_setup_additional_pages (vdso64_enabled : Z) (align_vdso_addr : Z -> Z)
    (random start_stack : Z) (killed : bool) (vdso_image_64 : vdso_image) (mm : mm_struct)
    : Z * mm_struct :=
  if vdso64_enabled =? 0 then (0, mm)
  else map_vdso_randomized align_vdso_addr random start_stack killed vdso_image_64 mm.

(** compat_arch_setup_additional_pages; the two booleans are CONFIG_X86_X32_ABI and
    CONFIG_IA32_EMULATION. *)
Definition compat_arch_setup_additional_pages (x32_abi ia32_emulation : bool)
    (vdso64_enabled vdso32_enabled : Z) (align_vdso_addr : Z -> Z) (random start_stack : Z)
    (killed : bool) (vdso_image_x32 vdso_image_32 : vdso_image) (x32 : bool) (mm : mm_struct)
    : Z * mm_struct :=
  if x32_abi && x32 then
    if vdso64_enabled =? 0 then (0, mm)
    else map_vdso_randomized align_vdso_addr random start_stack killed vdso_image_x32 mm
  else if ia32_emulation then load_vdso32 vdso32_enabled killed vdso_image_32 mm
  else (0, mm).
End Mapping.

(** vdso_setup, the boot parameter "vdso=": vdso64_enabled and the result; the parameter is
    read by simple_strtoul (lib/vsprintf.c) into an unsigned int. *)
Definition vdso_setup (simple_strtoul : list Z -> Z) (s : list Z) : Z * Z :=
  (wrapu 32 (simple_strtoul s), 1).

(** init_vdso_image and init_vdso: the images whose alternatives are applied; [None] is the
    BUG on an image that is not a number of pages. *)
Definition init_vdso_image (image : vdso_image) (done : list Z) : option (list Z) :=
  if negb (size image mod PAGE_SIZE =? 0) then None else Some (done ++ [data image]).
Definition init_vdso (x32_abi : bool) (vdso_image_64 vdso_image_x32 : vdso_image)
    : option (Z * list Z) :=
  l ← init_vdso_image vdso_image_64 [];
  l' ← (if x32_abi then init_vdso_image vdso_image_x32 l else Some l);
  Some (0, l').

(** print_stack_region: what is printed about the stack of the current task. *)
Inductive stack_log :=
| LogNone
| LogRegion (vstart vend kb sp start_stack : Z)
| LogNotFound.
Definition VM_STACK : Z := 0x100.
Fixpoint find_stack (sp start_stack : Z) (l : list vma) : stack_log :=
  match l with
  | [] => LogNotFound
  | v :: l' =>
      if flag (vm_flags v) VM_STACK then
        LogRegion (vm_start v) (vm_end v) (Z.shiftr (vm_end v -u64 vm_start v) 10) sp start_stack
      else find_stack sp start_stack l'
  end.
Definition print_stack_region (sp start_stack : Z) (mm : option mm_struct) : stack_log :=
  match mm with
  | None => LogNone
  | Some m => find_stack sp start_stack (mmap m)
  end.

(** vdso_mremap with vdso_fix_landing: the moved vDSO, and the instruction pointer of
    a 32-bit task that is at the old landing pad. *)
Definition vdso_fix_landing (ia32_and_image32 : bool) (image : vdso_image) (vdso new_start ip : Z) : Z :=
  if ia32_and_image32 then
    let vdso_land := sym_int80_landing_pad image in
    if ip =? vdso_land +u64 vdso then new_start +u64 vdso_land else ip
  else ip.

Definition vdso_mremap (ia32_and_image32 : bool) (new_start ip : Z) (mm : mm_struct)
    : Z * Z * mm_struct :=
  let ip' := match ctx_vdso_image mm with
             | Some im => vdso_fix_landing ia32_and_image32 im (ctx_vdso mm) new_start ip
             | None => ip
             end in
  (0, ip', Mm (mmap mm) new_start (ctx_vdso_image mm) (ctx_vtask mm) (mmap_locked mm)).

(** arch_syscall_is_vdso_sigreturn *)
Definition arch_syscall_is_vdso_sigreturn (ia32_and_image32 : bool) (ip : Z) (mm : mm_struct) : bool :=
  match ctx_vdso_image mm with
  | Some im =>
      ia32_and_image32 &&
      ((ip =? ctx_vdso mm +u64 sym_vdso32_sigreturn_landing_pad im) ||
       (ip =? ctx_vdso mm +u64 sym_vdso32_rt_sigreturn_landing_pad im))
  | None => false
  end.

(** vdso_join_timens: the (start, size) ranges zapped, in list order. *)
Definition vdso_join_timens (mm : mm_struct) : list (Z * Z) :=
  (fun v => (vm_start v, vm_end v -u64 vm_start v)) <$>
    filter (fun v => vma_is_special_mapping v vvar_mapping = true) (mmap mm).

(** ** The user side *)

Definition read (m : Z -> Z) (a : Z) (n : nat) : list Z := m <$> seqZ a (Z.of_nat n).

(** __vdso_get_task_struct_info: [vdata] is __arch_get_vdso_data(), [umem] the bytes
    the process sees, [off_pid] is offsetof(struct task_struct, pid).  The result is
    the code and, on success, task_struct_ptr and pid. *)
Definition get_task_struct_info (info_null : bool) (vdata : Z) (umem : Z -> Z) (off_pid : Z)
    : Z * option (Z * Z) :=
  if info_null then (- EINVAL, None)
  else
  let vtask_base := wrapu 64 (Z.shiftl (Z.shiftr vdata PAGE_SHIFT) PAGE_SHIFT)
                    -u64 VVAR_TASK_STRUCT_NR_PAGES * PAGE_SIZE in
  if vtask_base =? 0 then (- EINVAL, None)
  else
  let metadata := vtask_base +u64 (VTASK_SIZE - PAGE_SIZE) in
  if negb (le_value (read umem metadata 8) =? TSKM) then (- EINVAL, None)
  else
  let task_offset := le_value (read umem (metadata + 8) 8) in
  let ptr := vtask_base +u64 task_offset in
  (0, Some (ptr, wraps 32 (le_value (read umem (ptr +u64 off_pid) 4)))).

(** What a process reads through the vtask area at [vtask]: the fault handler's page
    for the address, physical memory for an inserted frame.  The process has one thread:
    threads that share the address space share its pages, and see those of the first of
    them that touches an address. *)
Definition vtask_view (phys : Z -> Z) (task_phys sizeof_task vtask : Z) (a : Z) : Z :=
  let off := a - vtask in
  match vtask_fault task_phys sizeof_task true (off / PAGE_SIZE) a with
  | VtPage content => content !!! Z.to_nat (off mod PAGE_SIZE)
  | VtInsert _ pfn => phys (pfn * PAGE_SIZE + off mod PAGE_SIZE)
  | VtCode _ => 0
  end.

(** ** Lemmas: the vtask area *)

Lemma page_offset x : Z.land x (wrapu 64 (Z.lnot PAGE_MASK)) = x mod PAGE_SIZE.
Proof.
  change (wrapu 64 (Z.lnot PAGE_MASK)) with (Z.ones 12). by rewrite Z.land_ones.
Qed.

Lemma page_base x : Z.shiftl (Z.shiftr x PAGE_SHIFT) PAGE_SHIFT = x - x mod PAGE_SIZE.
Proof.
  unfold PAGE_SHIFT. rewrite Z.shiftr_div_pow2, Z.shiftl_mul_pow2 by lia.
  change (2 ^ 12) with 4096. unfold PAGE_SIZE. pose proof (Z.div_mod x 4096). lia.
Qed.

Lemma vtask_view_task phys P sz vtask o :
  0 <= o < 5 * PAGE_SIZE ->
  vtask_view phys P sz vtask (vtask + o) = phys (P - P mod PAGE_SIZE + o).
Proof.
  intros Ho. unfold vtask_view, vtask_fault. replace (vtask + o - vtask) with o by lia.
  change (Z.shiftr VTASK_SIZE PAGE_SHIFT) with 6. unfold PAGE_SIZE in *.
  pose proof (Z.div_mod o 4096). pose proof (Z.mod_pos_bound o 4096).
  destruct (Z.eqb_spec (o / 4096) (6 - 1)); [lia|].
  destruct (Z.leb_spec 6 (o / 4096)); [lia|]. f_equal.
  unfold PAGE_SHIFT. rewrite Z.shiftr_div_pow2 by lia. change (2 ^ 12) with 4096.
  pose proof (Z.div_mod P 4096). lia.
Qed.

Lemma vtask_view_meta phys P sz vtask o :
  0 <= o < PAGE_SIZE ->
  vtask_view phys P sz vtask (vtask + 5 * PAGE_SIZE + o) =
  task_metadata (P mod PAGE_SIZE) sz !!! Z.to_nat o.
Proof.
  intros Ho. unfold vtask_view, vtask_fault. rewrite page_offset.
  replace (vtask + 5 * PAGE_SIZE + o - vtask) with (o + 5 * PAGE_SIZE) by lia.
  unfold PAGE_SIZE in *. rewrite Z.div_add, Z_mod_plus_full by lia.
  rewrite (Z.div_small o), (Z.mod_small o) by lia. done.
Qed.

Lemma read_list m a (l : list Z) k n :
  (forall i, (i < n)%nat -> m (a + Z.of_nat i) = l !!! (k + i)%nat) ->
  (k + n <= length l)%nat -> read m a n = take n (drop k l).
Proof.
  intros Hm Hl. apply list_eq. intros i. unfold read. rewrite list_lookup_fmap.
  destruct (decide (i < n)%nat) as [Hi|Hi].
  - rewrite lookup_take_lt, lookup_drop by lia.
    rewrite (lookup_seqZ_lt _ _ i) by lia. simpl. rewrite Hm by done.
    symmetry. apply list_lookup_lookup_total_lt. lia.
  - rewrite lookup_seqZ_ge by lia. rewrite lookup_take_ge by lia. done.
Qed.

Lemma read_ext_from m m' a a' n :
  (forall i, (i < n)%nat -> m (a + Z.of_nat i) = m' (a' + Z.of_nat i)) ->
  read m a n = read m' a' n.
Proof.
  intros H. apply list_eq. intros i. unfold read. rewrite !list_lookup_fmap.
  destruct (decide (i < n)%nat) as [Hi|Hi].
  - rewrite !lookup_seqZ_lt by lia. simpl. by rewrite H.
  - by rewrite !lookup_seqZ_ge by lia.
Qed.

Lemma length_task_metadata o sz : length (task_metadata o sz) = 4096%nat.
Proof. unfold task_metadata. by rewrite !length_app, !length_le_bytes, length_replicate. Qed.

Lemma read_metadata phys P sz vtask k n :
  (k + n <= 4096)%nat ->
  read (vtask_view phys P sz vtask) (vtask + 5 * PAGE_SIZE + Z.of_nat k) n =
  take n (drop k (task_metadata (P mod PAGE_SIZE) sz)).
Proof.
  intros Hk. apply read_list; [|by rewrite length_task_metadata].
  intros i Hi. rewrite <- Z.add_assoc, vtask_view_meta by (unfold PAGE_SIZE; lia).
  f_equal. lia.
Qed.

Lemma metadata_fields o sz :
  0 <= o < 2 ^ 64 ->
  le_value (take 8 (drop 0 (task_metadata o sz))) = TSKM /\
  le_value (take 8 (drop 8 (task_metadata o sz))) = o.
Proof.
  intros Ho. unfold task_metadata. split.
  - rewrite drop_0, take_app_le by (by rewrite length_le_bytes). reflexivity.
  - rewrite drop_app_length' by (by rewrite length_le_bytes).
    rewrite take_app_length' by (by rewrite length_le_bytes).
    rewrite le_value_bytes. apply Z.mod_small. change (256 ^ Z.of_nat 8) with (2 ^ 64). lia.
Qed.

(** (C7) The vtask round trip: when the vtask area lies directly below the page of
    the vdso data and the part of the task_struct up to its pid fits, from its offset
    in its first page, into the five pages before the metadata page, the user function
    returns 0 with the pid stored in the task_struct, and its pointer sees every byte of
    the task_struct in those pages. *)
Theorem get_task_struct_info_roundtrip phys P sz vdata off_pid :
  let vtask := vdata - vdata mod PAGE_SIZE - VTASK_SIZE in
  let ptr := vtask + P mod PAGE_SIZE in
  0 < vtask -> vdata < 2 ^ 64 -> 0 <= off_pid ->
  P mod PAGE_SIZE + off_pid + 4 <= 5 * PAGE_SIZE ->
  get_task_struct_info false vdata (vtask_view phys P sz vtask) off_pid =
    (0, Some (ptr, wraps 32 (le_value (read phys (P + off_pid) 4)))) /\
  (forall i, 0 <= i -> P mod PAGE_SIZE + i < 5 * PAGE_SIZE ->
     vtask_view phys P sz vtask (ptr + i) = phys (P + i)).
Proof.
  intros vtask ptr Hv Hd Ho Hfit.
  assert (0 <= P mod PAGE_SIZE < PAGE_SIZE) as HP by (apply Z.mod_pos_bound; done).
  assert (0 <= vdata mod PAGE_SIZE < PAGE_SIZE) as HD by (apply Z.mod_pos_bound; done).
  assert (VTASK_SIZE = 24576) as HVT by done. assert (PAGE_SIZE = 4096) as HPG by done.
  assert (forall i, 0 <= i -> P mod PAGE_SIZE + i < 5 * PAGE_SIZE ->
     vtask_view phys P sz vtask (ptr + i) = phys (P + i)) as Hview.
  { intros i Hi Hb. unfold ptr. rewrite <- Z.add_assoc, vtask_view_task by lia.
    f_equal. lia. }
  split; [|done].
  unfold get_task_struct_info. rewrite page_base.
  change (VVAR_TASK_STRUCT_NR_PAGES * PAGE_SIZE) with VTASK_SIZE.
  rewrite (wrapu_id 64 (vdata - vdata mod PAGE_SIZE)) by (split; lia).
  fold vtask. rewrite (wrapu_id 64 vtask) by (split; lia).
  destruct (Z.eqb_spec vtask 0); [lia|].
  rewrite (wrapu_id 64 (vtask + (VTASK_SIZE - PAGE_SIZE))) by (split; lia).
  replace (vtask + (VTASK_SIZE - PAGE_SIZE)) with (vtask + 5 * PAGE_SIZE + Z.of_nat 0) by lia.
  destruct (metadata_fields (P mod PAGE_SIZE) sz) as [E1 E2]; [lia|].
  rewrite read_metadata, E1 by lia. simpl (negb _).
  replace (vtask + 5 * PAGE_SIZE + Z.of_nat 0 + 8) with (vtask + 5 * PAGE_SIZE + Z.of_nat 8) by lia.
  rewrite read_metadata, E2 by lia. fold ptr.
  rewrite (wrapu_id 64 ptr) by (unfold ptr; split; lia).
  rewrite (wrapu_id 64 (ptr + off_pid)) by (unfold ptr; split; lia).
  do 5 f_equal. apply read_ext_from. intros i Hi.
  rewrite <- Z.add_assoc, Hview by lia. f_equal. lia.
Qed.

Lemma get_task_struct_info_roundtrip_witness :
  get_task_struct_info false 0x7fff00006080
    (vtask_view (fun a => if a =? 0x12345d04 then 42 else 0) 0x12345940 9000 0x7fff00000000) 0x3c4 =
  (0, Some (0x7fff00000940, 42)).
Proof.
  exact (proj1 (get_task_struct_info_roundtrip (fun a => if a =? 0x12345d04 then 42 else 0)
    0x12345940 9000 0x7fff00006080 0x3c4 eq_refl eq_refl ltac:(lia) ltac:(vm_compute; discriminate))).
Defined.

(** ** The three areas are mapped together or not at all *)

Definition page_aligned (x : Z) : Prop := x mod PAGE_SIZE = 0.
Definition apart (v w : vma) : Prop := vm_end v <= vm_start w \/ vm_end w <= vm_start v.

Record image_wf (im : vdso_image) : Prop := ImageWf {
  iw_size : 0 < size im < 2 ^ 31;
  iw_vvar : 0 < - sym_vvar_start im < 2 ^ 31;
  iw_vvar_aligned : page_aligned (sym_vvar_start im)
}.

(** The areas for a free range that starts at [base]. *)
Definition vtask_area (base : Z) : vma := Vma base (base + VTASK_SIZE) vtask_flags vtask_mapping.
Definition vvar_area (im : vdso_image) (base : Z) : vma :=
  Vma (base + VTASK_SIZE) (base + VTASK_SIZE - sym_vvar_start im) vvar_flags vvar_mapping.
Definition vdso_area (im : vdso_image) (base : Z) : vma :=
  Vma (base + VTASK_SIZE - sym_vvar_start im) (base + VTASK_SIZE - sym_vvar_start im + size im)
    vdso_flags vdso_mapping.

(** What map_vdso relies on of the memory manager. *)
Class mm_contract (get_unmapped_area : list vma -> Z -> Z -> Z)
    (install_special_mapping : list vma -> vma -> Z + list vma)
    (do_munmap : list vma -> Z -> Z -> list vma) : Prop := MmContract {
  gua_free : forall l hint len, 0 < len ->
    let r := get_unmapped_area l hint len in
    (0 <= r < 2 ^ 64) /\
    (IS_ERR_VALUE r = false ->
     r + len <= 2 ^ 47 /\ page_aligned r /\
     forall v, v ∈ l -> r + len <= vm_start v \/ vm_end v <= r);
  install_adds : forall l v l', install_special_mapping l v = inr l' -> l' ≡ₚ v :: l;
  install_errno : forall l v e, install_special_mapping l v = inl e -> - MAX_ERRNO <= e <= -1;
  munmap_removes : forall l v l', vm_start v < vm_end v ->
    page_aligned (vm_start v) -> page_aligned (vm_end v) -> l ≡ₚ v :: l' ->
    (forall w, w ∈ l' -> apart v w) ->
    do_munmap l (vm_start v) (vm_end v - vm_start v) ≡ₚ l'
}.

Section MapVdso.
Context {gua inst munmap} `{Hmm : mm_contract gua inst munmap}.

(** The addresses map_vdso computes, without wrap-around, for a base in range. *)
Lemma map_vdso_unfold im addr0 mm base :
  image_wf im -> 0 <= base -> base + (size im - sym_vvar_start im + VTASK_SIZE) <= 2 ^ 47 ->
  gua (mmap mm) addr0 (size im - sym_vvar_start im + VTASK_SIZE) = base ->
  map_vdso gua inst munmap false im addr0 mm =
  let old := mmap mm in
  let fail l e := (e, Mm l (ctx_vdso mm) (ctx_vdso_image mm) (ctx_vtask mm) false) in
  let un v l := munmap l (vm_start v) (vm_end v - vm_start v) in
  match inst old (vdso_area im base) with
  | inl e => fail old e
  | inr l1 =>
  match inst l1 (vvar_area im base) with
  | inl e => fail (un (vdso_area im base) l1) e
  | inr l2 =>
  match inst l2 (vtask_area base) with
  | inl e => fail (un (vdso_area im base) (un (vvar_area im base) l2)) e
  | inr l3 => (0, Mm l3 (base + VTASK_SIZE - sym_vvar_start im) (Some im) base false)
  end end end.
Proof.
  intros [Hs Hv Ha] Hb Hr Hg. assert (VTASK_SIZE = 24576) as HVT by done.
  unfold map_vdso, vdso_area, vvar_area, vtask_area; cbn [vm_start vm_end mmap set_locked].
  rewrite (wrapu_id 64 (size im - sym_vvar_start im)) by (split; lia).
  rewrite (wrapu_id 64 (size im - sym_vvar_start im + VTASK_SIZE)) by (split; lia).
  rewrite Hg. rewrite (wrapu_id 64 (base + VTASK_SIZE)) by (split; lia).
  unfold IS_ERR_VALUE, MAX_ERRNO. destruct (Z.leb_spec (2 ^ 64 - 4095) (base + VTASK_SIZE)); [lia|].
  rewrite (wrapu_id 64 (base + VTASK_SIZE - sym_vvar_start im)) by (split; lia).
  rewrite (wrapu_id 64 (base + VTASK_SIZE - sym_vvar_start im + size im)) by (split; lia).
  rewrite (wrapu_id 64 (- sym_vvar_start im)) by (split; lia).
  rewrite (wrapu_id 64 (base + VTASK_SIZE - VTASK_SIZE)) by (split; lia).
  replace (base + VTASK_SIZE - VTASK_SIZE) with base by lia.
  rewrite (wrapu_id 64 (base + VTASK_SIZE)) by (split; lia).
  change (base + VTASK_SIZE + - sym_vvar_start im) with (base + VTASK_SIZE - sym_vvar_start im).
  rewrite (wrapu_id 64 (base + VTASK_SIZE - sym_vvar_start im)) by (split; lia).
  replace (base + VTASK_SIZE - sym_vvar_start im + size im - (base + VTASK_SIZE - sym_vvar_start im))
    with (size im) by lia.
  replace (base + VTASK_SIZE - sym_vvar_start im - (base + VTASK_SIZE))
    with (- sym_vvar_start im) by lia.
  done.
Qed.

(** The areas of an image of whole pages start and end at page boundaries. *)
Lemma areas_aligned im base :
  page_aligned base -> page_aligned (sym_vvar_start im) -> page_aligned (size im) ->
  forall v, v ∈ [vvar_area im base; vdso_area im base] ->
  page_aligned (vm_start v) /\ page_aligned (vm_end v).
Proof.
  unfold page_aligned, PAGE_SIZE. assert (VTASK_SIZE = 24576) as HVT by done.
  intros [a ->]%Z.mod_divide [b Eb]%Z.mod_divide [c Ec]%Z.mod_divide v Hv; [|lia..].
  apply elem_of_cons in Hv as [->|Hv]; [|apply list_elem_of_singleton in Hv as ->];
    simpl; rewrite ?Eb, ?Ec, HVT; split; apply Z.mod_divide; try lia; eexists.
  - instantiate (1 := a + 6). lia.
  - instantiate (1 := a + 6 - b). lia.
  - instantiate (1 := a + 6 - b). lia.
  - instantiate (1 := a + 6 - b + c). lia.
Qed.

(** The two ends of a call: the three areas and the context, or neither. *)
Definition areas_mapped (im : vdso_image) (mm mm' : mm_struct) : Prop :=
  exists base, page_aligned base /\
    mmap mm' ≡ₚ vtask_area base :: vvar_area im base :: vdso_area im base :: mmap mm /\
    (forall v w, v ∈ mmap mm -> w ∈ [vtask_area base; vvar_area im base; vdso_area im base] ->
       apart v w) /\
    ctx_vdso mm' = base + VTASK_SIZE - sym_vvar_start im /\
    ctx_vdso_image mm' = Some im /\ ctx_vtask mm' = base.
Definition context_kept (mm mm' : mm_struct) : Prop :=
  ctx_vdso mm' = ctx_vdso mm /\ ctx_vdso_image mm' = ctx_vdso_image mm /\
  ctx_vtask mm' = ctx_vtask mm.

Lemma map_vdso_found im addr0 mm r mm' :
  image_wf im -> page_aligned (size im) ->
  IS_ERR_VALUE (gua (mmap mm) addr0 (size im - sym_vvar_start im + VTASK_SIZE)) = false ->
  map_vdso gua inst munmap false im addr0 mm = (r, mm') ->
  mmap_locked mm' = false /\
  (r = 0 /\ areas_mapped im mm mm' \/
   - MAX_ERRNO <= r <= -1 /\ mmap mm' ≡ₚ mmap mm /\ context_kept mm mm').
Proof.
  intros Hw Hsz Hok H. assert (VTASK_SIZE = 24576) as HVT by done.
  pose proof Hw as [Hs Hv Ha].
  destruct (gua_free (mmap mm) addr0 (size im - sym_vvar_start im + VTASK_SIZE))
    as [Hrange Hfree]; [lia|]. specialize (Hfree Hok) as (Hr & Hal & Hf).
  set (base := gua _ _ _) in *.
  rewrite (map_vdso_unfold im addr0 mm base Hw) in H by (done || lia). cbv zeta in H.
  pose proof (areas_aligned im base Hal Ha Hsz) as Hpg.
  destruct (Hpg (vvar_area im base)) as [P1 P2]; [set_solver|].
  destruct (Hpg (vdso_area im base)) as [P3 P4]; [set_solver|].
  assert (forall v, v ∈ mmap mm -> apart (vdso_area im base) v) as A1
    by (intros v Hv'; destruct (Hf v Hv'); [left|right]; simpl; lia).
  assert (forall v, v ∈ mmap mm -> apart (vvar_area im base) v) as A2
    by (intros v Hv'; destruct (Hf v Hv'); [left|right]; simpl; lia).
  assert (apart (vvar_area im base) (vdso_area im base)) as A3 by (left; simpl; lia).
  assert (vm_start (vdso_area im base) < vm_end (vdso_area im base)) as N1 by (simpl; lia).
  assert (vm_start (vvar_area im base) < vm_end (vvar_area im base)) as N2 by (simpl; lia).
  destruct (inst (mmap mm) (vdso_area im base)) as [e|l1] eqn:I1.
  { apply install_errno in I1. injection H as <- <-. split; [done|]. right. split_and!; done || lia. }
  apply install_adds in I1.
  destruct (inst l1 (vvar_area im base)) as [e|l2] eqn:I2.
  { apply install_errno in I2. injection H as <- <-. split; [done|]. right. split_and!; try (done || lia).
    exact (munmap_removes l1 (vdso_area im base) (mmap mm) N1 P3 P4 I1 A1). }
  apply install_adds in I2.
  destruct (inst l2 (vtask_area base)) as [e|l3] eqn:I3; injection H as <- <-; (split; [done|]).
  - apply install_errno in I3. right. split_and!; try (done || lia).
    refine (munmap_removes _ (vdso_area im base) (mmap mm) N1 P3 P4
      (munmap_removes l2 (vvar_area im base) (vdso_area im base :: mmap mm) N2 P1 P2 _ _) A1);
      [by rewrite I2, I1|].
    intros w. rewrite elem_of_cons. intros [->|?]; [done|by apply A2].
  - apply install_adds in I3. left. split; [done|]. exists base. split_and!; try done.
    + simpl. by rewrite I3, I2, I1.
    + intros v w Hv' Hw'. apply elem_of_cons in Hw' as [->|Hw'].
      * destruct (Hf v Hv'); [right|left]; simpl; lia.
      * apply elem_of_cons in Hw' as [->|Hw']; [destruct (A2 v Hv'); [right|left]; done|].
        apply list_elem_of_singleton in Hw' as ->. destruct (A1 v Hv'); [right|left]; done.
Qed.

(** After a failed search the areas are installed at what the error number gives. *)
Lemma map_vdso_search_failed im addr0 mm r mm' e :
  image_wf im -> 1 <= e <= MAX_ERRNO ->
  gua (mmap mm) addr0 (size im - sym_vvar_start im + VTASK_SIZE) = 2 ^ 64 - e ->
  map_vdso gua inst munmap false im addr0 mm = (r, mm') ->
  mmap_locked mm' = false /\
  (r = 0 /\ ctx_vdso mm' = VTASK_SIZE - e - sym_vvar_start im /\ ~ page_aligned (ctx_vdso mm') \/
   - MAX_ERRNO <= r <= -1 /\ context_kept mm mm').
Proof.
  intros [Hs Hv Ha] He Hg. unfold MAX_ERRNO in He. assert (VTASK_SIZE = 24576) as HVT by done.
  unfold map_vdso; cbn [mmap set_locked].
  rewrite (wrapu_id 64 (size im - sym_vvar_start im)) by (split; lia).
  rewrite (wrapu_id 64 (size im - sym_vvar_start im + VTASK_SIZE)) by (split; lia).
  rewrite Hg.
  assert (wrapu 64 (2 ^ 64 - e + VTASK_SIZE) = VTASK_SIZE - e) as ->.
  { unfold wrapu. replace (2 ^ 64 - e + VTASK_SIZE) with (VTASK_SIZE - e + 1 * 2 ^ 64) by lia.
    rewrite Z_mod_plus_full. apply Z.mod_small. lia. }
  unfold IS_ERR_VALUE at 1, MAX_ERRNO at 1.
  destruct (Z.leb_spec (2 ^ 64 - 4095) (VTASK_SIZE - e)); [lia|].
  rewrite (wrapu_id 64 (VTASK_SIZE - e - sym_vvar_start im)) by (split; lia).
  destruct (inst (mmap mm) _) as [e1|l1] eqn:I1;
    [|destruct (inst l1 _) as [e2|l2] eqn:I2; [|destruct (inst l2 _) as [e3|l3] eqn:I3]];
    intros [= <- <-]; (split; [done|]);
    [right; split; [by eapply install_errno|done]..|].
  left. split_and!; [done|done|]. simpl. unfold page_aligned, PAGE_SIZE in *. rewrite HVT.
  apply Z.mod_divide in Ha as [k ->]; [|lia]. intros [j Hj]%Z.mod_divide; lia.
Qed.

(** (C8) What map_vdso does to an address space.  Interrupted while it waits for the
    mmap lock it returns -EINTR and changes nothing.  When the search for a free range
    succeeds it is all or nothing: either it returns 0 and the address space has exactly
    the three new areas, adjacent in the order vtask, vvar, vDSO, page aligned and apart
    from every old area, with the context pointing to them; or it returns an error
    number and the areas and the context are what they were.  When the search FAILS it
    is neither: the error goes unnoticed, and either the call returns 0 with the context
    pointing to the unaligned address made of the error number, or a later step fails
    and the context is kept.  The mmap lock is released in every case. *)
Theorem map_vdso_atomic killed im addr0 mm r mm' :
  image_wf im -> page_aligned (size im) ->
  map_vdso gua inst munmap killed im addr0 mm = (r, mm') ->
  let found := gua (mmap mm) addr0 (size im - sym_vvar_start im + VTASK_SIZE) in
  if killed then r = - EINTR /\ mm' = mm
  else
    mmap_locked mm' = false /\
    if IS_ERR_VALUE found then
      r = 0 /\ ctx_vdso mm' = VTASK_SIZE - (2 ^ 64 - found) - sym_vvar_start im /\
        ~ page_aligned (ctx_vdso mm') \/
      - MAX_ERRNO <= r <= -1 /\ context_kept mm mm'
    else
      r = 0 /\ areas_mapped im mm mm' \/
      - MAX_ERRNO <= r <= -1 /\ mmap mm' ≡ₚ mmap mm /\ context_kept mm mm'.
Proof.
  intros Hw Hsz H found. destruct killed; [by injection H as <- <-|].
  destruct (IS_ERR_VALUE found) eqn:E; [|by eapply map_vdso_found].
  unfold IS_ERR_VALUE in E. apply Z.leb_le in E. pose proof Hw as [Hs Hv _].
  destruct (gua_free (mmap mm) addr0 (size im - sym_vvar_start im + VTASK_SIZE)) as [Hr _];
    [assert (VTASK_SIZE = 24576) by done; lia|].
  eapply (map_vdso_search_failed im addr0 mm r mm' (2 ^ 64 - found)); try done;
    subst found; cbv zeta in Hr; lia.
Qed.
End MapVdso.

(** A memory manager that meets the contract: allocate above the highest area. *)
Definition top_of (l : list vma) : Z := foldr (fun v t => Z.max (vm_end v) t) 0 l.
Definition simple_gua (l : list vma) (hint len : Z) : Z :=
  let r := (top_of l + PAGE_SIZE - 1) / PAGE_SIZE * PAGE_SIZE in
  if r + len <=? 2 ^ 47 then r else 2 ^ 64 - ENOMEM.
Definition simple_inst (l : list vma) (v : vma) : Z + list vma := inr (v :: l).
Definition simple_munmap (l : list vma) (a n : Z) : list vma :=
  filter (fun w => ~ (vm_start w = a /\ vm_end w = a + n)) l.

Lemma top_of_le l v : v ∈ l -> vm_end v <= top_of l.
Proof.
  induction l as [|w l IH]; [by intros ?%not_elem_of_nil|].
  intros [->|H]%elem_of_cons; simpl; [lia|]. specialize (IH H). lia.
Qed.

Lemma top_of_nonneg l : 0 <= top_of l.
Proof. induction l; simpl; lia. Qed.

#[export] Instance simple_mm : mm_contract simple_gua simple_inst simple_munmap.
Proof.
  split.
  - intros l hint len Hlen r. unfold r, simple_gua, page_aligned, ENOMEM, PAGE_SIZE.
    pose proof (top_of_nonneg l). pose proof (Z.div_mod (top_of l + 4096 - 1) 4096).
    pose proof (Z.mod_pos_bound (top_of l + 4096 - 1) 4096).
    destruct (Z.leb_spec ((top_of l + 4096 - 1) / 4096 * 4096 + len) (2 ^ 47)); [|split; [lia|done]].
    split; [lia|]. intros _. split; [done|]. split; [by rewrite Z_mod_mult|].
    intros v Hv%top_of_le. right. lia.
  - intros l v l' H. unfold simple_inst in H. by simplify_eq.
  - intros l v e H. discriminate H.
  - intros l v l' Hne _ _ Hp Ha. unfold simple_munmap. rewrite Hp.
    rewrite filter_cons_False by (intros Hc; apply Hc; lia).
    rewrite filter_id; [done|]. intros w Hw%Ha [E1 E2]. destruct Hw; lia.
Qed.

Definition demo_image : vdso_image :=
  VdsoImage 0x1000 0x2000 (-0x4000) (-0x4000) (-0x3000) (-0x2000) (-0x1000) 0 0 0.
Definition demo_mm : mm_struct := Mm [Vma 0x400000 0x401000 VM_READ no_mapping] 0 None 0 false.

Lemma map_vdso_atomic_witness :
  image_wf demo_image /\
  let '(r, mm') := map_vdso simple_gua simple_inst simple_munmap false demo_image 0 demo_mm in
  r = 0 /\ areas_mapped demo_image demo_mm mm'.
Proof.
  assert (image_wf demo_image) as Hw by (by split).
  split; [exact Hw|].
  destruct (map_vdso simple_gua simple_inst simple_munmap false demo_image 0 demo_mm)
    as [r mm'] eqn:E.
  pose proof (map_vdso_atomic false demo_image 0 demo_mm r mm' Hw eq_refl E) as H.
  cbv zeta in H. change (IS_ERR_VALUE _) with false in H. destruct H as [_ [H|[Hr _]]]; [exact H|].
  vm_compute in E. simplify_eq. lia.
Defined.

(** (C9) An error of get_unmapped_area is not noticed: map_vdso adds VTASK_SIZE to the
    result before it tests it, and no error value plus VTASK_SIZE is an error value.
    With a memory manager that accepts the areas it then returns 0 and maps the vDSO at
    an address that is not page aligned. *)
Theorem map_vdso_misses_error gua munmap im addr0 mm e :
  image_wf im -> 1 <= e <= MAX_ERRNO ->
  gua (mmap mm) addr0 (size im - sym_vvar_start im + VTASK_SIZE) = 2 ^ 64 - e ->
  let '(r, mm') := map_vdso gua simple_inst munmap false im addr0 mm in
  r = 0 /\ ctx_vdso mm' = VTASK_SIZE - e - sym_vvar_start im /\
  ~ page_aligned (ctx_vdso mm').
Proof.
  intros [Hs Hv Ha] He Hg. unfold MAX_ERRNO in He. assert (VTASK_SIZE = 24576) as HVT by done.
  unfold map_vdso; cbn [mmap set_locked simple_inst].
  rewrite (wrapu_id 64 (size im - sym_vvar_start im)) by (split; lia).
  rewrite (wrapu_id 64 (size im - sym_vvar_start im + VTASK_SIZE)) by (split; lia).
  rewrite Hg.
  assert (wrapu 64 (2 ^ 64 - e + VTASK_SIZE) = VTASK_SIZE - e) as ->.
  { unfold wrapu. replace (2 ^ 64 - e + VTASK_SIZE) with (VTASK_SIZE - e + 1 * 2 ^ 64) by lia.
    rewrite Z_mod_plus_full. apply Z.mod_small. lia. }
  unfold IS_ERR_VALUE, MAX_ERRNO. destruct (Z.leb_spec (2 ^ 64 - 4095) (VTASK_SIZE - e)); [lia|].
  cbn [ctx_vdso]. rewrite (wrapu_id 64 (VTASK_SIZE - e - sym_vvar_start im)) by (split; lia).
  split_and!; [done|done|]. unfold page_aligned, PAGE_SIZE in *. rewrite HVT.
  apply Z.mod_divide in Ha as [k ->]; [|lia]. intros [j Hj]%Z.mod_divide; lia.
Qed.

Lemma map_vdso_misses_error_witness :
  let '(r, mm') := map_vdso (fun _ _ _ => 2 ^ 64 - ENOMEM) simple_inst simple_munmap false
                     demo_image 0 demo_mm in
  r = 0 /\ ctx_vdso mm' = 0x9ff4 /\ ~ page_aligned (ctx_vdso mm').
Proof.
  apply (map_vdso_misses_error (fun _ _ _ => 2 ^ 64 - ENOMEM) simple_munmap demo_image 0
           demo_mm ENOMEM); [by split|unfold ENOMEM, MAX_ERRNO; lia|reflexivity].
Defined.

(** ** Where the vDSO goes *)

Lemma vdso_addr_start start0 :
  0 <= start0 <= DEFAULT_MAP_WINDOW ->
  let start := Z.land (start0 +u64 (PAGE_SIZE - 1)) PAGE_MASK in
  page_aligned start /\ start0 <= start < start0 + PAGE_SIZE.
Proof.
  unfold page_aligned, DEFAULT_MAP_WINDOW, PAGE_MASK, PAGE_SIZE. intros H.
  rewrite (wrapu_id 64 (start0 + (4096 - 1))) by (split; lia).
  change (wrapu 64 (Z.lnot (4096 - 1))) with (wrapu 64 (Z.lnot (2 ^ 12 - 1))).
  rewrite (land_mask64 12) by (unfold in_u; lia). change (2 ^ 12) with 4096.
  pose proof (Z.div_mod (start0 + (4096 - 1)) 4096).
  pose proof (Z.mod_pos_bound (start0 + (4096 - 1)) 4096).
  split; [|lia]. apply Z.mod_divide; [lia|]. exists ((start0 + (4096 - 1)) / 4096). lia.
Qed.

(** vdso_addr, without forced alignment: the address is page aligned, not below
    the rounded-up start and less than two page-table spans above it, and whenever it is
    not the start itself the image of [len] bytes ends below DEFAULT_MAP_WINDOW.  No
    step of the 32-bit and 64-bit arithmetic wraps around. *)
Theorem vdso_addr_range random start0 len :
  0 <= start0 <= DEFAULT_MAP_WINDOW -> 0 <= len < 2 ^ 20 -> page_aligned len ->
  0 <= random ->
  let start := Z.land (start0 +u64 (PAGE_SIZE - 1)) PAGE_MASK in
  let r := vdso_addr (fun a => a) random start0 len in
  page_aligned r /\ start <= r < start + 2 * PMD_SIZE /\
  (r = start \/ r + len <= DEFAULT_MAP_WINDOW).
Proof.
  intros Hs Hlen Hal Hr start r.
  destruct (vdso_addr_start start0 Hs) as [Hsa Hsb]. fold start in Hsa, Hsb.
  unfold r, vdso_addr. fold start. unfold DEFAULT_MAP_WINDOW, PAGE_SIZE in *.
  rewrite (wrapu_id 64 (start + len)) by (split; lia).
  rewrite (wrapu_id 64 (start + len + PMD_SIZE)) by (unfold PMD_SIZE; split; lia).
  rewrite (wrapu_id 64 (start + len + PMD_SIZE - 1)) by (unfold PMD_SIZE; split; lia).
  unfold PMD_MASK, PMD_SIZE. rewrite (land_mask64 21) by (unfold in_u; lia).
  set (x := start + len + 2 ^ 21 - 1).
  pose proof (Z.div_mod x (2 ^ 21)) as Hx. pose proof (Z.mod_pos_bound x (2 ^ 21)) as Hxm.
  set (e1 := if _ <=? _ then _ else _).
  assert (e1 <= 2 ^ 47 - 4096 /\ e1 <= x /\ len <= e1 /\ page_aligned e1) as (E1 & E2 & E3 & E4).
  { unfold e1, page_aligned, PAGE_SIZE in *.
    destruct (Z.leb_spec (2 ^ 47 - 4096) (x - x mod 2 ^ 21)); (split_and!; try lia); [done|].
    apply Z.mod_divide; [lia|]. exists (x / 2 ^ 21 * 512). lia. }
  rewrite (wrapu_id 64 (e1 - len)) by (split; lia).
  destruct (Z.ltb_spec start (e1 - len)) as [Hlt|]; [|split; [done|lia]].
  rewrite (wrapu_id 64 (e1 - len - start)) by (split; lia).
  unfold PAGE_SHIFT. rewrite Z.shiftr_div_pow2 by lia. change (2 ^ 12) with 4096.
  set (q := (e1 - len - start) / 4096).
  assert (0 <= q <= 512 /\ 4096 * q <= e1 - len - start) as [Hq Hq'].
  { pose proof (Z.div_mod (e1 - len - start) 4096).
    pose proof (Z.mod_pos_bound (e1 - len - start) 4096). unfold q. lia. }
  rewrite (wrapu_id 64 (q + 1)) by (split; lia).
  pose proof (Z.mod_pos_bound random (q + 1)) as Ho.
  rewrite (wrapu_id 32 (random mod (q + 1))) by (split; lia).
  rewrite Z.shiftl_mul_pow2 by lia. change (2 ^ 12) with 4096.
  rewrite (wrapu_id 32) by (unfold in_u; lia). rewrite (wrapu_id 64) by (unfold in_u; lia).
  split; [|lia]. unfold page_aligned, PAGE_SIZE in *.
  by rewrite Z_mod_plus_full.
Qed.

Lemma vdso_addr_range_witness :
  let r := vdso_addr (fun a => a) 12345 0x7ffd0badc0de 0x6000 in
  page_aligned r /\ r = 0x7ffd0bb0c000.
Proof.
  pose proof (vdso_addr_range 12345 0x7ffd0badc0de 0x6000) as H.
  destruct H as [H _]; [vm_compute; by split|lia|reflexivity|lia|].
  split; [exact H|vm_compute; reflexivity].
Defined.

(** ** What the vvar area maps *)

(** The symbol offsets of the linker script vdso-layout.lds.S. *)
Record layout_ok (im : vdso_image) : Prop := LayoutOk {
  lo_start : sym_vvar_start im = -4 * PAGE_SIZE;
  lo_vvar : sym_vvar_page im = sym_vvar_start im;
  lo_pvclock : sym_pvclock_page im = sym_vvar_start im + PAGE_SIZE;
  lo_hvclock : sym_hvclock_page im = sym_vvar_start im + 2 * PAGE_SIZE;
  lo_timens : sym_timens_page im = sym_vvar_start im + 3 * PAGE_SIZE
}.

(** The page that belongs at page [pgoff] of the vvar area. *)
Definition vvar_page_at (cur : bool) (k : vclocks) (pgoff : Z) : option Z :=
  match pgoff with
  | 0 => Some (match find_timens_vvar_page cur k with Some tp => tp | None => vvar_pfn k end)
  | 1 => if pvclock_used k then pvti_pfn k else None
  | 2 => if hvclock_used k then tsc_pfn k else None
  | 3 => match find_timens_vvar_page cur k with Some _ => Some (vvar_pfn k) | None => None end
  | _ => None
  end.

Lemma vvar_page_at_high cur k pgoff : 4 <= pgoff -> vvar_page_at cur k pgoff = None.
Proof.
  intros H. unfold vvar_page_at. destruct pgoff as [|p|p]; [lia| |lia].
  destruct p as [[p|p|]|[p|p|]|]; done || lia.
Qed.

Ltac no_pairs := solve [split_and!; [by intros ?? ?%not_elem_of_nil|done|done]].
Ltac pairs_done d :=
  split_and!; [|done|done]; let a := fresh in let p := fresh in let H := fresh in
  intros a p H%list_elem_of_singleton; simplify_eq; exists d;
  split_and!; [lia|by (left + right)|done].

(** A vvar fault maps, at each address, only the page that belongs there: every
    pair handed to vmf_insert_pfn is the faulting page, or its timens sibling three
    pages up, with the frame [vvar_page_at] says; and the fault is answered with SIGBUS
    and no mapping exactly when no page belongs there. *)
Theorem vvar_fault_maps ins cur k im pgoff address :
  layout_ok im -> 0 <= pgoff < 2 ^ 51 -> 0 <= address -> address + 3 * PAGE_SIZE < 2 ^ 64 ->
  let '(code, pairs) := vvar_fault ins cur k (Some im) pgoff address in
  (forall a p, (a, p) ∈ pairs -> exists d, a = address + d * PAGE_SIZE /\
     (d = 0 \/ d = 3 /\ pgoff = 0) /\ vvar_page_at cur k (pgoff + d) = Some p) /\
  (vvar_page_at cur k pgoff = None <-> pairs = []) /\
  (pairs = [] -> code = VM_FAULT_SIGBUS).
Proof.
  intros [L1 L2 L3 L4 L5] Hp Ha Hb. unfold vvar_fault, PAGE_SHIFT, PAGE_SIZE in *.
  rewrite Z.shiftl_mul_pow2 by lia. change (2 ^ 12) with 4096.
  rewrite (wrapu_id 64 (pgoff * 4096)) by (split; lia).
  rewrite (wraps_id 64 (pgoff * 4096)) by (unfold in_s; lia).
  rewrite (wraps_id 64) by (unfold in_s; lia). rewrite L2, L3, L4, L5, L1.
  destruct (decide (4 <= pgoff)) as [H4|H4].
  { rewrite vvar_page_at_high by done.
    repeat match goal with |- context [?x =? ?y] => destruct (Z.eqb_spec x y); try lia end;
      (split_and!; [by intros ?? ?%not_elem_of_nil|done|done]). }
  assert (pgoff = 0 \/ pgoff = 1 \/ pgoff = 2 \/ pgoff = 3) as [-> | [-> | [-> | ->]]] by lia;
    simpl; unfold vvar_page_at.
  - destruct (find_timens_vvar_page cur k) as [tp|]; [|pairs_done 0].
    rewrite (wrapu_id 64) by (split; lia).
    destruct (flag _ _); [pairs_done 3|].
    split_and!; [|done|done]. intros a p [Hin|Hin%list_elem_of_singleton]%elem_of_cons; simplify_eq.
    + exists 3. split_and!; [lia|by right|done].
    + exists 0. split_and!; [lia|by left|done].
  - destruct (pvti_pfn k), (pvclock_used k); no_pairs || pairs_done 0.
  - destruct (tsc_pfn k), (hvclock_used k); no_pairs || pairs_done 0.
  - destruct (find_timens_vvar_page cur k); no_pairs || pairs_done 0.
Qed.

Lemma vvar_fault_maps_witness :
  layout_ok demo_image /\
  let '(code, pairs) := vvar_fault (fun _ _ => 0x100) true
     (Vclocks 7 None None false None false) (Some demo_image) 0 0x7000 in
  pairs = [(0x7000, 7)] /\ (pairs = [] -> code = VM_FAULT_SIGBUS).
Proof.
  assert (layout_ok demo_image) as Hl by (by split). split; [exact Hl|].
  split; [reflexivity|].
  exact (proj2 (proj2 (vvar_fault_maps (fun _ _ => 0x100) true
    (Vclocks 7 None None false None false) demo_image 0 0x7000 Hl
    ltac:(lia) ltac:(lia) ltac:(unfold PAGE_SIZE; lia)))).
Defined.

End Vdso.
