(* ===== verification/Ramfs.v ===== *)
(** * ramfs: inodes, mount options, the binding interface
      (src/kvm/linux-5.15.178/fs/ramfs/inode.c, internal.h)

    [Inodes]: creation of inodes and directory entries on a tree of inodes.
    [Mount]: mount options, the super block, its release.
    [ProcBind]: the /proc/fs/ramfs/bind interface: parsing of a request in the kernel
    buffer, and ramfs_bind, which attaches a persistence directory to a mount.
    [Lifecycle]: the memory of a mount over all its operations.
    The VFS functions these call are parameters. *)

From S2P Require Import Prelude.

Definition S_IFMT : Z := 0xF000.
Definition S_IFREG : Z := 0x8000.
Definition S_IFDIR : Z := 0x4000.
Definition S_IFLNK : Z := 0xA000.
Definition S_IRWXUGO : Z := 0x1FF.
Definition S_IALLUGO : Z := 0xFFF.
Definition RAMFS_DEFAULT_MODE : Z := 0x1ED.
Definition RAMFS_MAGIC : Z := 0x858458f6.

Module Inodes.

(** Which operation tables ramfs_get_inode installs. *)
Inductive iops := no_iop | special_inode | ramfs_file_iop | ramfs_dir_iop | symlink_iop.

Record inode := Inode {
  i_ino : Z;
  i_mode : Z;
  i_nlink : Z;
  i_op : iops;
  i_time : Z;             (* i_atime = i_mtime = i_ctime at creation *)
  i_rdev : Z;
  i_nohighmem : bool
}.

(** The file system: inodes by number, directory entries (directory, name, inode)
    pinned in core, the next number of get_next_ino. *)
Record fstree := FsTree {
  inodes : gmap Z inode;
  dentries : list (Z * list Z * Z);
  next_ino : Z
}.

Section Create.
(** new_inode may fail; inode_init_owner computes the mode of the new inode from the
    directory's; page_symlink stores a link's target; [now] is current_time. *)
Context (new_inode_ok : bool) (init_owner_mode : option inode -> Z -> Z).
Context (page_symlink_ret : Z) (now : Z).

(** ramfs_get_inode: new_inode starts with one link. *)
Definition ramfs_get_inode (dir : option inode) (mode dev : Z) (t : fstree)
    : option inode * fstree :=
  if negb new_inode_ok then (None, t)
  else
    let ino := next_ino t in
    let m := init_owner_mode dir mode in
    let fmt := Z.land mode S_IFMT in
    let i :=
      if fmt =? S_IFREG then Inode ino m 1 ramfs_file_iop now 0 false
      else if fmt =? S_IFDIR then Inode ino m 2 ramfs_dir_iop now 0 false
      else if fmt =? S_IFLNK then Inode ino m 1 symlink_iop now 0 true
      else Inode ino m 1 special_inode now dev false in
    (Some i, FsTree (inodes t) (dentries t) (ino + 1)).

(** d_instantiate and dget: the entry is there and stays; the directory's times. *)
Definition add_entry (dir : Z) (name : list Z) (i : inode) (t : fstree) : fstree :=
  let t1 := FsTree (<[i_ino i:=i]> (inodes t)) ((dir, name, i_ino i) :: dentries t) (next_ino t) in
  match inodes t1 !! dir with
  | Some d => FsTree (<[dir:=Inode (i_ino d) (i_mode d) (i_nlink d) (i_op d) now (i_rdev d)
                             (i_nohighmem d)]> (inodes t1)) (dentries t1) (next_ino t1)
  | None => t1
  end.

Definition ramfs_mknod (dir : Z) (name : list Z) (mode dev : Z) (t : fstree) : Z * fstree :=
  match ramfs_get_inode (inodes t !! dir) mode dev t with
  | (Some i, t1) => (0, add_entry dir name i t1)
  | (None, t1) => (- ENOSPC, t1)
  end.

Definition inc_nlink (ino : Z) (t : fstree) : fstree :=
  match inodes t !! ino with
  | Some d => FsTree (<[ino:=Inode (i_ino d) (i_mode d) (i_nlink d + 1) (i_op d) (i_time d)
                             (i_rdev d) (i_nohighmem d)]> (inodes t)) (dentries t) (next_ino t)
  | None => t
  end.

Definition ramfs_mkdir (dir : Z) (name : list Z) (mode : Z) (t : fstree) : Z * fstree :=
  let '(retval, t1) := ramfs_mknod dir name (Z.lor mode S_IFDIR) 0 t in
  if retval =? 0 then (retval, inc_nlink dir t1) else (retval, t1).

Definition ramfs_create (dir : Z) (name : list Z) (mode : Z) (t : fstree) : Z * fstree :=
  ramfs_mknod dir name (Z.lor mode S_IFREG) 0 t.

(** A link whose target cannot be stored is dropped (iput). *)
Definition ramfs_symlink (dir : Z) (name : list Z) (t : fstree) : Z * fstree :=
  match ramfs_get_inode (inodes t !! dir) (Z.lor S_IFLNK S_IRWXUGO) 0 t with
  | (Some i, t1) =>
      if page_symlink_ret =? 0 then (0, add_entry dir name i t1) else (page_symlink_ret, t1)
  | (None, t1) => (- ENOSPC, t1)
  end.

(** d_tmpfile: an inode without an entry and without links. *)
Definition ramfs_tmpfile (dir : Z) (mode : Z) (t : fstree) : Z * fstree :=
  match ramfs_get_inode (inodes t !! dir) mode 0 t with
  | (Some i, t1) =>
      (0, FsTree (<[i_ino i:=Inode (i_ino i) (i_mode i) (i_nlink i - 1) (i_op i) (i_time i)
                           (i_rdev i) (i_nohighmem i)]> (inodes t1)) (dentries t1) (next_ino t1))
  | (None, t1) => (- ENOSPC, t1)
  end.

End Create.

(** ** The link count invariant *)

Definition is_dir (i : inode) : bool := match i_op i with ramfs_dir_iop => true | _ => false end.

(** Whether an entry is a directory in [dir]; the number of those. *)
Definition subdir_of (m : gmap Z inode) (dir : Z) (e : Z * list Z * Z) : bool :=
  (e.1.1 =? dir) && match m !! e.2 with Some i => is_dir i | None => false end.
Definition subdirs (t : fstree) (dir : Z) : nat :=
  countb (subdir_of (inodes t) dir) (dentries t).

(** The numbers of the inodes are their keys, entries join existing inodes, and the
    link count of every directory is two plus the number of its subdirectories, except
    that the count of [dir] is short by [k]. *)
Record tree_short (dir k : Z) (t : fstree) : Prop := TreeShort {
  tw_ino : forall n i, inodes t !! n = Some i -> i_ino i = n /\ n < next_ino t;
  tw_entry : forall d nm n, (d, nm, n) ∈ dentries t ->
               is_Some (inodes t !! n) /\ is_Some (inodes t !! d);
  tw_nlink : forall n i, inodes t !! n = Some i -> is_dir i = true ->
               i_nlink i + (if n =? dir then k else 0) = 2 + Z.of_nat (subdirs t n)
}.
Definition tree_wf (t : fstree) : Prop := tree_short 0 0 t.

Lemma tree_wf_short dir t : tree_wf t <-> tree_short dir 0 t.
Proof.
  split; intros [H1 H2 H3]; split; try done; intros n i Hi Hd;
    rewrite <- (H3 n i Hi Hd); by repeat case_match.
Qed.

Section Preserve.
Context (iom : option inode -> Z -> Z) (psr now : Z).

Lemma fresh_ino t n k i : tree_short n k t -> inodes t !! next_ino t = Some i -> False.
Proof. intros [H _ _] Hi. apply H in Hi. lia. Qed.

(** The entries' kinds after an entry for the fresh inode [i] was added. *)
Lemma add_entry_subdirs dir name i t x :
  tree_wf t -> i_ino i = next_ino t -> is_Some (inodes t !! dir) ->
  subdirs (add_entry now dir name i t) x =
  ((if (dir =? x)%Z && is_dir i then 1 else 0) + subdirs t x)%nat.
Proof.
  intros Hwf Hino [d Hd]. set (n := next_ino t) in *.
  assert (inodes t !! n = None) as Hn.
  { destruct (inodes t !! n) eqn:E; [|done]. by apply (fresh_ino t 0 0 i0) in Hwf. }
  assert (dir <> n) as Hne by congruence.
  unfold add_entry. cbn [inodes dentries next_ino]. rewrite Hino.
  rewrite lookup_insert_ne, Hd by done. unfold subdirs; cbn [inodes dentries countb].
  f_equal.
  - unfold subdir_of; cbn [fst snd]. rewrite lookup_insert_ne, lookup_insert_eq by done. done.
  - apply countb_ext. intros [[e1 e2] e3] He. unfold subdir_of; cbn [fst snd]. f_equal.
    destruct (tw_entry _ _ _ Hwf _ _ _ He) as [[j Hj] _].
    destruct (decide (e3 = dir)) as [->|]; [by rewrite lookup_insert_eq, Hd|].
    rewrite !lookup_insert_ne; [done|congruence|done].
Qed.

(** Adding an entry for a fresh inode leaves the directory short by one link exactly
    when the new inode is a directory. *)
Lemma add_entry_short dir name i t :
  tree_wf t -> i_ino i = next_ino t -> is_Some (inodes t !! dir) ->
  (is_dir i = true -> i_nlink i = 2) ->
  tree_short dir (if is_dir i then 1 else 0)
    (add_entry now dir name i (FsTree (inodes t) (dentries t) (next_ino t + 1))).
Proof.
  intros Hwf Hino Hdir Hdirlink. pose proof Hdir as [d Hd]. set (n := next_ino t) in *.
  set (t' := add_entry _ _ _ _ _).
  assert (inodes t !! n = None) as Hn.
  { destruct (inodes t !! n) eqn:E; [|done]. by apply (fresh_ino t 0 0 i0) in Hwf. }
  assert (dir <> n) as Hne by congruence.
  assert (inodes t' = <[dir:=Inode (i_ino d) (i_mode d) (i_nlink d) (i_op d) now (i_rdev d)
    (i_nohighmem d)]> (<[n:=i]> (inodes t)) /\ dentries t' = (dir, name, n) :: dentries t /\
    next_ino t' = n + 1) as (E1 & E2 & E3).
  { unfold t', add_entry; cbn [inodes dentries next_ino]. rewrite Hino.
    by rewrite lookup_insert_ne, Hd. }
  assert (forall x, subdirs t' x = ((if (dir =? x)%Z && is_dir i then 1 else 0) + subdirs t x)%nat) as Hsub.
  { intros x. unfold t'. rewrite <- (add_entry_subdirs dir name i t x Hwf Hino Hdir).
    unfold add_entry, subdirs; simpl. by case_match. }
  pose proof Hwf as [W1 W2 W3]. split.
  - intros x j. rewrite E1, E3, lookup_insert_Some. intros [[<- <-]|[_ Hj]].
    + apply W1 in Hd. simpl. fold n in Hd. lia.
    + apply lookup_insert_Some in Hj as [[<- <-]|[_ Hj]]; [lia|]. apply W1 in Hj. fold n in Hj. lia.
  - intros a nm x. rewrite E1, E2, elem_of_cons, !lookup_insert_is_Some'. intros [He|He].
    + simplify_eq. by auto.
    + apply W2 in He as [? ?]. by auto.
  - intros x j. rewrite E1, Hsub, lookup_insert_Some. intros [[<- <-]|[Hx Hj]] Hisd.
    + specialize (W3 dir d Hd Hisd). simpl. rewrite Z.eqb_refl. simpl.
      destruct (dir =? 0), (is_dir i); lia.
    + rewrite (proj2 (Z.eqb_neq x dir)), (proj2 (Z.eqb_neq dir x)) by congruence. simpl.
      apply lookup_insert_Some in Hj as [[<- <-]|[_ Hj]].
      * rewrite Hdirlink by done. assert (subdirs t n = 0)%nat as ->; [|lia].
        apply countb_none. intros [[a nm] y] He. unfold subdir_of; simpl.
        apply W2 in He as [_ [? Ha]]. destruct (Z.eqb_spec a n); [congruence|done].
      * specialize (W3 x j Hj Hisd). destruct (x =? 0); lia.
Qed.

Lemma inc_nlink_wf dir t : tree_short dir 1 t -> is_Some (inodes t !! dir) -> tree_wf (inc_nlink dir t).
Proof.
  intros [W1 W2 W3] [d Hd]. unfold inc_nlink. rewrite Hd. apply (tree_wf_short dir).
  split; cbn [inodes dentries next_ino].
  - intros n i [[<- <-]|[_ Hi]]%lookup_insert_Some; [by apply W1 in Hd|by apply W1].
  - intros a nm n. rewrite !lookup_insert_is_Some'. intros [? ?]%W2. by auto.
  - intros n i Hi Hisd.
    assert (forall x, subdirs (FsTree (<[dir:=Inode (i_ino d) (i_mode d) (i_nlink d + 1) (i_op d)
      (i_time d) (i_rdev d) (i_nohighmem d)]> (inodes t)) (dentries t) (next_ino t)) x = subdirs t x) as Hs.
    { intros x. apply countb_ext. intros e _. unfold subdir_of; cbn [inodes]. f_equal.
      destruct (decide (e.2 = dir)) as [->|]; [by rewrite lookup_insert_eq, Hd|by rewrite lookup_insert_ne]. }
    rewrite Hs. apply lookup_insert_Some in Hi as [[<- <-]|[Hne Hi]].
    + specialize (W3 dir d Hd Hisd). rewrite Z.eqb_refl in *. simpl. lia.
    + specialize (W3 n i Hi Hisd). destruct (Z.eqb_spec n dir); [congruence|lia].
Qed.
Lemma get_inode_new ok d mode dev t i t1 :
  ramfs_get_inode ok iom now d mode dev t = (Some i, t1) ->
  i_ino i = next_ino t /\ t1 = FsTree (inodes t) (dentries t) (next_ino t + 1) /\
  is_dir i = (Z.land mode S_IFMT =? S_IFDIR) /\ (is_dir i = true -> i_nlink i = 2).
Proof.
  unfold ramfs_get_inode. destruct ok; simpl; [|done]. intros [= <- <-].
  destruct (Z.eqb_spec (Z.land mode S_IFMT) S_IFREG) as [E|]; [by rewrite E|].
  destruct (Z.eqb_spec (Z.land mode S_IFMT) S_IFDIR); [done|].
  by destruct (Z.land mode S_IFMT =? S_IFLNK).
Qed.

Lemma get_inode_none ok d mode dev t t1 :
  ramfs_get_inode ok iom now d mode dev t = (None, t1) -> t1 = t.
Proof. unfold ramfs_get_inode. destruct ok; simpl; [done|by intros [= <-]]. Qed.

Lemma mknod_short ok dir name mode dev t r t' :
  tree_wf t -> is_Some (inodes t !! dir) ->
  ramfs_mknod ok iom now dir name mode dev t = (r, t') ->
  (r = 0 /\ tree_short dir (if Z.land mode S_IFMT =? S_IFDIR then 1 else 0) t' /\
     is_Some (inodes t' !! dir)) \/
  (r = - ENOSPC /\ t' = t).
Proof.
  intros Hwf Hd. unfold ramfs_mknod.
  destruct (ramfs_get_inode ok iom now (inodes t !! dir) mode dev t) as [[i|] t1] eqn:E.
  - apply get_inode_new in E as (Hi & -> & Hk & Hl). intros [= <- <-]. left.
    split; [done|]. rewrite <- Hk. split; [by apply add_entry_short|].
    unfold add_entry; simpl. case_match; simpl; rewrite ?lookup_insert_is_Some'; auto.
  - apply get_inode_none in E as ->. intros [= <- <-]. by right.
Qed.
End Preserve.

(** One directory operation, as the VFS calls them: [dir] exists and the permission
    bits of [mode] carry no file type, except that mknod gets a type that is not a
    directory. *)
Inductive tree_op : fstree -> Z -> fstree -> Prop :=
| op_mkdir ok iom now dir name mode t r t' :
    is_Some (inodes t !! dir) -> Z.land mode S_IFMT = 0 ->
    ramfs_mkdir ok iom now dir name mode t = (r, t') -> tree_op t r t'
| op_create ok iom now dir name mode t r t' :
    is_Some (inodes t !! dir) -> Z.land mode S_IFMT = 0 ->
    ramfs_create ok iom now dir name mode t = (r, t') -> tree_op t r t'
| op_mknod ok iom now dir name mode dev t r t' :
    is_Some (inodes t !! dir) -> Z.land mode S_IFMT <> S_IFDIR ->
    ramfs_mknod ok iom now dir name mode dev t = (r, t') -> tree_op t r t'
| op_symlink ok iom psr now dir name t r t' :
    is_Some (inodes t !! dir) ->
    ramfs_symlink ok iom psr now dir name t = (r, t') -> tree_op t r t'
| op_tmpfile ok iom now dir mode t r t' :
    Z.land mode S_IFMT = S_IFREG ->
    ramfs_tmpfile ok iom now dir mode t = (r, t') -> tree_op t r t'.

Lemma type_bits mode ty : Z.land mode S_IFMT = 0 -> Z.land ty S_IFMT = ty ->
  Z.land (Z.lor mode ty) S_IFMT = ty.
Proof. intros H1 H2. by rewrite Z.land_lor_distr_l, H1, H2, Z.lor_0_l. Qed.

Lemma bump_wf t : tree_wf t -> tree_wf (FsTree (inodes t) (dentries t) (next_ino t + 1)).
Proof.
  intros [W1 W2 W3]. split; try done. cbn [inodes next_ino]. intros n i Hi.
  apply W1 in Hi. lia.
Qed.

Lemma tmpfile_wf i t :
  tree_wf t -> i_ino i = next_ino t -> is_dir i = false ->
  tree_wf (FsTree (<[next_ino t:=i]> (inodes t)) (dentries t) (next_ino t + 1)).
Proof.
  intros Hwf Hino Hd. pose proof Hwf as [W1 W2 W3]. split; cbn [inodes dentries next_ino].
  - intros n j [[<- <-]|[_ Hj]]%lookup_insert_Some; [lia|]. apply W1 in Hj. lia.
  - intros a nm n. rewrite !lookup_insert_is_Some'. intros [? ?]%W2. by auto.
  - intros n j [[<- <-]|[_ Hj]]%lookup_insert_Some Hisd; [congruence|].
    rewrite (W3 n j Hj Hisd). f_equal. f_equal. apply countb_ext. intros [[a nm] x] He.
    unfold subdir_of; cbn [inodes fst snd]. f_equal. apply W2 in He as [[y Hy] _].
    rewrite lookup_insert_ne; [done|]. intros <-. by eapply fresh_ino.
Qed.

(** Every operation that creates something in ramfs (mkdir, create, mknod,
    symlink, tmpfile) keeps the tree well formed: inode numbers are unique, entries join
    existing inodes, and the link count of each directory is two plus the number of its
    subdirectories; an operation that fails adds no inode and no entry. *)
Theorem ramfs_tree_preserved t r t' :
  tree_op t r t' -> tree_wf t ->
  tree_wf t' /\ (r <> 0 -> inodes t' = inodes t /\ dentries t' = dentries t).
Proof.
  destruct 1 as [ok iom now dir name mode t r t' Hd Hm H|ok iom now dir name mode t r t' Hd Hm H
    |ok iom now dir name mode dev t r t' Hd Hm H|ok iom psr now dir name t r t' Hd H
    |ok iom now dir mode t r t' Hm H]; intros Hwf.
  - unfold ramfs_mkdir in H. destruct (ramfs_mknod _ _ _ _ _ _ _ _) as [r1 t1] eqn:E.
    destruct (mknod_short _ _ _ _ _ _ _ _ _ _ Hwf Hd E) as [(-> & Hs & Hd')|[-> ->]];
      injection H as <- <-; [|done].
    rewrite type_bits in Hs by done. split; [by apply inc_nlink_wf|done].
  - unfold ramfs_create in H.
    destruct (mknod_short _ _ _ _ _ _ _ _ _ _ Hwf Hd H) as [(-> & Hs & _)|[-> ->]]; [|done].
    rewrite type_bits in Hs by done. split; [by apply (tree_wf_short dir)|done].
  - destruct (mknod_short _ _ _ _ _ _ _ _ _ _ Hwf Hd H) as [(-> & Hs & _)|[-> ->]]; [|done].
    rewrite (proj2 (Z.eqb_neq _ _) Hm) in Hs. split; [by apply (tree_wf_short dir)|done].
  - unfold ramfs_symlink in H. destruct (ramfs_get_inode _ _ _ _ _ _ _) as [[i|] t1] eqn:E.
    + apply get_inode_new in E as (Hi & -> & Hk & Hl).
      destruct (Z.eqb_spec psr 0); injection H as <- <-; [|split; [by apply bump_wf|done]].
      split; [|done]. apply (tree_wf_short dir).
      pose proof (add_entry_short now dir name i t Hwf Hi Hd Hl) as Hs. by rewrite Hk in Hs.
    + apply get_inode_none in E as ->. injection H as <- <-. done.
  - unfold ramfs_tmpfile in H. destruct (ramfs_get_inode _ _ _ _ _ _ _) as [[i|] t1] eqn:E.
    + apply get_inode_new in E as (Hi & -> & Hk & Hl). injection H as <- <-. split; [|done].
      cbn [inodes dentries next_ino]. rewrite Hi. apply tmpfile_wf; [done|done|].
      change (is_dir i = false). by rewrite Hk, Hm.
    + apply get_inode_none in E as ->. injection H as <- <-. done.
Qed.

(** The tree of a fresh mount: the root directory. *)
Definition root_tree : fstree :=
  FsTree {[1 := Inode 1 0x41ED 2 ramfs_dir_iop 0 0 false]} [] 2.

Lemma root_tree_wf : tree_wf root_tree.
Proof.
  split; unfold root_tree; cbn [inodes dentries next_ino].
  - intros n i [<- <-]%lookup_singleton_Some. simpl. lia.
  - intros d nm n H. by apply not_elem_of_nil in H.
  - intros n i [<- <-]%lookup_singleton_Some _. reflexivity.
Qed.

Lemma ramfs_tree_preserved_witness :
  let t' := snd (ramfs_mkdir true (fun _ m => m) 7 1 [97] 0x1ED root_tree) in
  tree_wf t' /\ i_nlink <$> inodes t' !! 1 = Some 3.
Proof.
  split; [|vm_compute; reflexivity].
  eapply ramfs_tree_preserved; [|exact root_tree_wf].
  eapply (op_mkdir true (fun _ m => m) 7 1 [97] 0x1ED root_tree);
    [by eexists|reflexivity|apply surjective_pairing].
Defined.

End Inodes.

Module Mount.

(** struct ramfs_fs_info: the mount options and the persistence directory, a pointer to
    a string in the kernel heap (0 is NULL). *)
Record ramfs_fs_info := FsInfo { mode : Z; sync_dir : Z }.

(** The part of the kernel heap this component owns. *)
Inductive obj := OFsi (fsi : ramfs_fs_info) | OStr (s : list Z).
Record heap := Heap { cells : gmap Z obj; brk : Z }.

(** kmalloc/kzalloc/kstrdup of an object, which may fail; kfree, [None] when the address
    is not an allocated object. *)
Definition kalloc (ok : bool) (o : obj) (h : heap) : Z * heap :=
  if ok then (brk h, Heap (<[brk h:=o]> (cells h)) (brk h + 1)) else (0, h).
Definition kfree (p : Z) (h : heap) : option heap :=
  if p =? 0 then Some h
  else match cells h !! p with
       | Some _ => Some (Heap (delete p (cells h)) (brk h))
       | None => None
       end.
Definition fsi_at (p : Z) (h : heap) : option ramfs_fs_info :=
  match cells h !! p with Some (OFsi f) => Some f | _ => None end.
Definition set_fsi (p : Z) (f : ramfs_fs_info) (h : heap) : heap :=
  Heap (<[p:=OFsi f]> (cells h)) (brk h).

Definition MAX_LFS_FILESIZE : Z := 2 ^ 63 - 1.

Record super_block := SuperBlock {
  s_fs_info : Z; s_maxbytes : Z; s_blocksize : Z; s_blocksize_bits : Z; s_magic : Z;
  s_time_gran : Z; s_root : option Inodes.inode
}.

(** ramfs_init_fs_context: the new fc->s_fs_info. *)
Definition ramfs_init_fs_context (kzalloc_ok : bool) (fc : Z) (h : heap) : Z * Z * heap :=
  let '(p, h1) := kalloc kzalloc_ok (OFsi (FsInfo 0 0)) h in
  if p =? 0 then (- ENOMEM, fc, h1)
  else (0, p, set_fsi p (FsInfo RAMFS_DEFAULT_MODE 0) h1).

(** ramfs_parse_param, on what fs_parse answers: the option number (Opt_mode is 0) or an
    error, and the value. *)
Definition ramfs_parse_param (fs_parse : list Z -> list Z -> Z * Z) (fc : Z)
    (key value : list Z) (h : heap) : option (Z * heap) :=
  let '(opt, uint_32) := fs_parse key value in
  if opt <? 0 then Some (if opt =? - ENOPARAM then 0 else opt, h)
  else if opt =? 0 then
    f ← fsi_at fc h;
    Some (0, set_fsi fc (FsInfo (Z.land uint_32 S_IALLUGO) (sync_dir f)) h)
  else Some (0, h).

(** ramfs_fill_super; [d_make_root] drops the inode when it cannot make the dentry. *)
Definition ramfs_fill_super (new_inode_ok d_alloc_ok : bool)
    (iom : option Inodes.inode -> Z -> Z) (now : Z) (sb : super_block) (h : heap)
    : option (Z * super_block * heap) :=
  f ← fsi_at (s_fs_info sb) h;
  let h1 := set_fsi (s_fs_info sb) (FsInfo (mode f) 0) h in
  let inode := fst (Inodes.ramfs_get_inode new_inode_ok iom now None (Z.lor S_IFDIR (mode f)) 0
                      (Inodes.FsTree ∅ [] 1)) in
  let root := if d_alloc_ok then inode else None in
  let sb1 := SuperBlock (s_fs_info sb) MAX_LFS_FILESIZE 4096 12 RAMFS_MAGIC 1 root in
  match root with
  | None => Some (- ENOMEM, sb1, h1)
  | Some _ => Some (0, sb1, h1)
  end.

Definition ramfs_free_fc (fc : Z) (h : heap) : option heap := kfree fc h.

(** ramfs_kill_sb: the persistence directory first, then the info. *)
Definition ramfs_kill_sb (sb : super_block) (h : heap) : option heap :=
  let p := s_fs_info sb in
  if p =? 0 then kfree p h
  else
    f ← fsi_at p h;
    h1 ← (if negb (sync_dir f =? 0) then kfree (sync_dir f) h else Some h);
    kfree p h1.

(** %o of an unsigned value, and the value of octal digits; fuel 64 is enough for any
    C integer. *)
Fixpoint oct_digits (fuel : nat) (x : Z) (acc : list Z) : list Z :=
  match fuel with
  | O => acc
  | S n => if x <? 8 then 48 + x :: acc else oct_digits n (x / 8) (48 + x mod 8 :: acc)
  end.
Definition print_oct (x : Z) : list Z := oct_digits 64 x [].
Definition oct_value (l : list Z) : Z := foldl (fun a d => 8 * a + (d - 48)) 0 l.

(** ramfs_show_options: what it appends to the line of /proc/mounts. *)
Definition ramfs_show_options (fsi : ramfs_fs_info) : list Z :=
  if negb (mode fsi =? RAMFS_DEFAULT_MODE)
  then bytes_of_string ",mode=" ++ print_oct (mode fsi) else [].

(** ** The proc interface: directory, bind and sync entries (false: absent) *)
Record proc_entries := ProcEntries { p_root : bool; p_bind : bool; p_sync : bool }.

(** ramfs_proc_init, on which of the three creations succeed: the static pointers and
    the entries that exist. *)
Definition ramfs_proc_init (mk_root mk_bind mk_sync : bool) : Z * proc_entries * proc_entries :=
  if negb mk_root then (- ENOMEM, ProcEntries false false false, ProcEntries false false false)
  else if negb mk_bind then
    (- ENOMEM, ProcEntries true false false, ProcEntries false false false)
  else if negb mk_sync then
    (- ENOMEM, ProcEntries true true false, ProcEntries false false false)
  else (0, ProcEntries true true true, ProcEntries true true true).

(** ramfs_proc_exit: removes what the pointers name; [None] for an entry that is gone. *)
Definition ramfs_proc_exit (ptrs live : proc_entries) : option proc_entries :=
  if (p_sync ptrs && negb (p_sync live)) || (p_bind ptrs && negb (p_bind live))
     || (p_root ptrs && negb (p_root live)) then None
  else Some (ProcEntries (p_root live && negb (p_root ptrs)) (p_bind live && negb (p_bind ptrs))
               (p_sync live && negb (p_sync ptrs))).

(** init_ramfs_fs ignores the result of ramfs_proc_init. *)
Definition init_ramfs_fs (register_ret : Z) (mk_root mk_bind mk_sync : bool)
    : Z * proc_entries :=
  if register_ret =? 0
  then (register_ret, snd (ramfs_proc_init mk_root mk_bind mk_sync))
  else (register_ret, ProcEntries false false false).

(** ** Mount options survive /proc/mounts *)

Lemma oct_digits_value fuel x acc :
  0 <= x < 8 ^ Z.of_nat fuel ->
  oct_value (oct_digits fuel x acc) = foldl (fun a d => 8 * a + (d - 48)) x acc.
Proof.
  revert x acc. induction fuel as [|n IH]; intros x acc Hx.
  - replace x with 0 by (simpl in Hx; lia). done.
  - rewrite Nat2Z.inj_succ, Z.pow_succ_r in Hx by lia. simpl.
    destruct (Z.ltb_spec x 8).
    + unfold oct_value. simpl. f_equal. lia.
    + pose proof (Z.div_mod x 8). rewrite IH; simpl.
      * f_equal. lia.
      * split; [apply Z.div_pos; lia|apply Z.div_lt_upper_bound; lia].
Qed.

Lemma oct_digits_octal fuel x acc :
  0 <= x -> Forall (fun d => 48 <= d <= 55) acc ->
  Forall (fun d => 48 <= d <= 55) (oct_digits fuel x acc).
Proof.
  revert x acc. induction fuel as [|n IH]; intros x acc Hx Ha; [done|]. simpl.
  destruct (Z.ltb_spec x 8).
  - constructor; [lia|done].
  - pose proof (Z.mod_pos_bound x 8). apply IH; [apply Z.div_pos; lia|].
    constructor; [lia|done].
Qed.

Lemma oct_digits_ne fuel x acc : fuel <> O \/ acc <> [] -> oct_digits fuel x acc <> [].
Proof.
  revert x acc. induction fuel as [|n IH]; intros x acc [H|H]; simpl; try done;
    (destruct (x <? 8); [done|by apply IH; right]).
Qed.

(** The documented behaviour of fs_parse for [fsparam_u32oct("mode", Opt_mode)]: octal
    digits of a 32-bit value are the option [Opt_mode] with that value. *)
Definition fs_parse_u32oct (fs_parse : list Z -> list Z -> Z * Z) : Prop :=
  forall v, v <> [] -> Forall (fun d => 48 <= d <= 55) v -> oct_value v < 2 ^ 32 ->
  fs_parse (bytes_of_string "mode") v = (0, oct_value v).

(** The options /proc/mounts shows for a mount give the same mode when they are
    passed to a new mount: the default is not shown and is what a new context has, any
    other mode is shown in octal and parses back to itself. *)
Theorem ramfs_options_roundtrip fs_parse fsi fc h :
  fs_parse_u32oct fs_parse -> 0 <= mode fsi <= S_IALLUGO -> 0 < brk h ->
  fsi_at fc h <> None ->
  (ramfs_show_options fsi = [] /\
     exists p h', ramfs_init_fs_context true 0 h = (0, p, h') /\
       mode <$> fsi_at p h' = Some (mode fsi)) \/
  (exists v h', ramfs_show_options fsi = bytes_of_string ",mode=" ++ v /\
     ramfs_parse_param fs_parse fc (bytes_of_string "mode") v h = Some (0, h') /\
     mode <$> fsi_at fc h' = Some (mode fsi)).
Proof.
  intros Hp Hm Hb Hfc. unfold ramfs_show_options.
  destruct (Z.eqb_spec (mode fsi) RAMFS_DEFAULT_MODE) as [E|E]; simpl.
  - left. split; [done|].
    unfold ramfs_init_fs_context, kalloc. rewrite (proj2 (Z.eqb_neq (brk h) 0)) by lia.
    do 2 eexists. split; [done|]. unfold fsi_at, set_fsi; simpl.
    rewrite lookup_insert_eq. simpl. by rewrite E.
  - right. exists (print_oct (mode fsi)).
    assert (oct_value (print_oct (mode fsi)) = mode fsi) as Hv.
    { apply oct_digits_value. unfold S_IALLUGO in Hm. simpl. lia. }
    unfold ramfs_parse_param. rewrite Hp.
    + rewrite Hv. simpl. destruct (fsi_at fc h) eqn:Ef; [simpl|done].
      eexists. split; [done|]. split; [done|]. unfold fsi_at, set_fsi; simpl.
      rewrite lookup_insert_eq. simpl. f_equal. unfold S_IALLUGO in *.
      change 0xFFF with (Z.ones 12). rewrite Z.land_ones by lia. apply Z.mod_small. lia.
    + by apply oct_digits_ne; left.
    + apply oct_digits_octal; [lia|constructor].
    + rewrite Hv. unfold S_IALLUGO in Hm. lia.
Qed.

Lemma ramfs_options_roundtrip_witness :
  fs_parse_u32oct (fun _ v => (0, oct_value v)) /\
  ((ramfs_show_options (FsInfo 0x1C0 0) = [] /\
     exists p h', ramfs_init_fs_context true 0 (Heap {[5 := OFsi (FsInfo 0 0)]} 6) = (0, p, h') /\
       mode <$> fsi_at p h' = Some 0x1C0) \/
   (exists v h', ramfs_show_options (FsInfo 0x1C0 0) = bytes_of_string ",mode=" ++ v /\
     ramfs_parse_param (fun _ v => (0, oct_value v)) 5 (bytes_of_string "mode") v
       (Heap {[5 := OFsi (FsInfo 0 0)]} 6) = Some (0, h') /\
     mode <$> fsi_at 5 h' = Some 0x1C0)).
Proof.
  split; [intros v _ _ _; reflexivity|].
  apply (ramfs_options_roundtrip (fun _ v => (0, oct_value v)) (FsInfo 0x1C0 0) 5);
    [intros v _ _ _; reflexivity|unfold S_IALLUGO; simpl; lia|simpl; lia|vm_compute; discriminate].
Defined.


End Mount.

Module ProcBind.
Import Mount.

(** A resolved path: its identity, the super block it lies on and its inode's mode. *)
Record path := Path { p_id : Z; p_sb : option super_block; p_mode : Z }.

(** The heap and the path references held, one entry per reference. *)
Record world := World { hp : heap; refs : list Z }.

Definition path_get (p : path) (w : world) : world := World (hp w) (p_id p :: refs w).
Fixpoint remove_one (x : Z) (l : list Z) : option (list Z) :=
  match l with
  | [] => None
  | y :: l' => if x =? y then Some l' else y' ← remove_one x l'; Some (y :: y')
  end.
Definition path_put (p : path) (w : world) : option world :=
  r ← remove_one (p_id p) (refs w); Some (World (hp w) r).

Section Bind.
(** kern_path: the n-th lookup of a name, an error or a path with a new reference; a
    lookup may answer differently the next time.  [kstrdup_ok]: the copy succeeds. *)
Context (kern_path : nat -> list Z -> Z + path) (kstrdup_ok : bool).

(** The end of ramfs_bind, with both paths held: replace the directory of [fsi]. *)
Definition set_sync_dir (p : Z) (sync : list Z) (h : heap) : option (bool * heap) :=
  f ← fsi_at p h;
  h1 ← (if negb (sync_dir f =? 0)
        then h' ← kfree (sync_dir f) h; Some (set_fsi p (FsInfo (mode f) 0) h') else Some h);
  let '(q, h2) := kalloc kstrdup_ok (OStr sync) h1 in
  Some (negb (q =? 0), set_fsi p (FsInfo (mode f) q) h2).

(** ramfs_bind; [None] is undefined behaviour.  When the first lookup fails the code
    puts the path [ramfs_mount], which is not initialised then. *)
Definition ramfs_bind (ramfs_path sync : list Z) (w : world) : option (Z * world) :=
  match kern_path 0 sync with
  | inl _ => None
  | inr sync_path0 =>
    let w := path_get sync_path0 w in
    match kern_path 1 ramfs_path with
    | inl error => Some (error, w)
    | inr ramfs_mount =>
      let w := path_get ramfs_mount w in
      match p_sb ramfs_mount with
      | None => w1 ← path_put ramfs_mount w; Some (- EINVAL, w1)
      | Some sb =>
        if negb (s_magic sb =? RAMFS_MAGIC)
        then w1 ← path_put ramfs_mount w; Some (- EINVAL, w1)
        else
        match kern_path 2 sync with
        | inl error => w1 ← path_put ramfs_mount w; Some (error, w1)
        | inr sync_path =>
          let w := path_get sync_path w in
          let put_both e := w1 ← path_put ramfs_mount w; w2 ← path_put sync_path w1; Some (e, w2) in
          if negb (Z.land (p_mode sync_path) S_IFMT =? S_IFDIR) then put_both (- ENOTDIR)
          else if s_fs_info sb =? 0 then put_both (- EINVAL)
          else
            '(ok, h1) ← set_sync_dir (s_fs_info sb) sync (hp w);
            let w := World h1 (refs w) in
            if negb ok
            then w1 ← path_put ramfs_mount w; w2 ← path_put sync_path w1; Some (- ENOMEM, w2)
            else Some (0, w)
        end
      end
    end
  end.

End Bind.

(** ** Parsing of a request in the kernel buffer *)

(** strchr, strlen on a NUL-terminated buffer; a string in the buffer. *)
Fixpoint strchr (l : list Z) (c : Z) : option nat :=
  match l with
  | [] => None
  | b :: l' => if b =? c then Some O else if b =? 0 then None else S <$> strchr l' c
  end.
Definition strlen (l : list Z) : nat := strnlen l (length l).
Definition cstr (l : list Z) : list Z := take (strlen l) l.

(** [while ( *p == ' ') p++]: how far. *)
Fixpoint skip_spaces (l : list Z) : nat :=
  match l with
  | b :: l' => if b =? 32 then S (skip_spaces l') else O
  | [] => O
  end.

(** The loop that overwrites trailing line ends: [end] is [lo + n - 1]. *)
Definition is_eol (b : Z) : bool := (b =? 10) || (b =? 13).
Fixpoint trim_tail (lo n : nat) (buf : list Z) : list Z :=
  match n with
  | O => buf
  | S n' => match buf !! (lo + n')%nat with
            | Some b => if is_eol b then trim_tail lo n' (<[(lo + n')%nat := 0]> buf) else buf
            | None => buf
            end
  end.

(** The request in the buffer, as the two strings passed on; [None]: no space. *)
Definition parse_bind (kbuf : list Z) : option (list Z * list Z) :=
  match strchr kbuf 32 with
  | None => None
  | Some i =>
      let kbuf := <[i:=0]> kbuf in
      let s := (i + 1)%nat in
      let s := (s + skip_spaces (drop s kbuf))%nat in
      let kbuf := trim_tail s (strlen (drop s kbuf)) kbuf in
      Some (cstr kbuf, cstr (drop s kbuf))
  end.

(** ramfs_proc_bind_write: [buffer] is what the user wrote, [count] bytes. *)
Definition ramfs_proc_bind_write (kern_path : nat -> list Z -> Z + path)
    (kstrdup_ok kmalloc_ok copy_ok : bool) (buffer : list Z) (w : world) : option (Z * world) :=
  let count := Z.of_nat (length buffer) in
  if negb kmalloc_ok then Some (- ENOMEM, w)
  else if negb copy_ok then Some (- EFAULT, w)
  else match parse_bind (buffer ++ [0]) with
       | None => Some (- EINVAL, w)
       | Some (ramfs_path, sync) =>
           '(ret, w1) ← ramfs_bind kern_path kstrdup_ok ramfs_path sync w;
           Some (if ret =? 0 then count else ret, w1)
       end.

(** ** Correctness of the parser *)

Definition no_nul (l : list Z) : Prop := Forall (fun b => b <> 0) l.

Lemma strnlen_app a r n : no_nul a -> (length a <= n)%nat ->
  strnlen (a ++ 0 :: r) n = length a.
Proof.
  intros Ha. revert n. induction Ha as [|b a Hb Ha IH]; intros [|n] Hn; simpl in *; try lia.
  rewrite (proj2 (Z.eqb_neq _ _) Hb), IH by lia. done.
Qed.

Lemma strlen_app a r : no_nul a -> strlen (a ++ 0 :: r) = length a.
Proof. intros Ha. apply strnlen_app; [done|]. rewrite length_app. lia. Qed.

Lemma cstr_app a r : no_nul a -> cstr (a ++ 0 :: r) = a.
Proof. intros Ha. unfold cstr. rewrite strlen_app by done. apply take_app_length. Qed.

Lemma strchr_app a c r : Forall (fun b => b <> c /\ b <> 0) a ->
  strchr (a ++ c :: r) c = Some (length a).
Proof.
  induction 1 as [|b a [Hb Hz] Ha IH]; simpl; [by rewrite Z.eqb_refl|].
  by rewrite (proj2 (Z.eqb_neq _ _) Hb), (proj2 (Z.eqb_neq _ _) Hz), IH.
Qed.

Lemma skip_spaces_app k r : head r <> Some 32 -> skip_spaces (replicate k 32 ++ r) = k.
Proof.
  intros Hr. induction k as [|k IH]; simpl; [|by rewrite IH].
  destruct r as [|b r]; [done|]. simpl in *. destruct (Z.eqb_spec b 32); congruence.
Qed.

Lemma trim_tail_app pre d e r :
  Forall (fun b => is_eol b = true) e -> (forall b, last d = Some b -> is_eol b = false) ->
  trim_tail (length pre) (length d + length e) (pre ++ d ++ e ++ r) =
  pre ++ d ++ replicate (length e) 0 ++ r.
Proof.
  revert r. induction e as [|b e IH] using rev_ind; intros r He Hd; simpl.
  - rewrite Nat.add_0_r. destruct d as [|c d' _] using rev_ind; [done|].
    rewrite length_app, Nat.add_1_r; simpl.
    replace (pre ++ (d' ++ [c]) ++ r) with ((pre ++ d') ++ c :: r) by by rewrite <- !app_assoc.
    rewrite list_lookup_middle by by rewrite length_app.
    rewrite Hd; [done|by rewrite last_snoc].
  - apply Forall_app in He as [He [Hb _]%Forall_cons].
    rewrite length_app, Nat.add_1_r, Nat.add_succ_r; cbn [trim_tail].
    replace (pre ++ d ++ (e ++ [b]) ++ r) with ((pre ++ d ++ e) ++ b :: r)
      by by rewrite <- !app_assoc.
    assert (length pre + (length d + length e) = length (pre ++ d ++ e))%nat as Hl
      by (rewrite !length_app; lia).
    rewrite Hl, list_lookup_middle by done. rewrite Hb, insert_app_r_alt, Nat.sub_diag by lia.
    simpl. rewrite <- !app_assoc. rewrite (IH (0 :: r) He Hd).
    change (0 :: replicate (length e) 0 ++ r) with (replicate (S (length e)) 0 ++ r).
    by rewrite replicate_S_end, <- app_assoc.
Qed.

(** A request "path", blanks, "directory", line ends is read as those two strings, also
    when the directory contains blanks. *)
Lemma parse_bind_request p k d e :
  Forall (fun b => b <> 32 /\ b <> 0) p -> no_nul d -> head (d ++ e ++ [0]) <> Some 32 ->
  (forall b, last d = Some b -> is_eol b = false) -> Forall (fun b => is_eol b = true) e ->
  parse_bind ((p ++ replicate (S k) 32 ++ d ++ e) ++ [0]) = Some (p, d).
Proof.
  intros Hp Hd Hh Hl He. unfold parse_bind.
  replace ((p ++ replicate (S k) 32 ++ d ++ e) ++ [0])
    with (p ++ 32 :: replicate k 32 ++ d ++ e ++ [0]) by by rewrite <- !app_assoc.
  rewrite strchr_app by done. f_equal.
  rewrite insert_app_r_alt, Nat.sub_diag by lia. cbn [insert list_insert].
  assert (drop (length p + 1) (p ++ 0 :: replicate k 32 ++ d ++ e ++ [0]) =
    replicate k 32 ++ d ++ e ++ [0]) as ->.
  { rewrite <- drop_drop, drop_app_length. done. }
  rewrite skip_spaces_app by done.
  set (pre := p ++ 0 :: replicate k 32).
  assert (length p + 1 + k = length pre)%nat as Hpre.
  { unfold pre. rewrite length_app. simpl. rewrite length_replicate. lia. }
  rewrite Hpre. replace (p ++ 0 :: replicate k 32 ++ d ++ e ++ [0]) with (pre ++ d ++ e ++ [0])
    by (unfold pre; by rewrite <- !app_assoc).
  assert (forall x, cstr (pre ++ x) = p) as Hcp.
  { intros x. unfold pre. rewrite <- app_assoc. apply cstr_app.
    eapply Forall_impl; [exact Hp|]. by intros b [_ ?]. }
  clearbody pre. rewrite drop_app_length. assert (no_nul (d ++ e)) as Hde.
  { apply Forall_app. split; [done|]. eapply Forall_impl; [exact He|]. intros b Hb ->. done. }
  assert (strlen (d ++ e ++ [0]) = Nat.add (length d) (length e)) as ->
    by (rewrite app_assoc, strlen_app, length_app by done; done).
  rewrite trim_tail_app, drop_app_length by done. f_equal.
  - apply Hcp.
  - destruct e; simpl; by rewrite cstr_app.
Qed.

(** ** Binding *)

(** The info at [p] is allocated, its directory is NULL or an allocated string, and the
    next allocation is fresh. *)
Definition fsi_ok (p : Z) (h : heap) : Prop :=
  p <> 0 /\ 0 < brk h /\ cells h !! brk h = None /\
  exists f, fsi_at p h = Some f /\
    (sync_dir f = 0 \/ exists s, cells h !! sync_dir f = Some (OStr s)).

Lemma fsi_at_cell p h f : fsi_at p h = Some f <-> cells h !! p = Some (OFsi f).
Proof. unfold fsi_at. repeat case_match; naive_solver. Qed.

(** What set_sync_dir does: the old string is freed, the new one is allocated and the
    info points to it (or to NULL). *)
Definition rebound (ok : bool) (p : Z) (s : list Z) (f : ramfs_fs_info) (h : heap) : heap :=
  let c := if sync_dir f =? 0 then cells h else delete (sync_dir f) (cells h) in
  if ok then Heap (<[p:=OFsi (FsInfo (mode f) (brk h))]> (<[brk h:=OStr s]> c)) (brk h + 1)
  else Heap (<[p:=OFsi (FsInfo (mode f) 0)]> c) (brk h).

Lemma set_sync_dir_rebound ok p s h f :
  fsi_ok p h -> fsi_at p h = Some f -> set_sync_dir ok p s h = Some (ok, rebound ok p s f h).
Proof.
  intros (Hp & Hb & Hfresh & f' & Hf & Hs) Hf'. rewrite Hf in Hf'. injection Hf' as ->.
  pose proof (proj1 (fsi_at_cell _ _ _) Hf) as Hc. assert (brk h <> p) by congruence.
  unfold set_sync_dir, rebound. rewrite Hf; simpl.
  assert ((brk h =? 0) = false) as Hb0 by (apply Z.eqb_neq; lia).
  destruct (Z.eqb_spec (sync_dir f) 0) as [E|E]; simpl.
  - unfold kalloc. destruct ok; simpl; rewrite ?Hb0; done.
  - destruct Hs as [?|[old Ho]]; [done|]. assert (sync_dir f <> p) by congruence.
    unfold kfree. rewrite (proj2 (Z.eqb_neq _ _) E), Ho; simpl. unfold kalloc, set_fsi.
    destruct ok; simpl; rewrite ?Hb0; simpl; do 3 f_equal.
    + rewrite (insert_insert_ne _ (brk h) p), insert_insert_eq by done. done.
    + by rewrite insert_insert_eq.
Qed.

Lemma set_sync_dir_spec ok p s h f :
  fsi_ok p h -> fsi_at p h = Some f ->
  exists q h', set_sync_dir ok p s h = Some (ok, h') /\
    fsi_at p h' = Some (FsInfo (mode f) q) /\
    (if ok then q <> 0 /\ q <> p /\ cells h !! q = None /\ cells h' !! q = Some (OStr s) else q = 0) /\
    (sync_dir f <> 0 -> cells h' !! sync_dir f = None) /\
    (forall a, a <> p -> a <> sync_dir f -> a <> q -> cells h' !! a = cells h !! a).
Proof.
  intros Hok Hf. exists (if ok then brk h else 0), (rebound ok p s f h).
  split; [by apply set_sync_dir_rebound|].
  destruct Hok as (Hp & Hb & Hfresh & f' & Hf' & Hs). rewrite Hf in Hf'. injection Hf' as <-.
  apply fsi_at_cell in Hf. assert (brk h <> p) by congruence.
  assert (sync_dir f <> 0 -> sync_dir f <> p /\ sync_dir f <> brk h) as Hold.
  { intros Hz. destruct Hs as [?|[old Ho]]; [done|]. split; congruence. }
  unfold rebound. rewrite fsi_at_cell. split; [|split; [|split]].
  - by destruct ok; simpl; rewrite lookup_insert_eq.
  - destruct ok; simpl; [|done]. split_and!; try (done || lia).
    by rewrite lookup_insert_ne, lookup_insert_eq.
  - intros Hz. destruct (Hold Hz). rewrite (proj2 (Z.eqb_neq _ _) Hz).
    destruct ok; simpl; rewrite !lookup_insert_ne, lookup_delete_eq by done; done.
  - intros a Ha1 Ha2 Ha3. destruct ok, (sync_dir f =? 0); simpl;
      rewrite !lookup_insert_ne, ?lookup_delete_ne by done; done.
Qed.

Lemma put_last p w : path_put p (path_get p w) = Some w.
Proof. destruct w as [h r]. unfold path_put, path_get; simpl. by rewrite Z.eqb_refl. Qed.

(** Putting the two paths that were taken last, in either order. *)
Lemma put_two a b h r (e : Z) :
  (w1 ← path_put a (World h (p_id b :: p_id a :: r)); w2 ← path_put b w1; Some (e, w2)) =
  Some (e, World h r).
Proof.
  unfold path_put; simpl. destruct (Z.eqb_spec (p_id a) (p_id b)) as [E|E]; simpl.
  - by rewrite E, Z.eqb_refl.
  - by rewrite !Z.eqb_refl; simpl; rewrite Z.eqb_refl.
Qed.

(** ramfs_bind when every step succeeds. *)
Lemma ramfs_bind_success kern_path p d w sp0 rm sb sp f :
  kern_path 0%nat d = inr sp0 -> kern_path 1%nat p = inr rm -> kern_path 2%nat d = inr sp ->
  p_sb rm = Some sb -> s_magic sb = RAMFS_MAGIC -> Z.land (p_mode sp) S_IFMT = S_IFDIR ->
  fsi_ok (s_fs_info sb) (hp w) -> fsi_at (s_fs_info sb) (hp w) = Some f ->
  exists q w', ramfs_bind kern_path true p d w = Some (0, w') /\
    fsi_at (s_fs_info sb) (hp w') = Some (FsInfo (mode f) q) /\
    q <> 0 /\ cells (hp w) !! q = None /\ cells (hp w') !! q = Some (OStr d) /\
    (sync_dir f <> 0 -> cells (hp w') !! sync_dir f = None) /\
    (forall a, a <> s_fs_info sb -> a <> sync_dir f -> a <> q ->
       cells (hp w') !! a = cells (hp w) !! a) /\
    refs w' = p_id sp :: p_id rm :: p_id sp0 :: refs w.
Proof.
  intros K0 K1 K2 Hsb Hm Hdir Hok Hf.
  destruct (set_sync_dir_spec true _ d _ f Hok Hf) as (q & h' & Hset & H1 & (H2 & H3 & H4 & H5) & H6 & H7).
  exists q, (World h' (p_id sp :: p_id rm :: p_id sp0 :: refs w)).
  split; [|by split_and!]. unfold ramfs_bind.
  rewrite K0, K1, Hsb, Hm, Z.eqb_refl; simpl. rewrite K2, Hdir, Z.eqb_refl; simpl.
  rewrite (proj2 (Z.eqb_neq _ _) (proj1 Hok)). simpl. by rewrite Hset.
Qed.

(** (C12) A request "path directory" written to /proc/fs/ramfs/bind, with any number of
    blanks between the two and any line ends after them, is answered with the number of
    bytes written when the path is on a ramfs mount and the directory is one: the mount's
    info then points to a new string that is the directory, the previous string is freed
    and nothing else of the heap changes.  Three path references stay taken. *)
Theorem ramfs_proc_bind_write_binds kern_path p k d e w sp0 rm sb sp f :
  Forall (fun b => b <> 32 /\ b <> 0) p -> no_nul d -> head (d ++ e ++ [0]) <> Some 32 ->
  (forall b, last d = Some b -> is_eol b = false) -> Forall (fun b => is_eol b = true) e ->
  kern_path 0%nat d = inr sp0 -> kern_path 1%nat p = inr rm -> kern_path 2%nat d = inr sp ->
  p_sb rm = Some sb -> s_magic sb = RAMFS_MAGIC -> Z.land (p_mode sp) S_IFMT = S_IFDIR ->
  fsi_ok (s_fs_info sb) (hp w) -> fsi_at (s_fs_info sb) (hp w) = Some f ->
  let buffer := p ++ replicate (S k) 32 ++ d ++ e in
  exists q w',
    ramfs_proc_bind_write kern_path true true true buffer w = Some (Z.of_nat (length buffer), w') /\
    fsi_at (s_fs_info sb) (hp w') = Some (FsInfo (mode f) q) /\
    q <> 0 /\ cells (hp w) !! q = None /\ cells (hp w') !! q = Some (OStr d) /\
    (sync_dir f <> 0 -> cells (hp w') !! sync_dir f = None) /\
    (forall a, a <> s_fs_info sb -> a <> sync_dir f -> a <> q ->
       cells (hp w') !! a = cells (hp w) !! a) /\
    refs w' = p_id sp :: p_id rm :: p_id sp0 :: refs w.
Proof.
  intros Hp Hd Hh Hl He K0 K1 K2 Hsb Hm Hdir Hok Hf buffer.
  destruct (ramfs_bind_success kern_path p d w sp0 rm sb sp f) as (q & w' & Hb & H); try done.
  exists q, w'. split; [|exact H]. unfold ramfs_proc_bind_write; simpl.
  unfold buffer. by rewrite parse_bind_request, Hb by done.
Qed.

(** How ramfs_bind ends.  It is undefined exactly when the directory cannot be
    looked up the first time (the path of the mount, not yet initialised, is put).  It
    returns 0 with three references taken, or an error with one reference taken that is
    not given back; an error leaves the heap as it was, except that when the new string
    cannot be allocated the previous binding is gone. *)
Theorem ramfs_bind_outcomes kern_path kstrdup_ok p d w :
  (forall n s e, kern_path n s = inl e -> e < 0) ->
  (forall rm sb, kern_path 1%nat p = inr rm -> p_sb rm = Some sb -> s_magic sb = RAMFS_MAGIC ->
     s_fs_info sb = 0 \/ fsi_ok (s_fs_info sb) (hp w)) ->
  match kern_path 0%nat d with
  | inl _ => ramfs_bind kern_path kstrdup_ok p d w = None
  | inr sp0 =>
      exists r w', ramfs_bind kern_path kstrdup_ok p d w = Some (r, w') /\
      ((r = 0 /\ exists a b, refs w' = a :: b :: p_id sp0 :: refs w) \/
       (r < 0 /\ refs w' = p_id sp0 :: refs w /\
        (hp w' = hp w \/ r = - ENOMEM /\ kstrdup_ok = false /\
           exists rm sb f, kern_path 1%nat p = inr rm /\ p_sb rm = Some sb /\
             fsi_at (s_fs_info sb) (hp w') = Some (FsInfo f 0))))
  end.
Proof.
  intros Hneg Hok. destruct (kern_path 0%nat d) as [e|sp0] eqn:K0;
    [unfold ramfs_bind; by rewrite K0|].
  unfold ramfs_bind. rewrite K0.
  destruct (kern_path 1%nat p) as [e|rm] eqn:K1.
  { apply Hneg in K1. do 2 eexists. split; [done|]. right. simpl. auto. }
  assert (forall r, r < 0 -> exists r' w', (w1 ← path_put rm (path_get rm (path_get sp0 w)); Some (r, w1)) =
    Some (r', w') /\ (r' < 0 /\ refs w' = p_id sp0 :: refs w /\ hp w' = hp w)) as Hput.
  { intros r Hr. rewrite put_last. by exists r, (path_get sp0 w). }
  destruct (p_sb rm) as [sb|] eqn:Hsb.
  2: { destruct (Hput (- EINVAL)) as (r & w' & -> & ? & ? & ?); [done|]. eauto 10. }
  destruct (Z.eqb_spec (s_magic sb) RAMFS_MAGIC) as [Hm|Hm]; simpl.
  2: { destruct (Hput (- EINVAL)) as (r & w' & -> & ? & ? & ?); [done|]. eauto 10. }
  destruct (kern_path 2%nat d) as [e|sp] eqn:K2.
  { destruct (Hput e) as (r & w' & -> & ? & ? & ?); [by eapply Hneg|]. eauto 10. }
  assert (forall h r, r < 0 -> (w1 ← path_put rm (World h (refs (path_get sp (path_get rm (path_get sp0 w)))));
    w2 ← path_put sp w1; Some (r, w2)) = Some (r, World h (p_id sp0 :: refs w))) as Hput2.
  { intros h r Hr. apply put_two. }
  change (path_get sp (path_get rm (path_get sp0 w)))
    with (World (hp w) (refs (path_get sp (path_get rm (path_get sp0 w))))).
  destruct (Z.land (p_mode sp) S_IFMT =? S_IFDIR); simpl negb; cbv iota.
  2: { rewrite Hput2 by done. do 2 eexists. split; [done|]. right.
       split; [done|]. split; [done|]. by left. }
  destruct (Z.eqb_spec (s_fs_info sb) 0) as [|Hnz].
  { rewrite Hput2 by done. do 2 eexists. split; [done|]. right.
       split; [done|]. split; [done|]. by left. }
  destruct (Hok rm sb eq_refl Hsb Hm) as [?|Hfok]; [done|].
  pose proof Hfok as (_ & _ & _ & f & Hf & _).
  destruct (set_sync_dir_spec kstrdup_ok _ d _ f Hfok Hf) as (q & h' & Hset & H1 & H2 & _).
  cbn [hp]. rewrite Hset. cbn [mbind option_bind refs]. destruct kstrdup_ok; simpl negb; cbv iota.
  - do 2 eexists. split; [done|]. left. simpl. eauto.
  - rewrite Hput2 by done. do 2 eexists. split; [done|]. right. split; [done|]. split; [done|].
    right. subst q. split; [done|]. split; [done|]. by exists rm, sb, (mode f).
Qed.

(** A mount at address 7 bound to "/old", and lookups that find it at "/m" and the
    directory "/d". *)
Definition demo_sb : super_block := SuperBlock 7 0 0 0 RAMFS_MAGIC 1 None.
Definition demo_world : world :=
  World (Heap {[7 := OFsi (FsInfo 0x1ED 8); 8 := OStr (bytes_of_string "/old")]} 9) [].
Definition demo_path (n : nat) (s : list Z) : Z + path :=
  if bool_decide (s = bytes_of_string "/m") then inr (Path 1 (Some demo_sb) S_IFDIR)
  else if bool_decide (s = bytes_of_string "/d") then inr (Path 2 None S_IFDIR)
  else inl (- ENOENT).

Lemma demo_fsi_ok : fsi_ok 7 (hp demo_world).
Proof.
  split; [done|]. split; [reflexivity|]. split; [vm_compute; reflexivity|].
  exists (FsInfo 0x1ED 8). split; [vm_compute; reflexivity|]. right.
  exists (bytes_of_string "/old"). vm_compute. reflexivity.
Qed.

Lemma ramfs_proc_bind_write_binds_witness :
  exists q w',
    ramfs_proc_bind_write demo_path true true true
      (bytes_of_string "/m" ++ replicate 2 32 ++ bytes_of_string "/d" ++ [10]) demo_world
      = Some (7, w') /\
    fsi_at 7 (hp w') = Some (FsInfo 0x1ED q) /\ cells (hp w') !! q = Some (OStr (bytes_of_string "/d")) /\
    cells (hp w') !! 8 = None.
Proof.
  destruct (ramfs_proc_bind_write_binds demo_path (bytes_of_string "/m") 1 (bytes_of_string "/d") [10]
    demo_world (Path 2 None S_IFDIR) (Path 1 (Some demo_sb) S_IFDIR) demo_sb
    (Path 2 None S_IFDIR) (FsInfo 0x1ED 8)) as (q & w' & H1 & H2 & H3 & H4 & H5 & H6 & _);
    try (vm_compute; reflexivity); try exact demo_fsi_ok.
  - apply (bool_decide_unpack _). vm_compute. exact I.
  - apply (bool_decide_unpack _). vm_compute. exact I.
  - vm_compute. discriminate.
  - intros b. simpl. by intros [= <-].
  - repeat constructor.
  - exists q, w'. split; [exact H1|]. split; [exact H2|]. split; [exact H5|]. by apply H6.
Defined.

Lemma ramfs_bind_outcomes_witness :
  ramfs_bind demo_path false (bytes_of_string "/m") (bytes_of_string "/none") demo_world = None /\
  exists r w', ramfs_bind demo_path false (bytes_of_string "/m") (bytes_of_string "/d") demo_world
    = Some (r, w') /\ (r = 0 \/ refs w' = [2]).
Proof.
  assert (forall n s e, demo_path n s = inl e -> e < 0) as Hneg.
  { intros n s e. unfold demo_path. repeat case_bool_decide; by intros [= <-]. }
  assert (forall rm sb, demo_path 1 (bytes_of_string "/m") = inr rm -> p_sb rm = Some sb ->
    s_magic sb = RAMFS_MAGIC -> s_fs_info sb = 0 \/ fsi_ok (s_fs_info sb) (hp demo_world)) as Hok.
  { intros rm sb [= <-] [= <-] _. right. exact demo_fsi_ok. }
  split; [exact (ramfs_bind_outcomes demo_path false _ (bytes_of_string "/none") _ Hneg Hok)|].
  destruct (ramfs_bind_outcomes demo_path false _ (bytes_of_string "/d") _ Hneg Hok)
    as (r & w' & H & Ho). exists r, w'. split; [exact H|].
  destruct Ho as [[-> _]|(_ & -> & _)]; [by left|by right].
Defined.

End ProcBind.

Module Lifecycle.
Import Mount ProcBind.

(** The heap, fc->s_fs_info (0: none) and the mounted super block. *)
Record mstate := MState { mh : heap; mfc : Z; msb : option super_block }.

Definition fresh_sb (fsi : Z) : super_block := SuperBlock fsi 0 0 0 0 0 None.

(** How the VFS calls the operations: a context is made, given options and turned into
    a super block, which takes the info over; a super block whose root cannot be made is
    killed at once; a context can be freed at any time. *)
Inductive mstep : mstate -> mstate -> Prop :=
| st_init ok h sb r fc h' :
    ramfs_init_fs_context ok 0 h = (r, fc, h') -> mstep (MState h 0 sb) (MState h' fc sb)
| st_parse fs_parse key v h fc sb r h' :
    fc <> 0 -> ramfs_parse_param fs_parse fc key v h = Some (r, h') ->
    mstep (MState h fc sb) (MState h' fc sb)
| st_get_tree ok dok iom now h fc sb h' :
    fc <> 0 -> ramfs_fill_super ok dok iom now (fresh_sb fc) h = Some (0, sb, h') ->
    mstep (MState h fc None) (MState h' 0 (Some sb))
| st_get_tree_fails ok dok iom now h fc r sb h' h'' :
    fc <> 0 -> ramfs_fill_super ok dok iom now (fresh_sb fc) h = Some (r, sb, h') -> r <> 0 ->
    ramfs_kill_sb sb h' = Some h'' ->
    mstep (MState h fc None) (MState h'' 0 None)
| st_free_fc h fc sb h' :
    ramfs_free_fc fc h = Some h' -> mstep (MState h fc sb) (MState h' 0 sb)
| st_kill h fc sb h' :
    ramfs_kill_sb sb h = Some h' -> mstep (MState h fc (Some sb)) (MState h' fc None).

(** ** Binding and flushing, access by access *)

(** Where a task is: in the last part of ramfs_bind (the test of the old directory, its
    kfree, the reset to NULL, kstrdup, the store of the copy, the last test), or in
    ramfs_file_flush (the test of the directory and the two places that print it).  No
    lock is held in either. *)
Inductive task_pc :=
| BTest (s : list Z) | BFree (s : list Z) | BClear (s : list Z) | BDup (s : list Z)
| BStore (q : Z) | BCheck
| FTest | FTmp | FFinal.
Definition binding (pc : task_pc) : bool :=
  match pc with FTest | FTmp | FFinal => false | _ => true end.

(** Printing a string: NULL is printed as "(null)", freed memory is an error. *)
Definition print_str (p : Z) (h : heap) : option unit :=
  if p =? 0 then Some tt else match cells h !! p with Some (OStr _) => Some tt | _ => None end.

(** One access to the info at [p]: where the task is then or its answer, and the heap;
    [None] is a use of memory that is not allocated. *)
Definition task_step (kstrdup_ok : bool) (p : Z) (pc : task_pc) (h : heap)
    : option ((task_pc + bool) * heap) :=
  f ← fsi_at p h;
  match pc with
  | BTest s => Some (inl (if negb (sync_dir f =? 0) then BFree s else BDup s), h)
  | BFree s => h' ← kfree (sync_dir f) h; Some (inl (BClear s), h')
  | BClear s => Some (inl (BDup s), set_fsi p (FsInfo (mode f) 0) h)
  | BDup s => let '(q, h') := kalloc kstrdup_ok (OStr s) h in Some (inl (BStore q), h')
  | BStore q => Some (inl BCheck, set_fsi p (FsInfo (mode f) q) h)
  | BCheck => Some (inr (negb (sync_dir f =? 0)), h)
  | FTest => Some (if sync_dir f =? 0 then inr false else inl FTmp, h)
  | FTmp => _ ← print_str (sync_dir f) h; Some (inl FFinal, h)
  | FFinal => _ ← print_str (sync_dir f) h; Some (inr true, h)
  end.

(** A task on its own for [n] accesses. *)
Fixpoint task_run (n : nat) (ok : bool) (p : Z) (pc : task_pc) (h : heap) : option (bool * heap) :=
  match n with
  | O => None
  | S n' => r ← task_step ok p pc h;
            match r with (inl pc', h') => task_run n' ok p pc' h' | (inr b, h') => Some (b, h') end
  end.

(** A mount and the tasks inside ramfs_bind or ramfs_file_flush on it. *)
Record cstate := CState { cm : mstate; tasks : gmap Z task_pc }.

(** The steps of everybody.  The super block comes and goes only while no task is inside:
    a task holds a path or an open file.  With [serial] a task begins to bind only when
    no other task is inside, and begins to flush only when none is binding; without it
    they begin at any time, as the code lets them. *)
Inductive bstep (serial : bool) : cstate -> cstate -> Prop :=
| c_mount m m' th : mstep m m' -> msb m' = msb m \/ th = ∅ ->
    bstep serial (CState m th) (CState m' th)
| c_bind t s m th : is_Some (msb m) -> th !! t = None -> (serial = true -> th = ∅) ->
    bstep serial (CState m th) (CState m (<[t:=BTest s]> th))
| c_flush t m th : is_Some (msb m) -> th !! t = None ->
    (serial = true -> forall u pc, th !! u = Some pc -> binding pc = false) ->
    bstep serial (CState m th) (CState m (<[t:=FTest]> th))
| c_task t pc ok h fc sb th r h' : th !! t = Some pc ->
    task_step ok (s_fs_info sb) pc h = Some (r, h') ->
    bstep serial (CState (MState h fc (Some sb)) th)
      (CState (MState h' fc (Some sb)) (match r with inl pc' => <[t:=pc']> th | inr _ => delete t th end)).

(** Whether an operation the VFS may call is defined. *)
Definition steps_defined (m : mstate) : Prop :=
  (forall fs_parse key v, mfc m <> 0 -> is_Some (ramfs_parse_param fs_parse (mfc m) key v (mh m))) /\
  (forall ok dok iom now, mfc m <> 0 -> exists r sb h',
     ramfs_fill_super ok dok iom now (fresh_sb (mfc m)) (mh m) = Some (r, sb, h') /\
     is_Some (ramfs_kill_sb sb h')) /\
  is_Some (ramfs_free_fc (mfc m) (mh m)).

(** Everything that may happen next is defined: the operations of the VFS, killing the
    super block while no task is inside, and the next access of every task. *)
Definition all_defined (c : cstate) : Prop :=
  steps_defined (cm c) /\
  (tasks c = ∅ -> forall sb, msb (cm c) = Some sb -> is_Some (ramfs_kill_sb sb (mh (cm c)))) /\
  (forall t pc ok, tasks c !! t = Some pc -> exists sb, msb (cm c) = Some sb /\
     is_Some (task_step ok (s_fs_info sb) pc (mh (cm c)))).

(** What is allocated: the context's info without a directory, the super block's info
    and its directory. *)
Inductive cell_owned (m : mstate) : Z -> obj -> Prop :=
| own_fc f : mfc m <> 0 -> sync_dir f = 0 -> cell_owned m (mfc m) (OFsi f)
| own_sb sb f : msb m = Some sb -> cell_owned m (s_fs_info sb) (OFsi f)
| own_dir sb f s : msb m = Some sb -> cells (mh m) !! s_fs_info sb = Some (OFsi f) ->
    sync_dir f <> 0 -> cell_owned m (sync_dir f) (OStr s).

Record mem_inv (m : mstate) : Prop := MemInv {
  mi_brk : 0 < brk (mh m);
  mi_fresh : forall a o, cells (mh m) !! a = Some o -> 0 < a < brk (mh m);
  mi_owned : forall a o, cells (mh m) !! a = Some o -> cell_owned m a o;
  mi_fc : mfc m <> 0 -> exists f, cells (mh m) !! mfc m = Some (OFsi f) /\ sync_dir f = 0;
  mi_sb : forall sb, msb m = Some sb -> s_fs_info sb <> mfc m /\
    exists f, cells (mh m) !! s_fs_info sb = Some (OFsi f) /\
      (sync_dir f = 0 \/ exists s, cells (mh m) !! sync_dir f = Some (OStr s))
}.

Lemma mem_inv_fsi_ok m sb : mem_inv m -> msb m = Some sb -> fsi_ok (s_fs_info sb) (mh m).
Proof.
  intros [H1 H2 H3 H4 H5] Hsb. destruct (H5 sb Hsb) as (Hne & f & Hf & Hd).
  split; [apply H2 in Hf; lia|]. split; [done|]. split.
  - destruct (cells (mh m) !! brk (mh m)) eqn:E; [|done]. apply H2 in E. lia.
  - exists f. by rewrite fsi_at_cell.
Qed.

(** Killing a super block whose info and directory are allocated frees those two. *)
Lemma kill_sb_cells sb h f :
  s_fs_info sb <> 0 -> fsi_at (s_fs_info sb) h = Some f ->
  (sync_dir f = 0 \/ exists s, cells h !! sync_dir f = Some (OStr s)) ->
  exists h', ramfs_kill_sb sb h = Some h' /\ brk h' = brk h /\
    cells h' = delete (s_fs_info sb)
      (if sync_dir f =? 0 then cells h else delete (sync_dir f) (cells h)).
Proof.
  intros Hp Hf Hd. pose proof (proj1 (fsi_at_cell _ _ _) Hf) as Hc.
  unfold ramfs_kill_sb. rewrite (proj2 (Z.eqb_neq _ _) Hp), Hf; simpl.
  unfold kfree. rewrite (proj2 (Z.eqb_neq _ _) Hp).
  destruct (Z.eqb_spec (sync_dir f) 0) as [E|E]; simpl.
  - rewrite Hc. by eexists.
  - destruct Hd as [?|[s Hs]]; [done|]. rewrite Hs. simpl.
    rewrite lookup_delete_ne, Hc by congruence. by eexists.
Qed.

(** The operations on a context are defined when its info is allocated. *)
Definition fc_alloc (m : mstate) : Prop :=
  mfc m <> 0 -> exists f, cells (mh m) !! mfc m = Some (OFsi f) /\ sync_dir f = 0.

Lemma fc_alloc_defined m : fc_alloc m -> steps_defined m.
Proof.
  intros H4. split_and!.
  - intros fp key v (f & Hf & _)%H4. apply fsi_at_cell in Hf. unfold ramfs_parse_param.
    destruct (fp key v) as [opt u]. repeat case_if_goal; try done. rewrite Hf. done.
  - intros ok dok iom now Hnz. destruct (H4 Hnz) as (f & Hf & Hs).
    unfold ramfs_fill_super. cbn [s_fs_info fresh_sb].
    rewrite (proj2 (fsi_at_cell _ _ _) Hf). cbn [mbind option_bind].
    set (h' := set_fsi _ _ _).
    assert (forall sb, s_fs_info sb = mfc m -> is_Some (ramfs_kill_sb sb h')) as Hk.
    { intros sb Hsb. destruct (kill_sb_cells sb h' (FsInfo (mode f) 0)) as (? & -> & _);
        [congruence| |by left|by eexists].
      apply fsi_at_cell. rewrite Hsb. unfold h'. simpl. by rewrite lookup_insert_eq. }
    case_match; do 3 eexists; (split; [done|by apply Hk]).
  - unfold ramfs_free_fc, kfree. destruct (Z.eqb_spec (mfc m) 0) as [|Hnz]; [done|].
    destruct (H4 Hnz) as (f & -> & _). done.
Qed.

Lemma kill_defined m sb : mem_inv m -> msb m = Some sb -> is_Some (ramfs_kill_sb sb (mh m)).
Proof.
  intros Hm Hsb. pose proof (mem_inv_fsi_ok _ _ Hm Hsb) as (Hp & _ & _ & f & Hf & Hd).
  destruct (kill_sb_cells sb (mh m) f) as (? & -> & _); done.
Qed.

(** Ownership of a super block's cells depends only on its info cell. *)
Lemma owned_sb_transfer m m' a o :
  cell_owned m a o -> msb m' = msb m -> a <> mfc m \/ mfc m = 0 ->
  (forall sb, msb m = Some sb -> cells (mh m') !! s_fs_info sb = cells (mh m) !! s_fs_info sb) ->
  cell_owned m' a o.
Proof.
  intros Ho Hsb Hfc Hc. destruct Ho as [f H1 H2|sb f H|sb f s H1 H2 H3].
  - destruct Hfc; congruence.
  - apply own_sb. congruence.
  - apply (own_dir _ sb); [congruence| |done]. by rewrite Hc.
Qed.

Lemma init_inv ok h sb r fc h' :
  mem_inv (MState h 0 sb) -> ramfs_init_fs_context ok 0 h = (r, fc, h') ->
  mem_inv (MState h' fc sb).
Proof.
  intros Hm. pose proof Hm as [H1 H2 H3 H4 H5]; simpl in *. unfold ramfs_init_fs_context, kalloc.
  destruct ok; simpl.
  2: { intros [= <- <- <-]. exact Hm. }
  rewrite (proj2 (Z.eqb_neq (brk h) 0)) by lia. intros [= <- <- <-].
  assert (forall x o, cells h !! x = Some o -> x <> brk h) as Hne by (intros x o ?%H2; lia).
  split; simpl.
  - lia.
  - intros a o. rewrite insert_insert_eq. intros [[<- <-]|[? Ha]]%lookup_insert_Some; [lia|].
    apply H2 in Ha. lia.
  - intros a o. rewrite insert_insert_eq. intros [[<- <-]|[? Ha]]%lookup_insert_Some.
    + apply (own_fc (MState _ (brk h) sb)); simpl; [lia|done].
    + apply (owned_sb_transfer (MState h 0 sb)); [by apply H3|done|by right|].
      intros s Hs. simpl. destruct (H5 s Hs) as (_ & f & Hf & _).
      rewrite insert_insert_eq, lookup_insert_ne; [done|]. apply not_eq_sym. by eapply Hne.
  - intros _. exists (FsInfo RAMFS_DEFAULT_MODE 0). by rewrite lookup_insert_eq.
  - intros s Hs. destruct (H5 s Hs) as (_ & f & Hf & Hd). split; [by eapply Hne|].
    exists f. rewrite insert_insert_eq, lookup_insert_ne by (apply not_eq_sym; by eapply Hne).
    split; [done|]. destruct Hd as [?|[t Ht]]; [by left|right]. exists t.
    rewrite lookup_insert_ne; [done|]. apply not_eq_sym. by eapply Hne.
Qed.

(** Rewriting the context's info, still without a directory. *)
Lemma set_fc_inv h fc sb f :
  mem_inv (MState h fc sb) -> fc <> 0 -> sync_dir f = 0 ->
  mem_inv (MState (set_fsi fc f h) fc sb).
Proof.
  intros Hm Hnz Hs. pose proof Hm as [H1 H2 H3 H4 H5]; simpl in *.
  destruct (H4 Hnz) as (f0 & Hf0 & _).
  split; simpl.
  - done.
  - intros a o [[<- <-]|[? Ha]]%lookup_insert_Some; [by eapply H2|by eapply H2].
  - intros a o [[<- <-]|[? Ha]]%lookup_insert_Some; [by apply (own_fc (MState _ fc sb))|].
    apply (owned_sb_transfer (MState h fc sb)); [by apply H3|done|by left|].
    intros s Hsb. simpl. destruct (H5 s Hsb) as (Hne & _).
    by rewrite lookup_insert_ne by done.
  - intros _. exists f. by rewrite lookup_insert_eq.
  - intros s Hsb. destruct (H5 s Hsb) as (Hne & f' & Hf' & Hd). split; [done|].
    exists f'. rewrite lookup_insert_ne by done. split; [done|].
    destruct Hd as [?|[t Ht]]; [by left|right]. exists t.
    rewrite lookup_insert_ne; [done|]. congruence.
Qed.

Lemma parse_inv fp key v h fc sb r h' :
  mem_inv (MState h fc sb) -> fc <> 0 -> ramfs_parse_param fp fc key v h = Some (r, h') ->
  mem_inv (MState h' fc sb).
Proof.
  intros Hm Hnz. destruct (mi_fc _ Hm Hnz) as (f & Hf & Hs). simpl in Hf.
  unfold ramfs_parse_param. destruct (fp key v) as [opt u].
  destruct (opt <? 0); [by intros [= _ <-]|]. destruct (opt =? 0); [|by intros [= _ <-]].
  rewrite (proj2 (fsi_at_cell _ _ _) Hf). simpl. intros [= _ <-]. by apply set_fc_inv.
Qed.

(** The super block takes the context's info over. *)
Lemma take_over_inv h fc sb :
  mem_inv (MState h fc None) -> fc <> 0 -> s_fs_info sb = fc ->
  mem_inv (MState h 0 (Some sb)).
Proof.
  intros [H1 H2 H3 H4 H5] Hnz Hsb; simpl in *. destruct (H4 Hnz) as (f & Hf & Hs).
  split; simpl.
  - done.
  - done.
  - intros a o Ha. destruct (H3 a o Ha) as [f' ? ?|?|?]; simpl in *; [|done|done].
    rewrite <- Hsb. by apply own_sb.
  - done.
  - intros s [= <-]. split; [congruence|]. exists f. rewrite Hsb. auto.
Qed.

(** Killing the super block. *)
Lemma kill_inv h fc sb h' :
  mem_inv (MState h fc (Some sb)) -> ramfs_kill_sb sb h = Some h' -> mem_inv (MState h' fc None).
Proof.
  intros Hm. pose proof Hm as [H1 H2 H3 H4 H5]; simpl in *.
  pose proof (mem_inv_fsi_ok _ sb Hm eq_refl) as (Hp & _ & _ & f & Hf & Hd). simpl in *.
  destruct (kill_sb_cells sb h f Hp Hf Hd) as (h1 & -> & Hb & Hc). intros [= ->].
  apply fsi_at_cell in Hf. destruct (H5 sb eq_refl) as (Hne & _).
  assert (forall a o, cells h' !! a = Some o -> cells h !! a = Some o /\ a <> s_fs_info sb /\
    (sync_dir f <> 0 -> a <> sync_dir f)) as Hsub.
  { rewrite Hc. intros a o. rewrite lookup_delete_Some. intros [? Ha].
    destruct (Z.eqb_spec (sync_dir f) 0); [done|]. apply lookup_delete_Some in Ha as [? ?]. auto. }
  split; simpl.
  - lia.
  - intros a o (Ha & _)%Hsub. rewrite Hb. by eapply H2.
  - intros a o (Ha & Hn1 & Hn2)%Hsub. destruct (H3 a o Ha) as [g ? ?|s g Hs|s g t Hs Hg Hz]; simpl in *.
    + by apply (own_fc (MState _ fc None)).
    + injection Hs as <-. done.
    + injection Hs as <-. rewrite Hf in Hg. injection Hg as <-. by destruct (Hn2 Hz).
  - intros Hnz. destruct (H4 Hnz) as (g & Hg & Hs). exists g. split; [|done].
    rewrite Hc, lookup_delete_ne by done. destruct (Z.eqb_spec (sync_dir f) 0); [done|].
    rewrite lookup_delete_ne; [done|]. destruct Hd as [?|[t Ht]]; congruence.
  - done.
Qed.

Lemma free_fc_inv h fc sb h' :
  mem_inv (MState h fc sb) -> ramfs_free_fc fc h = Some h' -> mem_inv (MState h' 0 sb).
Proof.
  intros Hm. pose proof Hm as [H1 H2 H3 H4 H5]; simpl in *. unfold ramfs_free_fc, kfree.
  destruct (Z.eqb_spec fc 0) as [->|Hnz]; [intros [= <-]; done|].
  destruct (H4 Hnz) as (f & Hf & Hs). rewrite Hf. intros [= <-]. split; simpl.
  - done.
  - intros a o [_ Ha]%lookup_delete_Some. by eapply H2.
  - intros a o [? Ha]%lookup_delete_Some.
    apply (owned_sb_transfer (MState h fc sb)); [by apply H3|done|left; simpl; congruence|].
    intros s Hsb. simpl. destruct (H5 s Hsb) as (? & _). by rewrite lookup_delete_ne.
  - done.
  - intros s Hsb. destruct (H5 s Hsb) as (Hne & g & Hg & Hd). split.
    + apply H2 in Hg. lia.
    + exists g. rewrite lookup_delete_ne by done. split; [done|].
      destruct Hd as [?|[t Ht]]; [by left|right]. exists t.
      rewrite lookup_delete_ne; [done|]. congruence.
Qed.

Lemma mstep_inv m m' : mstep m m' -> mem_inv m -> mem_inv m'.
Proof.
  destruct 1 as [ok h sb r fc h' H|fp key v h fc sb r h' Hnz H|ok dok iom now h fc sb h' Hnz H
    |ok dok iom now h fc r sb h' h'' Hnz H Hr Hk|h fc sb h' H|h fc sb h' H];
    intros Hm.
  - by eapply init_inv.
  - by eapply parse_inv.
  - destruct (mi_fc _ Hm Hnz) as (f & Hf & _). simpl in Hf. unfold ramfs_fill_super in H.
    simpl in H. rewrite (proj2 (fsi_at_cell _ _ _) Hf) in H; simpl in H.
    apply (take_over_inv h' fc sb); [|done|repeat case_match; by simplify_eq].
    assert (h' = set_fsi fc (FsInfo (mode f) 0) h) as -> by (repeat case_match; by simplify_eq).
    by apply set_fc_inv.
  - destruct (mi_fc _ Hm Hnz) as (f & Hf & _). simpl in Hf. unfold ramfs_fill_super in H.
    simpl in H. rewrite (proj2 (fsi_at_cell _ _ _) Hf) in H; simpl in H.
    apply (kill_inv h' 0 sb); [|done].
    apply (take_over_inv h' fc sb); [|done|repeat case_match; by simplify_eq].
    assert (h' = set_fsi fc (FsInfo (mode f) 0) h) as -> by (repeat case_match; by simplify_eq).
    by apply set_fc_inv.
  - by eapply free_fc_inv.
  - by eapply kill_inv.
Qed.

Lemma task_run_l n ok p pc pc' h h' :
  task_step ok p pc h = Some (inl pc', h') -> task_run (S n) ok p pc h = task_run n ok p pc' h'.
Proof. simpl. by intros ->. Qed.
Lemma task_run_r n ok p pc b h h' :
  task_step ok p pc h = Some (inr b, h') -> task_run (S n) ok p pc h = Some (b, h').
Proof. simpl. by intros ->. Qed.

(** From kstrdup on. *)
Lemma task_run_dup n ok p s h f :
  0 < brk h -> cells h !! brk h = None -> fsi_at p h = Some f ->
  task_run (3 + n) ok p (BDup s) h =
  Some (ok, if ok then Heap (<[p:=OFsi (FsInfo (mode f) (brk h))]> (<[brk h:=OStr s]> (cells h))) (brk h + 1)
            else Heap (<[p:=OFsi (FsInfo (mode f) 0)]> (cells h)) (brk h)).
Proof.
  intros Hb Hfresh Hf. pose proof (proj1 (fsi_at_cell _ _ _) Hf) as Hc. assert (brk h <> p) by congruence.
  set (h1 := (kalloc ok (OStr s) h).2).
  assert (fsi_at p h1 = Some f) as Hf1.
  { apply fsi_at_cell. unfold h1, kalloc. destruct ok; simpl; [|done]. by rewrite lookup_insert_ne. }
  set (q := (kalloc ok (OStr s) h).1).
  cbn [Nat.add]. rewrite (task_run_l _ _ _ _ (BStore q) _ h1)
    by (unfold task_step; rewrite Hf; cbn [mbind option_bind]; unfold q, h1; by destruct (kalloc ok (OStr s) h)).
  rewrite (task_run_l _ _ _ _ BCheck _ (set_fsi p (FsInfo (mode f) q) h1))
    by (unfold task_step; by rewrite Hf1).
  erewrite task_run_r; [|unfold task_step, set_fsi, fsi_at; cbn [cells]; by rewrite lookup_insert_eq].
  unfold q, h1, kalloc, set_fsi. destruct ok; simpl; [|done]. by rewrite (proj2 (Z.eqb_neq _ _)) by lia.
Qed.

(** ramfs_bind's last part, alone, is these accesses one after another. *)
Lemma task_run_set_sync_dir ok p s h f :
  fsi_ok p h -> fsi_at p h = Some f -> task_run 6 ok p (BTest s) h = set_sync_dir ok p s h.
Proof.
  intros Hok Hf. rewrite (set_sync_dir_rebound ok p s h f Hok Hf).
  destruct Hok as (Hp & Hb & Hfresh & f' & Hf' & Hs). rewrite Hf in Hf'. injection Hf' as <-.
  pose proof (proj1 (fsi_at_cell _ _ _) Hf) as Hc. assert (brk h <> p) by congruence. unfold rebound.
  destruct (Z.eqb_spec (sync_dir f) 0) as [E|E].
  - rewrite (task_run_l _ _ _ _ (BDup s) _ h) by (unfold task_step; rewrite Hf; simpl; by rewrite E).
    by apply (task_run_dup 2 ok p s h f).
  - destruct Hs as [?|[old Ho]]; [done|]. assert (sync_dir f <> p) by congruence.
    rewrite (task_run_l _ _ _ _ (BFree s) _ h)
      by (unfold task_step; rewrite Hf; simpl; by rewrite (proj2 (Z.eqb_neq _ _) E)).
    rewrite (task_run_l _ _ _ _ (BClear s) _ (Heap (delete (sync_dir f) (cells h)) (brk h)))
      by (unfold task_step, kfree; rewrite Hf; simpl; by rewrite (proj2 (Z.eqb_neq _ _) E), Ho).
    rewrite (task_run_l _ _ _ _ (BDup s) _
      (Heap (<[p:=OFsi (FsInfo (mode f) 0)]> (delete (sync_dir f) (cells h))) (brk h)))
      by (unfold task_step, fsi_at, set_fsi; simpl; by rewrite lookup_delete_ne, Hc by done).
    etransitivity; [apply (task_run_dup 0 ok p s _ (FsInfo (mode f) 0))|]; cbn [cells brk mode];
      [done|by rewrite lookup_insert_ne, lookup_delete_None by done; right|
       unfold fsi_at; simpl; by rewrite lookup_insert_eq|].
    destruct ok; [|by rewrite insert_insert_eq].
    by rewrite (insert_insert_ne _ (brk h) p), insert_insert_eq by done.
Qed.

(** A heap with the cell [a] changed behind the back of the program. *)
Definition upd (a : Z) (x : option obj) (m : mstate) : mstate :=
  MState (Heap (partial_alter (fun _ => x) a (cells (mh m))) (brk (mh m))) (mfc m) (msb m).

Lemma cell_upd_eq a x m : cells (mh (upd a x m)) !! a = x.
Proof. unfold upd; simpl. by rewrite lookup_partial_alter_eq. Qed.
Lemma cell_upd_ne a x m b : a <> b -> cells (mh (upd a x m)) !! b = cells (mh m) !! b.
Proof. intros. unfold upd; simpl. by rewrite lookup_partial_alter_ne. Qed.

(** While a super block stays mounted the VFS works on the context alone: it neither
    sees nor changes a cell that is not the context's and not fresh. *)
Lemma mstep_frame m m' sb a :
  mstep m m' -> msb m = Some sb -> msb m' = Some sb -> 0 < brk (mh m) -> a <> mfc m -> a < brk (mh m) ->
  cells (mh m') !! a = cells (mh m) !! a /\ brk (mh m) <= brk (mh m') /\
  forall x, mstep (upd a x m) (upd a x m').
Proof.
  intros Hst H1 H2 Hb Hfc Ha. destruct Hst as [ok h sb0 r fc h' H|fp key v h fc sb0 r h' Hnz H
    |?|?|h fc sb0 h' H|?]; simplify_eq/=; try done.
  - unfold ramfs_init_fs_context, kalloc in H. destruct ok; simplify_eq/=.
    2: { split_and!; [done|lia|]. intros x. by eapply (st_init false). }
    rewrite (proj2 (Z.eqb_neq (brk h) 0)) in H by lia. simplify_eq/=.
    rewrite insert_insert_eq, lookup_insert_ne by lia. split_and!; [done|lia|].
    intros x. eapply (st_init true). unfold ramfs_init_fs_context, kalloc, set_fsi; simpl.
    rewrite (proj2 (Z.eqb_neq (brk h) 0)) by lia. rewrite !insert_insert_eq. do 3 f_equal.
    rewrite partial_alter_insert_ne by lia. done.
  - assert (forall x, fsi_at fc (mh (upd a x (MState h fc (Some sb)))) = fsi_at fc h) as Hat
      by (intros; unfold fsi_at; by rewrite cell_upd_ne).
    unfold ramfs_parse_param in H. destruct (fp key v) as [opt u] eqn:E.
    destruct (opt <? 0) eqn:E1; [|destruct (opt =? 0) eqn:E2].
    + simplify_eq. split_and!; [done|lia|]. intros x. eapply (st_parse fp key v); [done|].
      unfold ramfs_parse_param. by rewrite E, E1.
    + destruct (fsi_at fc h) as [f|] eqn:Ef; simplify_eq/=. rewrite lookup_insert_ne by done.
      split_and!; [done|lia|]. intros x. eapply (st_parse fp key v); [done|].
      unfold ramfs_parse_param. rewrite E, E1, E2. fold (upd a x (MState h fc (Some sb))).
      setoid_rewrite Hat. cbn [mbind option_bind]. unfold set_fsi; simpl. do 3 f_equal.
      by rewrite partial_alter_insert_ne.
    + simplify_eq. split_and!; [done|lia|]. intros x. eapply (st_parse fp key v); [done|].
      unfold ramfs_parse_param. by rewrite E, E1, E2.
  - unfold ramfs_free_fc, kfree in H. destruct (fc =? 0) eqn:E0.
    { simplify_eq. split_and!; [done|lia|]. intros x. apply st_free_fc. unfold ramfs_free_fc, kfree; simpl.
      by rewrite E0. }
    destruct (cells h !! fc) as [o|] eqn:E; simplify_eq/=. rewrite lookup_delete_ne by done.
    split_and!; [done|lia|]. intros x. apply st_free_fc. unfold ramfs_free_fc, kfree; simpl.
    rewrite E0, lookup_partial_alter_ne, E by done. do 2 f_equal. by rewrite partial_alter_delete_ne.
Qed.

(** The directory of the mount's info. *)
Definition info_is (m : mstate) (sb : super_block) (f : ramfs_fs_info) : Prop :=
  msb m = Some sb /\ cells (mh m) !! s_fs_info sb = Some (OFsi f).

(** What holds while a task binds alone: between the kfree and the reset the freed
    string would make the heap right again; between kstrdup and the store the copy is
    the one cell too many. *)
Definition bind_inv (pc : task_pc) (m : mstate) : Prop :=
  exists sb f, info_is m sb f /\
  match pc with
  | BFree _ => mem_inv m /\ sync_dir f <> 0
  | BClear _ => exists old, sync_dir f <> 0 /\ cells (mh m) !! sync_dir f = None /\
      mem_inv (upd (sync_dir f) (Some (OStr old)) m)
  | BDup _ => mem_inv m /\ sync_dir f = 0
  | BStore q => sync_dir f = 0 /\
      (q = 0 /\ mem_inv m \/
       exists s, cells (mh m) !! q = Some (OStr s) /\ 0 < q < brk (mh m) /\ mem_inv (upd q None m))
  | _ => mem_inv m
  end.

Lemma mem_inv_info m sb : mem_inv m -> msb m = Some sb -> exists f, info_is m sb f.
Proof. intros Hm Hsb. destruct (mi_sb _ Hm sb Hsb) as (_ & f & Hf & _). by exists f. Qed.

(** The cells a binding task relies on are neither the context's nor fresh. *)
Lemma info_apart m sb f : mem_inv m -> info_is m sb f -> s_fs_info sb <> mfc m /\ s_fs_info sb < brk (mh m).
Proof.
  intros Hm [Hsb Hf]. destruct (mi_sb _ Hm sb Hsb) as (Hne & _). apply (mi_fresh _ Hm) in Hf. lia.
Qed.

Lemma str_apart m a s : mem_inv m -> cells (mh m) !! a = Some (OStr s) -> a <> mfc m /\ 0 < a < brk (mh m).
Proof.
  intros Hm Ha. pose proof (mi_fresh _ Hm _ _ Ha). split; [|done]. intros ->.
  destruct (decide (mfc m = 0)); [lia|]. destruct (mi_fc _ Hm n) as (f & Hf & _). congruence.
Qed.

Lemma none_apart m a : mem_inv m -> cells (mh m) !! a = None -> 0 < a -> a <> mfc m.
Proof.
  intros Hm Ha Hpos ->. destruct (mi_fc _ Hm) as (f & Hf & _); [lia|]. congruence.
Qed.

(** Ownership depends on the context, the super block and the cell of its info. *)
Lemma owned_cells m m' a o :
  cell_owned m a o -> mfc m' = mfc m -> msb m' = msb m -> cells (mh m') = cells (mh m) ->
  cell_owned m' a o.
Proof.
  intros Ho Hfc Hsb Hc. destruct Ho as [f H1 H2|sb f H|sb f s H1 H2 H3].
  - rewrite <- Hfc in *. by apply own_fc.
  - apply own_sb. congruence.
  - apply (own_dir _ sb); [congruence|congruence|done].
Qed.

Lemma mem_inv_brk m m' :
  mem_inv m -> mfc m' = mfc m -> msb m' = msb m -> cells (mh m') = cells (mh m) ->
  brk (mh m) <= brk (mh m') -> mem_inv m'.
Proof.
  intros [H1 H2 H3 H4 H5] Hfc Hsb Hc Hb. split; rewrite ?Hc, ?Hfc, ?Hsb; try done.
  - lia.
  - intros a o Ha. apply H2 in Ha. lia.
  - intros a o Ha. by eapply owned_cells; [apply H3|..].
Qed.

(** The reset to NULL ends the time in which the directory dangles. *)
Lemma clear_inv m sb f old :
  info_is m sb f -> sync_dir f <> 0 -> cells (mh m) !! sync_dir f = None ->
  mem_inv (upd (sync_dir f) (Some (OStr old)) m) ->
  mem_inv (MState (set_fsi (s_fs_info sb) (FsInfo (mode f) 0) (mh m)) (mfc m) (msb m)).
Proof.
  intros [Hsb Hf] Hz Hd [H1 H2 H3 H4 H5]. assert (sync_dir f <> s_fs_info sb) as Hpd by congruence.
  destruct (H5 sb Hsb) as (Hne & _). simpl in Hne.
  assert (forall a, a <> sync_dir f -> cells (mh (upd (sync_dir f) (Some (OStr old)) m)) !! a = cells (mh m) !! a)
    as Hg by (intros; by rewrite cell_upd_ne).
  split; simpl.
  - done.
  - intros a o [[<- <-]|[? Ha]]%lookup_insert_Some.
    + eapply (H2 _ (OFsi f)). by rewrite Hg.
    + eapply (H2 _ o). by rewrite Hg by congruence.
  - intros a o [[<- <-]|[Hn Ha]]%lookup_insert_Some; [by apply own_sb|].
    destruct (H3 a o) as [g ? ?|s g Hs|s g t Hs Hg' Hz']; [by rewrite Hg by congruence|..]; simpl in *.
    + by apply (own_fc (MState _ (mfc m) _)).
    + congruence.
    + rewrite Hsb in Hs. injection Hs as <-. setoid_rewrite (Hg (s_fs_info sb)) in Hg'; [|done]. congruence.
  - intros Hnz. destruct (H4 Hnz) as (g & Hg' & Hs). exists g. split; [|done]. simpl in Hg'.
    rewrite lookup_insert_ne by congruence. rewrite <- (Hg (mfc m)); [done|].
    intros E. pose proof (cell_upd_eq (sync_dir f) (Some (OStr old)) m). simpl in *. congruence.
  - intros s Hs. rewrite Hsb in Hs. injection Hs as <-. split; [done|]. eexists.
    rewrite lookup_insert_eq. split; [done|by left].
Qed.

(** The store gives the copy its owner. *)
Lemma store_inv m sb f q s :
  info_is m sb f -> sync_dir f = 0 -> cells (mh m) !! q = Some (OStr s) -> 0 < q < brk (mh m) ->
  mem_inv (upd q None m) ->
  mem_inv (MState (set_fsi (s_fs_info sb) (FsInfo (mode f) q) (mh m)) (mfc m) (msb m)).
Proof.
  intros [Hsb Hf] Hz Hq Hr [H1 H2 H3 H4 H5]. assert (q <> s_fs_info sb) as Hpd by congruence.
  destruct (H5 sb Hsb) as (Hne & _). simpl in Hne.
  assert (forall a, a <> q -> cells (mh (upd q None m)) !! a = cells (mh m) !! a)
    as Hg by (intros; by rewrite cell_upd_ne).
  split; simpl.
  - done.
  - intros a o [[<- <-]|[? Ha]]%lookup_insert_Some.
    + eapply (H2 _ (OFsi f)). by rewrite Hg.
    + destruct (decide (a = q)) as [->|]; [done|]. eapply (H2 _ o). by rewrite Hg.
  - intros a o [[<- <-]|[Hn Ha]]%lookup_insert_Some; [by apply own_sb|].
    destruct (decide (a = q)) as [->|].
    { rewrite Hq in Ha. injection Ha as <-.
      refine (own_dir (MState _ (mfc m) (msb m)) sb (FsInfo (mode f) q) s Hsb _ _); simpl; [|lia].
      by rewrite lookup_insert_eq. }
    destruct (H3 a o) as [g ? ?|s' g Hs|s' g t Hs Hg' Hz']; [by rewrite Hg|..]; simpl in *.
    + by apply (own_fc (MState _ (mfc m) _)).
    + congruence.
    + rewrite Hsb in Hs. injection Hs as <-. setoid_rewrite (Hg (s_fs_info sb)) in Hg'; [|done]. congruence.
  - intros Hnz. destruct (H4 Hnz) as (g & Hg' & Hs). exists g. split; [|done]. simpl in Hg'.
    rewrite lookup_insert_ne by congruence. rewrite <- (Hg (mfc m)); [done|].
    intros E. pose proof (cell_upd_eq q None m). simpl in *. congruence.
  - intros s' Hs. rewrite Hsb in Hs. injection Hs as <-. split; [done|]. eexists.
    rewrite lookup_insert_eq. split; [done|]. right. exists s. by rewrite lookup_insert_ne.
Qed.

(** The freed string, or the copy not yet stored, is out of reach of the VFS. *)
Lemma upd_mount a x m m' sb f :
  mstep m m' -> msb m' = msb m -> info_is m sb f -> mem_inv (upd a x m) ->
  a <> s_fs_info sb -> a <> mfc m -> a < brk (mh m) ->
  info_is m' sb f /\ mem_inv (upd a x m') /\ cells (mh m') !! a = cells (mh m) !! a /\
  brk (mh m) <= brk (mh m').
Proof.
  intros Hst Hs [Hsb Hf] Hm Hne Hfc Ha. pose proof (mi_brk _ Hm) as Hb. simpl in Hb.
  assert (msb m' = Some sb) as Hsb' by congruence.
  destruct (info_apart (upd a x m) sb f Hm) as [H1 H2]; [split; [done|by rewrite cell_upd_ne]|]. simpl in *.
  destruct (mstep_frame m m' sb a Hst Hsb Hsb' Hb Hfc Ha) as (Hca & Hbr & Hfr).
  destruct (mstep_frame m m' sb (s_fs_info sb) Hst Hsb Hsb' Hb H1 H2) as (Hci & _).
  split; [split; [done|congruence]|]. split; [|done]. by eapply mstep_inv.
Qed.

Lemma bind_inv_mount pc m m' :
  bind_inv pc m -> mstep m m' -> msb m' = msb m -> bind_inv pc m'.
Proof.
  intros (sb & f & Hi & Hpc) Hst Hs. pose proof Hi as [Hsb Hf].
  assert (mem_inv m -> info_is m' sb f /\ mem_inv m') as Hplain.
  { intros Hm. split; [|by eapply mstep_inv].
    destruct (info_apart m sb f Hm Hi) as [H1 H2].
    destruct (mstep_frame m m' sb (s_fs_info sb) Hst Hsb) as (Hci & _);
      [congruence|apply Hm|done|done|]. split; congruence. }
  exists sb, f. destruct pc as [s|s|s|s|q| | | |]; cbn in *;
    try (destruct (Hplain ltac:(tauto)) as [? ?]; tauto).
  - destruct Hpc as (old & Hz & Hd & Hm).
    destruct (str_apart _ (sync_dir f) old Hm) as [A1 A2]; [apply cell_upd_eq|]. simpl in *.
    destruct (upd_mount (sync_dir f) (Some (OStr old)) m m' sb f) as (B1 & B2 & B3 & _); try done;
      [congruence|lia|]. split; [done|]. exists old. split_and!; [done|congruence|done].
  - destruct Hpc as (Hz & [[-> Hm]|(s & Hq & Hr & Hm)]); [destruct (Hplain Hm); auto|].
    assert (q <> mfc m) as A1 by (apply (none_apart (upd q None m)); [done|apply cell_upd_eq|lia]).
    destruct (upd_mount q None m m' sb f) as (B1 & B2 & B3 & B4); try done; [congruence|lia|].
    split; [done|]. split; [done|]. right. exists s. split_and!; [congruence|lia|lia|done].
Qed.

(** Alone, a binding task touches only what is allocated. *)
Lemma bind_inv_step pc m sb ok :
  binding pc = true -> bind_inv pc m -> msb m = Some sb ->
  exists r h', task_step ok (s_fs_info sb) pc (mh m) = Some (r, h') /\
    match r with
    | inl pc' => binding pc' = true /\ bind_inv pc' (MState h' (mfc m) (msb m))
    | inr _ => mem_inv (MState h' (mfc m) (msb m))
    end.
Proof.
  intros Hb (sb' & f & Hi & Hpc) Hsb. pose proof Hi as [Hsb' Hf]. rewrite Hsb in Hsb'. injection Hsb' as <-.
  pose proof (proj2 (fsi_at_cell _ _ _) Hf) as Hat. unfold task_step. rewrite Hat; cbn [mbind option_bind].
  destruct m as [h fc sb0]; simpl in *; subst sb0.
  destruct pc as [s|s|s|s|q| | | |]; try done; cbn in *.
  - do 2 eexists. split; [done|]. destruct (Z.eqb_spec (sync_dir f) 0); simpl; (split; [done|]); by exists sb, f.
  - destruct Hpc as [Hm Hz]. destruct (mi_sb _ Hm sb eq_refl) as (_ & g & Hg & Hd). simpl in *.
    rewrite Hf in Hg. injection Hg as <-. destruct Hd as [?|[old Ho]]; [done|].
    unfold kfree. rewrite (proj2 (Z.eqb_neq _ _) Hz), Ho. do 2 eexists. split; [done|]. split; [done|].
    assert (sync_dir f <> s_fs_info sb) by congruence.
    exists sb, f. split; [split; [done|]; simpl; by rewrite lookup_delete_ne|].
    exists old. simpl. split_and!; [done|by rewrite lookup_delete_eq|].
    eapply mem_inv_brk; [exact Hm|done|done| |done]. simpl.
    change (delete ?a ?c) with (partial_alter (fun _ => @None obj) a c).
    rewrite partial_alter_partial_alter_eq. exact (insert_id (cells h) _ _ Ho).
  - destruct Hpc as (old & Hz & Hd & Hm). do 2 eexists. split; [done|]. split; [done|].
    exists sb, (FsInfo (mode f) 0). split; [split; [done|]; simpl; by rewrite lookup_insert_eq|].
    split; [|done]. by apply (clear_inv (MState h fc (Some sb)) sb f old).
  - destruct Hpc as [Hm Hz]. unfold kalloc.
    pose proof (mem_inv_fsi_ok _ sb Hm eq_refl) as (_ & Hpos & Hfresh & _). simpl in *.
    destruct ok; do 2 eexists; (split; [done|]); (split; [done|]); exists sb, f.
    + assert (brk h <> s_fs_info sb) by congruence.
      split; [split; [done|]; simpl; by rewrite lookup_insert_ne|]. split; [done|]. right. exists s. simpl.
      split_and!; [by rewrite lookup_insert_eq|done|lia|].
      eapply mem_inv_brk; [exact Hm|done|done| |simpl; lia]. simpl.
      change (<[?a:=?o]> ?c) with (partial_alter (fun _ => Some o) a c).
      rewrite partial_alter_partial_alter_eq. exact (delete_id (cells h) _ Hfresh).
    + split; [done|]. split; [done|]. by left.
  - destruct Hpc as (Hz & Hq). do 2 eexists. split; [done|]. split; [done|].
    exists sb, (FsInfo (mode f) q). split; [split; [done|]; simpl; by rewrite lookup_insert_eq|].
    destruct Hq as [[-> Hm]|(s & Hq & Hr & Hm)]; [|by apply (store_inv (MState h fc (Some sb)) sb f q s)].
    eapply mem_inv_brk; [exact Hm|done|done| |done]. simpl. apply insert_id. rewrite Hf. destruct f; simpl in *. congruence.
  - by do 2 eexists.
Qed.

(** A flush while nobody binds. *)
Lemma flush_step pc m sb ok :
  binding pc = false -> mem_inv m -> msb m = Some sb ->
  exists r, task_step ok (s_fs_info sb) pc (mh m) = Some (r, mh m) /\
    (forall pc', r = inl pc' -> binding pc' = false).
Proof.
  intros Hb Hm Hsb. pose proof (mem_inv_fsi_ok _ sb Hm Hsb) as (_ & _ & _ & f & Hf & Hd).
  assert (print_str (sync_dir f) (mh m) = Some tt) as Hp.
  { unfold print_str. destruct (Z.eqb_spec (sync_dir f) 0); [done|].
    destruct Hd as [?|[s ->]]; done. }
  unfold task_step. rewrite Hf; cbn [mbind option_bind].
  destruct pc; try done; rewrite ?Hp; cbn [mbind option_bind]; eexists; (split; [done|]); intros pc'.
  - by destruct (sync_dir f =? 0); intros [= <-].
  - by intros [= <-].
  - done.
Qed.

(** One task binds, alone; or nobody does. *)
Definition cinv (c : cstate) : Prop :=
  (exists t pc, tasks c = {[t:=pc]} /\ binding pc = true /\ bind_inv pc (cm c)) \/
  ((forall t pc, tasks c !! t = Some pc -> binding pc = false /\ is_Some (msb (cm c))) /\ mem_inv (cm c)).

Lemma bstep_cinv c c' : bstep true c c' -> cinv c -> cinv c'.
Proof.
  destruct 1 as [m m' th Hst Hs|t s m th Hsb Ht Hser|t m th Hsb Ht Hser|t pc ok h fc sb th r h' Ht Hr];
    intros [(u & pc0 & Hu & Hb & Hi)|[Hth Hm]]; simpl in *; subst.
  - left. destruct Hs as [Hs|Hs]; [|by destruct (map_non_empty_singleton u pc0)].
    exists u, pc0. by split_and!; [..|eapply bind_inv_mount].
  - right. split; [|by eapply mstep_inv]. simpl. intros t pc Hpc. destruct (Hth t pc Hpc).
    destruct Hs as [-> | ->]; [done|by rewrite lookup_empty in Hpc].
  - by destruct (map_non_empty_singleton u pc0); apply Hser.
  - left. rewrite Hser by done. exists t, (BTest s). split_and!; [done|done|].
    destruct Hsb as [sb Hsb]. destruct (mem_inv_info m sb Hm Hsb) as [f Hf]. by exists sb, f.
  - specialize (Hser eq_refl u pc0). rewrite lookup_singleton_eq in Hser. by rewrite Hser in Hb.
  - right. split; [|done]. simpl. intros u pc [[<- <-]|[_ Hu]]%lookup_insert_Some; [done|eauto].
  - apply lookup_singleton_Some in Ht as [<- <-].
    destruct (bind_inv_step pc0 _ sb ok Hb Hi eq_refl) as (r' & h'' & Hr' & Hpost). simpl in *.
    rewrite Hr in Hr'. injection Hr' as <- <-. destruct r as [pc'|b].
    + left. exists u, pc'. destruct Hpost. split_and!; [apply insert_singleton_eq|done|done].
    + right. split; [|done]. simpl. intros t pc Hd. rewrite delete_singleton_eq in Hd.
      by rewrite lookup_empty in Hd.
  - destruct (Hth t pc Ht) as [Hb _].
    destruct (flush_step pc _ sb ok Hb Hm eq_refl) as (r' & Hr' & Hpc). simpl in *.
    rewrite Hr in Hr'. injection Hr' as <- ->. right. split; [|done]. simpl. intros u pc' Hu. split; [|done].
    destruct r as [pc''|b].
    + apply lookup_insert_Some in Hu as [[<- <-]|[_ Hu]]; [auto|by eapply Hth].
    + apply lookup_delete_Some in Hu as [_ Hu]. by eapply Hth.
Qed.

(** While a task binds the context's info is as it was. *)
Lemma bind_inv_fc pc m : bind_inv pc m -> fc_alloc m.
Proof.
  intros (sb & f & [Hsb Hf] & Hpc). destruct pc as [s|s|s|s|q| | | |]; cbn in *;
    try (assert (mem_inv m) as Hm by tauto; exact (mi_fc _ Hm)).
  - destruct Hpc as (old & Hz & Hd & Hm). intros Hnz. destruct (mi_fc _ Hm Hnz) as (g & Hg & ?).
    destruct (str_apart _ (sync_dir f) old Hm) as [A1 _]; [apply cell_upd_eq|].
    rewrite cell_upd_ne in Hg by done. by exists g.
  - destruct Hpc as (Hz & [[-> Hm]|(s & Hq & Hr & Hm)]); [exact (mi_fc _ Hm)|]. intros Hnz.
    destruct (mi_fc _ Hm Hnz) as (g & Hg & ?).
    assert (q <> mfc m) as A1 by (apply (none_apart (upd q None m)); [done|apply cell_upd_eq|lia]).
    rewrite cell_upd_ne in Hg by done. by exists g.
Qed.

Lemma cinv_defined c : cinv c -> all_defined c.
Proof.
  intros [(u & pc0 & Hu & Hb & Hi)|[Hth Hm]].
  - split; [by apply fc_alloc_defined; eapply bind_inv_fc|]. split.
    { rewrite Hu. by intros ?%map_non_empty_singleton. }
    intros t pc ok Ht. rewrite Hu in Ht. apply lookup_singleton_Some in Ht as [<- <-].
    pose proof Hi as (sb & f & [Hsb _] & _). exists sb. split; [done|].
    destruct (bind_inv_step pc0 _ sb ok Hb Hi Hsb) as (? & ? & -> & _). done.
  - split; [exact (fc_alloc_defined _ (mi_fc _ Hm))|]. split; [intros _ sb; by apply kill_defined|].
    intros t pc ok Ht. destruct (Hth t pc Ht) as [Hb [sb Hsb]]. exists sb. split; [done|].
    by destruct (flush_step pc _ sb ok Hb Hm Hsb) as (? & -> & _).
Qed.

Definition unmounted : cstate := CState (MState (Heap ∅ 1) 0 None) ∅.

(** A task whose next access is to memory that is not allocated. *)
Definition faulty (c : cstate) (t : Z) : Prop :=
  exists sb pc, msb (cm c) = Some sb /\ tasks c !! t = Some pc /\
    forall ok, task_step ok (s_fs_info sb) pc (mh (cm c)) = None.

(** Three tasks after the first binding: two that bind again and one that flushes. *)
Lemma unlocked_race : exists c, rtc (bstep false) unmounted c /\
  (exists s, tasks c !! 2 = Some (BFree s)) /\ faulty c 2 /\ tasks c !! 3 = Some FTmp /\ faulty c 3.
Proof.
  eexists. split; [|split_and!]; [|eexists|do 2 eexists; split_and!| |do 2 eexists; split_and!].
  { unfold unmounted.
    eapply rtc_l; [eapply c_mount; [by eapply (st_init true)|by left]|].
    eapply rtc_l; [eapply c_mount; [by eapply (st_get_tree true true (fun _ m => m) 0)|by right]|].
    eapply rtc_l; [by apply (c_bind _ 1 [100])|].
    do 4 (eapply rtc_l; [by eapply (c_task _ 1 _ true)|]).
    eapply rtc_l; [by apply (c_bind _ 2 [101])|].
    eapply rtc_l; [by eapply (c_task _ 2 _ true)|].
    eapply rtc_l; [by apply (c_flush _ 3)|].
    eapply rtc_l; [by eapply (c_task _ 3 _ true)|].
    eapply rtc_l; [by apply (c_bind _ 4 [102])|].
    do 2 (eapply rtc_l; [by eapply (c_task _ 4 _ true)|]).
    apply rtc_refl. }
  all: try (vm_compute; reflexivity).
  all: intros []; vm_compute; reflexivity.
Qed.

(** (C13) Memory over the life of a mount, whatever allocations fail.  ramfs_bind
    replaces the directory in several unlocked accesses and ramfs_file_flush reads it
    without a lock.  As long as binds do not overlap with each other or with a flush, no
    access, at any point of a bind or flush, is to memory that is not allocated, nothing
    unallocated is freed, and once the context is gone and the super block is killed
    nothing that ramfs allocated is left, however often the mount was bound.  The code
    does not keep them apart: with two binds and a flush at the same time a state is
    reached where the next kfree frees the directory a second time, and the flush
    prints freed memory. *)
Theorem ramfs_mount_memory :
  (forall c, rtc (bstep true) unmounted c ->
     all_defined c /\ (mfc (cm c) = 0 -> msb (cm c) = None -> cells (mh (cm c)) = ∅)) /\
  (exists c, rtc (bstep false) unmounted c /\
     (exists s, tasks c !! 2 = Some (BFree s)) /\ faulty c 2 /\ tasks c !! 3 = Some FTmp /\ faulty c 3).
Proof.
  split; [|exact unlocked_race]. intros c Hr. assert (cinv c) as Hc.
  { revert c Hr. apply (rtc_ind_r cinv); [|intros ? ? _; apply bstep_cinv].
    right. split; [intros t pc; simpl; by rewrite lookup_empty|].
    split; simpl; try done; intros a o; by rewrite lookup_empty. }
  split; [by apply cinv_defined|]. intros Hfc Hsb.
  destruct Hc as [(u & pc & _ & _ & sb & f & [Hs _] & _)|[_ Hm]]; [congruence|].
  apply map_eq. intros a.
  rewrite lookup_empty. destruct (cells (mh (cm c)) !! a) as [o|] eqn:E; [|done].
  apply (mi_owned _ Hm) in E. destruct E; congruence.
Qed.

(** A mount that is bound, with a flush after it. *)
Lemma ramfs_mount_memory_witness :
  exists c, rtc (bstep true) unmounted c /\ tasks c !! 2 = Some FTmp /\ all_defined c.
Proof.
  assert (exists c, rtc (bstep true) unmounted c /\ tasks c !! 2 = Some FTmp) as (c & Hc & Ht).
  { eexists. split.
    - unfold unmounted.
      eapply rtc_l; [eapply c_mount; [by eapply (st_init true)|by left]|].
      eapply rtc_l; [eapply c_mount; [by eapply (st_get_tree true true (fun _ m => m) 0)|by right]|].
      eapply rtc_l; [by apply (c_bind _ 1 (bytes_of_string "/d"))|].
      do 4 (eapply rtc_l; [by eapply (c_task _ 1 _ true)|]).
      eapply rtc_l; [apply (c_flush _ 2); [done|done|]|].
      { intros _ u pc [Hn Hu]%lookup_delete_Some. by rewrite !lookup_insert_ne in Hu. }
      eapply rtc_l; [by eapply (c_task _ 2 _ true)|].
      apply rtc_refl.
    - vm_compute. reflexivity. }
  exists c. split; [exact Hc|]. split; [exact Ht|]. exact (proj1 (proj1 ramfs_mount_memory c Hc)).
Defined.

End Lifecycle.
