(* ===== verification/RamfsFlush.v ===== *)
(** * ramfs persistence: copying a file to the bound directory
      (src/kvm/linux-5.15.178/fs/ramfs/inode.c: copy_file_content, ramfs_file_flush,
       ramfs_proc_sync_write; file-mmu.c)

    The files behind the VFS calls are the interface [VFS], a view of named contents
    and its laws [VFSLaws] (the documented behaviour of open, read, write, fsync and
    rename).  The component is code in a state monad over that state and a ledger of
    the buffers, open files, references and locks it holds.  [CopyFlush]: the routines;
    [Sync]: the entry points (proc file, fsync, write); [MapFS]: a file system that
    satisfies the interface. *)

From S2P Require Import Prelude Ramfs.

Definition PATH_MAX : nat := 4096.
Definition O_WRONLY : Z := 1.
Definition O_RDWR : Z := 2.
Definition O_RDONLY : Z := 0.
Definition O_CREAT : Z := 0x40.
Definition O_TRUNC : Z := 0x200.

(** ** The interface to the VFS *)

Abbreviation name := (list Z).
Abbreviation bytes := (list Z).

(** What the code follows from an open file: file_inode, i_sb, s_fs_info, sync_dir. *)
Record fs_info := FsInfo { sync_dir : option name }.
Record super_block := SuperBlock { s_fs_info : option fs_info }.
Record inode := Inode { i_sb : option super_block }.
Record file := File { f_key : name; f_inode : option inode; f_read : bool }.

(** [files] are the regular files by name; a file has one name.  A call returns an error
    number on the left; lookups return the link count of what they find. *)
Class VFS (S : Type) := {
  files : S -> gmap name bytes;
  filp_open : name -> Z -> S -> (Z + file) * S;
  filp_close : file -> S -> S;
  kernel_read : file -> nat -> nat -> S -> (Z + bytes) * S;
  kernel_write : file -> bytes -> nat -> S -> Z * S;
  vfs_fsync : file -> S -> Z * S;
  kern_path : name -> S -> (Z + Z) * S;
  lookup_one_len : name -> name -> S -> (Z + Z) * S;
  do_renameat2 : name -> name -> S -> Z * S;
  generic_file_write_iter : file -> bytes -> S -> Z * S
}.

(** What a successful open does to the files. *)
Definition opened (p : name) (flags : Z) (m : gmap name bytes) : gmap name bytes :=
  match m !! p with
  | Some _ => if flag flags O_TRUNC then <[p:=[]]> m else m
  | None => if flag flags O_CREAT then <[p:=[]]> m else m
  end.

Definition errno_neg (e : Z) : Prop := -4095 <= e < 0.

Class VFSLaws (S : Type) `{VFS S} := {
  open_law : forall p fl s r s', filp_open p fl s = (r, s') ->
    match r with
    | inr f => f_key f = p /\ files s' = opened p fl (files s)
    | inl e => errno_neg e /\
        (files s' = files s \/
         flag fl O_CREAT = true /\ files s !! p = None /\ files s' = <[p:=[]]> (files s))
    end;
  close_law : forall f s, files (filp_close f s) = files s;
  read_law : forall f len pos s r s', kernel_read f len pos s = (r, s') ->
    files s' = files s /\
    match r with
    | inr d => exists c, files s !! f_key f = Some c /\ d `prefix_of` drop pos c /\
        (length d <= len)%nat /\ ((0 < len)%nat -> d = [] -> (length c <= pos)%nat)
    | inl e => errno_neg e
    end;
  write_law : forall f d pos s r s', kernel_write f d pos s = (r, s') ->
    (files s' = files s \/ exists c, files s' = <[f_key f:=c]> (files s)) /\
    r <= Z.of_nat (length d) /\
    (r = Z.of_nat (length d) -> forall c, files s !! f_key f = Some c -> length c = pos ->
       files s' = <[f_key f:=c ++ d]> (files s));
  fsync_law : forall f s r s', vfs_fsync f s = (r, s') -> files s' = files s /\ (r = 0 \/ errno_neg r);
  kern_path_law : forall p s r s', kern_path p s = (r, s') ->
    files s' = files s /\ (forall e, r = inl e -> errno_neg e);
  lookup_law : forall p d s r s', lookup_one_len p d s = (r, s') ->
    files s' = files s /\ (forall e, r = inl e -> errno_neg e);
  rename_law : forall old new s r s', do_renameat2 old new s = (r, s') ->
    (r <> 0 -> errno_neg r /\ files s' = files s) /\
    (r = 0 -> old <> new -> exists c, files s !! old = Some c /\
       files s' = <[new:=c]> (delete old (files s)))
}.

(** ** The monad: the VFS state and the ledger *)

(** Numbers of buffers, open files, path references, dentry references and inode locks
    held. *)
Record ledger := Ledger { bufs : Z; opens : Z; paths : Z; dents : Z; locks : Z }.
Record st (S : Type) := St { vfs : S; led : ledger }.
Arguments St {S} _ _.
Arguments vfs {S} _.
Arguments led {S} _.

Definition M (S A : Type) := st S -> A * st S.
#[export] Instance M_ret S : MRet (M S) := fun A a s => (a, s).
#[export] Instance M_bind S : MBind (M S) :=
  fun A B f m s => let '(a, s') := m s in f a s'.

Definition bump (db do_ dp dd dl : Z) (l : ledger) : ledger :=
  Ledger (bufs l + db) (opens l + do_) (paths l + dp) (dents l + dd) (locks l + dl).

Section Calls.
Context {S : Type} `{VFS S}.
(** Which allocations succeed, by call site. *)
Context (alloc_ok : nat -> bool).

Definition lift {A} (f : S -> A * S) : M S A :=
  fun s => let '(a, v) := f (vfs s) in (a, St v (led s)).
Definition tick (db do_ dp dd dl : Z) : M S unit :=
  fun s => (tt, St (vfs s) (bump db do_ dp dd dl (led s))).

Definition kmalloc (site : nat) : M S bool :=
  if alloc_ok site then tick 1 0 0 0 0;; mret true else mret false.
(** kfree of a pointer; a NULL one (false) is ignored. *)
Definition kfree (p : bool) : M S unit := if p then tick (-1) 0 0 0 0 else mret tt.

Definition open (p : name) (flags : Z) : M S (Z + file) :=
  r ← lift (filp_open p flags);
  match r with inr f => tick 0 1 0 0 0;; mret (inr f) | inl e => mret (inl e) end.
Definition close (f : file) : M S unit :=
  (fun s => (tt, St (filp_close f (vfs s)) (led s)));; tick 0 (-1) 0 0 0.
Definition path_lookup (p : name) : M S (Z + Z) :=
  r ← lift (kern_path p);
  match r with inr n => tick 0 0 1 0 0;; mret (inr n) | inl e => mret (inl e) end.
Definition path_put : M S unit := tick 0 0 (-1) 0 0.
Definition dentry_lookup (p d : name) : M S (Z + Z) :=
  r ← lift (lookup_one_len p d);
  match r with inr n => tick 0 0 0 1 0;; mret (inr n) | inl e => mret (inl e) end.
Definition dput : M S unit := tick 0 0 0 (-1) 0.
Definition inode_lock : M S unit := tick 0 0 0 0 1.
Definition inode_unlock : M S unit := tick 0 0 0 0 (-1).
End Calls.

(** ** Running the monad in proofs *)

Lemma M_bind_eq {S A B} (m : M S A) (f : A -> M S B) s :
  (m ≫= f) s = let '(a, s') := m s in f a s'.
Proof. reflexivity. Qed.

Lemma M_bind_inv {S A B} (m : M S A) (f : A -> M S B) s b s2 :
  (m ≫= f) s = (b, s2) -> exists a s1, m s = (a, s1) /\ f a s1 = (b, s2).
Proof. rewrite M_bind_eq. destruct (m s) as [a s1]. eauto. Qed.

Lemma bump_bump a1 a2 a3 a4 a5 b1 b2 b3 b4 b5 l :
  bump a1 a2 a3 a4 a5 (bump b1 b2 b3 b4 b5 l) =
  bump (b1 + a1) (b2 + a2) (b3 + a3) (b4 + a4) (b5 + a5) l.
Proof. unfold bump; simpl. f_equal; lia. Qed.
Lemma bump_0 l : bump 0 0 0 0 0 l = l.
Proof. destruct l. unfold bump; simpl. f_equal; lia. Qed.

(** Splits an equation on a run of a sequence into the runs of its parts. *)
Ltac run H :=
  lazymatch type of H with
  | (_ ≫= _) _ = _ =>
      let a := fresh "a" in let s := fresh "s" in let R := fresh "R" in
      apply M_bind_inv in H as (a & s & R & H); run R; run H
  | mret _ _ = (_, _) => injection H as <- ->
  | (if negb true then _ else _) _ = _ => cbn [negb] in H; run H
  | (if negb false then _ else _) _ = _ => cbn [negb] in H; run H
  | _ => idtac
  end.

Section CallLemmas.
Context {S : Type} `{VFSLaws S} (alloc_ok : nat -> bool).

Lemma lift_run {A} (f : S -> A * S) s a s' :
  lift f s = (a, s') -> f (vfs s) = (a, vfs s') /\ led s' = led s.
Proof. unfold lift. destruct (f (vfs s)) as [x v]. by intros [= <- <-]. Qed.

Lemma tick_run a b c d e (s s' : st S) u :
  tick a b c d e s = (u, s') -> vfs s' = vfs s /\ led s' = bump a b c d e (led s).
Proof. by intros [= <- <-]. Qed.

Lemma kmalloc_run n (s s' : st S) b :
  kmalloc alloc_ok n s = (b, s') ->
  b = alloc_ok n /\ vfs s' = vfs s /\ led s' = bump (if b then 1 else 0) 0 0 0 0 (led s).
Proof.
  unfold kmalloc. destruct (alloc_ok n); intros Hr.
  - by injection Hr as <- <-.
  - injection Hr as <- <-. by rewrite bump_0.
Qed.

Lemma kfree_run b (s s' : st S) u :
  kfree b s = (u, s') -> vfs s' = vfs s /\ led s' = bump (if b then -1 else 0) 0 0 0 0 (led s).
Proof. destruct b; intros [= <- <-]; [done|]. by rewrite bump_0. Qed.

Lemma open_run p fl (s s' : st S) r :
  open p fl s = (r, s') -> filp_open p fl (vfs s) = (r, vfs s') /\
  led s' = bump 0 (match r with inr _ => 1 | inl _ => 0 end) 0 0 0 (led s).
Proof.
  unfold open. rewrite M_bind_eq. unfold lift.
  destruct (filp_open p fl (vfs s)) as [[e|f] v]; intros [= <- <-]; by rewrite ?bump_0.
Qed.

Lemma close_run f (s s' : st S) u :
  close f s = (u, s') -> files (vfs s') = files (vfs s) /\ led s' = bump 0 (-1) 0 0 0 (led s).
Proof. intros [= _ <-]. simpl. by rewrite close_law. Qed.

Lemma path_lookup_run p (s s' : st S) r :
  path_lookup p s = (r, s') -> files (vfs s') = files (vfs s) /\
  led s' = bump 0 0 (match r with inr _ => 1 | inl _ => 0 end) 0 0 (led s) /\
  (forall e, r = inl e -> e <> 0).
Proof.
  unfold path_lookup. rewrite M_bind_eq. unfold lift.
  destruct (kern_path p (vfs s)) as [r0 v] eqn:E. apply kern_path_law in E as [E He].
  destruct r0 as [e|f]; intros [= <- <-]; rewrite ?bump_0; (split; [done|]); (split; [done|]).
  - intros e' [= <-]. specialize (He _ eq_refl). unfold errno_neg in He. lia.
  - done.
Qed.

Lemma dentry_lookup_run p d (s s' : st S) r :
  dentry_lookup p d s = (r, s') -> files (vfs s') = files (vfs s) /\
  led s' = bump 0 0 0 (match r with inr _ => 1 | inl _ => 0 end) 0 (led s) /\
  (forall e, r = inl e -> e <> 0).
Proof.
  unfold dentry_lookup. rewrite M_bind_eq. unfold lift.
  destruct (lookup_one_len p d (vfs s)) as [r0 v] eqn:E. apply lookup_law in E as [E He].
  destruct r0 as [e|f]; intros [= <- <-]; rewrite ?bump_0; (split; [done|]); (split; [done|]).
  - intros e' [= <-]. specialize (He _ eq_refl). unfold errno_neg in He. lia.
  - done.
Qed.
End CallLemmas.

(** Replaces every run of a primitive call by what it does to state and ledger. *)
Ltac prims :=
  unfold path_put, dput, inode_lock, inode_unlock in *;
  repeat match goal with
  | H : lift _ _ = (_, _) |- _ => apply lift_run in H as [? ?]
  | H : tick _ _ _ _ _ _ = (_, _) |- _ => apply tick_run in H as [? ?]
  | H : kmalloc _ _ _ = (_, _) |- _ => apply kmalloc_run in H as (? & ? & ?)
  | H : kfree _ _ = (_, _) |- _ => apply kfree_run in H as [? ?]
  | H : open _ _ _ = (_, _) |- _ => apply open_run in H as [? ?]
  | H : close _ _ = (_, _) |- _ => apply close_run in H as [? ?]
  | H : path_lookup _ _ = (_, _) |- _ => apply path_lookup_run in H as (? & ? & ?)
  | H : dentry_lookup _ _ _ = (_, _) |- _ => apply dentry_lookup_run in H as (? & ? & ?)
  end.

(** Chains the file equations of a run. *)
Ltac same_files :=
  repeat match goal with
  | H : vfs ?x = vfs ?y |- _ => rewrite H in *; clear H
  | H : files (vfs ?x) = files (vfs ?y) |- _ => rewrite H in *; clear H
  end.

(** Chains the ledger equations of a run. *)
Ltac ledgers :=
  repeat match goal with H : led ?x = _ |- context [led ?x] => rewrite H; clear H end;
  rewrite ?bump_bump; cbn [negb andb orb];
  repeat match goal with |- context [if ?b then _ else _] => destruct b end;
  cbn [Z.add Z.opp Z.pos_sub Pos.add Pos.succ Z.succ_double Z.pred_double Z.double];
  rewrite ?bump_0; try done; try (unfold bump; f_equal; lia).

(** ** The strings *)

(** strrchr: the offset of the last [c]. *)
Fixpoint strrchr (l : list Z) (c : Z) : option nat :=
  match l with
  | [] => None
  | b :: l' => match strrchr l' c with
               | Some i => Some (S i)
               | None => if b =? c then Some O else None
               end
  end.
(** The part after the last slash, or the whole string. *)
Definition after_slash (l : name) : name :=
  match strrchr l 47 with Some i => drop (S i) l | None => l end.
(** The part before the last slash, or "/". *)
Definition before_slash (l : name) : name :=
  match strrchr l 47 with Some i => take i l | None => [47] end.

(** snprintf into a buffer of [PATH_MAX] bytes: what is in it as a string. *)
Definition snprintf (s : list Z) : list Z := take (PATH_MAX - 1) s.

(** The two names ramfs_file_flush builds; the time in seconds and nanoseconds and the
    process number make the first one unique. *)
Definition tmp_name (dir filename : name) (secs ns pid : Z) : name :=
  dir ++ [47; 46] ++ filename ++ [46] ++ fmt_lx secs ++ [46] ++ fmt_lx ns ++ [46]
      ++ fmt_d pid ++ bytes_of_string ".tmp".
Definition final_name (dir filename : name) : name := dir ++ [47] ++ filename.

Module CopyFlush.
Section Routines.
Context {S : Type} `{VFS S}.
Context (alloc_ok : nat -> bool) (d_path : file -> Z + name) (secs ns pid : Z).

Definition buf_size : nat := 4096 * 4.

(** The copy loop; [None] when the fuel is used up. *)
Fixpoint copy_loop (fuel : nat) (src dst : file) (src_pos dst_pos : nat) : M S (option Z) :=
  match fuel with
  | O => mret None
  | Datatypes.S n =>
      r ← lift (kernel_read src buf_size src_pos);
      match r with
      | inl e => mret (Some e)
      | inr data =>
          let bytes_read := Z.of_nat (length data) in
          if bytes_read <=? 0 then mret (Some 0)
          else
            bytes_written ← lift (kernel_write dst data dst_pos);
            if bytes_written <? bytes_read
            then mret (Some (if bytes_written <? 0 then bytes_written else - EIO))
            else copy_loop n src dst (src_pos + length data)
                   (dst_pos + Z.to_nat bytes_written)
      end
  end.

(** copy_file_content.  The two path buffers serve messages only; they are not freed
    when the copy buffer cannot be allocated. *)
Definition copy_file_content (fuel : nat) (src dst : file) : M S (option Z) :=
  src_path_buf ← kmalloc alloc_ok 10;
  dst_path_buf ← kmalloc alloc_ok 11;
  if negb src_path_buf || negb dst_path_buf then
    kfree src_path_buf;; kfree dst_path_buf;; mret (Some (- ENOMEM))
  else
    buf ← kmalloc alloc_ok 12;
    if negb buf then mret (Some (- ENOMEM))
    else
      ret ← copy_loop fuel src dst 0 0;
      match ret with
      | None => mret None
      | Some ret =>
          ret ← (if ret =? 0 then lift (vfs_fsync dst) else mret ret);
          kfree buf;; kfree src_path_buf;; kfree dst_path_buf;;
          mret (Some ret)
      end.

(** The warning about a file without links: a buffer is taken and given back. *)
Definition warn_nlink (site : nat) (nlink : Z) : M S unit :=
  if nlink =? 0 then path_buf ← kmalloc alloc_ok site; kfree path_buf else mret tt.

(** The rename by name: do_renameat2 takes over the two names. *)
Definition rename_step (tmp_path final_path : name) : M S Z :=
  old_name ← kmalloc alloc_ok 6;
  new_name ← kmalloc alloc_ok 7;
  if old_name && new_name then
    ret ← lift (do_renameat2 tmp_path final_path);
    kfree old_name;; kfree new_name;; mret ret
  else kfree old_name;; kfree new_name;; mret (- ENOMEM).

(** The final name is created if it is not there; a failure is only reported. *)
Definition touch (final_path : name) : M S unit :=
  touch_file ← open final_path (Z.lor O_WRONLY O_CREAT);
  match touch_file with inr f => close f | inl _ => mret tt end.

(** The dentry of the final name, looked up with its directory locked. *)
Definition locked_lookup (final_path : name) : M S (Z + Z) :=
  inode_lock;;
  new_dentry ← dentry_lookup (after_slash final_path) (before_slash final_path);
  inode_unlock;;
  mret new_dentry.

(** From the copied temporary file to the final name. *)
Definition publish (tmp_path final_path : name) : M S Z :=
  r ← path_lookup tmp_path;
  match r with
  | inl error => mret error
  | inr old_nlink =>
    dir_name ← kmalloc alloc_ok 3;
    if negb dir_name then path_put;; mret (- ENOMEM)
    else
      r ← path_lookup (before_slash final_path);
      match r with
      | inl error => path_put;; kfree dir_name;; mret error
      | inr _ =>
        kfree dir_name;;
        touch final_path;;
        new_dentry ← locked_lookup final_path;
        match new_dentry with
        | inl error => path_put;; path_put;; mret error
        | inr new_nlink =>
          warn_nlink 4 new_nlink;;
          warn_nlink 5 old_nlink;;
          ret ← rename_step tmp_path final_path;
          dput;; path_put;; path_put;; mret ret
        end
      end
  end.

(** From the names to the result: the temporary file is written, then published. *)
Definition copy_and_publish (fuel : nat) (f : file) (tmp_path final_path : name)
    : M S (option Z) :=
  dest_file ← open tmp_path (Z.lor O_WRONLY (Z.lor O_CREAT O_TRUNC));
  match dest_file with
  | inl e => mret (Some e)
  | inr dest_file =>
      ret ← copy_file_content fuel f dest_file;
      match ret with
      | None => mret None
      | Some ret =>
          if ztrue ret then close dest_file;; mret (Some ret)
          else close dest_file;; r ← publish tmp_path final_path; mret (Some r)
      end
  end.

(** ramfs_file_flush. *)
Definition ramfs_file_flush (fuel : nat) (file : option file) : M S (option Z) :=
  match file with
  | None => mret (Some (- EINVAL))
  | Some f =>
  match f_inode f with
  | None => mret (Some (- EINVAL))
  | Some inode =>
  match i_sb inode with
  | None => mret (Some (- EINVAL))
  | Some sb =>
  match s_fs_info sb with
  | None | Some (FsInfo None) => mret (Some (- EINVAL))
  | Some (FsInfo (Some dir)) =>
    path_buf ← kmalloc alloc_ok 0;
    if negb path_buf then mret (Some (- ENOMEM))
    else
      match d_path f with
      | inl e => kfree path_buf;; mret (Some e)
      | inr dest_path =>
          let filename := after_slash dest_path in
          tmp_path ← kmalloc alloc_ok 1;
          final_path ← kmalloc alloc_ok 2;
          ret ← (if negb tmp_path || negb final_path then mret (Some (- ENOMEM))
                 else copy_and_publish fuel f (snprintf (tmp_name dir filename secs ns pid))
                        (snprintf (final_name dir filename)));
          match ret with
          | None => mret None
          | Some ret =>
              kfree final_path;; kfree tmp_path;; kfree path_buf;; mret (Some ret)
          end
      end
  end end end end.

End Routines.
(** ** The files *)

(** The files may have gained an empty file under [p], nothing else. *)
Definition touched (p : name) (m m' : gmap name bytes) : Prop :=
  m' = m \/ (m !! p = None /\ m' = <[p:=[]]> m).

Section Correct.
Context {S : Type} `{VFSLaws S}.
Context (alloc_ok : nat -> bool) (d_path : file -> Z + name) (secs ns pid : Z).

Lemma touch_run p (s s' : st S) u :
  touch p s = (u, s') -> led s' = led s /\ touched p (files (vfs s)) (files (vfs s')).
Proof.
  unfold touch. intros R. run R. apply open_run in R0 as [Ho Hl]. apply open_law in Ho.
  destruct a as [e|f].
  - run R. rewrite Hl, bump_0. split; [done|].
    destruct Ho as [_ [?|(_ & ? & ?)]]; [by left|by right].
  - prims. split; [by ledgers|]. destruct Ho as [_ Ho].
    match goal with Hc : files (vfs s') = _ |- _ => rewrite Hc, Ho end.
    unfold opened. destruct (files (vfs s) !! p) eqn:E; [by left|by right].
Qed.

Lemma locked_lookup_run p (s s' : st S) r :
  locked_lookup p s = (r, s') -> files (vfs s') = files (vfs s) /\
  led s' = bump 0 0 0 (match r with inr _ => 1 | inl _ => 0 end) 0 (led s) /\
  (forall e, r = inl e -> e <> 0).
Proof.
  unfold locked_lookup. intros R. run R. prims. split; [congruence|]. split; [|done].
  destruct a; by ledgers.
Qed.

Lemma rename_step_run tmp final (s s' : st S) r :
  rename_step alloc_ok tmp final s = (r, s') ->
  led s' = led s /\
  ((r <> 0 /\ files (vfs s') = files (vfs s)) \/
   (r = 0 /\ do_renameat2 tmp final (vfs s) = (0, vfs s'))).
Proof.
  unfold rename_step. intros R. run R.
  destruct (a && a0)%bool eqn:Ea; run R; prims; split; [by ledgers| |by ledgers|].
  - assert (do_renameat2 tmp final (vfs s) = (a1, vfs s')) as Hr by congruence.
    destruct (decide (a1 = 0)) as [->|Hn]; [by right|].
    left. split; [done|]. apply rename_law in Hr as [Hr _]. by apply Hr.
  - left. split; [done|congruence].
Qed.

Lemma warn_nlink_run site n (s s' : st S) u :
  warn_nlink alloc_ok site n s = (u, s') -> vfs s' = vfs s /\ led s' = led s.
Proof.
  unfold warn_nlink. destruct (n =? 0); intros R; run R; prims; [|done].
  split; [congruence|by ledgers].
Qed.

(** Publishing gives everything it takes back; it either renames the temporary file or
    fails, with at most an empty file made under the final name. *)
Lemma publish_run tmp final (s s' : st S) r :
  publish alloc_ok tmp final s = (r, s') ->
  led s' = led s /\
  exists m, touched final (files (vfs s)) m /\
    ((r <> 0 /\ files (vfs s') = m) \/
     (r = 0 /\ exists v, files v = m /\ do_renameat2 tmp final v = (0, vfs s'))).
Proof.
  unfold publish. intros R. run R. destruct a as [e|old_nlink]; run R.
  { prims. split; [by ledgers|]. eexists. split; [left; reflexivity|]. left. auto. }
  destruct a; run R.
  2: { prims. split; [by ledgers|]. eexists. split; [left; reflexivity|]. left.
       split; [done|congruence]. }
  destruct a as [e|nl]; run R.
  { prims. split; [by ledgers|]. eexists. split; [left; reflexivity|]. left.
    split; [auto|congruence]. }
  match goal with Hr : touch _ _ = _ |- _ => apply touch_run in Hr as [? Ht] end.
  match goal with Hr : locked_lookup _ _ = _ |- _ => apply locked_lookup_run in Hr as (? & ? & ?) end.
  match goal with x : (Z + Z)%type |- _ => destruct x as [e2|nl2] end; run R.
  { prims. split; [by ledgers|]. same_files. eexists. split; [exact Ht|]. left. auto. }
  repeat match goal with Hr : warn_nlink _ _ _ _ = _ |- _ => apply warn_nlink_run in Hr as [? ?] end.
  match goal with Hr : rename_step _ _ _ _ = _ |- _ => apply rename_step_run in Hr as [? Hren] end.
  prims. split; [by ledgers|]. exists (files (vfs s4)).
  split; [by replace (files (vfs s)) with (files (vfs s3)) by congruence|].
  destruct Hren as [[? Hf]|[-> Hf]]; [left; split; [done|congruence]|].
  right. split; [done|]. exists (vfs s7). split; congruence.
Qed.

(** *** The copy *)

Lemma take_prefix_step pos d (c : list Z) :
  d `prefix_of` drop pos c -> (pos <= length c)%nat -> take pos c ++ d = take (pos + length d) c.
Proof.
  intros [k Hk] Hp. rewrite <- (take_drop pos c) at 2. rewrite Hk, take_app_ge, length_take by
    (rewrite length_take; lia).
  rewrite Nat.min_l by done. f_equal.
  replace (pos + length d - pos)%nat with (length d) by lia. by rewrite take_app_length.
Qed.

(** With more fuel than bytes left the loop ends; the destination then holds the source
    when the result is 0, and no other file changes in any case. *)
Lemma copy_loop_run fuel src dst c : f_key src <> f_key dst -> forall pos (s s' : st S) o,
  files (vfs s) !! f_key src = Some c -> files (vfs s) !! f_key dst = Some (take pos c) ->
  (pos <= length c)%nat -> (length c - pos < fuel)%nat ->
  copy_loop fuel src dst pos pos s = (o, s') ->
  led s' = led s /\ exists ret x, o = Some ret /\
    files (vfs s') = <[f_key dst:=x]> (files (vfs s)) /\ (ret = 0 -> x = c).
Proof.
  intros Hne. induction fuel as [|n IH]; intros pos s s' o Hs Hd Hp Hfuel; [lia|].
  cbn [copy_loop]. intros R. run R. apply lift_run in R0 as [Hr Hl]. apply read_law in Hr as [Hf Hr].
  destruct a as [e|d].
  { run R. split; [done|]. exists e, (take pos c). rewrite insert_id by congruence.
    split; [done|]. split; [done|]. unfold errno_neg in Hr. lia. }
  destruct Hr as (c' & Hc' & Hpre & Hlen & Heof). rewrite Hs in Hc'. injection Hc' as <-.
  destruct (Z.leb_spec (Z.of_nat (length d)) 0) as [Hz|Hz]; run R.
  { split; [done|]. exists 0, c. split; [done|]. split; [|done].
    destruct d; [|simpl in Hz; lia]. rewrite Hf, insert_id; [done|].
    rewrite take_ge in Hd; [done|]. apply Heof; [unfold buf_size; lia|done]. }
  apply lift_run in R0 as [Hw Hl']. apply write_law in Hw as (Hany & Hle & Hfull).
  destruct (Z.ltb_spec a (Z.of_nat (length d))) as [Hlt|Hge]; run R.
  - split; [congruence|]. rewrite Hf in Hany.
    assert (exists x, files (vfs s') = <[f_key dst:=x]> (files (vfs s))) as [x Hx].
    { destruct Hany as [->|?]; [|done]. exists (take pos c). by rewrite insert_id. }
    do 2 eexists. split; [done|]. split; [exact Hx|]. destruct (Z.ltb_spec a 0); [lia|done].
  - assert (a = Z.of_nat (length d)) as -> by lia. rewrite Nat2Z.id in R.
    assert (files (vfs s1) = <[f_key dst:=take (pos + length d) c]> (files (vfs s))) as H1.
    { rewrite <- Hf, <- take_prefix_step by done. apply Hfull; [done|by rewrite Hf|].
      rewrite length_take. lia. }
    assert (length d <= length c - pos)%nat by (apply prefix_length in Hpre; by rewrite length_drop in Hpre).
    apply IH in R as (Hl2 & ret & x & -> & Hx & Hret).
    + split; [congruence|]. exists ret, x. split; [done|]. split; [|done].
      by rewrite Hx, H1, insert_insert_eq.
    + by rewrite H1, lookup_insert_ne.
    + by rewrite H1, lookup_insert_eq.
    + lia.
    + lia.
Qed.

(** copy_file_content keeps two buffers exactly when the copy buffer is not available. *)
Definition copy_leak : Z :=
  if alloc_ok 10 && alloc_ok 11 && negb (alloc_ok 12) then 2 else 0.

Lemma copy_file_content_run fuel src dst c (s s' : st S) o :
  f_key src <> f_key dst ->
  files (vfs s) !! f_key src = Some c -> files (vfs s) !! f_key dst = Some [] ->
  (length c < fuel)%nat -> copy_file_content alloc_ok fuel src dst s = (o, s') ->
  led s' = bump copy_leak 0 0 0 0 (led s) /\ exists ret x, o = Some ret /\
    files (vfs s') = <[f_key dst:=x]> (files (vfs s)) /\ (ret = 0 -> x = c).
Proof.
  intros Hne Hs Hd Hfuel. unfold copy_file_content, copy_leak. intros R. run R. prims. subst a a0.
  destruct (alloc_ok 10), (alloc_ok 11); cbn [negb orb andb] in *; run R; prims.
  2-4: (split; [by ledgers|]; exists (- ENOMEM), []; split; [done|]; split; [|done];
        rewrite insert_id; [congruence|exact Hd]).
  destruct (alloc_ok 12); subst; run R; prims.
  2: { split; [by ledgers|]. exists (- ENOMEM), []. split; [done|]. split; [|done].
       rewrite insert_id; [congruence|exact Hd]. }
  match goal with Hr : copy_loop _ _ _ _ _ ?x = _ |- _ =>
    assert (vfs x = vfs s) as Hv by congruence;
    apply (copy_loop_run _ _ _ c Hne) in Hr as (? & ret & x' & -> & Hx & Hret);
      [|by rewrite Hv|by rewrite Hv, take_0|lia|lia] end.
  rewrite Hv in Hx. destruct (Z.eqb_spec ret 0) as [->|Hnz]; run R; prims.
  - match goal with Hr : vfs_fsync _ _ = _ |- _ => apply fsync_law in Hr as [? ?] end.
    split; [by ledgers|]. do 2 eexists. split; [done|]. split; [|by intros; apply Hret].
    rewrite <- Hx. congruence.
  - split; [by ledgers|]. exists ret, x'. split; [done|]. split; [|done].
    rewrite <- Hx. congruence.
Qed.

(** *** The flush *)

(** What a failed flush may leave: the temporary file in any state, and an empty file
    under the final name where there was none. *)
Definition never_partial (tmp final : name) (m m' : gmap name bytes) : Prop :=
  forall n, n <> tmp -> m' !! n = m !! n \/ (n = final /\ m !! n = None /\ m' !! n = Some []).

Lemma never_partial_insert tmp final m m' c :
  touched final (<[tmp:=c]> m) m' -> tmp <> final -> never_partial tmp final m m'.
Proof.
  intros [->|[Hn ->]] Hne n Hnt; [left; by rewrite lookup_insert_ne|].
  rewrite lookup_insert_ne in Hn by done.
  destruct (decide (n = final)) as [->|]; [right; by rewrite lookup_insert_eq|].
  left. by rewrite !lookup_insert_ne.
Qed.

Lemma renamed_files tmp final m m1 m2 c c' :
  touched final (<[tmp:=c]> m) m1 -> tmp <> final -> m1 !! tmp = Some c' ->
  m2 = <[final:=c']> (delete tmp m1) -> m2 = <[final:=c]> (delete tmp m).
Proof.
  intros Ht Hne Hc ->.
  assert (c' = c) as ->.
  { destruct Ht as [->|[_ ->]]; [|rewrite lookup_insert_ne in Hc by done];
      rewrite lookup_insert_eq in Hc; congruence. }
  apply map_eq. intros n. destruct (decide (n = final)) as [->|Hf]; [by rewrite !lookup_insert_eq|].
  rewrite !(lookup_insert_ne _ final n) by done.
  destruct (decide (n = tmp)) as [->|Hn]; [by rewrite !lookup_delete_eq|].
  rewrite !lookup_delete_ne by done.
  destruct Ht as [->|[_ ->]]; by rewrite ?lookup_insert_ne.
Qed.

Lemma copy_and_publish_run fuel f tmp final c (s s' : st S) o :
  f_key f <> tmp -> tmp <> final -> files (vfs s) !! f_key f = Some c -> (length c < fuel)%nat ->
  copy_and_publish alloc_ok fuel f tmp final s = (o, s') ->
  (led s' = led s \/ led s' = bump copy_leak 0 0 0 0 (led s)) /\
  exists r, o = Some r /\
    (r = 0 -> files (vfs s') = <[final:=c]> (delete tmp (files (vfs s)))) /\
    (r <> 0 -> never_partial tmp final (files (vfs s)) (files (vfs s'))).
Proof.
  intros Hne1 Hne2 Hc Hfuel. unfold copy_and_publish. intros R. run R.
  apply open_run in R0 as [Ho Hl]. apply open_law in Ho. destruct a as [e|dest].
  { run R. split; [left; by ledgers|]. exists e. split; [done|].
    destruct Ho as [He Ho]. split; [unfold errno_neg in He; lia|]. intros _ n Hn. left.
    destruct Ho as [->|(_ & _ & ->)]; [done|]. by rewrite lookup_insert_ne. }
  destruct Ho as [<- Ho].
  assert (files (vfs s0) = <[f_key dest:=[]]> (files (vfs s))) as Hf0
    by (rewrite Ho; unfold opened; by case_match).
  run R. apply (copy_file_content_run _ _ _ c) in R0 as (Hl1 & ret & x & -> & Hx & Hret);
    [|done|by rewrite Hf0, lookup_insert_ne|by rewrite Hf0, lookup_insert_eq|done].
  rewrite Hf0, insert_insert_eq in Hx. unfold ztrue in R.
  destruct (Z.eqb_spec ret 0) as [->|Hnz]; run R.
  - rewrite (Hret eq_refl) in Hx. prims.
    match goal with Hq : publish _ _ _ _ = _ |- _ => apply publish_run in Hq as (Hl2 & m & Ht & Hp) end.
    match goal with Hq : files (vfs ?y) = files (vfs s1) |- _ => rewrite Hq, Hx in Ht end.
    split; [right; by ledgers|]. eexists. split; [done|].
    destruct Hp as [[Hr Hm]|(Hr & v & Hv & Hren)]; (split; [intros Hr0|intros Hr0]); try done.
    + rewrite Hm. by eapply never_partial_insert.
    + apply rename_law in Hren as [_ Hren]. destruct (Hren eq_refl Hne2) as (c' & Hc' & Hfin).
      rewrite Hv in *. by eapply renamed_files.
  - prims. split; [right; by ledgers|]. exists ret. split; [done|]. split; [done|]. intros _.
    same_files. rewrite Hx. eapply never_partial_insert; [by left|done].
Qed.

Lemma names_differ dir fn :
  (length (tmp_name dir fn secs ns pid) < PATH_MAX)%nat ->
  snprintf (tmp_name dir fn secs ns pid) <> snprintf (final_name dir fn).
Proof.
  intros Hl. unfold snprintf.
  assert (length (final_name dir fn) < length (tmp_name dir fn secs ns pid))%nat as Hlt.
  { unfold final_name, tmp_name. rewrite !length_app. simpl. lia. }
  rewrite !take_ge by lia. intros E. rewrite E in Hlt. lia.
Qed.

(** A file of a bound mount: the directory it is bound to and its path. *)
Definition bound (f : file) (dir dest : name) : Prop :=
  f_inode f = Some (Inode (Some (SuperBlock (Some (FsInfo (Some dir)))))) /\ d_path f = inr dest.

(** The names a flush of [f] uses. *)
Definition tmp_of (dir dest : name) : name := snprintf (tmp_name dir (after_slash dest) secs ns pid).
Definition final_of (dir dest : name) : name := snprintf (final_name dir (after_slash dest)).

(** A flush can proceed: the file exists with content [c] under a name that is not the
    temporary one, the names fit, and the fuel exceeds the number of bytes. *)
Definition flushable (fuel : nat) (f : file) (dir dest : name) (c : bytes) (s : st S) : Prop :=
  bound f dir dest /\ (length (tmp_name dir (after_slash dest) secs ns pid) < PATH_MAX)%nat /\
  f_key f <> tmp_of dir dest /\ files (vfs s) !! f_key f = Some c /\ (length c < fuel)%nat.

Lemma ramfs_file_flush_run fuel f dir dest c (s s' : st S) o :
  flushable fuel f dir dest c s ->
  ramfs_file_flush alloc_ok d_path secs ns pid fuel (Some f) s = (o, s') ->
  (led s' = led s \/ led s' = bump copy_leak 0 0 0 0 (led s)) /\
  exists r, o = Some r /\
    (r = 0 -> files (vfs s') = <[final_of dir dest:=c]> (delete (tmp_of dir dest) (files (vfs s)))) /\
    (r <> 0 -> never_partial (tmp_of dir dest) (final_of dir dest) (files (vfs s)) (files (vfs s'))).
Proof.
  intros ((Hi & Hp) & Hlen & Hne & Hc & Hfuel) R. unfold ramfs_file_flush in R.
  rewrite Hi in R. cbn [i_sb s_fs_info] in R. run R.
  destruct a; run R.
  2: { prims. split; [left; by ledgers|]. exists (- ENOMEM). split; [done|].
       split; [done|]. intros _ n _. left. congruence. }
  rewrite Hp in R. run R.
  match goal with Hq : (if (negb ?a || negb ?b)%bool then _ else _) _ = _ |- _ =>
    destruct (negb a || negb b)%bool eqn:Eab; run Hq end.
  - run R. prims. split; [left; by ledgers|]. exists (- ENOMEM). split; [done|].
    split; [done|]. intros _ n _. left. congruence.
  - apply orb_false_iff in Eab as [?%negb_false_iff ?%negb_false_iff]. subst.
    match goal with Hq : copy_and_publish _ _ _ _ _ ?x = _ |- _ => rename Hq into Rc, x into sc end.
    prims.
    assert (vfs sc = vfs s) as Hv by congruence.
    apply (copy_and_publish_run _ _ _ _ c) in Rc as (Hl & r & -> & Hgood & Hbad);
      [|done|by apply names_differ|by rewrite Hv|done].
    run R. prims. rewrite Hv in *. split.
    + destruct Hl as [Hl|Hl]; [left|right]; by ledgers.
    + exists r. split; [done|]. same_files. by split.
Qed.

(** (C10) A flush ends for every file (fuel above its size), and is atomic at the final
    name.  When it returns 0, the file of that name in the bound directory has exactly
    the content of the ramfs file, the temporary file is gone and no other file changed.
    When it returns an error, whatever failed, no file but the temporary one changed,
    except that the final name may now be an empty file where there was none: the old
    persistent copy is never replaced by a part of the new one. *)
Theorem ramfs_file_flush_atomic fuel f dir dest c (s : st S) :
  flushable fuel f dir dest c s ->
  exists r s', ramfs_file_flush alloc_ok d_path secs ns pid fuel (Some f) s = (Some r, s') /\
    (r = 0 -> files (vfs s') = <[final_of dir dest:=c]> (delete (tmp_of dir dest) (files (vfs s)))) /\
    (r <> 0 -> forall n, n <> tmp_of dir dest ->
       files (vfs s') !! n = files (vfs s) !! n \/
       (n = final_of dir dest /\ files (vfs s) !! n = None /\ files (vfs s') !! n = Some [])).
Proof.
  intros Hf. destruct (ramfs_file_flush _ _ _ _ _ _ _ _) as [o s'] eqn:E.
  destruct (ramfs_file_flush_run _ _ _ _ _ _ _ _ Hf E) as (_ & r & -> & H1 & H2).
  exists r, s'. split; [done|]. split; [done|]. exact H2.
Qed.

(** (C14) A flush gives back every buffer, open file, path reference, dentry reference
    and lock it takes, on every path but one: when the buffer of the copy cannot be
    allocated, the two path buffers of copy_file_content stay allocated. *)
Theorem ramfs_file_flush_resources fuel f dir dest c (s : st S) :
  flushable fuel f dir dest c s ->
  let s' := snd (ramfs_file_flush alloc_ok d_path secs ns pid fuel (Some f) s) in
  led s' = led s \/
  (alloc_ok 10 = true /\ alloc_ok 11 = true /\ alloc_ok 12 = false /\
   led s' = bump 2 0 0 0 0 (led s)).
Proof.
  intros Hf. destruct (ramfs_file_flush _ _ _ _ _ _ _ _) as [o s'] eqn:E.
  destruct (ramfs_file_flush_run _ _ _ _ _ _ _ _ Hf E) as [Hl _]. simpl.
  unfold copy_leak in Hl. destruct (alloc_ok 10), (alloc_ok 11), (alloc_ok 12); simpl in Hl;
    rewrite ?bump_0 in Hl; tauto.
Qed.

End Correct.

End CopyFlush.

(** ** The entry points: fsync, write, /proc/fs/ramfs/sync *)
Module Sync.
Import CopyFlush.
Section Entry.
Context {S : Type} `{VFS S}.
Context (alloc_ok : nat -> bool) (d_path : file -> Z + name) (secs ns pid : Z).

Abbreviation flush := (ramfs_file_flush alloc_ok d_path secs ns pid).

(** ramfs_fsync: a file without read permission is opened again for reading. *)
Definition ramfs_fsync (fuel : nat) (f : file) : M S (option Z) :=
  if negb (f_read f) then
    path_buf ← kmalloc alloc_ok 20;
    if negb path_buf then mret (Some (- ENOMEM))
    else match d_path f with
         | inl e => kfree path_buf;; mret (Some e)
         | inr path_str =>
             read_file ← open path_str O_RDONLY;
             kfree path_buf;;
             match read_file with
             | inl e => mret (Some e)
             | inr rf => ret ← flush fuel (Some rf); close rf;; mret ret
             end
         end
  else flush fuel (Some f).

(** Whether the file's mount is bound, as ramfs_file_write_iter tests it. *)
Definition has_sync_dir (f : file) : bool :=
  match f_inode f with
  | Some (Inode (Some (SuperBlock (Some (FsInfo (Some _)))))) => true
  | _ => false
  end.

(** ramfs_file_write_iter: [None] is fuel used up in the flush. *)
Definition ramfs_file_write_iter (fuel : nat) (f : file) (data : bytes) : M S (option Z) :=
  ret ← lift (generic_file_write_iter f data);
  if (0 <? ret) && has_sync_dir f && negb (f_read f) then
    path_buf ← kmalloc alloc_ok 21;
    if negb path_buf then mret (Some ret)
    else match d_path f with
         | inl _ => kfree path_buf;; mret (Some ret)
         | inr path_str =>
             read_file ← open path_str O_RDONLY;
             kfree path_buf;;
             match read_file with
             | inl _ => mret (Some ret)
             | inr rf => sync_ret ← flush fuel (Some rf); close rf;;
                         mret (match sync_ret with Some _ => Some ret | None => None end)
             end
         end
  else if (0 <? ret) && has_sync_dir f then
    sync_ret ← flush fuel (Some f);
    mret (match sync_ret with Some _ => Some ret | None => None end)
  else mret (Some ret).

(** The scan for anything that is not blank: [has_content] has no initial value. *)
Definition is_blank (b : Z) : bool := (b =? 10) || (b =? 13) || (b =? 32) || (b =? 9).
Definition scan_content (garbage : Z) (kbuf : list Z) : Z :=
  if existsb (fun b => negb (is_blank b)) kbuf then 1 else garbage.

(** The loop that removes line ends: the new count and buffer. *)
Fixpoint trim (count : nat) (kbuf : list Z) : nat * list Z :=
  match count with
  | O => (O, kbuf)
  | Datatypes.S n =>
      match kbuf !! n with
      | Some b => if ProcBind.is_eol b then trim n (<[n:=0]> kbuf) else (count, kbuf)
      | None => (count, kbuf)
      end
  end.

(** ramfs_proc_sync_write: [garbage] is the value of the uninitialised variable. *)
Definition ramfs_proc_sync_write (fuel : nat) (copy_ok : bool) (garbage : Z) (buffer : list Z)
    : M S (option Z) :=
  let count := length buffer in
  let original_count := wraps 32 (Z.of_nat count) in
  kbuf_p ← kmalloc alloc_ok 30;
  if negb kbuf_p then mret (Some (- ENOMEM))
  else if negb copy_ok then kfree kbuf_p;; mret (Some (- EFAULT))
  else
    let kbuf := buffer ++ [0] in
    let has_content := scan_content garbage buffer in
    if negb (ztrue has_content) then kfree kbuf_p;; mret (Some original_count)
    else
      let '(count, kbuf) := trim count kbuf in
      if (count =? 0)%nat then kfree kbuf_p;; mret (Some (- EINVAL))
      else
        target_file ← open (ProcBind.cstr kbuf) O_RDWR;
        match target_file with
        | inl e => kfree kbuf_p;; mret (Some e)
        | inr f =>
            ret ← flush fuel (Some f);
            close f;; kfree kbuf_p;;
            mret (match ret with
                  | Some ret => Some (if ret =? 0 then original_count else ret)
                  | None => None
                  end)
        end.

(** A request of line ends only is answered by the value of an uninitialised variable. *)
Lemma sync_write_uninitialised fuel (s : st S) :
  alloc_ok 30 = true ->
  fst (ramfs_proc_sync_write fuel true 0 [10] s) = Some 1 /\
  fst (ramfs_proc_sync_write fuel true 1 [10] s) = Some (- EINVAL).
Proof. intros Ha. unfold ramfs_proc_sync_write, kmalloc. rewrite Ha. split; reflexivity. Qed.

End Entry.

Section Correct.
Context {S : Type} `{VFSLaws S}.
Context (alloc_ok : nat -> bool) (d_path : file -> Z + name) (secs ns pid : Z).

Lemma trim_app p e r :
  Forall (fun b => ProcBind.is_eol b = true) e ->
  (forall b, last p = Some b -> ProcBind.is_eol b = false) ->
  trim (length p + length e) (p ++ e ++ r) = (length p, p ++ replicate (length e) 0 ++ r).
Proof.
  revert r. induction e as [|b e IH] using rev_ind; intros r He Hp; simpl.
  - rewrite Nat.add_0_r. destruct p as [|c p' _] using rev_ind; [done|].
    rewrite length_app, Nat.add_1_r; simpl. rewrite <- app_assoc. simpl.
    rewrite list_lookup_middle by done. rewrite Hp; [done|by rewrite last_snoc].
  - apply Forall_app in He as [He [Hb _]%Forall_cons].
    rewrite length_app, Nat.add_1_r, Nat.add_succ_r; cbn [trim].
    replace (p ++ (e ++ [b]) ++ r) with ((p ++ e) ++ b :: r) by by rewrite <- !app_assoc.
    rewrite <- length_app, list_lookup_middle by done. rewrite Hb, insert_app_r_alt, Nat.sub_diag by lia.
    simpl. rewrite <- app_assoc, length_app, (IH (0 :: r) He Hp).
    change (0 :: replicate (length e) 0 ++ r) with (replicate (Datatypes.S (length e)) 0 ++ r).
    by rewrite replicate_S_end, <- app_assoc.
Qed.

(** A path written to /proc/fs/ramfs/sync, with any line ends after it, is opened
    and flushed whatever the uninitialised variable holds: the answer is the number of
    bytes written when the flush succeeds, and then the persistent copy is the file;
    otherwise it is the error and no persistent copy is damaged.  The file is closed and
    the buffer freed. *)
Theorem ramfs_proc_sync_write_flushes fuel garbage p e f dir dest c (s : st S) v :
  ProcBind.no_nul p -> existsb (fun b => negb (is_blank b)) p = true ->
  (forall b, last p = Some b -> ProcBind.is_eol b = false) ->
  Forall (fun b => ProcBind.is_eol b = true) e ->
  Z.of_nat (length (p ++ e)) < 2 ^ 31 -> alloc_ok 30 = true ->
  filp_open p O_RDWR (vfs s) = (inr f, v) -> flushable d_path secs ns pid fuel f dir dest c (St v (led s)) ->
  exists r s', ramfs_proc_sync_write alloc_ok d_path secs ns pid fuel true garbage (p ++ e) s = (Some r, s') /\
    (r = Z.of_nat (length (p ++ e)) /\
       files (vfs s') = <[final_of dir dest:=c]> (delete (tmp_of secs ns pid dir dest) (files v)) \/
     r <> 0 /\
       never_partial (tmp_of secs ns pid dir dest) (final_of dir dest) (files v) (files (vfs s'))) /\
    (led s' = led s \/ led s' = bump (copy_leak alloc_ok) 0 0 0 0 (led s)).
Proof.
  intros Hnul Hcont Hlast Heol Hlen Ha Hopen Hfl.
  assert (scan_content garbage (p ++ e) = 1) as Hscan.
  { unfold scan_content. by rewrite existsb_app, Hcont. }
  assert (ProcBind.cstr (p ++ replicate (length e) 0 ++ [0]) = p) as Hcstr.
  { destruct e; apply ProcBind.cstr_app, Hnul. }
  assert (length p <> O) as Hp0 by (destruct p; done).
  destruct (ramfs_proc_sync_write _ _ _ _ _ _ _ _ _ _) as [o s'] eqn:R.
  unfold ramfs_proc_sync_write in R. run R.
  assert (a = true) as -> by (apply kmalloc_run in R0 as [-> _]; done). run R.
  rewrite Hscan in R. change (negb (ztrue 1)) with false in R. cbv iota in R.
  rewrite length_app, <- app_assoc, trim_app in R by done.
  rewrite (proj2 (Nat.eqb_neq _ _) Hp0), Hcstr in R. run R.
  prims.
  match goal with Hq : vfs ?x = vfs s |- _ => rewrite Hq in * end.
  match goal with Hq : filp_open p _ _ = (?x, _) |- _ => rewrite Hopen in Hq; injection Hq as <- ? end.
  run R. subst v. apply (ramfs_file_flush_run _ _ _ _ _ _ _ dir dest c) in R0
    as (Hl & r & -> & Hgood & Hbad); [|exact Hfl].
  prims. do 2 eexists. split; [done|]. split.
  - destruct (Z.eqb_spec r 0) as [->|Hnz]; [left|right].
    + rewrite length_app in *. split; [apply wraps_id; [lia|unfold in_s; lia]|].
      rewrite <- Hgood by done. congruence.
    + split; [done|]. specialize (Hbad Hnz). by same_files.
  - destruct Hl; [left|right]; by ledgers.
Qed.

(** Opening a file that exists for reading changes nothing. *)
Lemma reopen_run p (s s' : st S) rf c :
  files (vfs s) !! p = Some c -> open p O_RDONLY s = (inr rf, s') ->
  f_key rf = p /\ files (vfs s') = files (vfs s) /\ led s' = bump 0 1 0 0 0 (led s).
Proof.
  intros Hc [Ho Hl]%open_run. apply open_law in Ho as [Hk Ho]. split; [done|]. split; [|done].
  rewrite Ho. unfold opened. by rewrite Hc.
Qed.

(** A failed open for reading changes nothing. *)
Lemma reopen_fail p (s s' : st S) e :
  open p O_RDONLY s = (inl e, s') -> files (vfs s') = files (vfs s) /\ led s' = led s.
Proof.
  intros [Ho Hl]%open_run. rewrite bump_0 in Hl. split; [|done].
  apply open_law in Ho as [_ [?|(Hfl & _)]]; [done|discriminate].
Qed.

(** What a flush that answered [r] has done to files and ledger. *)
Definition flush_effect dir dest c r (s s' : st S) : Prop :=
  (r = 0 -> files (vfs s') = <[final_of dir dest:=c]> (delete (tmp_of secs ns pid dir dest) (files (vfs s)))) /\
  (r <> 0 -> never_partial (tmp_of secs ns pid dir dest) (final_of dir dest) (files (vfs s)) (files (vfs s'))) /\
  (led s' = led s \/ led s' = bump (copy_leak alloc_ok) 0 0 0 0 (led s)).

Abbreviation flush := (ramfs_file_flush alloc_ok d_path secs ns pid).
Abbreviation write_iter := (ramfs_file_write_iter alloc_ok d_path secs ns pid).

Lemma flush_effect_run fuel f dir dest c (s s' : st S) o :
  flushable d_path secs ns pid fuel f dir dest c s ->
  flush fuel (Some f) s = (o, s') ->
  exists r, o = Some r /\ flush_effect dir dest c r s s'.
Proof.
  intros Hf R. apply (ramfs_file_flush_run _ _ _ _ _ _ _ _ _ _ _ _ _ Hf) in R as (Hl & r & -> & H1 & H2).
  by exists r.
Qed.

(** The file the automatic flush reads from, with the state it starts in: the written
    file itself when it can be read; otherwise the same name opened again, for which a
    buffer is needed. *)
Definition flush_reader (f : file) (dest : name) (v : S) (l : ledger) : option (file * st S) :=
  if f_read f then Some (f, St v l)
  else if alloc_ok 21 then
    match filp_open dest O_RDONLY v with
    | (inr rf, v1) => Some (rf, St v1 (bump 0 1 0 0 0 l))
    | (inl _, _) => None
    end
  else None.

(** No flush without a write that wrote something and a bound mount. *)
Lemma write_iter_plain fuel f data ret v (s : st S) :
  generic_file_write_iter f data (vfs s) = (ret, v) ->
  ((0 <? ret) && has_sync_dir f)%bool = false -> write_iter fuel f data s = (Some ret, St v (led s)).
Proof.
  intros Hw Hg. unfold ramfs_file_write_iter. rewrite M_bind_eq. unfold lift. rewrite Hw. by rewrite Hg.
Qed.

(** The run of a write after which a flush is due. *)
Lemma write_iter_due fuel f data ret v dest (s : st S) :
  generic_file_write_iter f data (vfs s) = (ret, v) ->
  ((0 <? ret) && has_sync_dir f)%bool = true -> d_path f = inr dest ->
  exists o s', write_iter fuel f data s = (o, s') /\
  match flush_reader f dest v (led s) with
  | None => o = Some ret /\ files (vfs s') = files v /\ led s' = led s
  | Some (rf, s0) =>
      exists r s1, flush fuel (Some rf) s0 = (r, s1) /\ o = (fun _ => ret) <$> r /\
        files (vfs s') = files (vfs s1) /\
        led s' = bump 0 (if f_read f then 0 else -1) 0 0 0 (led s1)
  end.
Proof.
  intros Hw Hg Hd. destruct (write_iter fuel f data s) as [o s'] eqn:R. exists o, s'. split; [done|].
  unfold ramfs_file_write_iter in R. rewrite M_bind_eq in R. unfold lift in R. rewrite Hw, Hg in R.
  unfold flush_reader. destruct (f_read f); cbn [negb andb] in R.
  - run R. do 2 eexists. split; [done|]. rewrite bump_0. by destruct a.
  - run R. apply kmalloc_run in R0 as (-> & Hv0 & Hl0). destruct (alloc_ok 21); run R.
    2: { split; [done|]. rewrite Hl0, Hv0, bump_0. done. }
    rewrite Hd in R. run R. pose proof R0 as Ho. apply open_run in Ho as [Ho _].
    rewrite Hv0 in Ho. cbn [vfs] in Ho. rewrite Ho. destruct a as [e|rf]; run R.
    + apply reopen_fail in R0 as [? ?]. prims. split; [done|].
      split; [by same_files|by ledgers].
    + match goal with Hq : flush _ _ ?x = (?o, ?y) |- _ => rename Hq into Rf, x into sf, y into sg, o into r end.
      prims. exists r, sg. split; [|split; [by destruct r|split; [done|done]]].
      assert (led sf = bump 0 1 0 0 0 (led s)) as Hls by by ledgers.
      rewrite <- Hls. destruct sf as [vf lf]; cbn [vfs led] in *. congruence.
Qed.

(** (C11) The automatic flush of a write.  The write returns what the generic write
    returned, in every case.  Without a bound directory, or when nothing was written,
    the generic write is all that happens.  On a bound mount a write of some bytes is
    followed by one run of ramfs_file_flush, on the file itself or, when it was opened
    for writing only, on the same name opened for reading and closed again; the flush is
    skipped exactly when that second opening fails.  When the flush answers 0 the
    persistent copy is the file with the bytes just written; otherwise the old copy is
    kept (or is an empty file where there was none). *)
Theorem ramfs_file_write_iter_flushes fuel f data ret v (s : st S) :
  generic_file_write_iter f data (vfs s) = (ret, v) ->
  (((0 <? ret) && has_sync_dir f)%bool = false -> write_iter fuel f data s = (Some ret, St v (led s))) /\
  (0 < ret -> forall dir c, flushable d_path secs ns pid fuel f dir (f_key f) c (St v (led s)) ->
   (forall rf v1, filp_open (f_key f) O_RDONLY v = (inr rf, v1) -> bound d_path rf dir (f_key f)) ->
   exists s', write_iter fuel f data s = (Some ret, s') /\
   match flush_reader f (f_key f) v (led s) with
   | None => files (vfs s') = files v /\ led s' = led s
   | Some (rf, s0) =>
       exists r s1, flush fuel (Some rf) s0 = (Some r, s1) /\ files (vfs s') = files (vfs s1) /\
         flush_effect dir (f_key f) c r (St v (led s)) s'
   end).
Proof.
  intros Hw. split; [by apply write_iter_plain|]. intros Hpos dir c Hfl Hre.
  pose proof Hfl as ((Hi & Hd) & Hlen & Hne & Hc & Hfuel).
  destruct (write_iter_due fuel f data ret v (f_key f) s Hw) as (o & s' & R & H3); [|done|].
  { rewrite (proj2 (Z.ltb_lt _ _) Hpos). unfold has_sync_dir. by rewrite Hi. }
  exists s'. rewrite R. destruct (flush_reader f (f_key f) v (led s)) as [[rf s0]|] eqn:Er.
  2: { by destruct H3 as (-> & ? & ?). }
  destruct H3 as (r & s1 & Rf & -> & Hfs & Hls).
  assert (files (vfs s0) = files v /\ led s0 = bump 0 (if f_read f then 0 else 1) 0 0 0 (led s) /\
          flushable d_path secs ns pid fuel rf dir (f_key f) c s0) as (Hf0 & Hl0 & Hfl0).
  { clear R Rf Hfs Hls. unfold flush_reader in Er.
    destruct (f_read f); [simplify_eq/=; by rewrite bump_0|].
    destruct (alloc_ok 21); [|done]. destruct (filp_open _ _ v) as [[e|rf'] v1] eqn:Ho; [done|].
    pose proof (Hre _ _ eq_refl) as Hb. simplify_eq/=. apply open_law in Ho as [Hk Ho].
    unfold opened in Ho. simpl in Hc. rewrite Hc in Ho. simpl in Ho.
    split; [done|]. split; [done|]. split; [done|]. simpl. rewrite Hk, Ho. done. }
  destruct (flush_effect_run _ _ _ _ _ _ _ _ Hfl0 Rf) as (r' & -> & H1 & H2 & H3).
  split; [done|]. exists r', s1. split; [done|]. split; [done|].
  unfold flush_effect. rewrite Hfs. cbn [vfs led]. rewrite <- Hf0. split; [done|]. split; [done|].
  destruct H3 as [H3|H3]; [left|right]; rewrite Hls, H3, Hl0, ?bump_bump; destruct (f_read f);
    cbn [Z.add Z.opp Z.pos_sub]; rewrite ?bump_0; try done; unfold bump; f_equal; lia.
Qed.
End Correct.
End Sync.

(** ** A file system with the interface *)
Module MapFS.

(** Names and contents; a file opened from it belongs to the bound mount.  Nothing
    fails, except that names that are not there are not found. *)
Abbreviation mfs := (gmap name bytes).
Definition demo_inode : inode := Inode (Some (SuperBlock (Some (FsInfo (Some [47; 100]))))).

Definition write_at (pos : nat) (d c : bytes) : bytes :=
  take pos c ++ replicate (pos - length c) 0 ++ d ++ drop (pos + length d) c.

#[export] Instance map_vfs : VFS mfs := {|
  files := id;
  filp_open p fl s :=
    if bool_decide (is_Some (s !! p)) || flag fl O_CREAT
    then (inr (File p (Some demo_inode) (negb (flag fl O_WRONLY))), opened p fl s)
    else (inl (- ENOENT), s);
  filp_close _ s := s;
  kernel_read f len pos s :=
    match s !! f_key f with
    | Some c => (inr (take len (drop pos c)), s)
    | None => (inl (- EIO), s)
    end;
  kernel_write f d pos s :=
    match s !! f_key f with
    | Some c => (Z.of_nat (length d), <[f_key f:=write_at pos d c]> s)
    | None => (- EIO, s)
    end;
  vfs_fsync _ s := (0, s);
  kern_path _ s := (inr 1, s);
  lookup_one_len _ _ s := (inr 1, s);
  do_renameat2 old new s :=
    match s !! old with
    | Some c => (0, <[new:=c]> (delete old s))
    | None => (- ENOENT, s)
    end;
  generic_file_write_iter f d s :=
    match s !! f_key f with
    | Some c => (Z.of_nat (length d), <[f_key f:=c ++ d]> s)
    | None => (- EIO, s)
    end
|}.

#[export] Instance map_vfs_laws : VFSLaws mfs.
Proof.
  split; cbn [files filp_open filp_close kernel_read kernel_write vfs_fsync kern_path lookup_one_len
    do_renameat2 map_vfs]; unfold id, errno_neg.
  - intros p fl s r s'. case_match; intros [= <- <-]; [done|]. split; [done|by left].
  - done.
  - intros f len pos s r s'. destruct (s !! f_key f) as [c|] eqn:Ec; intros [= <- <-]; [|done].
    split; [done|]. exists c. split; [done|]. split; [apply prefix_take|].
    split; [rewrite length_take; lia|]. intros Hl He.
    apply (f_equal length) in He. rewrite length_take, length_drop in He. simpl in He. lia.
  - intros f d pos s r s'. destruct (s !! f_key f) as [c|] eqn:Ec; intros [= <- <-].
    + split; [by right; eexists|]. split; [lia|]. intros _ c' [= <-] Hp. f_equal.
      unfold write_at. rewrite take_ge, drop_ge, Hp, Nat.sub_diag by lia. by rewrite app_nil_r.
    + split; [by left|]. split; [unfold EIO; lia|]. unfold EIO. lia.
  - intros f s r s' [= <- <-]. auto.
  - intros p s r s' [= <- <-]. done.
  - intros p d s r s' [= <- <-]. done.
  - intros old new s r s'. destruct (s !! old) as [c|] eqn:Ec; intros [= <- <-]; [|done].
    split; [done|]. eauto.
Qed.

(** A file "/m/a" with three bytes, bound to "/d", where an older copy is. *)
Definition demo_file : file := File (bytes_of_string "/m/a") (Some demo_inode) true.
Definition demo_st : st mfs :=
  St {[bytes_of_string "/m/a" := [1; 2; 3]; bytes_of_string "/d/a" := [9]]} (Ledger 0 0 0 0 0).
(** The same file opened for writing only. *)
Definition write_only : file := File (bytes_of_string "/m/a") (Some demo_inode) false.
Definition demo_d_path (f : file) : Z + name := inr (f_key f).

Lemma demo_flushable :
  CopyFlush.flushable demo_d_path 0x10 0x20 7 10 demo_file [47; 100] (bytes_of_string "/m/a")
    [1; 2; 3] demo_st.
Proof.
  split; [done|]. split; [apply Nat.ltb_lt; vm_compute; reflexivity|].
  split; [vm_compute; discriminate|]. split; [vm_compute; reflexivity|simpl; lia].
Qed.

Lemma ramfs_file_flush_atomic_witness :
  exists s', CopyFlush.ramfs_file_flush (fun _ => true) demo_d_path 0x10 0x20 7 10 (Some demo_file) demo_st
    = (Some 0, s') /\
  files (vfs s') !! bytes_of_string "/d/a" = Some [1; 2; 3].
Proof.
  destruct (CopyFlush.ramfs_file_flush_atomic (fun _ => true) demo_d_path 0x10 0x20 7 10 demo_file
    [47; 100] (bytes_of_string "/m/a") [1; 2; 3] demo_st demo_flushable) as (r & s' & H & H1 & _).
  assert (Some r = Some 0) as [= ->].
  { apply (f_equal fst) in H. symmetry. etransitivity; [|exact H]. vm_compute. reflexivity. }
  exists s'. split; [exact H|]. rewrite (H1 eq_refl). vm_compute. reflexivity.
Defined.

Lemma ramfs_file_flush_resources_witness :
  led (snd (CopyFlush.ramfs_file_flush (fun n => negb (n =? 12)%nat) demo_d_path 0x10 0x20 7 10
              (Some demo_file) demo_st)) = Ledger 2 0 0 0 0 /\
  (led (snd (CopyFlush.ramfs_file_flush (fun _ => true) demo_d_path 0x10 0x20 7 10
              (Some demo_file) demo_st)) = led demo_st \/ true = false).
Proof.
  split; [vm_compute; reflexivity|].
  destruct (CopyFlush.ramfs_file_flush_resources (fun _ => true) demo_d_path 0x10 0x20 7 10 demo_file
    [47; 100] (bytes_of_string "/m/a") [1; 2; 3] demo_st demo_flushable) as [H|(_ & _ & H & _)];
    [left; exact H|right; exact H].
Defined.

Lemma ramfs_proc_sync_write_flushes_witness :
  exists r s', Sync.ramfs_proc_sync_write (fun _ => true) demo_d_path 0x10 0x20 7 10 true 5
      (bytes_of_string "/m/a" ++ [10]) demo_st = (Some r, s') /\
    (r = 5 /\ files (vfs s') !! bytes_of_string "/d/a" = Some [1; 2; 3] \/ r <> 0).
Proof.
  destruct (Sync.ramfs_proc_sync_write_flushes (fun _ => true) demo_d_path 0x10 0x20 7 10 5
    (bytes_of_string "/m/a") [10] (File (bytes_of_string "/m/a") (Some demo_inode) true) [47; 100]
    (bytes_of_string "/m/a") [1; 2; 3] demo_st (vfs demo_st)) as (r & s' & H & H1 & _);
    try (vm_compute; reflexivity).
  - apply (bool_decide_unpack _). vm_compute. exact I.
  - intros b. simpl. by intros [= <-].
  - repeat constructor.
  - exact demo_flushable.
  - exists r, s'. split; [exact H|]. destruct H1 as [[-> H1]|[H1 _]]; [left|right; exact H1].
    split; [reflexivity|]. rewrite H1. vm_compute. reflexivity.
Defined.

Lemma ramfs_file_write_iter_flushes_witness :
  exists s', Sync.ramfs_file_write_iter (fun _ => true) demo_d_path 0x10 0x20 7 10 write_only [3]
      (St {[bytes_of_string "/m/a" := [1; 2]]} (Ledger 0 0 0 0 0)) = (Some 1, s') /\
    files (vfs s') !! bytes_of_string "/d/a" = Some [1; 2; 3] /\ led s' = Ledger 0 0 0 0 0.
Proof.
  destruct (Sync.ramfs_file_write_iter_flushes (fun _ => true) demo_d_path 0x10 0x20 7 10 write_only [3] 1
    {[bytes_of_string "/m/a" := [1; 2; 3]]}
    (St {[bytes_of_string "/m/a" := [1; 2]]} (Ledger 0 0 0 0 0))) as [_ H]; [vm_compute; reflexivity|].
  destruct (H ltac:(lia) [47; 100] [1; 2; 3]) as (s' & Hrun & r & s1 & Rf & _ & Heff).
  - split; [done|]. split; [apply Nat.ltb_lt; vm_compute; reflexivity|].
    split; [vm_compute; discriminate|]. split; [vm_compute; reflexivity|simpl; lia].
  - intros rf v1 Ho. vm_compute in Ho. injection Ho as <- _. split; reflexivity.
  - exists s'. split; [exact Hrun|].
    assert (Some r = Some 0) as [= ->].
    { apply (f_equal fst) in Rf. symmetry. etransitivity; [|exact Rf]. vm_compute. reflexivity. }
    destruct Heff as (Hgood & _ & [Hl|Hl]); rewrite (Hgood eq_refl); (split; [vm_compute; reflexivity|exact Hl]).
Defined.

End MapFS.
