(* ===== verification/RamfsNommu.v ===== *)
(** * ramfs without an MMU (src/kvm/linux-5.15.178/fs/ramfs/file-nommu.c)

    A file that is to be mapped as shared memory gets one run of physically contiguous
    pages when it is first given a size; a shared mapping is then found by checking that
    its pages are adjacent.  The state is the page frames in use with their reference
    counts and flags, the page cache of the file and its size.  The page allocator, the
    address of a page and the calls into other files are parameters. *)

From S2P Require Import Prelude.

Module Nommu.

Definition PAGE_SHIFT : Z := 12.
Definition PAGE_SIZE : Z := 2 ^ PAGE_SHIFT.
Definition MAX_ORDER : Z := 11.
Definition ATTR_SIZE : Z := 8.
Definition ATTR_MTIME : Z := 32.
Definition ATTR_CTIME : Z := 64.
Definition VM_SHARED : Z := 8.
Definition VM_MAYSHARE : Z := 128.

(** A page frame in use: its references, whether it was cleared, and its flags. *)
Record frame := Frame { refs : Z; zeroed : bool; dirty : bool; uptodate : bool; locked : bool }.

(** The frames in use, the page cache of the file (index to frame), the file's size. *)
Record mstate := MState { frames : gmap Z frame; cache : gmap Z Z; i_size : Z }.

Definition set_frames (g : gmap Z frame -> gmap Z frame) (s : mstate) : mstate :=
  MState (g (frames s)) (cache s) (i_size s).

Definition get_page (p : Z) : mstate -> mstate :=
  set_frames (alter (fun f => Frame (refs f + 1) (zeroed f) (dirty f) (uptodate f) (locked f)) p).
(** put_page and __free_page: the last reference frees the frame. *)
Definition put_page (p : Z) (s : mstate) : mstate :=
  match frames s !! p with
  | Some f => if refs f =? 1 then set_frames (delete p) s
              else set_frames (insert p (Frame (refs f - 1) (zeroed f) (dirty f) (uptodate f) (locked f))) s
  | None => s
  end.

(** The frames [p], ..., [p + n - 1], as split_page leaves them. *)
Definition fresh_frame : frame := Frame 1 false false false false.
Fixpoint take_frames (p : Z) (n : nat) (s : mstate) : mstate :=
  match n with
  | O => s
  | S n' => take_frames (p + 1) n' (set_frames (insert p fresh_frame) s)
  end.
Fixpoint free_frames (p : Z) (n : nat) (s : mstate) : mstate :=
  match n with
  | O => s
  | S n' => free_frames (p + 1) n' (put_page p s)
  end.
(** memset over [n] pages. *)
Fixpoint clear_frames (p : Z) (n : nat) (s : mstate) : mstate :=
  match n with
  | O => s
  | S n' => clear_frames (p + 1) n'
              (set_frames (alter (fun f => Frame (refs f) true (dirty f) (uptodate f) (locked f)) p) s)
  end.

Section Ops.
(** get_order; the first frame alloc_pages finds; inode_newsize_ok; what
    add_to_page_cache_lru answers for an index; whether kcalloc succeeds; page_address. *)
Context (get_order : Z -> Z) (alloc_pages : mstate -> Z -> option Z) (inode_newsize_ok : Z -> Z).
Context (add_ret : Z -> Z) (kcalloc_ok : bool) (page_address : Z -> Z).
(** nommu_shrink_inode_mappings; truncate_setsize. *)
Context (shrink_ret : Z -> Z -> Z) (truncate_setsize : Z -> mstate -> mstate).

(** add_to_page_cache_lru locks the page and takes a reference for the cache. *)
Definition add_to_page_cache_lru (page index : Z) (s : mstate) : Z * mstate :=
  if add_ret index <? 0 then (add_ret index, s)
  else
    let lock f := Frame (refs f + 1) (zeroed f) (dirty f) (uptodate f) true in
    (0, MState (alter lock page (frames s)) (<[index:=page]> (cache s)) (i_size s)).

(** The page is marked dirty and up to date, unlocked and put. *)
Definition attach_done (page : Z) (s : mstate) : mstate :=
  put_page page (set_frames (alter (fun f => Frame (refs f) (zeroed f) true true false) page) s).

(** The loop that attaches pages; [n] is npages - loop.  The result and the loop counter. *)
Fixpoint attach (n : nat) (loop pages : Z) (s : mstate) : Z * Z * mstate :=
  match n with
  | O => (0, loop, s)
  | S n' =>
      let '(ret, s) := add_to_page_cache_lru (pages + loop) loop s in
      if ret <? 0 then (ret, loop, s)
      else attach n' (loop + 1) pages (attach_done (pages + loop) s)
  end.

Definition ramfs_nommu_expand_for_mapping (newsize : Z) (s : mstate) : Z * mstate :=
  let order := get_order newsize in
  if MAX_ORDER <=? order then (- EFBIG, s)
  else
    let ret := inode_newsize_ok newsize in
    if ztrue ret then (ret, s)
    else
      let s := MState (frames s) (cache s) newsize in
      match alloc_pages s order with
      | None => (- ENOMEM, s)
      | Some pages =>
          let xpages := 2 ^ order in
          let npages := Z.shiftr (wrapu 64 (newsize + PAGE_SIZE - 1)) PAGE_SHIFT in
          let s := take_frames pages (Z.to_nat xpages) s in
          let s := free_frames (pages + npages) (Z.to_nat (xpages - npages)) s in
          let s := clear_frames pages (Z.to_nat npages) s in
          let '(ret, loop, s) := attach (Z.to_nat npages) 0 pages s in
          if ret <? 0 then (ret, free_frames (pages + loop) (Z.to_nat (npages - loop)) s)
          else (0, s)
      end.

Definition ramfs_nommu_resize (newsize size : Z) (s : mstate) : Z * mstate :=
  if size =? 0 then
    if ztrue (Z.shiftr newsize 32) then (- EFBIG, s)
    else ramfs_nommu_expand_for_mapping newsize s
  else
    let ret := if newsize <? size then shrink_ret size newsize else 0 in
    if ret <? 0 then (ret, s) else (0, truncate_setsize newsize s).

(** ramfs_nommu_setattr: the result, whether setattr_copy ran and with which valid bits,
    and the state; ia_valid has its old value on return. *)
Definition ramfs_nommu_setattr (prepare_ret ia_valid ia_size : Z) (s : mstate) : Z * option Z * mstate :=
  if ztrue prepare_ret then (prepare_ret, None, s)
  else if flag ia_valid ATTR_SIZE then
    if negb (ia_size =? i_size s) then
      let '(ret, s) := ramfs_nommu_resize ia_size (i_size s) s in
      if (ret <? 0) || (ia_valid =? ATTR_SIZE) then (ret, None, s) else (ret, Some ia_valid, s)
    else (0, Some (Z.lor ia_valid (Z.lor ATTR_MTIME ATTR_CTIME)), s)
  else (0, Some ia_valid, s).

(** find_get_pages_contig: consecutive pages from an index, each with a reference. *)
Fixpoint find_get_pages_contig (index : Z) (n : nat) (s : mstate) : list Z * mstate :=
  match n with
  | O => ([], s)
  | S n' => match cache s !! index with
            | None => ([], s)
            | Some p => let '(l, s') := find_get_pages_contig (index + 1) n' (get_page p s) in (p :: l, s')
            end
  end.

(** The check that the frames follow one another. *)
Fixpoint adjacent (page : Z) (l : list Z) : bool :=
  match l with
  | [] => true
  | p :: l' => (p =? page) && adjacent (page + 1) l'
  end.

Fixpoint put_pages (l : list Z) (s : mstate) : mstate :=
  match l with
  | [] => s
  | p :: l' => put_pages l' (put_page p s)
  end.

(** The address or -ENOSYS, as unsigned long; [None]: the first of no pages is read. *)
Definition enosys : Z := wrapu 64 (- ENOSYS).
Definition ramfs_nommu_get_unmapped_area (len pgoff : Z) (s : mstate) : option (Z * mstate) :=
  let lpages := Z.shiftr (wrapu 64 (len + PAGE_SIZE - 1)) PAGE_SHIFT in
  let maxpages := Z.shiftr (wrapu 64 (i_size s + PAGE_SIZE - 1)) PAGE_SHIFT in
  if maxpages <=? pgoff then Some (enosys, s)
  else if maxpages - pgoff <? lpages then Some (enosys, s)
  else if negb kcalloc_ok then Some (enosys, s)
  else
    let '(pages, s) := find_get_pages_contig pgoff (Z.to_nat lpages) s in
    if negb (Z.of_nat (length pages) =? lpages) then Some (enosys, put_pages pages s)
    else match pages with
    | [] => None
    | p :: l => Some (if adjacent (p + 1) l then page_address p else enosys, put_pages pages s)
    end.

Definition ramfs_nommu_mmap (vm_flags : Z) : Z :=
  if negb (flag vm_flags (Z.lor VM_SHARED VM_MAYSHARE)) then - ENOSYS else 0.

End Ops.

(** ** Lemmas: runs of frames *)

Definition clean_frame : frame := Frame 1 true false false false.
Definition cached_frame : frame := Frame 1 true true true false.

(** [m'] has [x] at the keys from [a] to [b - 1] and is [m] elsewhere. *)
Definition on_range {A} (a b : Z) (x : option A) (m m' : gmap Z A) : Prop :=
  forall q, m' !! q = if decide (a <= q < b) then x else m !! q.

Lemma take_frames_spec p n s : on_range p (p + Z.of_nat n) (Some fresh_frame) (frames s) (frames (take_frames p n s)) /\
  cache (take_frames p n s) = cache s /\ i_size (take_frames p n s) = i_size s.
Proof.
  revert p s. induction n as [|n IH]; intros p s; cbn [take_frames].
  - split; [|done]. intros q. rewrite decide_False by lia. done.
  - destruct (IH (p + 1) (set_frames (insert p fresh_frame) s)) as (H & -> & ->). split; [|done].
    intros q. rewrite H. cbn [set_frames frames]. destruct (decide (q = p)) as [->|Hq].
    + rewrite lookup_insert_eq, decide_False, decide_True by lia. done.
    + rewrite lookup_insert_ne by done. repeat case_decide; try lia; done.
Qed.

Lemma put_page_last p f s : frames s !! p = Some f -> refs f = 1 -> put_page p s = set_frames (delete p) s.
Proof. intros Hp Hf. unfold put_page. by rewrite Hp, Hf. Qed.

Lemma put_page_more p f s : frames s !! p = Some f -> refs f <> 1 ->
  put_page p s = set_frames (insert p (Frame (refs f - 1) (zeroed f) (dirty f) (uptodate f) (locked f))) s.
Proof. intros Hp Hf. unfold put_page. rewrite Hp. by rewrite (proj2 (Z.eqb_neq _ _) Hf). Qed.

Lemma free_frames_spec p n s :
  (forall q, p <= q < p + Z.of_nat n -> exists f, frames s !! q = Some f /\ refs f = 1) ->
  on_range p (p + Z.of_nat n) None (frames s) (frames (free_frames p n s)) /\
  cache (free_frames p n s) = cache s /\ i_size (free_frames p n s) = i_size s.
Proof.
  revert p s. induction n as [|n IH]; intros p s Hs; cbn [free_frames].
  - split; [|done]. intros q. rewrite decide_False by lia. done.
  - destruct (Hs p) as (f & Hp & Hf); [lia|]. rewrite (put_page_last p f) by done.
    destruct (IH (p + 1) (set_frames (delete p) s)) as (H & -> & ->).
    { intros q Hq. destruct (Hs q) as (f' & Hq' & ?); [lia|]. exists f'. simpl.
      rewrite lookup_delete_ne by lia. done. }
    split; [|done]. intros q. rewrite H. cbn [set_frames frames]. destruct (decide (q = p)) as [->|Hq].
    + rewrite lookup_delete_eq, decide_False, decide_True by lia. done.
    + rewrite lookup_delete_ne by done. repeat case_decide; try lia; done.
Qed.

Lemma clear_frames_spec p n s :
  (forall q, p <= q < p + Z.of_nat n -> frames s !! q = Some fresh_frame) ->
  on_range p (p + Z.of_nat n) (Some clean_frame) (frames s) (frames (clear_frames p n s)) /\
  cache (clear_frames p n s) = cache s /\ i_size (clear_frames p n s) = i_size s.
Proof.
  revert p s. induction n as [|n IH]; intros p s Hs; cbn [clear_frames].
  - split; [|done]. intros q. rewrite decide_False by lia. done.
  - match goal with |- context [clear_frames (p + 1) n ?x] => destruct (IH (p + 1) x) as (H & -> & ->) end.
    { intros q Hq. simpl. rewrite lookup_alter_ne by lia. apply Hs. lia. }
    split; [|done]. intros q. rewrite H. cbn [set_frames frames]. destruct (decide (q = p)) as [->|Hq].
    + rewrite lookup_alter_eq, Hs, decide_False, decide_True by lia. done.
    + rewrite lookup_alter_ne by done. repeat case_decide; try lia; done.
Qed.

(** One attached page ends with the cache's reference, clean of the lock. *)
Lemma attach_one add_ret page loop s s1 :
  frames s !! page = Some clean_frame -> add_to_page_cache_lru add_ret page loop s = (0, s1) ->
  (add_ret loop <? 0) = false ->
  frames (attach_done page s1) = <[page:=cached_frame]> (frames s) /\
  cache (attach_done page s1) = <[loop:=page]> (cache s) /\ i_size (attach_done page s1) = i_size s.
Proof.
  unfold add_to_page_cache_lru. intros Hp Ha Hr. rewrite Hr in Ha. injection Ha as <-.
  unfold attach_done. rewrite (put_page_more _ (Frame 2 true true true false)); [|by simpl; rewrite !lookup_alter_eq, Hp|done].
  split; [|done]. cbn [set_frames frames]. apply map_eq. intros q. destruct (decide (q = page)) as [->|];
    [by rewrite !lookup_insert_eq|by rewrite !lookup_insert_ne, !lookup_alter_ne].
Qed.

Lemma attach_spec add_ret pages n loop s ret loop' s' :
  (forall j, loop <= j < loop + Z.of_nat n -> frames s !! (pages + j) = Some clean_frame) ->
  attach add_ret n loop pages s = (ret, loop', s') ->
  loop <= loop' <= loop + Z.of_nat n /\ (ret = 0 /\ loop' = loop + Z.of_nat n \/ ret < 0 /\ loop' < loop + Z.of_nat n) /\
  on_range (pages + loop) (pages + loop') (Some cached_frame) (frames s) (frames s') /\
  (forall i, cache s' !! i = if decide (loop <= i < loop') then Some (pages + i) else cache s !! i) /\
  i_size s' = i_size s.
Proof.
  revert loop s. induction n as [|n IH]; intros loop s Hs; cbn [attach].
  { intros [= <- <- <-]. split; [lia|]. split; [left; lia|].
    split; [intros q; rewrite decide_False by lia; done|]. split; [|done].
    intros i. rewrite decide_False by lia. done. }
  destruct (add_to_page_cache_lru add_ret (pages + loop) loop s) as [r s1] eqn:Ea.
  destruct (add_ret loop <? 0) eqn:Er.
  { unfold add_to_page_cache_lru in Ea. rewrite Er in Ea. injection Ea as <- <-. rewrite Er.
    intros [= <- <- <-]. bool_prop. split; [lia|]. split; [right; lia|].
    split; [intros q; rewrite decide_False by lia; done|]. split; [|done].
    intros i. rewrite decide_False by lia. done. }
  assert (r = 0) as -> by (unfold add_to_page_cache_lru in Ea; rewrite Er in Ea; by injection Ea as <- _).
  destruct (attach_one add_ret (pages + loop) loop s s1) as (E1 & E2 & E3); [apply Hs; lia|done|done|].
  cbn [Z.ltb Z.compare]. intros Hat. apply IH in Hat as (L & R & F & C & S).
  2: { intros j Hj. rewrite E1, lookup_insert_ne by lia. apply Hs. lia. }
  split; [lia|]. split; [destruct R; [left|right]; lia|]. split; [|split; [|congruence]].
  - intros q. rewrite F, E1. destruct (decide (q = pages + loop)) as [->|Hq].
    + rewrite lookup_insert_eq, decide_False, decide_True by lia. done.
    + rewrite lookup_insert_ne by done. repeat case_decide; try lia; done.
  - intros i. rewrite C, E2. destruct (decide (i = loop)) as [->|Hi].
    + rewrite lookup_insert_eq, decide_False, decide_True by lia. done.
    + rewrite lookup_insert_ne by done. repeat case_decide; try lia; done.
Qed.

(** ** Lemmas: finding and putting pages *)

Definition incr (f : frame) : frame := Frame (refs f + 1) (zeroed f) (dirty f) (uptodate f) (locked f).
Definition decr (f : frame) : frame := Frame (refs f - 1) (zeroed f) (dirty f) (uptodate f) (locked f).

Lemma find_spec base index n s :
  (forall j, index <= j < index + Z.of_nat n -> cache s !! j = Some (base + j)) ->
  exists s1, find_get_pages_contig index n s = (seqZ (base + index) (Z.of_nat n), s1) /\
    (forall q, frames s1 !! q = if decide (base + index <= q < base + index + Z.of_nat n)
                                then incr <$> frames s !! q else frames s !! q) /\
    cache s1 = cache s /\ i_size s1 = i_size s.
Proof.
  revert index s. induction n as [|n IH]; intros index s Hc; cbn [find_get_pages_contig].
  { exists s. split; [done|]. split; [|done]. intros q. rewrite decide_False by lia. done. }
  rewrite (Hc index) by lia. destruct (IH (index + 1) (get_page (base + index) s)) as (s1 & E & F & C & S).
  { intros j Hj. apply Hc. lia. }
  rewrite E. exists s1. rewrite (seqZ_cons (base + index)) by lia. split.
  { do 3 f_equal; lia. }
  split; [|done]. intros q. rewrite F. unfold get_page; cbn [set_frames frames].
  destruct (decide (q = base + index)) as [->|Hq].
  - rewrite lookup_alter_eq, decide_False, decide_True by lia. done.
  - rewrite lookup_alter_ne by done. repeat case_decide; try lia; done.
Qed.

Lemma put_pages_spec a n s :
  (forall q, a <= q < a + Z.of_nat n -> exists f, frames s !! q = Some f /\ refs f <> 1) ->
  (forall q, frames (put_pages (seqZ a (Z.of_nat n)) s) !! q =
     if decide (a <= q < a + Z.of_nat n) then decr <$> frames s !! q else frames s !! q) /\
  cache (put_pages (seqZ a (Z.of_nat n)) s) = cache s /\ i_size (put_pages (seqZ a (Z.of_nat n)) s) = i_size s.
Proof.
  revert a s. induction n as [|n IH]; intros a s Hs.
  { split; [|done]. intros q. rewrite decide_False by lia. done. }
  rewrite (seqZ_cons a) by lia. replace (Z.pred (Z.of_nat (S n))) with (Z.of_nat n) by lia. cbn [put_pages].
  destruct (Hs a) as (f & Ha & Hf); [lia|]. rewrite (put_page_more a f) by done. fold (decr f).
  destruct (IH (Z.succ a) (set_frames (insert a (decr f)) s)) as (F & -> & ->).
  { intros q Hq. simpl. rewrite lookup_insert_ne by lia. apply Hs. lia. }
  split; [|done]. intros q. rewrite F. cbn [set_frames frames]. destruct (decide (q = a)) as [->|Hq].
  - rewrite lookup_insert_eq, decide_False, decide_True, Ha by lia. done.
  - rewrite lookup_insert_ne by done. repeat case_decide; try lia; done.
Qed.

Lemma adjacent_seqZ a n : adjacent a (seqZ a (Z.of_nat n)) = true.
Proof.
  revert a. induction n as [|n IH]; intros a; [done|]. rewrite seqZ_cons by lia.
  replace (Z.pred (Z.of_nat (S n))) with (Z.of_nat n) by lia. simpl. by rewrite Z.eqb_refl, IH.
Qed.

(** The pages of a length. *)
Definition pages_of (len : Z) : Z := (len + 4095) / 4096.
Lemma pages_shift len : 0 <= len < 2 ^ 63 -> Z.shiftr (wrapu 64 (len + PAGE_SIZE - 1)) PAGE_SHIFT = pages_of len.
Proof.
  intros H. change PAGE_SIZE with 4096. rewrite wrapu_id by (unfold in_u; lia).
  rewrite Z.shiftr_div_pow2 by done. unfold pages_of. change (2 ^ PAGE_SHIFT) with 4096. f_equal. lia.
Qed.

(** A file whose first [k] pages are the frames from [base] on. *)
Definition contiguous (base k : Z) (s : mstate) : Prop :=
  forall i, 0 <= i < k -> cache s !! i = Some (base + i) /\ frames s !! (base + i) = Some cached_frame.

Lemma map_contiguous page_address base k s len pgoff :
  contiguous base k s -> 0 <= i_size s < 2 ^ 63 -> pages_of (i_size s) = k ->
  0 < len < 2 ^ 63 -> 0 <= pgoff -> pgoff + pages_of len <= k ->
  ramfs_nommu_get_unmapped_area true page_address len pgoff s = Some (page_address (base + pgoff), s).
Proof.
  intros Hc Hi Hk Hl Hp Hin. unfold ramfs_nommu_get_unmapped_area. rewrite !pages_shift, Hk by lia.
  assert (1 <= pages_of len) as Hpos.
  { unfold pages_of. apply Z.div_le_lower_bound; lia. }
  rewrite (proj2 (Z.leb_gt k pgoff)), (proj2 (Z.ltb_ge (k - pgoff) (pages_of len))) by lia. cbn [negb].
  destruct (find_spec base pgoff (Z.to_nat (pages_of len)) s) as (s1 & -> & F & C & S).
  { intros j Hj. apply Hc. lia. }
  rewrite length_seqZ, !Z2Nat.id, Z.eqb_refl by lia. cbn [negb].
  destruct (put_pages_spec (base + pgoff) (Z.to_nat (pages_of len)) s1) as (F' & C' & S').
  { intros q Hq. rewrite F, decide_True by done. destruct (Hc (q - base)) as [_ Hf]; [lia|].
    replace (base + (q - base)) with q in Hf by lia. rewrite Hf. eexists. split; [done|]. done. }
  rewrite Z2Nat.id in F', C', S', F by lia.
  assert (put_pages (seqZ (base + pgoff) (pages_of len)) s1 = s) as Hput.
  { destruct s as [fr ca sz], (put_pages _ s1) as [fr' ca' sz'] eqn:E. simpl in *. f_equal; [|congruence|congruence].
    apply map_eq. intros q. rewrite F', F. case_decide; [|done].
    destruct (fr !! q) as [f|]; [|done]. simpl. f_equal. destruct f; unfold decr, incr; simpl. f_equal. lia. }
  destruct (seqZ (base + pgoff) (pages_of len)) as [|p l] eqn:El; [by rewrite seqZ_cons in El by lia|].
  rewrite Hput. rewrite seqZ_cons in El by lia. injection El as <- <-.
  replace (Z.pred (pages_of len)) with (Z.of_nat (Z.to_nat (pages_of len - 1))) by lia.
  rewrite <- Z.add_1_r. by rewrite adjacent_seqZ.
Qed.

(** ** Giving an empty file a size *)

(** Documented behaviour: get_order gives an order whose block holds the size, the
    allocator gives frames that are free, inode_newsize_ok gives 0 or an error. *)
Record page_laws (get_order : Z -> Z) (alloc_pages : mstate -> Z -> option Z) (newsize_ok : Z -> Z) : Prop :=
  PageLaws {
    law_order : forall n, 0 < n -> 0 <= get_order n /\ n <= 2 ^ get_order n * 4096;
    law_alloc : forall s order p, alloc_pages s order = Some p ->
      forall q, p <= q < p + 2 ^ order -> frames s !! q = None;
    law_newsize : forall n, newsize_ok n <= 0
  }.

(** [k] new frames from [base] on, attached in order, and nothing else. *)
Definition grown (base k : Z) (s s' : mstate) : Prop :=
  on_range base (base + k) (Some cached_frame) (frames s) (frames s') /\
  forall i, cache s' !! i = if decide (0 <= i < k) then Some (base + i) else None.

Lemma grown_none s s' : frames s' = frames s -> cache s' = ∅ -> grown 0 0 s s'.
Proof.
  intros Hf Hc. split.
  - intros q. rewrite Hf, decide_False by lia. done.
  - intros i. rewrite Hc, decide_False by lia. done.
Qed.

Section Expand.
Context (get_order : Z -> Z) (alloc_pages : mstate -> Z -> option Z) (newsize_ok add_ret : Z -> Z).
Context (Hlaws : page_laws get_order alloc_pages newsize_ok).

Lemma expand_spec newsize s r s' :
  cache s = ∅ -> 0 < newsize < 2 ^ 63 ->
  ramfs_nommu_expand_for_mapping get_order alloc_pages newsize_ok add_ret newsize s = (r, s') ->
  exists base k, grown base k s s' /\ 0 <= k /\
    ((r = 0 /\ k = pages_of newsize /\ i_size s' = newsize) \/
     (r < 0 /\ k < pages_of newsize /\ (s' = s \/ i_size s' = newsize))).
Proof.
  intros Hc Hn. destruct Hlaws as [Lo La Ln]. unfold ramfs_nommu_expand_for_mapping.
  assert (1 <= pages_of newsize) as Hpos by (unfold pages_of; apply Z.div_le_lower_bound; lia).
  destruct (MAX_ORDER <=? get_order newsize).
  { intros [= <- <-]. exists 0, 0. split; [by apply grown_none|]. split; [done|]. right. split; [done|]. auto with lia. }
  unfold ztrue. destruct (Z.eqb_spec (newsize_ok newsize) 0); cbn [negb].
  2: { intros [= <- <-]. exists 0, 0. split; [by apply grown_none|]. split; [done|]. right.
       specialize (Ln newsize). auto with lia. }
  set (s0 := MState (frames s) (cache s) newsize). destruct (Lo newsize) as [Ho1 Ho2]; [lia|].
  destruct (alloc_pages s0 (get_order newsize)) as [base|] eqn:Ea.
  2: { intros [= <- <-]. exists 0, 0. split; [by apply grown_none|]. split; [done|]. right.
       split; [done|]. auto with lia. }
  rewrite pages_shift by lia. set (np := pages_of newsize) in *. set (xp := 2 ^ get_order newsize) in *.
  assert (np <= xp) as Hnx by (unfold np, pages_of; apply Z.lt_succ_r, Z.div_lt_upper_bound; lia).
  pose proof (La _ _ _ Ea) as Hfree. fold xp in Hfree. cbn [frames s0] in Hfree.
  destruct (take_frames_spec base (Z.to_nat xp) s0) as (F1 & C1 & S1).
  set (s1 := take_frames base (Z.to_nat xp) s0) in *. rewrite Z2Nat.id in F1 by lia.
  destruct (free_frames_spec (base + np) (Z.to_nat (xp - np)) s1) as (F2 & C2 & S2).
  { intros q Hq. rewrite F1, decide_True by lia. by eexists. }
  set (s2 := free_frames _ _ s1) in *. rewrite Z2Nat.id in F2 by lia.
  destruct (clear_frames_spec base (Z.to_nat np) s2) as (F3 & C3 & S3).
  { intros q Hq. rewrite F2, decide_False, F1, decide_True by lia. done. }
  set (s3 := clear_frames _ _ s2) in *. rewrite Z2Nat.id in F3 by lia.
  destruct (attach add_ret (Z.to_nat np) 0 base s3) as [[ret loop] s4] eqn:Et.
  apply attach_spec in Et as (L & R & F4 & C4 & S4).
  2: { intros j Hj. rewrite F3, decide_True by lia. done. }
  rewrite Z2Nat.id in L, R by lia. rewrite Z.add_0_r in F4. cbn [s0 cache i_size] in C1, S1.
  destruct R as [[-> ->]|[Hret Hloop]].
  - cbn [Z.ltb Z.compare]. intros [= <- <-]. exists base, np. split; [|split; [lia|left]].
    + split.
      * intros q. rewrite F4, F3, F2, F1. cbn [frames s0]. repeat case_decide; try lia; try done.
        symmetry. apply Hfree. lia.
      * intros i. rewrite C4, C3, C2, C1, Hc. done.
    + split; [done|]. split; [lia|]. by rewrite S4, S3, S2, S1.
  - rewrite (proj2 (Z.ltb_lt ret 0)) by done. intros [= <- <-].
    destruct (free_frames_spec (base + loop) (Z.to_nat (np - loop)) s4) as (F5 & C5 & S5).
    { intros q Hq. rewrite F4, decide_False, F3, decide_True by lia. by eexists. }
    rewrite Z2Nat.id in F5 by lia. exists base, loop. split; [|split; [lia|right]].
    + split.
      * intros q. rewrite F5, F4, F3, F2, F1. cbn [frames s0]. repeat case_decide; try lia; try done;
          symmetry; apply Hfree; lia.
      * intros i. rewrite C5, C4, C3, C2, C1, Hc. done.
    + split; [done|]. split; [lia|]. right. by rewrite S5, S4, S3, S2, S1.
Qed.

End Expand.

(** Giving an empty file a size.  Whatever fails, the frames in use afterwards are
    those before and the pages attached to the file, which are contiguous, cleared, marked
    dirty and up to date, unlocked and referenced once, by the cache; every other
    allocated frame is free again.  On success they are exactly the pages of the size,
    and every range of the file can then be mapped shared, at the address of its first
    page, with no reference kept.  On an error fewer pages may stay attached, and the new
    size stays unless the error came before it was set. *)
Theorem nommu_shared_file get_order alloc_pages newsize_ok add_ret shrink_ret truncate page_address newsize s r s' :
  page_laws get_order alloc_pages newsize_ok -> cache s = ∅ -> 0 < newsize < 2 ^ 63 ->
  ramfs_nommu_resize get_order alloc_pages newsize_ok add_ret shrink_ret truncate newsize 0 s = (r, s') ->
  exists base k, grown base k s s' /\ 0 <= k /\
    ((r = 0 /\ k = pages_of newsize /\ i_size s' = newsize /\
      (forall len pgoff, 0 < len < 2 ^ 63 -> 0 <= pgoff -> pgoff + pages_of len <= k ->
         ramfs_nommu_get_unmapped_area true page_address len pgoff s' = Some (page_address (base + pgoff), s'))) \/
     (r < 0 /\ k < pages_of newsize /\ (s' = s \/ i_size s' = newsize))).
Proof.
  intros Hl Hc Hn. unfold ramfs_nommu_resize. cbn [Z.eqb]. destruct (ztrue (Z.shiftr newsize 32)).
  { intros [= <- <-]. exists 0, 0. split; [by apply grown_none|]. split; [done|]. right. split; [done|].
    split; [|by left]. unfold pages_of. apply Z.lt_le_trans with 1; [done|]. apply Z.div_le_lower_bound; lia. }
  intros H. apply expand_spec in H as (base & k & G & Hk & R); [|done|done|done].
  exists base, k. split; [done|]. split; [done|]. destruct R as [(-> & Hkn & Hs)|R]; [left|by right].
  split_and!; try done. intros len pgoff H1 H2 H3. apply (map_contiguous _ _ k); try done.
  - intros i Hi. destruct G as [Gf Gc]. rewrite Gc, Gf, !decide_True by lia. done.
  - by rewrite Hs; split; [lia|apply Hn].
  - by rewrite Hs.
Qed.

(** An allocator that takes frames above all in use; three pages for 9000 bytes. *)
Definition demo_order (n : Z) : Z := if n <=? 4096 then 0 else if n <=? 16384 then 2 else Z.log2_up n.
Definition demo_alloc (s : mstate) (order : Z) : option Z :=
  Some (1 + foldr Z.max 0 (elements (dom (frames s)))).

Lemma max_above l q : q ∈ l -> q <= foldr Z.max 0 l.
Proof. induction 1; simpl; lia. Qed.
Lemma demo_page_laws : page_laws demo_order demo_alloc (fun _ => 0).
Proof.
  split; [| |done].
  - intros n Hn. unfold demo_order. destruct (Z.leb_spec n 4096); [lia|]. destruct (Z.leb_spec n 16384); [lia|].
    split; [apply Z.log2_up_nonneg|]. pose proof (Z.log2_up_spec n). lia.
  - intros s order p [= <-] q Hq. apply not_elem_of_dom. intros Hin.
    assert (q ∈ elements (dom (frames s))) as Hel by (by apply elem_of_elements).
    apply max_above in Hel. lia.
Qed.

Lemma nommu_shared_file_witness :
  exists s', ramfs_nommu_resize demo_order demo_alloc (fun _ => 0) (fun _ => 0) (fun _ _ => 0) (fun _ s => s)
    9000 0 (MState {[7 := cached_frame]} ∅ 0) = (0, s') /\ cache s' = {[0 := 8; 1 := 9; 2 := 10]} /\
    ramfs_nommu_get_unmapped_area true (fun p => p * 4096) 5000 1 s' = Some (9 * 4096, s').
Proof.
  destruct (ramfs_nommu_resize demo_order demo_alloc (fun _ => 0) (fun _ => 0) (fun _ _ => 0) (fun _ s => s)
    9000 0 (MState {[7 := cached_frame]} ∅ 0)) as [r s'] eqn:E.
  pose proof E as E'. vm_compute in E'. injection E' as Hr Hs.
  destruct (nommu_shared_file demo_order demo_alloc (fun _ => 0) (fun _ => 0) (fun _ _ => 0) (fun _ s => s)
    (fun p => p * 4096) 9000 (MState {[7 := cached_frame]} ∅ 0) r s') as (base & k & [_ G] & _ & H);
    [exact demo_page_laws|reflexivity|lia|exact E|].
  destruct H as [(_ & -> & _ & H)|(H & _)]; [|lia].
  assert (base = 8) as ->.
  { specialize (G 0). rewrite decide_True, Z.add_0_r in G by (vm_compute; by split).
    rewrite <- Hs in G. vm_compute in G. injection G as G. exact (eq_sym G). }
  exists s'. split; [by rewrite <- Hr|]. split; [by rewrite <- Hs|].
  apply (H 5000 1); [lia|lia|]. vm_compute. discriminate.
Defined.

End Nommu.
