(* ===== verification/SockOpt.v ===== *)
(** * Socket options (src/kvm/linux-5.15.178/net/core/sock.c)

    sock_setsockopt and sk_getsockopt with the functions they use: timeouts, timestamps,
    buffer sizes, binding to a device.  A struct sock is its fields, by name ([fld]), each
    with the range of its C type ([crange]); an option value comes as the bytes the caller
    gave and goes back as bytes.  Capabilities, system limits, devices and the functions
    of other files (filters, protocol operations) are parameters. *)

From S2P Require Import Prelude.

Definition USEC_PER_SEC : Z := 1000000.
Definition MAX_SCHEDULE_TIMEOUT : Z := 2 ^ 63 - 1.
Definition INT_MAX : Z := 2 ^ 31 - 1.
Definition ULONG_MAX : Z := 2 ^ 64 - 1.
Definition AF_UNSPEC : Z := 0.
Definition AF_UNIX : Z := 1.
Definition AF_INET : Z := 2.
Definition AF_INET6 : Z := 10.
Definition AF_RDS : Z := 21.
Definition SOCK_STREAM : Z := 1.
Definition SOCK_DGRAM : Z := 2.
Definition IPPROTO_TCP : Z := 6.
Definition IPPROTO_UDP : Z := 17.
Definition TCP_CLOSE : Z := 7.
Definition TCP_LISTEN : Z := 10.
Definition SOCK_SNDBUF_LOCK : Z := 1.
Definition SOCK_RCVBUF_LOCK : Z := 2.
Definition SOCK_BUF_LOCK_MASK : Z := 3.
Definition SOF_TIMESTAMPING_RX_SOFTWARE : Z := 8.
Definition SOF_TIMESTAMPING_OPT_ID : Z := 128.
Definition SOF_TIMESTAMPING_OPT_TSONLY : Z := 2048.
Definition SOF_TIMESTAMPING_OPT_STATS : Z := 4096.
Definition SOF_TIMESTAMPING_BIND_PHC : Z := 32768.
Definition SOF_TIMESTAMPING_MASK : Z := 65535.
Definition SOF_TXTIME_DEADLINE_MODE : Z := 1.
Definition SOF_TXTIME_REPORT_ERRORS : Z := 2.
Definition SOF_TXTIME_FLAGS_MASK : Z := 3.
Definition CLOCK_MONOTONIC : Z := 1.
Definition SK_PACING_NONE : Z := 0.
Definition SK_PACING_NEEDED : Z := 1.
Definition IFNAMSIZ : Z := 16.
Definition ENODATA : Z := 61.
Definition ENOTCONN : Z := 107.
Definition ENOTSUPP : Z := 524.

(** ** struct sock *)

(** The bits of sk_flags (and the two of sock->flags) and the fields that options set or
    show; [netstamp] is this socket's share of the count of net_enable_timestamp. *)
Inductive fld :=
| SOCK_DBG | SOCK_LOCALROUTE | SOCK_BROADCAST | SOCK_KEEPOPEN | SOCK_URGINLINE | SOCK_LINGER
| SOCK_RCVTSTAMP | SOCK_RCVTSTAMPNS | SOCK_TSTAMP_NEW | SOCK_TIMESTAMP | SOCK_TIMESTAMPING_RX_SOFTWARE
| SOCK_FILTER_LOCKED | SOCK_RXQ_OVFL | SOCK_WIFI_STATUS | SOCK_NOFCS | SOCK_SELECT_ERR_QUEUE
| SOCK_ZEROCOPY | SOCK_TXTIME | SOCK_PASSCRED | SOCK_PASSSEC
| sk_family | sk_type | sk_protocol | sk_state | sk_reuse | sk_reuseport | sk_sndbuf | sk_rcvbuf
| sk_userlocks | sk_no_check_tx | sk_priority | sk_lingertime | sk_tsflags | sk_bind_phc | sk_tskey
| sk_rcvlowat | sk_rcvtimeo | sk_sndtimeo | sk_mark | sk_peek_off | sk_ll_usec | sk_prefer_busy_poll
| sk_busy_poll_budget | sk_max_pacing_rate | sk_pacing_rate | sk_pacing_status | sk_incoming_cpu
| sk_clockid | sk_txtime_deadline_mode | sk_txtime_report_errors | sk_bound_dev_if
| sk_err | sk_err_soft | sk_napi_id | netstamp.

(** All fields, and the place of a field among them. *)
Definition all_flds : list fld :=
  [SOCK_DBG; SOCK_LOCALROUTE; SOCK_BROADCAST; SOCK_KEEPOPEN; SOCK_URGINLINE; SOCK_LINGER;
   SOCK_RCVTSTAMP; SOCK_RCVTSTAMPNS; SOCK_TSTAMP_NEW; SOCK_TIMESTAMP; SOCK_TIMESTAMPING_RX_SOFTWARE;
   SOCK_FILTER_LOCKED; SOCK_RXQ_OVFL; SOCK_WIFI_STATUS; SOCK_NOFCS; SOCK_SELECT_ERR_QUEUE;
   SOCK_ZEROCOPY; SOCK_TXTIME; SOCK_PASSCRED; SOCK_PASSSEC;
   sk_family; sk_type; sk_protocol; sk_state; sk_reuse; sk_reuseport; sk_sndbuf; sk_rcvbuf;
   sk_userlocks; sk_no_check_tx; sk_priority; sk_lingertime; sk_tsflags; sk_bind_phc; sk_tskey;
   sk_rcvlowat; sk_rcvtimeo; sk_sndtimeo; sk_mark; sk_peek_off; sk_ll_usec; sk_prefer_busy_poll;
   sk_busy_poll_budget; sk_max_pacing_rate; sk_pacing_rate; sk_pacing_status; sk_incoming_cpu;
   sk_clockid; sk_txtime_deadline_mode; sk_txtime_report_errors; sk_bound_dev_if;
   sk_err; sk_err_soft; sk_napi_id; netstamp].
Definition fld_id (f : fld) : nat :=
  match f with
  | SOCK_DBG => 0 | SOCK_LOCALROUTE => 1 | SOCK_BROADCAST => 2 | SOCK_KEEPOPEN => 3 | SOCK_URGINLINE => 4
  | SOCK_LINGER => 5 | SOCK_RCVTSTAMP => 6 | SOCK_RCVTSTAMPNS => 7 | SOCK_TSTAMP_NEW => 8 | SOCK_TIMESTAMP => 9
  | SOCK_TIMESTAMPING_RX_SOFTWARE => 10 | SOCK_FILTER_LOCKED => 11 | SOCK_RXQ_OVFL => 12
  | SOCK_WIFI_STATUS => 13 | SOCK_NOFCS => 14 | SOCK_SELECT_ERR_QUEUE => 15 | SOCK_ZEROCOPY => 16
  | SOCK_TXTIME => 17 | SOCK_PASSCRED => 18 | SOCK_PASSSEC => 19 | sk_family => 20 | sk_type => 21
  | sk_protocol => 22 | sk_state => 23 | sk_reuse => 24 | sk_reuseport => 25 | sk_sndbuf => 26 | sk_rcvbuf => 27
  | sk_userlocks => 28 | sk_no_check_tx => 29 | sk_priority => 30 | sk_lingertime => 31 | sk_tsflags => 32
  | sk_bind_phc => 33 | sk_tskey => 34 | sk_rcvlowat => 35 | sk_rcvtimeo => 36 | sk_sndtimeo => 37 | sk_mark => 38
  | sk_peek_off => 39 | sk_ll_usec => 40 | sk_prefer_busy_poll => 41 | sk_busy_poll_budget => 42
  | sk_max_pacing_rate => 43 | sk_pacing_rate => 44 | sk_pacing_status => 45 | sk_incoming_cpu => 46
  | sk_clockid => 47 | sk_txtime_deadline_mode => 48 | sk_txtime_report_errors => 49 | sk_bound_dev_if => 50
  | sk_err => 51 | sk_err_soft => 52 | sk_napi_id => 53 | netstamp => 54
  end.
Definition fld_eqb (f g : fld) : bool := (fld_id f =? fld_id g)%nat.

(** The values a field of its C type can have (unsigned and signed integers and bit
    fields; [netstamp] is counted apart). *)
Definition crange (f : fld) : Z * Z :=
  match f with
  | SOCK_DBG | SOCK_LOCALROUTE | SOCK_BROADCAST | SOCK_KEEPOPEN | SOCK_URGINLINE | SOCK_LINGER
  | SOCK_RCVTSTAMP | SOCK_RCVTSTAMPNS | SOCK_TSTAMP_NEW | SOCK_TIMESTAMP | SOCK_TIMESTAMPING_RX_SOFTWARE
  | SOCK_FILTER_LOCKED | SOCK_RXQ_OVFL | SOCK_WIFI_STATUS | SOCK_NOFCS | SOCK_SELECT_ERR_QUEUE
  | SOCK_ZEROCOPY | SOCK_TXTIME | SOCK_PASSCRED | SOCK_PASSSEC
  | sk_reuseport | sk_no_check_tx | sk_txtime_deadline_mode | sk_txtime_report_errors | netstamp => (0, 1)
  | sk_reuse | sk_userlocks => (0, 2 ^ 4 - 1)
  | sk_state | sk_prefer_busy_poll | sk_clockid => (0, 2 ^ 8 - 1)
  | sk_family | sk_type | sk_protocol | sk_tsflags | sk_busy_poll_budget => (0, 2 ^ 16 - 1)
  | sk_priority | sk_mark | sk_ll_usec | sk_napi_id | sk_pacing_status => (0, 2 ^ 32 - 1)
  | sk_lingertime | sk_max_pacing_rate | sk_pacing_rate => (0, ULONG_MAX)
  | sk_rcvtimeo | sk_sndtimeo => (- 2 ^ 63, 2 ^ 63 - 1)
  | sk_sndbuf | sk_rcvbuf | sk_bind_phc | sk_tskey | sk_rcvlowat | sk_peek_off | sk_incoming_cpu
  | sk_bound_dev_if | sk_err | sk_err_soft => (- 2 ^ 31, 2 ^ 31 - 1)
  end.

Definition sock := fld -> Z.
Definition upd (f : fld) (v : Z) (sk : sock) : sock := fun g => if fld_eqb g f then v else sk g.

(** What a call does to the rest of the kernel. *)
Inductive sev :=
| EvDstReset | EvKeepalive (on : bool) | EvWriteSpace | EvRehash | EvNegativeAdvice
| EvIncomingCpu (v : Z) | EvFilter.

(** Options without a number of their own in the switch fall under [SO_OTHER]. *)
Inductive sopt :=
| SO_DEBUG | SO_REUSEADDR | SO_REUSEPORT | SO_TYPE | SO_PROTOCOL | SO_DOMAIN | SO_ERROR | SO_DONTROUTE
| SO_BROADCAST | SO_SNDBUF | SO_SNDBUFFORCE | SO_RCVBUF | SO_RCVBUFFORCE | SO_KEEPALIVE | SO_OOBINLINE
| SO_NO_CHECK | SO_PRIORITY | SO_LINGER | SO_BSDCOMPAT | SO_PASSCRED | SO_TIMESTAMP_OLD | SO_TIMESTAMP_NEW
| SO_TIMESTAMPNS_OLD | SO_TIMESTAMPNS_NEW | SO_TIMESTAMPING_OLD | SO_TIMESTAMPING_NEW | SO_RCVLOWAT
| SO_SNDLOWAT | SO_RCVTIMEO_OLD | SO_RCVTIMEO_NEW | SO_SNDTIMEO_OLD | SO_SNDTIMEO_NEW | SO_ATTACH_FILTER
| SO_ATTACH_BPF | SO_ATTACH_REUSEPORT_CBPF | SO_ATTACH_REUSEPORT_EBPF | SO_DETACH_REUSEPORT_BPF
| SO_DETACH_FILTER | SO_GET_FILTER | SO_BPF_EXTENSIONS | SO_LOCK_FILTER | SO_PASSSEC | SO_MARK | SO_RXQ_OVFL
| SO_WIFI_STATUS | SO_PEEK_OFF | SO_NOFCS | SO_SELECT_ERR_QUEUE | SO_BUSY_POLL | SO_PREFER_BUSY_POLL
| SO_BUSY_POLL_BUDGET | SO_MAX_PACING_RATE | SO_INCOMING_CPU | SO_CNX_ADVICE | SO_ZEROCOPY | SO_TXTIME
| SO_BINDTODEVICE | SO_BINDTOIFINDEX | SO_BUF_LOCK | SO_PEERCRED | SO_PEERGROUPS | SO_PEERNAME | SO_PEERSEC
| SO_ACCEPTCONN | SO_MEMINFO | SO_INCOMING_NAPI_ID | SO_COOKIE | SO_NETNS_COOKIE | SO_OTHER.

(** Capabilities of the caller, limits, and what other files answer.  [set_rcvlowat] and
    [set_peek_off] are operations of the protocol; [vclocks] the clocks of the device bound
    to, if it exists; [peer_cred] the user, group and supplementary groups of the peer as the
    caller's user namespace names them; the rest are results of functions of those names. *)
Record oenv := OEnv {
  HZ : Z;
  cap_net_admin : bool; ns_net_admin : bool; ns_net_raw : bool;
  wmem_max : Z; rmem_max : Z; min_sndbuf : Z; min_rcvbuf : Z;
  has_keepalive : bool; has_rehash : bool;
  set_rcvlowat : option (Z -> sock -> Z * sock);
  set_peek_off : option (Z -> sock -> Z * sock);
  dev_get_by_name : list Z -> option Z; netdev_get_name : Z -> Z + list Z;
  vclocks : Z -> option (list Z); snd_una : Z;
  filter_ret : sopt -> Z; fprog_ret : Z;
  compat_timeval : bool; min_napi_id : Z;
  peer_pid : Z; peer_cred : option (Z * Z * list Z);
  getname : Z * list Z; peersec_ret : Z; get_filter : Z -> Z * list Z; bpf_extensions : Z;
  meminfo : list Z; cookie : Z; net_cookie : Z
}.

(** ** Copies *)

(** copy_from_sockptr: the first [n] bytes, if the caller's memory has them. *)
Definition copy_from (optval : list Z) (n : nat) : option (list Z) :=
  if (n <=? length optval)%nat then Some (take n optval) else None.
Definition int_of (l : list Z) : Z := wraps 32 (le_value (take 4 l)).
Definition uint_of (l : list Z) : Z := le_value (take 4 l).
Definition long_of (l : list Z) : Z := wraps 64 (le_value (take 8 l)).
Definition b2z (b : bool) : Z := if b then 1 else 0.

Module Options.

Section Set_.
Context (e : oenv).

(** sock_set_timeout: the result and the new timeout, if one is stored. *)
Definition store_timeout (sec usec : Z) : Z * option Z :=
  if (usec <? 0) || (USEC_PER_SEC <=? usec) then (- EDOM, None)
  else if sec <? 0 then (0, Some 0)
  else if (sec =? 0) && (usec =? 0) then (0, Some MAX_SCHEDULE_TIMEOUT)
  else if sec <? MAX_SCHEDULE_TIMEOUT / HZ e - 1
  then (0, Some (wraps 64 (sec * HZ e + (usec + USEC_PER_SEC / HZ e - 1) / (USEC_PER_SEC / HZ e))))
  else (0, Some MAX_SCHEDULE_TIMEOUT).
Definition sock_set_timeout (optval : list Z) (optlen : Z) (old_timeval : bool) : Z * option Z :=
  if old_timeval && compat_timeval e then
    if optlen <? 8 then (- EINVAL, None)
    else match copy_from optval 8 with
         | None => (- EFAULT, None)
         | Some l => store_timeout (int_of l) (int_of (drop 4 l))
         end
  else
    if optlen <? 16 then (- EINVAL, None)
    else match copy_from optval 16 with
         | None => (- EFAULT, None)
         | Some l => store_timeout (long_of l) (long_of (drop 8 l))
         end.
Definition set_timeout (f : fld) (optval : list Z) (optlen : Z) (old_timeval : bool) (sk : sock) : Z * sock :=
  let '(ret, t) := sock_set_timeout optval optlen old_timeval in
  (ret, match t with Some t => upd f t sk | None => sk end).

(** sock_get_timeout: seconds and microseconds as bytes. *)
Definition sock_get_timeout (timeo : Z) (old_timeval : bool) : list Z :=
  let '(sec, usec) := if timeo =? MAX_SCHEDULE_TIMEOUT then (0, 0)
                      else (Z.quot timeo (HZ e), Z.quot (Z.rem timeo (HZ e) * USEC_PER_SEC) (HZ e)) in
  if old_timeval && compat_timeval e then le_bytes 4 sec ++ le_bytes 4 usec
  else le_bytes 8 sec ++ le_bytes 8 usec.

(** *** Timestamps *)

Definition sock_needs_netstamp (sk : sock) : bool :=
  negb ((sk sk_family =? AF_UNSPEC) || (sk sk_family =? AF_UNIX)).
(** A bit of SK_FLAGS_TIMESTAMP is set. *)
Definition any_timestamp (sk : sock) : bool :=
  ztrue (sk SOCK_TIMESTAMP) || ztrue (sk SOCK_TIMESTAMPING_RX_SOFTWARE).

Definition sock_enable_timestamp (f : fld) (sk : sock) : sock :=
  if negb (ztrue (sk f)) then
    let sk' := upd f 1 sk in
    if sock_needs_netstamp sk && negb (any_timestamp sk)
    then upd netstamp (sk netstamp + 1) sk' else sk'
  else sk.
(** sock_disable_timestamp, for one flag. *)
Definition sock_disable_timestamp (f : fld) (sk : sock) : sock :=
  if ztrue (sk f) then
    let sk' := upd f 0 sk in
    if sock_needs_netstamp sk' && negb (any_timestamp sk')
    then upd netstamp (sk netstamp - 1) sk' else sk'
  else sk.

Definition __sock_set_timestamps (val new ns : bool) (sk : sock) : sock :=
  if val then
    sock_enable_timestamp SOCK_TIMESTAMP
      (upd SOCK_RCVTSTAMP 1 (upd SOCK_RCVTSTAMPNS (b2z ns) (upd SOCK_TSTAMP_NEW (b2z new) sk)))
  else upd SOCK_RCVTSTAMPNS 0 (upd SOCK_RCVTSTAMP 0 sk).
Definition sock_set_timestamp (o : sopt) (valbool : bool) (sk : sock) : sock :=
  match o with
  | SO_TIMESTAMP_OLD => __sock_set_timestamps valbool false false sk
  | SO_TIMESTAMP_NEW => __sock_set_timestamps valbool true false sk
  | SO_TIMESTAMPNS_OLD => __sock_set_timestamps valbool false true sk
  | SO_TIMESTAMPNS_NEW => __sock_set_timestamps valbool true true sk
  | _ => sk
  end.

Definition sock_timestamping_bind_phc (phc_index : Z) (sk : sock) : Z * sock :=
  match (if ztrue (sk sk_bound_dev_if) then vclocks e (sk sk_bound_dev_if) else None) with
  | None => (- EOPNOTSUPP, sk)
  | Some clocks =>
      if existsb (Z.eqb phc_index) clocks then (0, upd sk_bind_phc phc_index sk) else (- EINVAL, sk)
  end.

(** The key of SOF_TIMESTAMPING_OPT_ID is set before the other checks. *)
Definition opt_id_key (val : Z) (sk : sock) : option sock :=
  if flag val SOF_TIMESTAMPING_OPT_ID && negb (flag (sk sk_tsflags) SOF_TIMESTAMPING_OPT_ID) then
    if (sk sk_protocol =? IPPROTO_TCP) && (sk sk_type =? SOCK_STREAM) then
      if (sk sk_state =? TCP_CLOSE) || (sk sk_state =? TCP_LISTEN) then None
      else Some (upd sk_tskey (wraps 32 (snd_una e)) sk)
    else Some (upd sk_tskey 0 sk)
  else Some sk.

Definition sock_set_timestamping (o : sopt) (val bind_phc : Z) (sk : sock) : Z * sock :=
  if ztrue (Z.land val (Z.lnot SOF_TIMESTAMPING_MASK)) then (- EINVAL, sk)
  else match opt_id_key val sk with
  | None => (- EINVAL, sk)
  | Some sk =>
      if flag val SOF_TIMESTAMPING_OPT_STATS && negb (flag val SOF_TIMESTAMPING_OPT_TSONLY)
      then (- EINVAL, sk)
      else
        let '(ret, sk) := if flag val SOF_TIMESTAMPING_BIND_PHC then sock_timestamping_bind_phc bind_phc sk
                          else (0, sk) in
        if ztrue ret then (ret, sk)
        else
          let sk := upd SOCK_TSTAMP_NEW (b2z match o with SO_TIMESTAMPING_NEW => true | _ => false end)
                      (upd sk_tsflags (wrapu 16 val) sk) in
          (0, if flag val SOF_TIMESTAMPING_RX_SOFTWARE
              then sock_enable_timestamp SOCK_TIMESTAMPING_RX_SOFTWARE sk
              else sock_disable_timestamp SOCK_TIMESTAMPING_RX_SOFTWARE sk)
  end.

(** *** Buffers, device, mark *)

Definition set_sndbuf (val : Z) (sk : sock) : sock :=
  let val := Z.min val (INT_MAX / 2) in
  upd sk_sndbuf (Z.max (wraps 32 (val * 2)) (min_sndbuf e))
    (upd sk_userlocks (Z.lor (sk sk_userlocks) SOCK_SNDBUF_LOCK) sk).
Definition __sock_set_rcvbuf (val : Z) (sk : sock) : sock :=
  let val := Z.min val (INT_MAX / 2) in
  upd sk_rcvbuf (Z.max (wraps 32 (val * 2)) (min_rcvbuf e))
    (upd sk_userlocks (Z.lor (sk sk_userlocks) SOCK_RCVBUF_LOCK) sk).
(** min_t(u32, val, max), as the int it is assigned to. *)
Definition min_u32 (val mx : Z) : Z := wraps 32 (Z.min (wrapu 32 val) mx).

Definition sock_bindtoindex_locked (ifindex : Z) (sk : sock) : Z * sock * list sev :=
  if ztrue (sk sk_bound_dev_if) && negb (ns_net_raw e) then (- EPERM, sk, [])
  else if ifindex <? 0 then (- EINVAL, sk, [])
  else (0, upd sk_bound_dev_if ifindex sk, (if has_rehash e then [EvRehash] else []) ++ [EvDstReset]).

(** sock_setbindtodevice; a device name is what comes before the first NUL. *)
Definition cname (l : list Z) : list Z := take (strnlen l (length l)) l.
Definition sock_setbindtodevice (optval : list Z) (optlen : Z) (sk : sock) : Z * sock * list sev :=
  if wraps 32 optlen <? 0 then (- EINVAL, sk, [])
  else
    let optlen := Z.min (wraps 32 optlen) (IFNAMSIZ - 1) in
    match copy_from optval (Z.to_nat optlen) with
    | None => (- EFAULT, sk, [])
    | Some devname =>
        match cname devname with
        | [] => sock_bindtoindex_locked 0 sk
        | name => match dev_get_by_name e name with
                  | None => (- ENODEV, sk, [])
                  | Some ifindex => sock_bindtoindex_locked ifindex sk
                  end
        end
    end.

Definition __sock_set_mark (val : Z) (sk : sock) : sock * list sev :=
  if negb (wrapu 32 val =? sk sk_mark) then (upd sk_mark (wrapu 32 val) sk, [EvDstReset]) else (sk, []).

(** *** The switch of sock_setsockopt, in four parts; [None]: not an option of the part. *)

Definition bool_flag (f : fld) (val : Z) (sk : sock) : sock := upd f (b2z (ztrue val)) sk.
Definition ok (sk : sock) : option (Z * sock * list sev) := Some (0, sk, []).
Definition err (ret : Z) (sk : sock) : option (Z * sock * list sev) := Some (ret, sk, []).

Definition set_basic (o : sopt) (val : Z) (sk : sock) : option (Z * sock * list sev) :=
  match o with
  | SO_DEBUG => if ztrue val && negb (cap_net_admin e) then err (- EACCES) sk
                else ok (bool_flag SOCK_DBG val sk)
  | SO_REUSEADDR => ok (upd sk_reuse (b2z (ztrue val)) sk)
  | SO_REUSEPORT =>
      if ztrue val && negb ((sk sk_family =? AF_INET) || (sk sk_family =? AF_INET6))
      then err (- EOPNOTSUPP) sk else ok (bool_flag sk_reuseport val sk)
  | SO_TYPE | SO_PROTOCOL | SO_DOMAIN | SO_ERROR => err (- ENOPROTOOPT) sk
  | SO_DONTROUTE => Some (0, bool_flag SOCK_LOCALROUTE val sk, [EvDstReset])
  | SO_BROADCAST => ok (bool_flag SOCK_BROADCAST val sk)
  | SO_SNDBUF => Some (0, set_sndbuf (min_u32 val (wmem_max e)) sk, [EvWriteSpace])
  | SO_SNDBUFFORCE =>
      if negb (cap_net_admin e) then err (- EPERM) sk
      else Some (0, set_sndbuf (if val <? 0 then 0 else val) sk, [EvWriteSpace])
  | SO_RCVBUF => ok (__sock_set_rcvbuf (min_u32 val (rmem_max e)) sk)
  | SO_RCVBUFFORCE =>
      if negb (cap_net_admin e) then err (- EPERM) sk else ok (__sock_set_rcvbuf (Z.max val 0) sk)
  | SO_KEEPALIVE =>
      Some (0, bool_flag SOCK_KEEPOPEN val sk, if has_keepalive e then [EvKeepalive (ztrue val)] else [])
  | SO_OOBINLINE => ok (bool_flag SOCK_URGINLINE val sk)
  | SO_NO_CHECK => ok (bool_flag sk_no_check_tx val sk)
  | SO_PRIORITY =>
      if ((0 <=? val) && (val <=? 6)) || ns_net_admin e then ok (upd sk_priority (wrapu 32 val) sk)
      else err (- EPERM) sk
  | _ => None
  end.

Definition set_linger (optval : list Z) (optlen : Z) (sk : sock) : option (Z * sock * list sev) :=
  if optlen <? 8 then err (- EINVAL) sk
  else match copy_from optval 8 with
       | None => err (- EFAULT) sk
       | Some l =>
           if negb (ztrue (int_of l)) then ok (upd SOCK_LINGER 0 sk)
           else ok (upd SOCK_LINGER 1
                      (upd sk_lingertime (wrapu 32 (wrapu 32 (int_of (drop 4 l)) * HZ e)) sk))
       end.

Definition set_timing (o : sopt) (val : Z) (optval : list Z) (optlen : Z) (sk : sock)
    : option (Z * sock * list sev) :=
  match o with
  | SO_LINGER => set_linger optval optlen sk
  | SO_BSDCOMPAT => ok sk
  | SO_PASSCRED => ok (bool_flag SOCK_PASSCRED val sk)
  | SO_TIMESTAMP_OLD | SO_TIMESTAMP_NEW | SO_TIMESTAMPNS_OLD | SO_TIMESTAMPNS_NEW =>
      ok (sock_set_timestamp o (ztrue val) sk)
  | SO_TIMESTAMPING_NEW | SO_TIMESTAMPING_OLD =>
      if optlen =? 8 then
        match copy_from optval 8 with
        | None => err (- EFAULT) sk
        | Some l => let '(ret, sk) := sock_set_timestamping o (int_of l) (int_of (drop 4 l)) sk in Some (ret, sk, [])
        end
      else let '(ret, sk) := sock_set_timestamping o val 0 sk in Some (ret, sk, [])
  | SO_RCVLOWAT =>
      let val := if val <? 0 then INT_MAX else val in
      match set_rcvlowat e with
      | Some op => let '(ret, sk) := op val sk in Some (ret, sk, [])
      | None => ok (upd sk_rcvlowat (if val =? 0 then 1 else val) sk)
      end
  | SO_RCVTIMEO_OLD => let '(ret, sk) := set_timeout sk_rcvtimeo optval optlen true sk in Some (ret, sk, [])
  | SO_RCVTIMEO_NEW => let '(ret, sk) := set_timeout sk_rcvtimeo optval optlen false sk in Some (ret, sk, [])
  | SO_SNDTIMEO_OLD => let '(ret, sk) := set_timeout sk_sndtimeo optval optlen true sk in Some (ret, sk, [])
  | SO_SNDTIMEO_NEW => let '(ret, sk) := set_timeout sk_sndtimeo optval optlen false sk in Some (ret, sk, [])
  | _ => None
  end.

(** Filters belong to net/core/filter.c; their results are parameters. *)
Definition set_filter (o : sopt) (val : Z) (optlen : Z) (sk : sock) : option (Z * sock * list sev) :=
  match o with
  | SO_ATTACH_FILTER | SO_ATTACH_REUSEPORT_CBPF =>
      if ztrue (fprog_ret e) then err (fprog_ret e) sk else Some (filter_ret e o, sk, [EvFilter])
  | SO_ATTACH_BPF | SO_ATTACH_REUSEPORT_EBPF =>
      if optlen =? 4 then Some (filter_ret e o, sk, [EvFilter]) else err (- EINVAL) sk
  | SO_DETACH_REUSEPORT_BPF | SO_DETACH_FILTER => Some (filter_ret e o, sk, [EvFilter])
  | SO_LOCK_FILTER =>
      if ztrue (sk SOCK_FILTER_LOCKED) && negb (ztrue val) then err (- EPERM) sk
      else ok (bool_flag SOCK_FILTER_LOCKED val sk)
  | SO_PASSSEC => ok (bool_flag SOCK_PASSSEC val sk)
  | SO_MARK =>
      if negb (ns_net_admin e) then err (- EPERM) sk
      else let '(sk, ev) := __sock_set_mark val sk in Some (0, sk, ev)
  | SO_RXQ_OVFL => ok (bool_flag SOCK_RXQ_OVFL val sk)
  | SO_WIFI_STATUS => ok (bool_flag SOCK_WIFI_STATUS val sk)
  | SO_PEEK_OFF =>
      match set_peek_off e with
      | Some op => let '(ret, sk) := op val sk in Some (ret, sk, [])
      | None => err (- EOPNOTSUPP) sk
      end
  | SO_NOFCS => ok (bool_flag SOCK_NOFCS val sk)
  | SO_SELECT_ERR_QUEUE => ok (bool_flag SOCK_SELECT_ERR_QUEUE val sk)
  | _ => None
  end.

Definition set_pacing (val : Z) (optval : list Z) (optlen : Z) (sk : sock) : option (Z * sock * list sev) :=
  let ulval := if wrapu 32 val =? 2 ^ 32 - 1 then ULONG_MAX else wrapu 32 val in
  match (if 8 <=? optlen then le_value <$> copy_from optval 8 else Some ulval) with
  | None => err (- EFAULT) sk
  | Some ulval =>
      let sk := if negb (ulval =? ULONG_MAX) && (sk sk_pacing_status =? SK_PACING_NONE)
                then upd sk_pacing_status SK_PACING_NEEDED sk else sk in
      ok (upd sk_pacing_rate (Z.min (sk sk_pacing_rate) ulval) (upd sk_max_pacing_rate ulval sk))
  end.

Definition zerocopy_ok (sk : sock) : bool :=
  if (sk sk_family =? AF_INET) || (sk sk_family =? AF_INET6) then
    ((sk sk_type =? SOCK_STREAM) && (sk sk_protocol =? IPPROTO_TCP)) ||
    ((sk sk_type =? SOCK_DGRAM) && (sk sk_protocol =? IPPROTO_UDP))
  else sk sk_family =? AF_RDS.

Definition set_txtime (optval : list Z) (optlen : Z) (sk : sock) : option (Z * sock * list sev) :=
  if negb (optlen =? 8) then err (- EINVAL) sk
  else match copy_from optval 8 with
       | None => err (- EFAULT) sk
       | Some l =>
           let clockid := int_of l in
           let fl := uint_of (drop 4 l) in
           if ztrue (Z.land fl (Z.lnot SOF_TXTIME_FLAGS_MASK)) then err (- EINVAL) sk
           else if negb (clockid =? CLOCK_MONOTONIC) && negb (ns_net_admin e) then err (- EPERM) sk
           else ok (upd sk_txtime_report_errors (b2z (flag fl SOF_TXTIME_REPORT_ERRORS))
                      (upd sk_txtime_deadline_mode (b2z (flag fl SOF_TXTIME_DEADLINE_MODE))
                        (upd sk_clockid (wrapu 8 clockid) (upd SOCK_TXTIME 1 sk))))
       end.

Definition set_late (o : sopt) (val : Z) (optval : list Z) (optlen : Z) (sk : sock)
    : option (Z * sock * list sev) :=
  match o with
  | SO_BUSY_POLL =>
      if (sk sk_ll_usec <? wrapu 32 val) && negb (cap_net_admin e) then err (- EPERM) sk
      else if val <? 0 then err (- EINVAL) sk else ok (upd sk_ll_usec val sk)
  | SO_PREFER_BUSY_POLL =>
      if ztrue val && negb (cap_net_admin e) then err (- EPERM) sk
      else ok (upd sk_prefer_busy_poll (b2z (ztrue val)) sk)
  | SO_BUSY_POLL_BUDGET =>
      if (sk sk_busy_poll_budget <? val) && negb (cap_net_admin e) then err (- EPERM) sk
      else if (val <? 0) || (65535 <? val) then err (- EINVAL) sk else ok (upd sk_busy_poll_budget val sk)
  | SO_MAX_PACING_RATE => set_pacing val optval optlen sk
  | SO_INCOMING_CPU => Some (0, upd sk_incoming_cpu val sk, [EvIncomingCpu val])
  | SO_CNX_ADVICE => Some (0, sk, if val =? 1 then [EvNegativeAdvice] else [])
  | SO_ZEROCOPY =>
      if negb (zerocopy_ok sk) then err (- ENOTSUPP) sk
      else if (val <? 0) || (1 <? val) then err (- EINVAL) sk else ok (bool_flag SOCK_ZEROCOPY val sk)
  | SO_TXTIME => set_txtime optval optlen sk
  | SO_BINDTOIFINDEX => Some (sock_bindtoindex_locked val sk)
  | SO_BUF_LOCK =>
      if ztrue (Z.land val (Z.lnot SOCK_BUF_LOCK_MASK)) then err (- EINVAL) sk
      else ok (upd sk_userlocks (Z.lor val (Z.land (sk sk_userlocks) (Z.lnot SOCK_BUF_LOCK_MASK))) sk)
  | _ => None
  end.

Definition sock_setsockopt (o : sopt) (optval : list Z) (optlen : Z) (sk : sock) : Z * sock * list sev :=
  match o with
  | SO_BINDTODEVICE => sock_setbindtodevice optval optlen sk
  | _ =>
      if optlen <? 4 then (- EINVAL, sk, [])
      else match copy_from optval 4 with
           | None => (- EFAULT, sk, [])
           | Some l =>
               let val := int_of l in
               match set_basic o val sk with Some r => r | None =>
               match set_timing o val optval optlen sk with Some r => r | None =>
               match set_filter o val optlen sk with Some r => r | None =>
               match set_late o val optval optlen sk with Some r => r | None => (- ENOPROTOOPT, sk, [])
               end end end end
           end
  end.

End Set_.

(** *** sk_getsockopt

    The caller's value buffer takes [room] bytes; [len_ok] says whether its length can be
    written.  A call gives its result, the socket, the bytes of the copies to the value
    buffer that succeeded and the length it wrote. *)

Record gout := GOut { g_ret : Z; g_sk : sock; g_val : list Z; g_len : option Z }.

Section Get_.
Context (e : oenv) (room : nat) (len_ok : bool).

Definition gerr (ret : Z) (sk : sock) : gout := GOut ret sk [] None.
Definition lenout (len : Z) (val : list Z) (sk : sock) : gout :=
  if len_ok then GOut 0 sk val (Some len) else GOut (- EFAULT) sk val None.
(** copy_to_sockptr of [len] bytes of [v], then the length. *)
Definition copy_out (v : list Z) (len : Z) (sk : sock) : gout :=
  if (Z.to_nat len <=? room)%nat then lenout len (take (Z.to_nat len) v) sk else gerr (- EFAULT) sk.
(** The tail of the function: [v] is the part of the union that counts. *)
Definition out_v (v : list Z) (len : Z) (sk : sock) : gout :=
  copy_out v (Z.min len (Z.of_nat (length v))) sk.

(** Options that show an int: those of the first half of the switch, then the others. *)
Definition show_int_first (o : sopt) (sk : sock) : option Z :=
  match o with
  | SO_DEBUG => Some (sk SOCK_DBG)
  | SO_DONTROUTE => Some (sk SOCK_LOCALROUTE)
  | SO_BROADCAST => Some (sk SOCK_BROADCAST)
  | SO_SNDBUF => Some (sk sk_sndbuf)
  | SO_RCVBUF => Some (sk sk_rcvbuf)
  | SO_REUSEADDR => Some (sk sk_reuse)
  | SO_REUSEPORT => Some (sk sk_reuseport)
  | SO_KEEPALIVE => Some (sk SOCK_KEEPOPEN)
  | SO_TYPE => Some (sk sk_type)
  | SO_PROTOCOL => Some (sk sk_protocol)
  | SO_DOMAIN => Some (sk sk_family)
  | SO_OOBINLINE => Some (sk SOCK_URGINLINE)
  | SO_NO_CHECK => Some (sk sk_no_check_tx)
  | SO_PRIORITY => Some (sk sk_priority)
  | SO_BSDCOMPAT => Some 0
  | SO_TIMESTAMP_OLD =>
      Some (b2z (ztrue (sk SOCK_RCVTSTAMP) && negb (ztrue (sk SOCK_TSTAMP_NEW)) &&
                 negb (ztrue (sk SOCK_RCVTSTAMPNS))))
  | SO_TIMESTAMPNS_OLD => Some (b2z (ztrue (sk SOCK_RCVTSTAMPNS) && negb (ztrue (sk SOCK_TSTAMP_NEW))))
  | SO_TIMESTAMP_NEW => Some (b2z (ztrue (sk SOCK_RCVTSTAMP) && ztrue (sk SOCK_TSTAMP_NEW)))
  | SO_TIMESTAMPNS_NEW => Some (b2z (ztrue (sk SOCK_RCVTSTAMPNS) && ztrue (sk SOCK_TSTAMP_NEW)))
  | SO_RCVLOWAT => Some (sk sk_rcvlowat)
  | SO_SNDLOWAT => Some 1
  | SO_PASSCRED => Some (b2z (ztrue (sk SOCK_PASSCRED)))
  | _ => None
  end.
Definition show_int (o : sopt) (sk : sock) : option Z :=
  match o with
  | SO_ACCEPTCONN => Some (b2z (sk sk_state =? TCP_LISTEN))
  | SO_PASSSEC => Some (b2z (ztrue (sk SOCK_PASSSEC)))
  | SO_MARK => Some (sk sk_mark)
  | SO_RXQ_OVFL => Some (sk SOCK_RXQ_OVFL)
  | SO_WIFI_STATUS => Some (sk SOCK_WIFI_STATUS)
  | SO_NOFCS => Some (sk SOCK_NOFCS)
  | SO_LOCK_FILTER => Some (sk SOCK_FILTER_LOCKED)
  | SO_BPF_EXTENSIONS => Some (bpf_extensions e)
  | SO_SELECT_ERR_QUEUE => Some (sk SOCK_SELECT_ERR_QUEUE)
  | SO_BUSY_POLL => Some (sk sk_ll_usec)
  | SO_PREFER_BUSY_POLL => Some (sk sk_prefer_busy_poll)
  | SO_INCOMING_CPU => Some (sk sk_incoming_cpu)
  | SO_INCOMING_NAPI_ID => Some (if sk sk_napi_id <? min_napi_id e then 0 else sk sk_napi_id)
  | SO_ZEROCOPY => Some (sk SOCK_ZEROCOPY)
  | SO_BINDTOIFINDEX => Some (sk sk_bound_dev_if)
  | SO_BUF_LOCK => Some (Z.land (sk sk_userlocks) SOCK_BUF_LOCK_MASK)
  | _ => show_int_first o sk
  end.

(** Options that show another member of the union. *)
Definition show_struct (o : sopt) (len : Z) (sk : sock) : option (list Z) :=
  match o with
  | SO_LINGER => Some (le_bytes 4 (sk SOCK_LINGER) ++ le_bytes 4 (sk sk_lingertime / HZ e))
  | SO_TIMESTAMPING_OLD => Some (le_bytes 4 (sk sk_tsflags) ++ le_bytes 4 (sk sk_bind_phc))
  | SO_TIMESTAMPING_NEW =>
      if ztrue (sk SOCK_TSTAMP_NEW) then Some (le_bytes 4 (sk sk_tsflags) ++ le_bytes 4 (sk sk_bind_phc))
      else Some (le_bytes 8 0)
  | SO_RCVTIMEO_OLD => Some (sock_get_timeout e (sk sk_rcvtimeo) true)
  | SO_RCVTIMEO_NEW => Some (sock_get_timeout e (sk sk_rcvtimeo) false)
  | SO_SNDTIMEO_OLD => Some (sock_get_timeout e (sk sk_sndtimeo) true)
  | SO_SNDTIMEO_NEW => Some (sock_get_timeout e (sk sk_sndtimeo) false)
  | SO_MAX_PACING_RATE =>
      if 8 <=? len then Some (le_bytes 8 (sk sk_max_pacing_rate))
      else Some (le_bytes 4 (Z.min (2 ^ 32 - 1) (sk sk_max_pacing_rate)))
  | SO_TXTIME =>
      Some (le_bytes 4 (sk sk_clockid) ++
            le_bytes 4 (Z.lor (if ztrue (sk sk_txtime_deadline_mode) then SOF_TXTIME_DEADLINE_MODE else 0)
                              (if ztrue (sk sk_txtime_report_errors) then SOF_TXTIME_REPORT_ERRORS else 0)))
  | _ => None
  end.

(** sock_error, then the soft error: a pending error is shown once. *)
Definition take_error (sk : sock) : Z * sock :=
  if ztrue (sk sk_err) then (sk sk_err, upd sk_err 0 sk)
  else (sk sk_err_soft, upd sk_err_soft 0 sk).

Definition cred_to_ucred : list Z :=
  let '(uid, gid) := match peer_cred e with Some (uid, gid, _) => (uid, gid) | None => (2 ^ 32 - 1, 2 ^ 32 - 1) end in
  le_bytes 4 (peer_pid e) ++ le_bytes 4 uid ++ le_bytes 4 gid.

(** The groups from number [i] on, one copy each. *)
Fixpoint groups_to_user (i : nat) (gids : list Z) : Z * list Z :=
  match gids with
  | [] => (0, [])
  | gid :: gids =>
      if (4 * i + 4 <=? room)%nat then
        let '(ret, l) := groups_to_user (S i) gids in (ret, le_bytes 4 gid ++ l)
      else (- EFAULT, [])
  end.

Definition sock_getbindtodevice (len : Z) (sk : sock) : gout :=
  if sk sk_bound_dev_if =? 0 then lenout 0 [] sk
  else if len <? IFNAMSIZ then gerr (- EINVAL) sk
  else match netdev_get_name e (sk sk_bound_dev_if) with
       | inl ret => gerr ret sk
       | inr name => copy_out (name ++ [0]) (Z.of_nat (length name) + 1) sk
       end.

(** The options that copy their own value. *)
Definition show_direct (o : sopt) (len : Z) (sk : sock) : gout :=
  match o with
  | SO_ERROR => let '(v, sk) := take_error sk in out_v (le_bytes 4 v) len sk
  | SO_PEERCRED => copy_out cred_to_ucred (Z.min len 12) sk
  | SO_PEERGROUPS =>
      match peer_cred e with
      | None => gerr (- ENODATA) sk
      | Some (_, _, gids) =>
          let n := 4 * Z.of_nat (length gids) in
          if len <? n then if len_ok then GOut (- ERANGE) sk [] (Some n) else gerr (- EFAULT) sk
          else let '(ret, l) := groups_to_user 0 gids in
               if ztrue ret then GOut ret sk l None else lenout n l sk
      end
  | SO_PEERNAME =>
      let '(lv, address) := getname e in
      if lv <? 0 then gerr (- ENOTCONN) sk
      else if lv <? len then gerr (- EINVAL) sk
      else copy_out address len sk
  | SO_PEERSEC => gerr (peersec_ret e) sk
  | SO_PEEK_OFF =>
      match set_peek_off e with
      | None => gerr (- EOPNOTSUPP) sk
      | Some _ => out_v (le_bytes 4 (sk sk_peek_off)) len sk
      end
  | SO_BINDTODEVICE => sock_getbindtodevice len sk
  | SO_GET_FILTER =>
      let '(ret, l) := get_filter e len in
      if ret <? 0 then gerr ret sk else lenout ret l sk
  | SO_MEMINFO => copy_out (concat (map (le_bytes 4) (meminfo e))) (Z.min len 36) sk
  | SO_COOKIE => if len <? 8 then gerr (- EINVAL) sk else out_v (le_bytes 8 (cookie e)) len sk
  | SO_NETNS_COOKIE => if negb (len =? 8) then gerr (- EINVAL) sk else out_v (le_bytes 8 (net_cookie e)) len sk
  | _ => gerr (- ENOPROTOOPT) sk
  end.

Definition sk_getsockopt (o : sopt) (ulen : option Z) (sk : sock) : gout :=
  match ulen with
  | None => gerr (- EFAULT) sk
  | Some len =>
      if len <? 0 then gerr (- EINVAL) sk
      else match show_int o sk with Some v => out_v (le_bytes 4 v) len sk | None =>
           match show_struct o len sk with Some v => out_v v len sk | None => show_direct o len sk
           end end
  end.

End Get_.

(** *** Setters for use in the kernel, and the values of a new socket *)

Section Kernel_.
Context (e : oenv).

Definition sock_set_reuseaddr (sk : sock) : sock := upd sk_reuse 1 sk.
Definition sock_set_reuseport (sk : sock) : sock := upd sk_reuseport 1 sk.
Definition sock_no_linger (sk : sock) : sock := upd SOCK_LINGER 1 (upd sk_lingertime 0 sk).
Definition sock_set_priority (priority : Z) (sk : sock) : sock := upd sk_priority priority sk.
Definition sock_set_sndtimeo (secs : Z) (sk : sock) : sock :=
  if ztrue secs && (secs <? MAX_SCHEDULE_TIMEOUT / HZ e - 1)
  then upd sk_sndtimeo (wraps 64 (secs * HZ e)) sk
  else upd sk_sndtimeo MAX_SCHEDULE_TIMEOUT sk.
Definition sock_enable_timestamps (sk : sock) : sock := __sock_set_timestamps true false true sk.
Definition sock_set_keepalive (sk : sock) : sock * list sev :=
  (upd SOCK_KEEPOPEN 1 sk, if has_keepalive e then [EvKeepalive true] else []).
Definition sock_set_rcvbuf (val : Z) (sk : sock) : sock := __sock_set_rcvbuf e val sk.
Definition sock_set_mark (val : Z) (sk : sock) : sock * list sev := __sock_set_mark val sk.
Definition sk_set_peek_off (val : Z) (sk : sock) : Z * sock := (0, upd sk_peek_off val sk).

(** sock_init_data_uid on the fields of [fld]: the defaults of the system for buffers and
    busy polling; [type] is that of the struct socket, if there is one. *)
Definition sock_init_data_uid (rmem_default wmem_default busy_read : Z) (type : option Z) (sk : sock) : sock :=
  let sk := upd sk_state TCP_CLOSE (upd sk_sndbuf wmem_default (upd sk_rcvbuf rmem_default sk)) in
  let sk := match type with Some t => upd sk_type t sk | None => sk end in
  let sk := upd sk_sndtimeo MAX_SCHEDULE_TIMEOUT (upd sk_rcvtimeo MAX_SCHEDULE_TIMEOUT
              (upd sk_rcvlowat 1 (upd sk_peek_off (-1) sk))) in
  let sk := upd sk_ll_usec busy_read (upd sk_napi_id 0 sk) in
  upd sk_incoming_cpu (-1) (upd sk_pacing_rate ULONG_MAX (upd sk_max_pacing_rate ULONG_MAX sk)).

(** sock_init_data: a thread with a priority level gives it to its sockets. *)
Definition sock_init_data (rmem_default wmem_default busy_read : Z) (type : option Z) (priority_level : Z)
    (sk : sock) : sock :=
  let sk := sock_init_data_uid rmem_default wmem_default busy_read type sk in
  if 0 <? priority_level then upd sk_priority (wrapu 32 priority_level) sk else sk.

End Kernel_.

End Options.
