(* ===== verification/SocketAttrs.v ===== *)
(** * Per-thread socket attributes
      (src/kvm/linux-5.15.178/kernel/set_thread_socket_attrs.c, include/linux/sched.h,
       kernel/fork.c, fs/proc/array.c, net/core/sock.c)

    [Attrs]: the three fields a task has, the system call that sets them, their initial
    values, how /proc/<pid>/status shows them, and the socket priority a new protocol
    socket takes from them. *)

From S2P Require Import Prelude.

Module Attrs.

(** The fields of task_struct this component uses; [usage] is the reference count. *)
Record task := Task {
  t_uid : Z; t_euid : Z; usage : Z;
  max_socket_allowed : Z; socket_count : Z; priority_level : Z
}.

(** copy_process: the attributes of a new task. *)
Definition init_socket_attrs (t : task) : task :=
  Task (t_uid t) (t_euid t) (usage t) 0 0 0.

Definition add_usage (d : Z) (t : task) : task :=
  Task (t_uid t) (t_euid t) (usage t + d) (max_socket_allowed t) (socket_count t) (priority_level t).
Definition get_task_struct (pid : Z) (ts : gmap Z task) : gmap Z task := alter (add_usage 1) pid ts.
Definition put_task_struct (pid : Z) (ts : gmap Z task) : gmap Z task := alter (add_usage (-1)) pid ts.

Definition set_max (v : Z) (t : task) : task :=
  Task (t_uid t) (t_euid t) (usage t) v (socket_count t) (priority_level t).
Definition set_priority (v : Z) (t : task) : task :=
  Task (t_uid t) (t_euid t) (usage t) (max_socket_allowed t) (socket_count t) v.

Section Syscall.
(** The tasks by number, as the caller's pid namespace names them; the caller; its
    CAP_SYS_RESOURCE. *)
Context (current : Z) (capable : bool).

(** The assignments and the exit label: [target] is the task, held when [pid] is not 0. *)
Definition set_attrs (target pid max_sockets priority : Z) (ts : gmap Z task) : Z * gmap Z task :=
  let ts := if -1 <=? max_sockets then alter (set_max max_sockets) target ts else ts in
  let ts := if (0 <=? priority) && (priority <=? 100)
            then alter (set_priority priority) target ts else ts in
  (0, if negb (pid =? 0) then put_task_struct target ts else ts).

(** May the caller change [t]? *)
Definition may_set (cur t : task) : bool :=
  capable || (t_euid cur =? t_euid t) || (t_euid cur =? t_uid t).

(** The system call; [None]: no current task. *)
Definition set_thread_socket_attrs (pid max_sockets priority flags : Z) (ts : gmap Z task)
    : option (Z * gmap Z task) :=
  cur ← ts !! current;
  if negb (flags =? 0) then Some (- EINVAL, ts)
  else
    let target := if pid =? 0 then current else pid in
    if negb (pid =? 0) && bool_decide (ts !! target = None) then Some (- ESRCH, ts)
    else
      let ts := if pid =? 0 then ts else get_task_struct target ts in
      t ← ts !! target;
      if negb (may_set cur t)
      then Some (- EPERM, if negb (pid =? 0) then put_task_struct target ts else ts)
      else Some (set_attrs target pid max_sockets priority ts).

End Syscall.

(** The lines of /proc/<pid>/status. *)
Definition socket_status (t : task) : list (list Z) :=
  [bytes_of_string "SocketCount:" ++ 9 :: fmt_d (socket_count t) ++ [10];
   bytes_of_string "MaxSockets:" ++ 9 :: fmt_d (max_socket_allowed t) ++ [10];
   bytes_of_string "SocketPriority:" ++ 9 :: fmt_d (priority_level t) ++ [10]].

(** sock_init_data: the priority of the new socket; [sk_priority] is the one that
    sock_init_data_uid left. *)
Definition sock_init_priority (cur : task) (sk_priority : Z) : Z :=
  if 0 <? priority_level cur then priority_level cur else sk_priority.

(** ** What the call does *)

(** The attributes are in the documented ranges. *)
Definition attrs_wf (t : task) : Prop :=
  -1 <= max_socket_allowed t < 2 ^ 31 /\ 0 <= socket_count t /\ 0 <= priority_level t <= 100.

(** The task after a permitted call: values out of range are ignored. *)
Definition with_attrs (max_sockets priority : Z) (t : task) : task :=
  Task (t_uid t) (t_euid t) (usage t)
    (if -1 <=? max_sockets then max_sockets else max_socket_allowed t) (socket_count t)
    (if (0 <=? priority) && (priority <=? 100) then priority else priority_level t).

Lemma add_usage_back t : add_usage (-1) (add_usage 1 t) = t.
Proof. destruct t. unfold add_usage; simpl. f_equal. lia. Qed.

Lemma put_get pid t ts : ts !! pid = Some t -> put_task_struct pid (get_task_struct pid ts) = ts.
Proof.
  intros H. unfold put_task_struct, get_task_struct. rewrite alter_twice.
  eapply alter_id_at; [exact H|apply add_usage_back].
Qed.

Lemma set_attrs_held target pid ms pr t ts :
  ts !! target = Some t ->
  set_attrs target pid ms pr (if pid =? 0 then ts else get_task_struct target ts) =
  (0, <[target:=with_attrs ms pr t]> ts).
Proof.
  intros Ht. unfold set_attrs. f_equal. unfold get_task_struct, put_task_struct.
  rewrite <- (alter_as_insert (with_attrs ms pr)) by done.
  assert (forall f : task -> task, f t = with_attrs ms pr t -> alter f target ts = alter (with_attrs ms pr) target ts) as Hf.
  { intros f Hf. by rewrite !(alter_as_insert _ target t), Hf. }
  destruct (pid =? 0), (-1 <=? ms) eqn:E1, ((0 <=? pr) && (pr <=? 100))%bool eqn:E2; simpl;
    rewrite ?alter_twice; (apply Hf || (rewrite <- (alter_id_at (with_attrs ms pr) target t ts) at 1; [done|done|]));
    unfold with_attrs, set_max, set_priority, add_usage, compose; simpl; rewrite ?E1, ?E2; simpl;
    destruct t; simpl; f_equal; lia.
Qed.

(** The call on every branch. *)
Lemma set_thread_socket_attrs_eq current capable pid ms pr flags ts cur :
  ts !! current = Some cur ->
  set_thread_socket_attrs current capable pid ms pr flags ts =
  Some (if negb (flags =? 0) then (- EINVAL, ts)
        else match ts !! (if pid =? 0 then current else pid) with
             | None => (- ESRCH, ts)
             | Some t =>
                 if may_set capable cur t
                 then (0, <[(if pid =? 0 then current else pid) := with_attrs ms pr t]> ts)
                 else (- EPERM, ts)
             end).
Proof.
  intros Hcur. unfold set_thread_socket_attrs. rewrite Hcur. simpl.
  destruct (flags =? 0); simpl; [|done]. set (target := if pid =? 0 then current else pid).
  destruct (ts !! target) as [t|] eqn:Ht.
  - rewrite bool_decide_eq_false_2 by done. rewrite andb_false_r.
    assert (exists t', (if pid =? 0 then ts else get_task_struct target ts) !! target = Some t' /\
      may_set capable cur t' = may_set capable cur t) as (t' & -> & Hm).
    { destruct (pid =? 0); [by exists t|]. exists (add_usage 1 t). unfold get_task_struct.
      by rewrite lookup_alter_eq, Ht. }
    simpl. rewrite Hm. destruct (may_set capable cur t); simpl.
    + by rewrite (set_attrs_held target pid ms pr t).
    + destruct (pid =? 0); simpl; [done|]. by rewrite (put_get target t).
  - subst target. destruct (pid =? 0); [congruence|]. by rewrite bool_decide_eq_true_2.
Qed.

(** What a call, whoever makes it, does to the attributes of one task. *)
Lemma set_thread_socket_attrs_task current capable pid ms pr flags ts r ts' me t t' :
  set_thread_socket_attrs current capable pid ms pr flags ts = Some (r, ts') ->
  ts !! me = Some t -> ts' !! me = Some t' -> t' = t \/ t' = with_attrs ms pr t.
Proof.
  intros H Ht Ht'. destruct (ts !! current) as [cur|] eqn:Ec;
    [|unfold set_thread_socket_attrs in H; by rewrite Ec in H].
  rewrite (set_thread_socket_attrs_eq _ _ _ _ _ _ _ cur Ec) in H. simplify_eq.
  destruct (negb (flags =? 0)); [simplify_eq; by left|].
  destruct (ts !! (if pid =? 0 then current else pid)) as [t0|] eqn:E0; [|simplify_eq; by left].
  destruct (may_set capable cur t0); [|simplify_eq; by left]. injection H as <- <-.
  apply lookup_insert_Some in Ht' as [[<- <-]|[_ Ht']]; [|left; congruence].
  right. congruence.
Qed.

(** (C25) The system call does what it says on every branch, for any tasks: a flag or an
    unknown pid is refused with EINVAL or ESRCH, a caller without the capability whose
    effective user is neither the effective nor the real user of the target with EPERM,
    and a refusal changes no task; otherwise it returns 0, the target (the caller for
    pid 0) has the new limit and priority where they are in range, and nothing else of
    any task changes, the reference counts included. *)
Theorem set_thread_socket_attrs_spec current capable pid ms pr flags ts cur :
  ts !! current = Some cur ->
  set_thread_socket_attrs current capable pid ms pr flags ts =
  Some (if negb (flags =? 0) then (- EINVAL, ts)
        else match ts !! (if pid =? 0 then current else pid) with
             | None => (- ESRCH, ts)
             | Some t =>
                 if may_set capable cur t
                 then (0, <[(if pid =? 0 then current else pid) := with_attrs ms pr t]> ts)
                 else (- EPERM, ts)
             end).
Proof. exact (set_thread_socket_attrs_eq current capable pid ms pr flags ts cur). Qed.

Definition demo_tasks : gmap Z task :=
  {[1 := Task 0 0 1 0 0 0; 7 := Task 1000 1000 1 0 2 0]}.

Lemma set_thread_socket_attrs_spec_witness :
  set_thread_socket_attrs 7 false 7 3 50 0 demo_tasks =
  Some (0, <[7 := Task 1000 1000 1 3 2 50]> demo_tasks) /\
  set_thread_socket_attrs 7 false 1 3 50 0 demo_tasks = Some (- EPERM, demo_tasks).
Proof.
  split; (rewrite (set_thread_socket_attrs_spec 7 false _ 3 50 0 demo_tasks (Task 1000 1000 1 0 2 0));
    [|reflexivity]); reflexivity.
Defined.

(** ** Setting and showing *)

(** The value of a line of the status file: the text between the tab and the newline. *)
Definition status_value (label line : list Z) : Z :=
  dec_int (take (length line - length label - 2) (drop (length label + 1) line)).

Lemma status_value_line label x : in_s 32 x ->
  status_value label (label ++ 9 :: fmt_d x ++ [10]) = x.
Proof.
  intros Hx. unfold status_value. rewrite <- drop_drop, drop_app_length. simpl.
  rewrite drop_0, length_app. simpl. rewrite length_app. simpl.
  replace (length label + Datatypes.S (length (fmt_d x) + 1) - length label - 2)%nat
    with (length (fmt_d x)) by lia.
  rewrite take_app_length. by apply fmt_d_value.
Qed.

(** A permitted call with values in range is visible in the status file of the
    target: the lines MaxSockets and SocketPriority read back as the values set and
    SocketCount as the count, which the call left alone; a socket the task creates then
    has that priority when it is not 0. *)
Theorem attrs_shown_in_status current capable pid ms pr ts cur t :
  let target := if pid =? 0 then current else pid in
  ts !! current = Some cur -> ts !! target = Some t -> may_set capable cur t = true ->
  -1 <= ms < 2 ^ 31 -> 0 <= pr <= 100 -> in_s 32 (socket_count t) ->
  exists t' ts', set_thread_socket_attrs current capable pid ms pr 0 ts = Some (0, ts') /\
    ts' !! target = Some t' /\
    zip_with status_value
      [bytes_of_string "SocketCount:"; bytes_of_string "MaxSockets:"; bytes_of_string "SocketPriority:"]
      (socket_status t') = [socket_count t; ms; pr] /\
    (attrs_wf t -> attrs_wf t') /\
    (forall p, sock_init_priority t' p = if pr =? 0 then p else pr).
Proof.
  intros target Hcur Ht Hm Hms Hpr Hc. exists (with_attrs ms pr t), (<[target:=with_attrs ms pr t]> ts).
  assert (E1 : (-1 <=? ms) = true) by (apply Z.leb_le; lia).
  assert (E2 : ((0 <=? pr) && (pr <=? 100))%bool = true) by (apply andb_true_iff; rewrite !Z.leb_le; lia).
  assert (with_attrs ms pr t = Task (t_uid t) (t_euid t) (usage t) ms (socket_count t) pr) as Ew
    by (unfold with_attrs; by rewrite E1, E2).
  split; [|split; [|split; [|split]]].
  - unfold set_thread_socket_attrs. rewrite Hcur. simpl. fold target. rewrite Ht.
    rewrite bool_decide_eq_false_2 by done. rewrite andb_false_r.
    assert (exists t', (if pid =? 0 then ts else get_task_struct target ts) !! target = Some t' /\
      may_set capable cur t' = true) as (t' & -> & Hm').
    { destruct (pid =? 0); [by exists t|]. exists (add_usage 1 t). unfold get_task_struct.
      by rewrite lookup_alter_eq, Ht. }
    simpl. rewrite Hm'. simpl. by rewrite (set_attrs_held target pid ms pr t).
  - by rewrite lookup_insert_eq.
  - rewrite Ew. unfold socket_status. cbn [zip_with socket_count max_socket_allowed priority_level].
    rewrite !status_value_line; [done|unfold in_s; lia|unfold in_s; lia|done].
  - rewrite Ew. unfold attrs_wf. simpl. lia.
  - intros p. rewrite Ew. unfold sock_init_priority. cbn [priority_level].
    destruct (Z.ltb_spec 0 pr), (Z.eqb_spec pr 0); lia.
Qed.

Lemma attrs_shown_in_status_witness :
  exists t' ts', set_thread_socket_attrs 7 false 0 3 50 0 demo_tasks = Some (0, ts') /\
    ts' !! 7 = Some t' /\ sock_init_priority t' 0 = 50.
Proof.
  destruct (attrs_shown_in_status 7 false 0 3 50 demo_tasks (Task 1000 1000 1 0 2 0)
    (Task 1000 1000 1 0 2 0)) as (t' & ts' & H1 & H2 & _ & _ & H5);
    try reflexivity; try lia; [unfold in_s; simpl; lia|].
  exists t', ts'. split; [exact H1|]. split; [exact H2|]. apply (H5 0).
Defined.

End Attrs.
