(* ===== verification/SockOptSpec.v ===== *)
(** * Socket options: theorems

    The fields of a socket stay in the ranges of their types and its share of the global
    timestamp count is right, through any calls ([sockopt_typed]); a failed call changes
    nothing but the timestamp key ([setsockopt_failure]); what a caller without capabilities
    cannot do ([setsockopt_unprivileged]); a socket takes its priority from the thread that
    makes it ([priority_bypass]); a call writes only the fields of its option
    ([setsockopt_frame]). *)

From S2P Require Import Prelude SockOpt SocketAttrs.
Import Options.

(** ** Fields *)

Lemma all_flds_at f : all_flds !! fld_id f = Some f.
Proof. by destruct f. Qed.

Lemma fld_eqb_spec f g : reflect (f = g) (fld_eqb f g).
Proof.
  apply iff_reflect. unfold fld_eqb. rewrite Nat.eqb_eq. split; [by intros ->|].
  intros E. assert (Some f = Some g) as [= ->]; [|done]. by rewrite <- !all_flds_at, E.
Qed.

#[export] Instance fld_eq_dec : EqDecision fld.
Proof. intros f g. destruct (fld_eqb_spec f g); [by left|by right]. Defined.

Lemma upd_eq f v sk : upd f v sk f = v.
Proof. unfold upd. by destruct (fld_eqb_spec f f). Qed.

Lemma upd_ne f g v sk : f <> g -> upd f v sk g = sk g.
Proof. intros H. unfold upd. destruct (fld_eqb_spec g f); congruence. Qed.

(** ** Types *)

Definition in_type (f : fld) (v : Z) : Prop := (crange f).1 <= v <= (crange f).2.
Definition typed (sk : sock) : Prop := forall f, in_type f (sk f).

(** The socket holds one count of net_enable_timestamp exactly when its family counts and
    one of its two timestamp flags is on. *)
Definition stamped (sk : sock) : Prop :=
  sk netstamp = b2z (sock_needs_netstamp sk && any_timestamp sk).
Definition sock_wf (sk : sock) : Prop := typed sk /\ stamped sk.

(** Fields the timestamp count does not depend on. *)
Definition plain (f : fld) : bool :=
  match f with netstamp | SOCK_TIMESTAMP | SOCK_TIMESTAMPING_RX_SOFTWARE | sk_family => false | _ => true end.

Lemma typed_upd f v sk : in_type f v -> typed sk -> typed (upd f v sk).
Proof. intros Hv Hsk g. unfold upd. destruct (fld_eqb_spec g f) as [->|]; auto. Qed.

Lemma stamped_ext sk sk' :
  (forall f, plain f = false -> sk' f = sk f) -> stamped sk -> stamped sk'.
Proof.
  unfold stamped, sock_needs_netstamp, any_timestamp. intros H.
  by rewrite !(H netstamp), !(H SOCK_TIMESTAMP), !(H SOCK_TIMESTAMPING_RX_SOFTWARE), !(H sk_family).
Qed.

Lemma wf_upd f v sk : plain f = true -> in_type f v -> sock_wf sk -> sock_wf (upd f v sk).
Proof.
  intros Hf Hv [Ht Hs]. split; [by apply typed_upd|]. eapply stamped_ext; [|exact Hs].
  intros g Hg. apply upd_ne. congruence.
Qed.

(** A flag of the two, and the count. *)
Lemma wf_enable f sk :
  f = SOCK_TIMESTAMP \/ f = SOCK_TIMESTAMPING_RX_SOFTWARE -> sock_wf sk -> sock_wf (sock_enable_timestamp f sk).
Proof.
  intros Hf [Ht Hs]. unfold sock_enable_timestamp. destruct (ztrue (sk f)) eqn:Ef; [done|]. cbn [negb].
  assert (forall b : bool, in_type netstamp (b2z b) /\ in_type f 1) as Hb
    by (intros []; destruct Hf as [-> | ->]; unfold in_type; simpl; lia).
  unfold stamped in Hs. split.
  - destruct (sock_needs_netstamp sk && negb (any_timestamp sk)) eqn:E;
      [|by apply typed_upd; [apply (Hb true)|]].
    apply andb_true_iff in E as [E1 E2]. apply negb_true_iff in E2. rewrite Hs, E1, E2.
    apply typed_upd; [apply (Hb true)|]. by apply typed_upd; [apply (Hb true)|].
  - destruct (sock_needs_netstamp sk) eqn:En, (any_timestamp sk) eqn:Ea; simpl in *; unfold stamped;
      unfold sock_needs_netstamp, any_timestamp in *; destruct Hf as [-> | ->]; unfold upd; simpl;
      rewrite ?En, ?Ea, ?Hs, ?Ef in *; simpl; rewrite ?orb_true_r; done.
Qed.

Lemma wf_disable f sk :
  f = SOCK_TIMESTAMP \/ f = SOCK_TIMESTAMPING_RX_SOFTWARE -> sock_wf sk -> sock_wf (sock_disable_timestamp f sk).
Proof.
  intros Hf [Ht Hs]. unfold sock_disable_timestamp. destruct (ztrue (sk f)) eqn:Ef; [|done].
  assert (forall b : bool, in_type netstamp (b2z b) /\ in_type f 0) as Hb
    by (intros []; destruct Hf as [-> | ->]; unfold in_type; simpl; lia).
  assert (sock_needs_netstamp (upd f 0 sk) = sock_needs_netstamp sk) as En
    by (destruct Hf as [-> | ->]; done).
  assert (any_timestamp sk = true) as Ea
    by (unfold any_timestamp; destruct Hf as [-> | ->]; rewrite Ef; by rewrite ?orb_true_r).
  unfold stamped in Hs. rewrite Ea, andb_true_r in Hs. rewrite En.
  destruct (sock_needs_netstamp sk && negb (any_timestamp (upd f 0 sk))) eqn:E; (split; [|unfold stamped]).
  - apply andb_true_iff in E as [E1 E2]. rewrite Hs, E1.
    apply typed_upd; [apply (Hb false)|]. by apply typed_upd; [apply (Hb true)|].
  - apply andb_true_iff in E as [E1 E2]. apply negb_true_iff in E2. rewrite Hs, E1.
    unfold sock_needs_netstamp, any_timestamp in *; destruct Hf as [-> | ->]; unfold upd in *; simpl in *;
      rewrite E2; by rewrite andb_false_r.
  - by apply typed_upd; [apply (Hb true)|].
  - rewrite En. transitivity (sk netstamp); [by destruct Hf as [-> | ->]|]. rewrite Hs.
    destruct (sock_needs_netstamp sk); simpl in *; [|done]. by apply negb_false_iff in E as ->.
Qed.

(** ** The environment

    What the kernel documents of the parameters: limits and device numbers are ints, and a
    protocol's operation on an option changes only the fields of that option, keeps them in
    range and changes nothing when it fails. *)

Definition int32 (x : Z) : Prop := - 2 ^ 31 <= x <= 2 ^ 31 - 1.

Definition op_ok (touched : list fld) (op : Z -> sock -> Z * sock) : Prop :=
  forall val sk, int32 val -> typed sk ->
    typed (op val sk).2 /\
    forall f, f ∉ touched \/ (op val sk).1 <> 0 -> (op val sk).2 f = sk f.

Record env_ok (e : oenv) : Prop := {
  hz_pos : 0 < HZ e <= USEC_PER_SEC;
  min_snd_ok : 0 < min_sndbuf e /\ int32 (min_sndbuf e);
  min_rcv_ok : 0 < min_rcvbuf e /\ int32 (min_rcvbuf e);
  max_ok : 0 <= wmem_max e < 2 ^ 31 /\ 0 <= rmem_max e < 2 ^ 31;
  devs_ok : forall name i, dev_get_by_name e name = Some i -> 0 <= i /\ int32 i;
  rcvlowat_ok : forall op, set_rcvlowat e = Some op -> op_ok [sk_rcvlowat; sk_rcvbuf] op;
  peek_off_ok : forall op, set_peek_off e = Some op -> op_ok [sk_peek_off] op
}.

Lemma int_of_range l : int32 (int_of l).
Proof. unfold int32, int_of. pose proof (wraps_range 32 (le_value (take 4 l))) as H. unfold in_s in H.
  change (2 ^ (32 - 1)) with (2 ^ 31) in H. lia. Qed.

Lemma long_of_range l : - 2 ^ 63 <= long_of l <= 2 ^ 63 - 1.
Proof. unfold long_of. pose proof (wraps_range 64 (le_value (take 8 l))) as H. unfold in_s in H.
  change (2 ^ (64 - 1)) with (2 ^ 63) in H. lia. Qed.

Lemma le_value_range l : bytes_ok l -> 0 <= le_value l < 256 ^ Z.of_nat (length l).
Proof.
  induction 1 as [|b l Hb Hl IH]; [simpl; lia|]. cbn [le_value length].
  rewrite Nat2Z.inj_succ, Z.pow_succ_r by lia. unfold in_u in Hb. lia.
Qed.

Lemma b2z_bit b : 0 <= b2z b <= 1.
Proof. destruct b; simpl; lia. Qed.

Lemma b2z_ztrue b : b2z (ztrue (b2z b)) = b2z b.
Proof. by destruct b. Qed.

Lemma lor_range n x y : 0 <= n -> 0 <= x <= 2 ^ n - 1 -> 0 <= y <= 2 ^ n - 1 -> 0 <= Z.lor x y <= 2 ^ n - 1.
Proof.
  intros Hn Hx Hy. assert (0 <= Z.lor x y) by (apply Z.lor_nonneg; lia).
  assert (Z.lor x y = Z.lor x y mod 2 ^ n) as ->.
  { rewrite <- Z.land_ones, Z.land_lor_distr_l, !Z.land_ones, !Z.mod_small by lia. done. }
  pose proof (Z.mod_pos_bound (Z.lor x y) (2 ^ n)). lia.
Qed.

Lemma land_range_l n x y : 0 <= n -> 0 <= x <= 2 ^ n - 1 -> 0 <= Z.land x y <= 2 ^ n - 1.
Proof.
  intros Hn Hx. assert (0 <= Z.land x y) by (apply Z.land_nonneg; lia).
  assert (Z.land x y = Z.land x y mod 2 ^ n) as ->.
  { rewrite <- Z.land_ones, <- Z.land_assoc, (Z.land_comm y), Z.land_assoc, Z.land_ones, Z.mod_small by lia. done. }
  pose proof (Z.mod_pos_bound (Z.land x y) (2 ^ n)). lia.
Qed.

(** No bit outside a mask of [n] low bits. *)
Lemma below_mask n x : 0 <= n -> Z.land x (Z.lnot (2 ^ n - 1)) = 0 -> 0 <= x <= 2 ^ n - 1.
Proof.
  intros Hn H. assert (x = x mod 2 ^ n) as ->; [|pose proof (Z.mod_pos_bound x (2 ^ n)); lia].
  rewrite <- Z.land_ones by lia. replace (2 ^ n - 1) with (Z.ones n) in H by (rewrite Z.ones_equiv; lia).
  rewrite <- Z.ldiff_land in H. rewrite <- (Z.lor_ldiff_and x (Z.ones n)) at 1. by rewrite H, Z.lor_0_l.
Qed.

(** ** Every operation keeps the types and the count *)

Lemma wraps_range32 x : - 2 ^ 31 <= wraps 32 x <= 2 ^ 31 - 1.
Proof. pose proof (wraps_range 32 x) as H. unfold in_s in H. change (2 ^ (32 - 1)) with (2 ^ 31) in H. lia. Qed.

Ltac in_type_tac :=
  unfold in_type; cbn [crange fst snd];
  first [ match goal with |- context [b2z ?b] => pose proof (b2z_bit b); lia end
        | apply (lor_range 4); [lia| |]; in_type_tac
        | apply (land_range_l 4); [lia|]; in_type_tac
        | match goal with |- context [wrapu ?w ?x] => pose proof (wrapu_range w x); unfold in_u, ULONG_MAX in *; lia end
        | match goal with |- context [wraps 32 ?x] => pose proof (wraps_range32 x); unfold int32 in *; lia end
        | match goal with Hw : sock_wf ?sk |- context [?sk ?f] =>
            pose proof (proj1 Hw f) as Hwf; unfold in_type in Hwf; cbn [crange fst snd] in Hwf; lia end
        | unfold int32, SOCK_SNDBUF_LOCK, SOCK_RCVBUF_LOCK, INT_MAX, ULONG_MAX, SK_PACING_NEEDED in *; lia ].
Ltac wf_tac :=
  repeat first [ assumption
               | apply wf_upd; [reflexivity|in_type_tac|]
               | apply wf_enable; [auto|]
               | apply wf_disable; [auto|] ].

Section Typed.
Context (e : oenv) (He : env_ok e).

Definition res_wf (x : option (Z * sock * list sev)) : Prop :=
  match x with Some (_, sk, _) => sock_wf sk | None => True end.

Lemma op_wf fs op val sk : op_ok fs op -> forallb plain fs = true -> int32 val -> sock_wf sk ->
  sock_wf (op val sk).2.
Proof.
  intros Hop Hp Hv [Ht Hs]. destruct (Hop val sk Hv Ht) as [H1 H2]. split; [done|].
  eapply stamped_ext; [|exact Hs]. intros f Hf. apply H2. left. intros Hin.
  apply list_elem_of_In in Hin. rewrite (proj1 (forallb_forall _ _) Hp f Hin) in Hf. done.
Qed.

Lemma store_timeout_range sec usec t : (store_timeout e sec usec).2 = Some t -> - 2 ^ 63 <= t <= 2 ^ 63 - 1.
Proof.
  unfold store_timeout, MAX_SCHEDULE_TIMEOUT. repeat case_match; simpl; intros [= <-]; try lia.
  match goal with |- context [wraps 64 ?x] => pose proof (wraps_range 64 x) as Hw end. unfold in_s in Hw.
  change (2 ^ (64 - 1)) with (2 ^ 63) in Hw. lia.
Qed.

Lemma set_timeout_wf f optval optlen old sk : f = sk_rcvtimeo \/ f = sk_sndtimeo ->
  sock_wf sk -> sock_wf (set_timeout e f optval optlen old sk).2.
Proof.
  intros Hf Hw. unfold set_timeout. destruct (sock_set_timeout e optval optlen old) as [ret [t|]] eqn:E; [|done].
  assert (- 2 ^ 63 <= t <= 2 ^ 63 - 1) as Ht.
  { unfold sock_set_timeout in E. repeat case_match; simplify_eq;
      eapply store_timeout_range; by rewrite E. }
  destruct Hf as [-> | ->]; wf_tac.
Qed.

Lemma timestamping_wf o val phc sk : int32 phc -> sock_wf sk ->
  sock_wf (sock_set_timestamping e o val phc sk).2.
Proof.
  intros Hphc Hw. unfold sock_set_timestamping. case_match; [done|].
  destruct (opt_id_key e val sk) as [sk1|] eqn:E1; [|done].
  assert (sock_wf sk1) as H1 by (unfold opt_id_key in E1; repeat case_match; simplify_eq; wf_tac).
  case_match; [done|].
  destruct (if flag val SOF_TIMESTAMPING_BIND_PHC then _ else _) as [ret sk2] eqn:E2.
  assert (sock_wf sk2) as H2
    by (unfold sock_timestamping_bind_phc in E2; repeat case_match; simplify_eq; wf_tac).
  destruct (ztrue ret); [done|]. cbn [snd]. destruct (flag val SOF_TIMESTAMPING_RX_SOFTWARE); wf_tac.
Qed.

Lemma sock_set_timestamp_wf o b sk : sock_wf sk -> sock_wf (sock_set_timestamp o b sk).
Proof. intros Hw. unfold sock_set_timestamp, __sock_set_timestamps. repeat case_match; wf_tac. Qed.

Lemma bind_wf i sk : int32 i -> sock_wf sk -> sock_wf (sock_bindtoindex_locked e i sk).1.2.
Proof. intros Hi Hw. unfold sock_bindtoindex_locked. repeat case_match; simpl; wf_tac. Qed.

Lemma set_basic_wf o val sk : sock_wf sk -> res_wf (set_basic e o val sk).
Proof.
  intros Hw. destruct (min_snd_ok e He), (min_rcv_ok e He).
  unfold set_basic, set_sndbuf, __sock_set_rcvbuf, ok, err, bool_flag, res_wf. destruct o; try done;
    repeat case_match; simplify_eq; wf_tac.
Qed.

Lemma res_pair_wf (p : Z * sock) : sock_wf p.2 -> res_wf (let '(ret, sk) := p in Some (ret, sk, [])).
Proof. by destruct p. Qed.

Lemma set_timing_wf o val optval optlen sk : int32 val -> sock_wf sk ->
  res_wf (set_timing e o val optval optlen sk).
Proof.
  intros Hv Hw. unfold set_timing.
  destruct o; try done; unfold ok, err;
    try (apply res_pair_wf, set_timeout_wf; auto; fail);
    try (apply (sock_set_timestamp_wf _ _ _ Hw));
    try (destruct (optlen =? 8); [destruct (copy_from optval 8); [|done]|];
         apply res_pair_wf, timestamping_wf; done || apply int_of_range);
    try (cbn [res_wf]; wf_tac; fail).
  - unfold set_linger, ok, err. repeat case_match; cbn [res_wf]; wf_tac.
  - destruct (set_rcvlowat e) as [op|] eqn:E; [|cbn [res_wf]; repeat case_match; wf_tac].
    apply res_pair_wf, (op_wf [sk_rcvlowat; sk_rcvbuf]); [by apply (rcvlowat_ok e He)|done| |done].
    case_match; [unfold int32, INT_MAX; lia|done].
Qed.

Lemma set_filter_wf o val optlen sk : int32 val -> sock_wf sk -> res_wf (set_filter e o val optlen sk).
Proof.
  intros Hv Hw. unfold set_filter, ok, err, __sock_set_mark, bool_flag.
  destruct o; try done; try (repeat case_match; simplify_eq; cbn [res_wf]; wf_tac; fail).
  destruct (set_peek_off e) as [op|] eqn:E; [|done].
  apply res_pair_wf, (op_wf [sk_peek_off]); [by apply (peek_off_ok e He)|done..].
Qed.

Lemma set_pacing_wf val optval optlen sk : bytes_ok optval -> sock_wf sk ->
  res_wf (set_pacing val optval optlen sk).
Proof.
  intros Hb Hw. unfold set_pacing. destruct (if 8 <=? optlen then _ else _) as [ul|] eqn:E; [|done].
  assert (0 <= ul <= ULONG_MAX) as Hu.
  { destruct (8 <=? optlen).
    - unfold copy_from in E. destruct (Nat.leb_spec 8 (length optval)); [|done]. injection E as <-.
      pose proof (le_value_range (take 8 optval)) as Hr. rewrite length_take in Hr.
      unfold bytes_ok in *. specialize (Hr (Forall_take _ 8 _ Hb)).
      replace (8 `min` length optval)%nat with 8%nat in Hr by lia. unfold ULONG_MAX. lia.
    - pose proof (wrapu_range 32 val). unfold in_u, ULONG_MAX in *. case_match; simplify_eq; lia. }
  cbv zeta. set (sk1 := if negb (ul =? ULONG_MAX) && _ then upd sk_pacing_status _ sk else sk). assert (sock_wf sk1) as H1
    by (unfold sk1; destruct (negb _ && _); [apply wf_upd; [done|in_type_tac|]|]; exact Hw).
  clearbody sk1.
  unfold ok. cbn [res_wf]. apply wf_upd; [done| |wf_tac].
  pose proof (proj1 H1 sk_pacing_rate) as Hp. unfold in_type in *. cbn [crange fst snd] in *. lia.
Qed.

Lemma set_late_wf o val optval optlen sk : int32 val -> bytes_ok optval -> sock_wf sk ->
  res_wf (set_late e o val optval optlen sk).
Proof.
  intros Hv Hb Hw. unfold set_late, ok, err, bool_flag.
  destruct o; try done; try (by apply set_pacing_wf);
    try (repeat case_match; bool_prop; simplify_eq; cbn [res_wf]; wf_tac; fail).
  - unfold set_txtime, ok, err. repeat case_match; cbn [res_wf]; wf_tac.
  - pose proof (bind_wf val sk Hv Hw). by destruct (sock_bindtoindex_locked e val sk) as [[??]?].
  - case_match; cbn [res_wf]; [done|]. apply wf_upd; [done| |done].
    unfold ztrue in *. bool_prop. assert (0 <= val <= 2 ^ 2 - 1) by (by apply below_mask).
    unfold in_type. cbn [crange fst snd]. apply lor_range; [lia|lia|in_type_tac].
Qed.

Lemma setbindtodevice_wf optval optlen sk : sock_wf sk -> sock_wf (sock_setbindtodevice e optval optlen sk).1.2.
Proof.
  intros Hw. unfold sock_setbindtodevice. destruct (wraps 32 optlen <? 0); [done|]. cbv zeta.
  destruct (copy_from _ _) as [l|]; [|done]. destruct (cname l) as [|c name]; [by apply bind_wf|].
  destruct (dev_get_by_name e (c :: name)) as [i|] eqn:E; [|done].
  apply bind_wf; [by apply (devs_ok e He _ _ E)|done].
Qed.

Lemma sock_setsockopt_wf o optval optlen sk : bytes_ok optval -> sock_wf sk ->
  sock_wf (sock_setsockopt e o optval optlen sk).1.2.
Proof.
  intros Hb Hw. assert (forall x : option (Z * sock * list sev), res_wf x -> forall y, sock_wf y.1.2 ->
    sock_wf (match x with Some r => r | None => y end).1.2) as Hm by (intros [[[??]?]|]; auto).
  unfold sock_setsockopt. destruct o; try (by apply setbindtodevice_wf);
    (destruct (optlen <? 4); [done|]; destruct (copy_from optval 4) as [l|]; [|done]; cbv zeta;
     pose proof (int_of_range l); apply Hm; [by apply set_basic_wf|]; apply Hm; [by apply set_timing_wf|];
     apply Hm; [by apply set_filter_wf|]; apply Hm; [by apply set_late_wf|done]).
Qed.

Lemma sk_getsockopt_wf room len_ok o ulen sk : sock_wf sk -> sock_wf (g_sk (sk_getsockopt e room len_ok o ulen sk)).
Proof.
  intros Hw. assert (forall v n sk', sock_wf sk' -> sock_wf (g_sk (copy_out room len_ok v n sk'))) as Hc.
  { intros v n sk' H. unfold copy_out, lenout. by repeat case_match. }
  unfold sk_getsockopt. destruct ulen as [len|]; [|done]. destruct (len <? 0); [done|].
  destruct (show_int e o sk); [by apply Hc|]. destruct (show_struct e o len sk); [by apply Hc|].
  unfold show_direct, take_error, sock_getbindtodevice, lenout, gerr. destruct o; try done;
    repeat case_match; simplify_eq; try done; apply Hc; wf_tac.
Qed.

End Typed.

(** A call on a socket: an option set or read by any caller, or a setter of the kernel. *)
Inductive sock_step (sk : sock) : sock -> Prop :=
| step_set e o optval optlen : env_ok e -> bytes_ok optval ->
    sock_step sk (sock_setsockopt e o optval optlen sk).1.2
| step_get e room len_ok o ulen : sock_step sk (g_sk (sk_getsockopt e room len_ok o ulen sk))
| step_reuseaddr : sock_step sk (sock_set_reuseaddr sk)
| step_reuseport : sock_step sk (sock_set_reuseport sk)
| step_no_linger : sock_step sk (sock_no_linger sk)
| step_priority p : in_u 32 p -> sock_step sk (sock_set_priority p sk)
| step_sndtimeo e secs : sock_step sk (sock_set_sndtimeo e secs sk)
| step_timestamps : sock_step sk (sock_enable_timestamps sk)
| step_keepalive e : sock_step sk (sock_set_keepalive e sk).1
| step_rcvbuf e val : env_ok e -> sock_step sk (sock_set_rcvbuf e val sk)
| step_mark val : sock_step sk (sock_set_mark val sk).1
| step_peek_off val : int32 val -> sock_step sk (sk_set_peek_off val sk).2
| step_bind e i : int32 i -> sock_step sk (sock_bindtoindex_locked e i sk).1.2.

Lemma sock_step_wf sk sk' : sock_wf sk -> sock_step sk sk' -> sock_wf sk'.
Proof.
  intros Hw Hst. destruct Hst.
  - by apply sock_setsockopt_wf.
  - by apply sk_getsockopt_wf.
  - unfold sock_set_reuseaddr. wf_tac.
  - unfold sock_set_reuseport. wf_tac.
  - unfold sock_no_linger. wf_tac.
  - unfold sock_set_priority. unfold in_u in *. wf_tac.
  - unfold sock_set_sndtimeo, MAX_SCHEDULE_TIMEOUT. case_match; wf_tac.
    pose proof (wraps_range 64 (secs * HZ e)) as Hr. unfold in_s in Hr.
    change (2 ^ (64 - 1)) with (2 ^ 63) in Hr. apply wf_upd; [done| |done]. unfold in_type. simpl. lia.
  - by apply (sock_set_timestamp_wf SO_TIMESTAMPNS_OLD true).
  - unfold sock_set_keepalive. cbn [fst]. wf_tac.
  - destruct (min_rcv_ok e H) as [? ?]. unfold sock_set_rcvbuf, __sock_set_rcvbuf. wf_tac.
  - unfold sock_set_mark, __sock_set_mark. case_match; cbn [fst]; wf_tac.
  - unfold sk_set_peek_off. cbn [snd]. wf_tac.
  - by apply bind_wf.
Qed.

(** A new socket: zeroed memory, the family and protocol of sk_alloc's caller, and the
    initial values. *)
Definition new_sock (family protocol rmem wmem busy_read : Z) (type : option Z) : sock :=
  sock_init_data_uid rmem wmem busy_read type (upd sk_protocol protocol (upd sk_family family (fun _ => 0))).

Lemma new_sock_wf family protocol rmem wmem busy_read type :
  in_u 16 family -> in_u 16 protocol -> int32 rmem -> int32 wmem -> in_u 32 busy_read ->
  (forall t, type = Some t -> in_u 16 t) -> sock_wf (new_sock family protocol rmem wmem busy_read type).
Proof.
  unfold in_u. intros Hf Hp Hr Hw Hb Ht. unfold new_sock, sock_init_data_uid, MAX_SCHEDULE_TIMEOUT, TCP_CLOSE. cbv zeta.
  assert (sock_wf (upd sk_protocol protocol (upd sk_family family (fun _ => 0)))) as H0.
  { split.
    - apply typed_upd; [unfold in_type; simpl; lia|]. apply typed_upd; [unfold in_type; simpl; lia|].
      intros f. destruct f; unfold in_type, ULONG_MAX; cbn [crange fst snd]; unfold ULONG_MAX; lia.
    - unfold stamped, sock_needs_netstamp, any_timestamp, upd. simpl. by rewrite andb_false_r. }
  destruct type as [t|]; [specialize (Ht t eq_refl)|]; wf_tac.
Qed.

(** (C36) Through any sequence of options set and read by any callers, with any values, sizes
    and faults, and of the kernel's own setters, every field of a socket stays in the range
    of its C type (no flag other than 0 and 1, no bit field over its width), and the socket
    holds one reference on the global timestamp count exactly when its family uses it and
    one of its timestamp flags is on. *)
Theorem sockopt_typed family protocol rmem wmem busy_read type sk :
  in_u 16 family -> in_u 16 protocol -> int32 rmem -> int32 wmem -> in_u 32 busy_read ->
  (forall t, type = Some t -> in_u 16 t) ->
  rtc sock_step (new_sock family protocol rmem wmem busy_read type) sk ->
  typed sk /\ stamped sk.
Proof.
  intros ? ? ? ? ? ? Hr. revert sk Hr. apply (rtc_ind_r sock_wf); [by apply new_sock_wf|].
  intros ? ? ? ? ?. by eapply sock_step_wf.
Qed.

Definition demo_oenv (cap : bool) : oenv :=
  OEnv 250 cap cap cap 212992 212992 4608 2304 true true None (Some sk_set_peek_off)
    (fun name => if bool_decide (name = bytes_of_string "lo") then Some 1 else None)
    (fun i => if i =? 1 then inr (bytes_of_string "lo") else inl (- ENODEV))
    (fun _ => None) 0 (fun _ => 0) 0 false 65 4321 (Some (1000, 1000, [1000; 27])) (- 1, [])
    (- ENOPROTOOPT) (fun _ => (0, [])) 64 (repeat 0 9) 7 1.

Lemma demo_oenv_ok cap : env_ok (demo_oenv cap).
Proof.
  split; unfold int32, USEC_PER_SEC; simpl; try lia; try done.
  - intros name i. case_match; [intros [= <-]; lia|done].
  - intros op [= <-] val sk Hv Ht. unfold sk_set_peek_off. simpl. split.
    + apply typed_upd; [unfold in_type; simpl; unfold int32 in Hv; lia|done].
    + intros f [Hf|]; [|done]. apply upd_ne. intros <-. apply Hf. left.
Qed.

Lemma sockopt_typed_witness :
  let sk := new_sock AF_INET IPPROTO_TCP 131072 16384 0 (Some SOCK_STREAM) in
  let sk1 := (sock_setsockopt (demo_oenv false) SO_TIMESTAMP_OLD (le_bytes 4 1) 4 sk).1.2 in
  let sk2 := (sock_setsockopt (demo_oenv false) SO_TIMESTAMPING_OLD (le_bytes 4 8) 4 sk1).1.2 in
  sk netstamp = 0 /\ sk1 netstamp = 1 /\ sk2 netstamp = 1 /\ typed sk2 /\ stamped sk2.
Proof.
  intros sk sk1 sk2. split; [reflexivity|]. split; [reflexivity|]. split; [reflexivity|].
  apply (sockopt_typed AF_INET IPPROTO_TCP 131072 16384 0 (Some SOCK_STREAM) sk2);
    try (unfold in_u, int32, AF_INET, IPPROTO_TCP; lia).
  - intros t [= <-]. unfold in_u, SOCK_STREAM. lia.
  - eapply rtc_l; [apply step_set; [apply demo_oenv_ok|apply le_bytes_ok]|].
    eapply rtc_l; [apply step_set; [apply demo_oenv_ok|apply le_bytes_ok]|]. apply rtc_refl.
Defined.

(** ** A failed call *)

Definition unchanged (sk sk' : sock) : Prop := forall f, sk' f = sk f.
Definition failed_ok (o : sopt) (sk : sock) (x : option (Z * sock * list sev)) : Prop :=
  match x with
  | Some (ret, sk', _) => ret <> 0 -> forall f,
      sk' f = sk f \/ (f = sk_tskey /\ (o = SO_TIMESTAMPING_OLD \/ o = SO_TIMESTAMPING_NEW))
  | None => True
  end.

Section Failed.
Context (e : oenv) (He : env_ok e).

Lemma failed_pair o sk (p : Z * sock) : (p.1 <> 0 -> unchanged sk p.2) ->
  failed_ok o sk (let '(ret, sk) := p in Some (ret, sk, [])).
Proof. destruct p as [ret sk']. simpl. intros H Hr f. left. by apply H. Qed.

Lemma set_timeout_failed f optval optlen old sk :
  (set_timeout e f optval optlen old sk).1 <> 0 -> (set_timeout e f optval optlen old sk).2 = sk.
Proof.
  unfold set_timeout. destruct (sock_set_timeout e optval optlen old) as [ret [t|]] eqn:E; [|done].
  intros Hr. destruct Hr. unfold sock_set_timeout, store_timeout in E. by repeat case_match; simplify_eq.
Qed.

Lemma timestamping_failed o val phc sk f :
  (sock_set_timestamping e o val phc sk).1 <> 0 -> f <> sk_tskey ->
  (sock_set_timestamping e o val phc sk).2 f = sk f.
Proof.
  intros Hr Hf. unfold sock_set_timestamping in *. case_match; [done|].
  destruct (opt_id_key e val sk) as [sk1|] eqn:E1; [|done].
  assert (sk1 f = sk f) as <- by (unfold opt_id_key in E1; repeat case_match; simplify_eq; rewrite ?upd_ne; done).
  case_match; [done|]. unfold sock_timestamping_bind_phc in *. destruct (flag val SOF_TIMESTAMPING_BIND_PHC); [|done].
  destruct (if ztrue (sk1 sk_bound_dev_if) then _ else _) as [clocks|]; [|done].
  by destruct (existsb (Z.eqb phc) clocks).
Qed.

Lemma failed_timestamping o o' val phc sk :
  o' = SO_TIMESTAMPING_OLD \/ o' = SO_TIMESTAMPING_NEW ->
  failed_ok o' sk (let '(ret, sk) := sock_set_timestamping e o val phc sk in Some (ret, sk, [])).
Proof.
  intros Ho. pose proof (timestamping_failed o val phc sk) as H.
  destruct (sock_set_timestamping e o val phc sk) as [ret sk']. simpl in *. intros Hr f.
  destruct (decide (f = sk_tskey)); [by right|]. left. by apply H.
Qed.

Lemma failed_op o fs op val sk : op_ok fs op -> int32 val -> typed sk ->
  failed_ok o sk (let '(ret, sk) := op val sk in Some (ret, sk, [])).
Proof. intros Hop Hv Ht. apply failed_pair. intros Hr f. apply (Hop val sk Hv Ht). by right. Qed.

Ltac failed_tac := repeat case_match; simplify_eq; simpl; intros ? ?; try done; left; done.

Lemma switch_failed o val optval optlen sk : int32 val -> typed sk ->
  failed_ok o sk (set_basic e o val sk) /\ failed_ok o sk (set_timing e o val optval optlen sk) /\
  failed_ok o sk (set_filter e o val optlen sk) /\ failed_ok o sk (set_late e o val optval optlen sk).
Proof.
  intros Hv Ht. split; [|split; [|split]].
  - unfold set_basic, ok, err. destruct o; try done; failed_tac.
  - unfold set_timing, ok, err. destruct o; try done; try (by intros []);
      try (apply failed_pair; intros Hr f; by rewrite set_timeout_failed).
    + unfold set_linger, ok, err. failed_tac.
    + case_match; [case_match; [|failed_tac]|]; apply failed_timestamping; auto.
    + case_match; [case_match; [|failed_tac]|]; apply failed_timestamping; auto.
    + destruct (set_rcvlowat e) as [op|] eqn:E; [|by intros []].
      eapply failed_op; [by apply (rcvlowat_ok e He)| |done]. case_match; [unfold int32, INT_MAX; lia|done].
  - unfold set_filter, ok, err, __sock_set_mark. destruct o; try done; try failed_tac.
    destruct (set_peek_off e) as [op|] eqn:E; [|failed_tac].
    eapply failed_op; [by apply (peek_off_ok e He)|done..].
  - unfold set_late, set_pacing, set_txtime, sock_bindtoindex_locked, ok, err. destruct o; try done; failed_tac.
Qed.

End Failed.

(** A set call that fails leaves the socket as it was, whatever the option, the value,
    the sizes and the fault: only the timestamp key may have been reset, by the two
    timestamping options, which set it before their last checks. *)
Theorem setsockopt_failure e o optval optlen sk ret sk' ev :
  env_ok e -> typed sk -> sock_setsockopt e o optval optlen sk = (ret, sk', ev) -> ret <> 0 ->
  forall f, sk' f = sk f \/ (f = sk_tskey /\ (o = SO_TIMESTAMPING_OLD \/ o = SO_TIMESTAMPING_NEW)).
Proof.
  intros He Ht E Hr f. assert (failed_ok o sk (Some (ret, sk', ev))) as Hf; [|by apply Hf].
  rewrite <- E. clear E Hr f.
  assert (forall x : option (Z * sock * list sev), failed_ok o sk x -> forall y, failed_ok o sk (Some y) ->
    failed_ok o sk (Some (match x with Some r => r | None => y end))) as Hm by (intros [?|]; auto).
  assert (failed_ok o sk (Some (sock_setbindtodevice e optval optlen sk))) as Hb.
  { unfold sock_setbindtodevice, sock_bindtoindex_locked. repeat case_match; simplify_eq; simpl; by auto. }
  unfold sock_setsockopt. destruct o; try exact Hb;
    (destruct (optlen <? 4); [by left|]; destruct (copy_from optval 4) as [l|]; [|by left]; cbv zeta;
     match goal with |- failed_ok ?o _ _ =>
       destruct (switch_failed e He o (int_of l) optval optlen sk (int_of_range l) Ht) as (H1 & H2 & H3 & H4) end;
     do 4 (apply Hm; [assumption|]); by left).
Qed.

Lemma setsockopt_failure_witness :
  let sk := new_sock AF_INET IPPROTO_UDP 131072 16384 0 (Some SOCK_DGRAM) in
  let r := sock_setsockopt (demo_oenv false) SO_PRIORITY (le_bytes 4 7) 4 sk in
  r.1.1 = - EPERM /\ r.1.2 sk_priority = 0.
Proof.
  intros sk r. split; [reflexivity|].
  destruct (setsockopt_failure (demo_oenv false) SO_PRIORITY (le_bytes 4 7) 4 sk (- EPERM) r.1.2 []
    (demo_oenv_ok false)) with (f := sk_priority) as [H|[H _]]; try done.
  apply new_sock_wf; unfold in_u, int32, AF_INET, IPPROTO_UDP; try lia.
  intros t [= <-]. unfold SOCK_DGRAM. lia.
Defined.

(** ** Callers without capabilities *)

(** What an unprivileged caller may make of a field. *)
Definition allowed (e : oenv) (sk : sock) (f : fld) (v : Z) : Prop :=
  match f with
  | sk_priority => 0 <= v <= 6
  | sk_mark => v = sk sk_mark
  | sk_sndbuf => v <= Z.max (2 * wmem_max e) (min_sndbuf e)
  | sk_rcvbuf => v <= Z.max (2 * rmem_max e) (min_rcvbuf e) \/ set_rcvlowat e <> None
  | sk_ll_usec | sk_busy_poll_budget | SOCK_DBG | sk_prefer_busy_poll => v <= sk f
  | SOCK_FILTER_LOCKED => sk f <= v
  | sk_clockid => v = CLOCK_MONOTONIC
  | sk_bound_dev_if => sk sk_bound_dev_if = 0
  | _ => True
  end.
Definition restricted (e : oenv) (sk sk' : sock) : Prop := forall f, sk' f = sk f \/ allowed e sk f (sk' f).

Lemma restricted_refl e sk : restricted e sk sk.
Proof. by left. Qed.

Lemma restricted_trans e sk1 sk2 sk3 : restricted e sk1 sk2 -> restricted e sk2 sk3 -> restricted e sk1 sk3.
Proof.
  intros H1 H2 f. specialize (H1 f). specialize (H2 f).
  destruct H2 as [->|H2]; [done|]. destruct f; simpl in *; try (by right); right; destruct H1; lia.
Qed.

Lemma restricted_upd e sk0 f v sk : allowed e sk f v -> restricted e sk0 sk -> restricted e sk0 (upd f v sk).
Proof.
  intros Ha H. eapply restricted_trans; [exact H|]. intros g.
  destruct (decide (f = g)) as [->|]; [right; by rewrite upd_eq|left; by apply upd_ne].
Qed.

Section Unprivileged.
Context (e : oenv) (He : env_ok e).
Context (Hcap : cap_net_admin e = false) (Hns : ns_net_admin e = false) (Hraw : ns_net_raw e = false).

Definition res_ok (sk : sock) (x : option (Z * sock * list sev)) : Prop :=
  match x with Some (_, sk', _) => restricted e sk sk' | None => True end.

Ltac restr :=
  repeat first [ apply restricted_refl | assumption | apply restricted_upd; [exact I || (simpl; lia)|] ].

Lemma res_pair_ok sk (p : Z * sock) : restricted e sk p.2 -> res_ok sk (let '(ret, sk) := p in Some (ret, sk, [])).
Proof. by destruct p. Qed.

Lemma op_restricted fs op val sk : op_ok fs op -> int32 val -> typed sk ->
  (forall f v, f ∈ fs -> allowed e sk f v) -> restricted e sk (op val sk).2.
Proof.
  intros Hop Hv Ht Hfs f. destruct (Hop val sk Hv Ht) as [_ H].
  destruct (decide (f ∈ fs)) as [Hin|Hni]; [right; by apply Hfs|left; apply H; by left].
Qed.

Lemma buf_bound val mx mn : 0 <= mx < 2 ^ 31 -> 0 < mn ->
  Z.max (wraps 32 (Z.min (min_u32 val mx) (INT_MAX / 2) * 2)) mn <= Z.max (2 * mx) mn.
Proof.
  intros Hmx Hmn. unfold min_u32. pose proof (wrapu_range 32 val) as Hu. unfold in_u in Hu.
  change (INT_MAX / 2) with 1073741823. rewrite (wraps_id 32 (Z.min (wrapu 32 val) mx));
    [|lia|unfold in_s; change (2 ^ (32 - 1)) with (2 ^ 31); lia].
  rewrite wraps_id; [lia|lia|unfold in_s; change (2 ^ (32 - 1)) with (2 ^ 31); lia].
Qed.

Lemma timestamp_restricted f sk0 sk : plain f = false -> f <> sk_family ->
  restricted e sk0 sk -> restricted e sk0 (sock_enable_timestamp f sk) /\ restricted e sk0 (sock_disable_timestamp f sk).
Proof.
  intros Hf Hn Hr. assert (forall v sk', allowed e sk' f v) as Ha by (by destruct f).
  unfold sock_enable_timestamp, sock_disable_timestamp. cbv zeta. split; repeat case_match;
    repeat (apply restricted_upd; [by (apply Ha || exact I)|]); done.
Qed.

Lemma timestamping_restricted o val phc sk : restricted e sk (sock_set_timestamping e o val phc sk).2.
Proof.
  unfold sock_set_timestamping. case_match; [restr|].
  destruct (opt_id_key e val sk) as [sk1|] eqn:E1; [|restr].
  assert (restricted e sk sk1) as H1 by (unfold opt_id_key in E1; repeat case_match; simplify_eq; restr).
  case_match; [done|].
  destruct (if flag val SOF_TIMESTAMPING_BIND_PHC then _ else _) as [ret sk2] eqn:E2.
  assert (restricted e sk sk2) as H2
    by (unfold sock_timestamping_bind_phc in E2; repeat case_match; simplify_eq; restr).
  destruct (ztrue ret); [done|]. cbn [snd].
  destruct (flag val SOF_TIMESTAMPING_RX_SOFTWARE); apply timestamp_restricted; try done; restr.
Qed.

Lemma set_timeout_restricted f optval optlen old sk : f = sk_rcvtimeo \/ f = sk_sndtimeo ->
  restricted e sk (set_timeout e f optval optlen old sk).2.
Proof.
  intros Hf. unfold set_timeout. destruct (sock_set_timeout e optval optlen old) as [ret [t|]]; simpl; [|restr].
  destruct Hf as [-> | ->]; restr.
Qed.

Lemma set_basic_restricted o val sk : typed sk -> res_ok sk (set_basic e o val sk).
Proof.
  intros Ht. pose proof (Ht SOCK_DBG) as Hd. unfold in_type in Hd. cbn [crange fst snd] in Hd.
  unfold set_basic, ok, err, bool_flag. rewrite Hcap, Hns. destruct o; try done; cbn [negb orb];
    try (repeat case_match; simpl; restr; fail).
  - destruct (ztrue val) eqn:Ev; simpl; [restr|]. apply restricted_upd; [exact (proj1 Hd)|restr].
  - cbn [res_ok]. apply restricted_upd; [|restr]. apply buf_bound; [apply (max_ok e He)|apply (min_snd_ok e He)].
  - cbn [res_ok]. apply restricted_upd; [|restr]. left. apply buf_bound; [apply (max_ok e He)|apply (min_rcv_ok e He)].
  - rewrite orb_false_r. case_match; bool_prop; simpl; [|restr]. apply restricted_upd; [|restr].
    simpl. rewrite wrapu_id; unfold in_u; lia.
Qed.

Lemma set_timing_restricted o val optval optlen sk : int32 val -> typed sk ->
  res_ok sk (set_timing e o val optval optlen sk).
Proof.
  intros Hv Ht. unfold set_timing, ok, err, bool_flag.
  destruct o; try done; try (apply res_pair_ok, set_timeout_restricted; by auto).
  1: unfold set_linger, ok, err; repeat case_match; simpl; restr.
  1,2: simpl; restr.
  1-4: simpl; unfold __sock_set_timestamps; case_match; [apply timestamp_restricted; [done..|]|]; restr.
  1,2: case_match; [case_match|]; try apply res_pair_ok, timestamping_restricted; simpl; restr.
  destruct (set_rcvlowat e) as [op|] eqn:E; [|simpl; restr].
  eapply res_pair_ok, op_restricted; [by apply (rcvlowat_ok e He)| |done|].
  - case_match; [unfold int32, INT_MAX; lia|done].
  - intros f v Hf. set_unfold in Hf. destruct Hf as [->|[->|[]]]; simpl; [done|]. right. by rewrite E.
Qed.

Lemma set_filter_restricted o val optlen sk : int32 val -> typed sk -> res_ok sk (set_filter e o val optlen sk).
Proof.
  intros Hv Ht. pose proof (Ht SOCK_FILTER_LOCKED) as Hd. unfold in_type in Hd. cbn [crange fst snd] in Hd.
  unfold set_filter, ok, err, bool_flag. rewrite Hns. cbn [negb].
  destruct o; try done; try (repeat case_match; simpl; restr; fail).
  - destruct (ztrue (sk SOCK_FILTER_LOCKED) && negb (ztrue val)) eqn:E; simpl; [restr|].
    apply restricted_upd; [|restr]. simpl. apply andb_false_iff in E as [E|E]; bool_prop.
    + unfold ztrue in E. bool_prop. destruct (ztrue val); simpl; lia.
    + rewrite E. simpl. lia.
  - destruct (set_peek_off e) as [op|] eqn:E; [|simpl; restr].
    eapply res_pair_ok, op_restricted; [by apply (peek_off_ok e He)|done..|].
    intros f v Hf. set_unfold in Hf. destruct Hf as [->|[]]. done.
Qed.

Lemma bind_restricted i sk : restricted e sk (sock_bindtoindex_locked e i sk).1.2.
Proof.
  unfold sock_bindtoindex_locked. rewrite Hraw. cbn [negb]. rewrite andb_true_r. unfold ztrue.
  repeat case_match; bool_prop; simpl; restr.
Qed.

Lemma set_late_restricted o val optval optlen sk : int32 val -> typed sk -> res_ok sk (set_late e o val optval optlen sk).
Proof.
  intros Hv Ht. pose proof (Ht sk_prefer_busy_poll) as Hd. unfold in_type in Hd. cbn [crange fst snd] in Hd.
  unfold set_late, ok, err, bool_flag. rewrite Hcap. cbn [negb].
  destruct o; try done; rewrite ?andb_true_r; try (repeat case_match; simpl; restr; fail).
  - case_match; simpl; [restr|]. case_match; simpl; restr. bool_prop. apply restricted_upd; [|restr].
    simpl. assert (wrapu 32 val = val) by (apply wrapu_id; unfold in_u, int32 in *; lia). lia.
  - unfold set_pacing, ok, err. repeat case_match; simpl; restr.
  - unfold set_txtime, ok, err. rewrite Hns. cbn [negb].
    repeat case_match; simpl; restr; rewrite ?andb_true_r in *; bool_prop.
    apply restricted_upd; [|restr]. simpl. by replace (int_of l) with CLOCK_MONOTONIC.
  - pose proof (bind_restricted val sk). by destruct (sock_bindtoindex_locked e val sk) as [[??]?].
Qed.

End Unprivileged.

(** A call of a caller without capabilities. *)
Inductive user_step (e : oenv) (sk : sock) : sock -> Prop :=
| user_set o optval optlen : bytes_ok optval -> user_step e sk (sock_setsockopt e o optval optlen sk).1.2.

Lemma user_step_restricted e sk sk' :
  env_ok e -> cap_net_admin e = false -> ns_net_admin e = false -> ns_net_raw e = false ->
  sock_wf sk -> user_step e sk sk' -> restricted e sk sk' /\ sock_wf sk'.
Proof.
  intros He Hc Hn Hr Hw Hst. destruct Hst as [o optval optlen Hb].
  split; [|by apply sock_setsockopt_wf]. destruct Hw as [Ht _].
  assert (forall x : option (Z * sock * list sev), res_ok e sk x -> forall y, restricted e sk y.1.2 ->
    restricted e sk (match x with Some r => r | None => y end).1.2) as Hm by (intros [[[??]?]|]; auto).
  assert (restricted e sk (sock_setbindtodevice e optval optlen sk).1.2) as Hbind.
  { unfold sock_setbindtodevice. repeat case_match; try apply restricted_refl; by apply bind_restricted. }
  unfold sock_setsockopt. destruct o; try exact Hbind;
    (destruct (optlen <? 4); [apply restricted_refl|];
     destruct (copy_from optval 4) as [l|]; [|apply restricted_refl]; cbv zeta;
     pose proof (int_of_range l); apply Hm; [by apply set_basic_restricted|];
     apply Hm; [by apply set_timing_restricted|]; apply Hm; [by apply set_filter_restricted|];
     apply Hm; [by apply set_late_restricted|apply restricted_refl]).
Qed.

(** Whatever options a caller without capabilities sets, in whatever order and with
    whatever bytes, it cannot give the socket a priority above 6, change its mark, take
    buffers over the system's limits, raise the busy-poll time or budget, turn on
    debugging or preferred busy polling, choose a transmit clock other than the monotonic
    one, move the socket off a device it is bound to, or unlock a locked filter. *)
Theorem setsockopt_unprivileged e sk sk' :
  env_ok e -> cap_net_admin e = false -> ns_net_admin e = false -> ns_net_raw e = false ->
  typed sk -> stamped sk -> rtc (user_step e) sk sk' ->
  forall f, sk' f = sk f \/ allowed e sk f (sk' f).
Proof.
  intros He Hc Hn Hr Ht Hs Hst. assert (sock_wf sk' /\ restricted e sk sk') as [_ H]; [|exact H].
  revert sk' Hst. apply (rtc_ind_r (fun sk' => sock_wf sk' /\ restricted e sk sk'));
    [split; [done|apply restricted_refl]|].
  intros sk1 sk2 _ Hst [Hw H1]. destruct (user_step_restricted e sk1 sk2) as [H2 Hw2]; try done.
  split; [done|]. by eapply restricted_trans.
Qed.

Lemma setsockopt_unprivileged_witness :
  let sk := new_sock AF_INET IPPROTO_UDP 131072 16384 0 (Some SOCK_DGRAM) in
  let sk1 := (sock_setsockopt (demo_oenv false) SO_SNDBUF (le_bytes 4 10000000) 4 sk).1.2 in
  let sk2 := (sock_setsockopt (demo_oenv false) SO_LOCK_FILTER (le_bytes 4 1) 4 sk1).1.2 in
  let sk3 := (sock_setsockopt (demo_oenv false) SO_LOCK_FILTER (le_bytes 4 0) 4 sk2).1.2 in
  sk3 sk_sndbuf = 425984 /\ sk3 SOCK_FILTER_LOCKED = 1 /\ sk3 sk_mark = 0.
Proof.
  intros sk sk1 sk2 sk3. split; [reflexivity|]. split; [reflexivity|].
  assert (sock_wf sk) as [Ht Hs].
  { apply new_sock_wf; unfold in_u, int32, AF_INET, IPPROTO_UDP; try lia.
    intros t [= <-]. unfold SOCK_DGRAM. lia. }
  destruct (setsockopt_unprivileged (demo_oenv false) sk sk3 (demo_oenv_ok false)) with (f := sk_mark) as [H|H];
    try done.
  do 3 (eapply rtc_l; [apply user_set, le_bytes_ok|]). apply rtc_refl.
Defined.

(** ** Bytes of an option value *)

Lemma int_of_bytes val l : int32 val -> int_of (le_bytes 4 val ++ l) = val.
Proof.
  intros Hv. unfold int_of. rewrite take_app_le by (by rewrite length_le_bytes).
  rewrite take_ge by (by rewrite length_le_bytes). rewrite le_value_bytes.
  change (256 ^ Z.of_nat 4) with (2 ^ 32). unfold wraps, int32 in *.
  change (2 ^ (32 - 1)) with (2 ^ 31). rewrite Z.add_mod_idemp_l by lia.
  rewrite Z.mod_small; lia.
Qed.

Lemma int_of_bytes' val : int32 val -> int_of (le_bytes 4 val) = val.
Proof. intros Hv. rewrite <- (app_nil_r (le_bytes 4 val)). by apply int_of_bytes. Qed.

Lemma copy_bytes n val : copy_from (le_bytes n val) n = Some (le_bytes n val).
Proof.
  unfold copy_from. rewrite length_le_bytes, Nat.leb_refl. f_equal. apply take_ge. by rewrite length_le_bytes.
Qed.

(** A set call with an int. *)
Definition set_int (e : oenv) (o : sopt) (val : Z) (sk : sock) : Z * sock * list sev :=
  sock_setsockopt e o (le_bytes 4 val) 4 sk.

(** (C38) The thread priority passes the check of SO_PRIORITY by: a thread without
    capabilities gives itself a priority level from 7 to 100 by set_thread_socket_attrs,
    and a socket it then makes has that priority, while setting SO_PRIORITY to the same
    value is refused with EPERM. *)
Theorem priority_bypass e current cur ts pr rmem wmem busy_read type sk :
  ts !! current = Some cur -> ns_net_admin e = false -> 7 <= pr <= 100 ->
  exists ts' t', Attrs.set_thread_socket_attrs current false 0 (-2) pr 0 ts = Some (0, ts') /\
    ts' !! current = Some t' /\
    sock_init_data rmem wmem busy_read type (Attrs.priority_level t') sk sk_priority = pr /\
    set_int e SO_PRIORITY pr sk = (- EPERM, sk, []).
Proof.
  intros Hcur Hns Hpr. exists (<[current:=Attrs.with_attrs (-2) pr cur]> ts), (Attrs.with_attrs (-2) pr cur).
  split; [|split; [by rewrite lookup_insert_eq|split]].
  - unfold Attrs.set_thread_socket_attrs. rewrite Hcur. simpl. rewrite Hcur. simpl.
    unfold Attrs.may_set. rewrite Z.eqb_refl. cbn [orb negb].
    by rewrite <- (Attrs.set_attrs_held current 0 (-2) pr cur).
  - unfold Attrs.with_attrs. cbn [Attrs.priority_level]. unfold sock_init_data.
    replace ((0 <=? pr) && (pr <=? 100)) with true by (symmetry; apply andb_true_iff; rewrite !Z.leb_le; lia).
    replace (0 <? pr) with true by (symmetry; apply Z.ltb_lt; lia).
    rewrite upd_eq. apply wrapu_id. unfold in_u. lia.
  - unfold set_int, sock_setsockopt. change (4 <? 4) with false. cbv iota. rewrite copy_bytes.
    cbv zeta iota beta. rewrite int_of_bytes' by (unfold int32; lia). unfold set_basic. rewrite Hns.
    replace ((0 <=? pr) && (pr <=? 6)) with false; [done|]. symmetry. apply andb_false_iff. right.
    apply Z.leb_gt. lia.
Qed.

Lemma priority_bypass_witness :
  exists ts' t', Attrs.set_thread_socket_attrs 7 false 0 (-2) 50 0 Attrs.demo_tasks = Some (0, ts') /\
    ts' !! 7 = Some t' /\ sock_init_data 1 1 0 None (Attrs.priority_level t') (fun _ => 0) sk_priority = 50.
Proof.
  destruct (priority_bypass (demo_oenv false) 7 (Attrs.Task 1000 1000 1 0 2 0) Attrs.demo_tasks 50 1 1 0 None
    (fun _ => 0)) as (ts' & t' & H1 & H2 & H3 & _); try reflexivity; [lia|].
  exists ts', t'. split; [exact H1|]. split; [exact H2|exact H3].
Defined.

(** ** What an option writes and what it shows *)

Definition writes (o : sopt) : list fld :=
  match o with
  | SO_DEBUG => [SOCK_DBG] | SO_REUSEADDR => [sk_reuse] | SO_REUSEPORT => [sk_reuseport]
  | SO_DONTROUTE => [SOCK_LOCALROUTE] | SO_BROADCAST => [SOCK_BROADCAST]
  | SO_SNDBUF | SO_SNDBUFFORCE => [sk_sndbuf; sk_userlocks]
  | SO_RCVBUF | SO_RCVBUFFORCE => [sk_rcvbuf; sk_userlocks]
  | SO_KEEPALIVE => [SOCK_KEEPOPEN] | SO_OOBINLINE => [SOCK_URGINLINE] | SO_NO_CHECK => [sk_no_check_tx]
  | SO_PRIORITY => [sk_priority] | SO_LINGER => [SOCK_LINGER; sk_lingertime] | SO_PASSCRED => [SOCK_PASSCRED]
  | SO_TIMESTAMP_OLD | SO_TIMESTAMP_NEW | SO_TIMESTAMPNS_OLD | SO_TIMESTAMPNS_NEW =>
      [SOCK_RCVTSTAMP; SOCK_RCVTSTAMPNS; SOCK_TSTAMP_NEW; SOCK_TIMESTAMP; netstamp]
  | SO_TIMESTAMPING_OLD | SO_TIMESTAMPING_NEW =>
      [sk_tsflags; sk_bind_phc; sk_tskey; SOCK_TSTAMP_NEW; SOCK_TIMESTAMPING_RX_SOFTWARE; netstamp]
  | SO_RCVLOWAT => [sk_rcvlowat; sk_rcvbuf]
  | SO_RCVTIMEO_OLD | SO_RCVTIMEO_NEW => [sk_rcvtimeo]
  | SO_SNDTIMEO_OLD | SO_SNDTIMEO_NEW => [sk_sndtimeo]
  | SO_LOCK_FILTER => [SOCK_FILTER_LOCKED] | SO_PASSSEC => [SOCK_PASSSEC] | SO_MARK => [sk_mark]
  | SO_RXQ_OVFL => [SOCK_RXQ_OVFL] | SO_WIFI_STATUS => [SOCK_WIFI_STATUS] | SO_PEEK_OFF => [sk_peek_off]
  | SO_NOFCS => [SOCK_NOFCS] | SO_SELECT_ERR_QUEUE => [SOCK_SELECT_ERR_QUEUE]
  | SO_BUSY_POLL => [sk_ll_usec] | SO_PREFER_BUSY_POLL => [sk_prefer_busy_poll]
  | SO_BUSY_POLL_BUDGET => [sk_busy_poll_budget]
  | SO_MAX_PACING_RATE => [sk_max_pacing_rate; sk_pacing_rate; sk_pacing_status]
  | SO_INCOMING_CPU => [sk_incoming_cpu] | SO_ZEROCOPY => [SOCK_ZEROCOPY]
  | SO_TXTIME => [SOCK_TXTIME; sk_clockid; sk_txtime_deadline_mode; sk_txtime_report_errors]
  | SO_BINDTODEVICE | SO_BINDTOIFINDEX => [sk_bound_dev_if] | SO_BUF_LOCK => [sk_userlocks]
  | _ => []
  end.

Section Frame.
Context (e : oenv) (He : env_ok e) (f : fld).

Definition same (sk : sock) (x : option (Z * sock * list sev)) : Prop :=
  match x with Some (_, sk', _) => sk' f = sk f | None => True end.

Lemma same_pair sk (p : Z * sock) : p.2 f = sk f -> same sk (let '(ret, sk) := p in Some (ret, sk, [])).
Proof. by destruct p. Qed.

Ltac same_tac := repeat case_match; simplify_eq; simpl; rewrite ?upd_ne by set_solver; done.

Lemma enable_same g sk : f <> g -> f <> netstamp -> sock_enable_timestamp g sk f = sk f.
Proof. intros ? ?. unfold sock_enable_timestamp. same_tac. Qed.

Lemma disable_same g sk : f <> g -> f <> netstamp -> sock_disable_timestamp g sk f = sk f.
Proof. intros ? ?. unfold sock_disable_timestamp. same_tac. Qed.

Lemma timestamping_same o val phc sk : f ∉ writes SO_TIMESTAMPING_OLD ->
  (sock_set_timestamping e o val phc sk).2 f = sk f.
Proof.
  simpl. intros Hf. unfold sock_set_timestamping. case_match; [done|].
  destruct (opt_id_key e val sk) as [sk1|] eqn:E1; [|done].
  assert (sk1 f = sk f) as <- by (unfold opt_id_key in E1; same_tac).
  case_match; [done|]. destruct (if flag val SOF_TIMESTAMPING_BIND_PHC then _ else _) as [ret sk2] eqn:E2.
  assert (sk2 f = sk1 f) as <- by (unfold sock_timestamping_bind_phc in E2; same_tac).
  destruct (ztrue ret); [done|]. cbn [snd].
  destruct (flag val SOF_TIMESTAMPING_RX_SOFTWARE);
    rewrite ?enable_same, ?disable_same by set_solver; rewrite ?upd_ne by set_solver; done.
Qed.

Lemma op_same fs op val sk : op_ok fs op -> int32 val -> typed sk -> f ∉ fs ->
  same sk (let '(ret, sk) := op val sk in Some (ret, sk, [])).
Proof. intros Hop Hv Ht Hf. apply same_pair, (Hop val sk Hv Ht). by left. Qed.

Lemma timing_same o val optval optlen sk : int32 val -> typed sk -> f ∉ writes o ->
  same sk (set_timing e o val optval optlen sk).
Proof.
  intros Hv Ht Hf. unfold set_timing, ok, err, bool_flag. destruct o; try done; simpl in Hf;
    try (apply same_pair; unfold set_timeout; same_tac).
  - unfold set_linger, ok, err. same_tac.
  - same_tac.
  - simpl. unfold __sock_set_timestamps. case_match; rewrite ?enable_same by set_solver; same_tac.
  - simpl. unfold __sock_set_timestamps. case_match; rewrite ?enable_same by set_solver; same_tac.
  - simpl. unfold __sock_set_timestamps. case_match; rewrite ?enable_same by set_solver; same_tac.
  - simpl. unfold __sock_set_timestamps. case_match; rewrite ?enable_same by set_solver; same_tac.
  - case_match; [case_match; [|done]|]; by apply same_pair, timestamping_same.
  - case_match; [case_match; [|done]|]; by apply same_pair, timestamping_same.
  - destruct (set_rcvlowat e) as [op|] eqn:E; [|same_tac].
    eapply op_same; [by apply (rcvlowat_ok e He)| |done|done]. case_match; [unfold int32, INT_MAX; lia|done].
Qed.

Lemma switch_same o val optval optlen sk : int32 val -> typed sk -> f ∉ writes o ->
  same sk (set_basic e o val sk) /\ same sk (set_timing e o val optval optlen sk) /\
  same sk (set_filter e o val optlen sk) /\ same sk (set_late e o val optval optlen sk).
Proof.
  intros Hv Ht Hf. split; [|split; [by apply timing_same|split]].
  - unfold set_basic, ok, err, bool_flag, set_sndbuf, __sock_set_rcvbuf. destruct o; try done; simpl in Hf; same_tac.
  - unfold set_filter, ok, err, __sock_set_mark, bool_flag. destruct o; try done; simpl in Hf; try same_tac.
    destruct (set_peek_off e) as [op|] eqn:E; [|done]. eapply op_same; [by apply (peek_off_ok e He)|done..].
  - unfold set_late, set_pacing, set_txtime, sock_bindtoindex_locked, ok, err, bool_flag.
    destruct o; try done; simpl in Hf; same_tac.
Qed.

(** A set call changes no field but those of its option. *)
Lemma setsockopt_frame o optval optlen sk : typed sk -> f ∉ writes o ->
  (sock_setsockopt e o optval optlen sk).1.2 f = sk f.
Proof.
  intros Ht Hf. assert (same sk (Some (sock_setsockopt e o optval optlen sk))) as Hs;
    [|by destruct (sock_setsockopt e o optval optlen sk) as [[??]?]].
  assert (forall x : option (Z * sock * list sev), same sk x -> forall y, same sk (Some y) ->
    same sk (Some (match x with Some r => r | None => y end))) as Hm by (intros [?|]; auto).
  unfold sock_setsockopt. destruct o;
    try (unfold sock_setbindtodevice, sock_bindtoindex_locked; simpl in Hf; same_tac);
    (destruct (optlen <? 4); [done|]; destruct (copy_from optval 4) as [l|]; [|done]; cbv zeta;
     match type of Hf with _ ∉ writes ?o =>
       destruct (switch_same o (int_of l) optval optlen sk (int_of_range l) Ht Hf) as (H1 & H2 & H3 & H4) end;
     do 4 (apply Hm; [assumption|]); done).
Qed.

End Frame.
