(* ===== verification/SockOptRead.v ===== *)
(** * Socket options: reading

    What is set is what is read ([sockopt_roundtrip], [timeout_roundtrip], [linger_roundtrip]);
    the setters for the kernel are the options ([kernel_setters_agree]); a read stays within
    the caller's buffer ([getsockopt_bounded]). *)

From S2P Require Import Prelude SockOpt SockOptSpec.
Import Options.

(** ** Set, then read *)

(** The int an option shows after it was set to [val]: switches are 0 or 1, buffers are
    clamped, doubled and kept over a minimum, a low-water mark is at least 1. *)
Definition shown (e : oenv) (o : sopt) (val : Z) : option Z :=
  match o with
  | SO_DEBUG | SO_REUSEADDR | SO_REUSEPORT | SO_DONTROUTE | SO_BROADCAST | SO_KEEPALIVE | SO_OOBINLINE
  | SO_NO_CHECK | SO_PASSCRED | SO_PASSSEC | SO_RXQ_OVFL | SO_WIFI_STATUS | SO_NOFCS | SO_SELECT_ERR_QUEUE
  | SO_LOCK_FILTER | SO_PREFER_BUSY_POLL | SO_ZEROCOPY | SO_TIMESTAMP_OLD | SO_TIMESTAMP_NEW
  | SO_TIMESTAMPNS_OLD | SO_TIMESTAMPNS_NEW => Some (b2z (ztrue val))
  | SO_PRIORITY | SO_MARK | SO_BUSY_POLL | SO_INCOMING_CPU | SO_BINDTOIFINDEX | SO_BUF_LOCK
  | SO_MAX_PACING_RATE => Some val
  | SO_SNDBUF => Some (Z.max (2 * Z.min (Z.min (wrapu 32 val) (wmem_max e)) (INT_MAX / 2)) (min_sndbuf e))
  | SO_RCVBUF => Some (Z.max (2 * Z.min (Z.min (wrapu 32 val) (rmem_max e)) (INT_MAX / 2)) (min_rcvbuf e))
  | SO_RCVLOWAT =>
      match set_rcvlowat e with
      | None => Some (if val <? 0 then INT_MAX else Z.max val 1)
      | Some _ => None
      end
  | _ => None
  end.

Lemma le_bytes_mod n x : le_bytes n (x mod 256 ^ Z.of_nat n) = le_bytes n x.
Proof.
  revert x. induction n as [|n IH]; intros x; [done|]. cbn [le_bytes].
  rewrite Nat2Z.inj_succ, Z.pow_succ_r by lia. pose proof (Z.pow_pos_nonneg 256 (Z.of_nat n)).
  rewrite Z.rem_mul_r by lia. f_equal.
  - rewrite (Z.mul_comm 256), Z.mod_add, Z.mod_mod by lia. done.
  - rewrite (Z.mul_comm 256 (_ mod _)), Z.div_add by lia.
    rewrite (Z.div_small (x mod 256)) by (apply Z.mod_pos_bound; lia). by rewrite Z.add_0_l, IH.
Qed.

Lemma wrapu32_bytes x : le_bytes 4 (wrapu 32 x) = le_bytes 4 x.
Proof. apply (le_bytes_mod 4). Qed.

(** A read of four bytes into a buffer that takes them. *)
Definition reads_back (e : oenv) (o : sopt) (sk : sock) (v : Z) : Prop :=
  forall room, (4 <= room)%nat ->
    sk_getsockopt e room true o (Some 4) sk = GOut 0 sk (le_bytes 4 v) (Some 4).

Lemma show_reads_back e o sk v w : show_int e o sk = Some v -> le_bytes 4 v = le_bytes 4 w -> reads_back e o sk w.
Proof.
  intros Hs Hb room Hr. unfold sk_getsockopt. rewrite Hs, Hb.
  unfold out_v, copy_out. rewrite length_le_bytes. change (4 `min` Z.of_nat 4) with 4.
  destruct (Nat.leb_spec (Z.to_nat 4) room); [|lia]. done.
Qed.

Lemma buffer_shown val mx : 0 <= mx < 2 ^ 31 ->
  wraps 32 (Z.min (min_u32 val mx) (INT_MAX / 2) * 2) = 2 * Z.min (Z.min (wrapu 32 val) mx) (INT_MAX / 2).
Proof.
  intros Hmx. unfold min_u32. pose proof (wrapu_range 32 val) as Hu. unfold in_u in Hu.
  change (INT_MAX / 2) with 1073741823. rewrite (wraps_id 32 (Z.min (wrapu 32 val) mx));
    [|lia|unfold in_s; change (2 ^ (32 - 1)) with (2 ^ 31); lia].
  rewrite wraps_id; [lia|lia|unfold in_s; change (2 ^ (32 - 1)) with (2 ^ 31); lia].
Qed.

Lemma set_int_eq e o val sk : int32 val -> o <> SO_BINDTODEVICE ->
  set_int e o val sk =
  match set_basic e o val sk with Some r => r | None =>
  match set_timing e o val (le_bytes 4 val) 4 sk with Some r => r | None =>
  match set_filter e o val 4 sk with Some r => r | None =>
  match set_late e o val (le_bytes 4 val) 4 sk with Some r => r | None => (- ENOPROTOOPT, sk, []) end end end end.
Proof.
  intros Hv Ho. unfold set_int, sock_setsockopt. change (4 <? 4) with false. rewrite copy_bytes.
  cbv zeta iota. rewrite int_of_bytes' by done. by destruct o.
Qed.

Lemma enable_keeps f g sk : plain g = true -> plain f = false -> sock_enable_timestamp f sk g = sk g.
Proof. intros Hg Hf. apply enable_same; intros ->; simpl in *; congruence. Qed.

Lemma timestamp_shown e o val sk : shown e o val <> None ->
  match o with
  | SO_TIMESTAMP_OLD | SO_TIMESTAMP_NEW | SO_TIMESTAMPNS_OLD | SO_TIMESTAMPNS_NEW =>
      show_int e o (sock_set_timestamp o (ztrue val) sk) = Some (b2z (ztrue val))
  | _ => True
  end.
Proof.
  intros _. destruct o; try done; simpl; unfold __sock_set_timestamps; destruct (ztrue val);
    rewrite ?enable_keeps by done; reflexivity.
Qed.

Lemma mark_shown e val sk : show_int e SO_MARK (__sock_set_mark val sk).1 = Some (wrapu 32 val).
Proof.
  unfold __sock_set_mark. destruct (Z.eqb_spec (wrapu 32 val) (sk sk_mark)) as [Em|]; simpl; [by rewrite Em|].
  by rewrite upd_eq.
Qed.

Lemma buf_lock_shown e val sk : Z.land val (Z.lnot SOCK_BUF_LOCK_MASK) = 0 ->
  show_int e SO_BUF_LOCK
    (upd sk_userlocks (Z.lor val (Z.land (sk sk_userlocks) (Z.lnot SOCK_BUF_LOCK_MASK))) sk) = Some val.
Proof.
  intros H. simpl. rewrite upd_eq. f_equal. assert (0 <= val <= 2 ^ 2 - 1) by (by apply below_mask).
  rewrite Z.land_lor_distr_l, <- Z.land_assoc, (Z.land_comm (Z.lnot _)), Z.land_lnot_diag, Z.land_0_r, Z.lor_0_r.
  change SOCK_BUF_LOCK_MASK with (Z.ones 2). rewrite Z.land_ones, Z.mod_small; lia.
Qed.

Lemma pacing_reads_back e val sk sk' ev :
  set_pacing val (le_bytes 4 val) 4 sk = Some (0, sk', ev) -> reads_back e SO_MAX_PACING_RATE sk' val.
Proof.
  unfold set_pacing, ok. change (8 <=? 4) with false. cbv zeta iota. intros E room Hr. simplify_eq.
  unfold sk_getsockopt, show_int, show_struct. change (4 <? 0) with false. change (8 <=? 4) with false. cbv iota.
  rewrite upd_ne, upd_eq by done. set (ul := if _ =? _ then ULONG_MAX else _).
  assert (Z.min (2 ^ 32 - 1) ul = wrapu 32 val) as ->.
  { unfold ul. pose proof (wrapu_range 32 val) as Hu. unfold in_u in Hu.
    destruct (Z.eqb_spec (wrapu 32 val) (2 ^ 32 - 1)); unfold ULONG_MAX; lia. }
  rewrite wrapu32_bytes. unfold out_v, copy_out. rewrite length_le_bytes. change (4 `min` Z.of_nat 4) with 4.
  destruct (Nat.leb_spec (Z.to_nat 4) room); [done|lia].
Qed.

(** What is set is what is read: when a call that sets an option to an int succeeds,
    reading the option gives that int as the option normalises it (0 or 1 for a switch; for
    a buffer twice the size asked for, within the system's limits), with its size; and the
    call has changed no field but those of the option. *)
Theorem sockopt_roundtrip e o val v sk sk' ev :
  env_ok e -> typed sk -> int32 val -> shown e o val = Some v ->
  sock_setsockopt e o (le_bytes 4 val) 4 sk = (0, sk', ev) ->
  reads_back e o sk' v /\ (forall f, f ∉ writes o -> sk' f = sk f).
Proof.
  intros He Ht Hv Hs E. split; [|intros f Hf; pose proof (setsockopt_frame e He f o (le_bytes 4 val) 4 sk Ht Hf) as H;
    by rewrite E in H].
  change (set_int e o val sk = (0, sk', ev)) in E. rewrite set_int_eq in E by (done || (intros ->; done)).
  destruct (max_ok e He) as [Hw Hr]. pose proof (timestamp_shown e o val sk) as Hts. rewrite Hs in Hts.
  pose proof (buffer_shown val _ Hw) as Bw. pose proof (buffer_shown val _ Hr) as Br.
  destruct o; try done; cbn [shown] in Hs; cbn [set_basic set_timing set_filter set_late] in E;
    unfold ok, err, sock_bindtoindex_locked in E; try (simplify_eq; eapply show_reads_back; [by apply Hts|done]);
    try (repeat case_match; simplify_eq; eapply show_reads_back; [simpl; by rewrite ?upd_eq|done || apply wrapu32_bytes]; fail).
  - unfold set_sndbuf in E. simplify_eq. eapply show_reads_back; [reflexivity|].  by rewrite upd_eq, Bw.
  - unfold __sock_set_rcvbuf in E. simplify_eq. eapply show_reads_back; [reflexivity|].  by rewrite upd_eq, Br.
  - simplify_eq. eapply show_reads_back; [reflexivity|]. unfold bool_flag. by rewrite upd_eq.
  - simplify_eq. eapply show_reads_back; [reflexivity|]. unfold bool_flag. by rewrite upd_eq, b2z_ztrue.
  - destruct (set_rcvlowat e); simplify_eq. eapply show_reads_back; [reflexivity|]. rewrite upd_eq. f_equal.
    unfold INT_MAX. destruct (Z.ltb_spec val 0); [done|]. destruct (Z.eqb_spec val 0); lia.
  - simplify_eq. eapply show_reads_back; [reflexivity|]. unfold bool_flag. by rewrite upd_eq, b2z_ztrue.
  - pose proof (mark_shown e val sk). destruct (negb (ns_net_admin e)), (__sock_set_mark val sk) as [sk1 ?]; simplify_eq.
    eapply show_reads_back; [done|apply wrapu32_bytes].
  - destruct (set_pacing val (le_bytes 4 val) 4 sk) as [r|] eqn:Ep; simplify_eq. by eapply pacing_reads_back.
  - destruct (ztrue (sk sk_bound_dev_if) && _), (val <? 0); simplify_eq.
    eapply show_reads_back; [reflexivity|by rewrite upd_eq].
  - destruct (ztrue _) eqn:Ez; simplify_eq. unfold ztrue in Ez. bool_prop.
    eapply show_reads_back; [by apply buf_lock_shown|done].
Qed.

Lemma sockopt_roundtrip_witness :
  let sk := new_sock AF_INET IPPROTO_TCP 131072 16384 0 (Some SOCK_STREAM) in
  let sk' := (sock_setsockopt (demo_oenv false) SO_SNDBUF (le_bytes 4 50000) 4 sk).1.2 in
  reads_back (demo_oenv false) SO_SNDBUF sk' 100000 /\ sk' sk_rcvbuf = 131072.
Proof.
  intros sk sk'. assert (typed sk) as Ht.
  { apply new_sock_wf; unfold in_u, int32, AF_INET, IPPROTO_TCP; try lia. intros t [= <-]. unfold SOCK_STREAM. lia. }
  destruct (sockopt_roundtrip (demo_oenv false) SO_SNDBUF 50000 100000 sk sk' [EvWriteSpace]) as [H1 H2];
    [apply demo_oenv_ok|exact Ht|unfold int32; lia|reflexivity|reflexivity|].
  split; [exact H1|]. rewrite (H2 sk_rcvbuf) by (simpl; set_solver). reflexivity.
Defined.

(** ** Timeouts and the linger time *)

Lemma long_of_bytes x l : - 2 ^ 63 <= x <= 2 ^ 63 - 1 -> long_of (le_bytes 8 x ++ l) = x.
Proof.
  intros Hx. unfold long_of. rewrite take_app_le by (by rewrite length_le_bytes).
  rewrite take_ge by (by rewrite length_le_bytes). rewrite le_value_bytes.
  change (256 ^ Z.of_nat 8) with (2 ^ 64). unfold wraps.
  change (2 ^ (64 - 1)) with (2 ^ 63). rewrite Z.add_mod_idemp_l by lia. rewrite Z.mod_small; lia.
Qed.

Lemma copy_two n x y : copy_from (le_bytes n x ++ le_bytes n y) (n + n) = Some (le_bytes n x ++ le_bytes n y).
Proof.
  unfold copy_from. rewrite length_app, !length_le_bytes, Nat.leb_refl. f_equal. apply take_ge.
  by rewrite length_app, !length_le_bytes.
Qed.

Lemma drop_two n x l : drop n (le_bytes n x ++ l) = l.
Proof. by rewrite <- (length_le_bytes n x) at 1; rewrite drop_app_length. Qed.

(** Timeouts of seconds and microseconds as a caller with 64-bit times gives them. *)
Definition timeval (sec usec : Z) : list Z := le_bytes 8 sec ++ le_bytes 8 usec.
Definition timeout_opt (e : oenv) (o : sopt) : option (fld * bool) :=
  match o with
  | SO_RCVTIMEO_NEW => Some (sk_rcvtimeo, false)
  | SO_SNDTIMEO_NEW => Some (sk_sndtimeo, false)
  | SO_RCVTIMEO_OLD => if compat_timeval e then None else Some (sk_rcvtimeo, true)
  | SO_SNDTIMEO_OLD => if compat_timeval e then None else Some (sk_sndtimeo, true)
  | _ => None
  end.

Lemma timeout_set e o f old sec usec sk : timeout_opt e o = Some (f, old) ->
  - 2 ^ 63 <= sec <= 2 ^ 63 - 1 -> - 2 ^ 63 <= usec <= 2 ^ 63 - 1 ->
  sock_setsockopt e o (timeval sec usec) 16 sk =
  ((store_timeout e sec usec).1,
   match (store_timeout e sec usec).2 with Some t => upd f t sk | None => sk end, []).
Proof.
  intros Ho Hs Hu. assert (sock_set_timeout e (timeval sec usec) 16 old = store_timeout e sec usec) as Hst.
  { unfold sock_set_timeout. assert (old && compat_timeval e = false) as ->.
    { destruct o; simpl in Ho; simplify_eq; try done; destruct (compat_timeval e); by simplify_eq. }
    change (16 <? 16) with false. cbv iota. unfold timeval. rewrite (copy_two 8).
    rewrite long_of_bytes by done. rewrite drop_two.
    rewrite <- (app_nil_r (le_bytes 8 usec)). by rewrite long_of_bytes. }
  assert (copy_from (timeval sec usec) 4 = Some (take 4 (timeval sec usec))) as Hc by done.
  unfold sock_setsockopt. change (16 <? 4) with false. rewrite Hc. cbv zeta iota.
  destruct o; simpl in Ho; simplify_eq; try (destruct (compat_timeval e) eqn:Ec; simplify_eq);
    cbn [set_basic set_timing]; unfold set_timeout; rewrite Hst; by destruct (store_timeout e sec usec).
Qed.

Lemma timeout_get e o f old room sk t : timeout_opt e o = Some (f, old) -> sk f = t -> (16 <= room)%nat ->
  0 <= t < MAX_SCHEDULE_TIMEOUT -> 0 < HZ e ->
  sk_getsockopt e room true o (Some 16) sk =
  GOut 0 sk (timeval (t / HZ e) (t mod HZ e * USEC_PER_SEC / HZ e)) (Some 16).
Proof.
  intros Ho Ht Hr Hb Hz. assert (sock_get_timeout e t old = timeval (t / HZ e) (t mod HZ e * USEC_PER_SEC / HZ e)) as Hg.
  { unfold sock_get_timeout. destruct (Z.eqb_spec t MAX_SCHEDULE_TIMEOUT); [lia|].
    assert (old && compat_timeval e = false) as ->.
    { destruct o; simpl in Ho; simplify_eq; try done; destruct (compat_timeval e); by simplify_eq. }
    pose proof (Z.mod_pos_bound t (HZ e)).
    rewrite Z.rem_mod_nonneg, !Z.quot_div_nonneg by (unfold USEC_PER_SEC; lia). done. }
  unfold sk_getsockopt. change (16 <? 0) with false. cbv iota.
  destruct o; simpl in Ho; simplify_eq; try (destruct (compat_timeval e) eqn:Ec; simplify_eq);
    cbn [show_int show_int_first show_struct]; rewrite Hg; unfold out_v, copy_out, lenout; unfold timeval;
    rewrite length_app, !length_le_bytes; change (16 `min` Z.of_nat (8 + 8)) with 16;
    (destruct (Nat.leb_spec (Z.to_nat 16) room); [|lia]);
    rewrite take_ge by (rewrite length_app, !length_le_bytes; lia); done.
Qed.

(** A send or receive timeout is kept to the tick: when the tick rate divides a million,
    setting seconds and microseconds of at most [LONG_MAX / HZ - 2] seconds, not both
    zero, succeeds, nothing overflows, and reading gives at least the time set and less
    than one tick more, as a normalised pair. *)
Theorem timeout_roundtrip e o f old sec usec room sk :
  env_ok e -> (HZ e | USEC_PER_SEC) -> timeout_opt e o = Some (f, old) -> (16 <= room)%nat ->
  0 <= sec < MAX_SCHEDULE_TIMEOUT / HZ e - 1 -> 0 <= usec < USEC_PER_SEC -> 0 < sec + usec ->
  exists sk' sec' usec',
    sock_setsockopt e o (timeval sec usec) 16 sk = (0, sk', []) /\
    sk_getsockopt e room true o (Some 16) sk' = GOut 0 sk' (timeval sec' usec') (Some 16) /\
    0 <= sec' /\ 0 <= usec' < USEC_PER_SEC /\
    sec * USEC_PER_SEC + usec <= sec' * USEC_PER_SEC + usec' <
      sec * USEC_PER_SEC + usec + USEC_PER_SEC / HZ e.
Proof.
  intros He [tick Htick] Ho Hr Hs Hu Hpos. destruct (hz_pos e He) as [Hz Hz1].
  assert (0 < tick) by (unfold USEC_PER_SEC in *; nia).
  assert (USEC_PER_SEC / HZ e = tick) as Ht by (rewrite Htick; by apply Z.div_mul; lia).
  pose proof (Z.div_mod (usec + tick - 1) tick). pose proof (Z.mod_pos_bound (usec + tick - 1) tick).
  set (q := (usec + tick - 1) / tick) in *. assert (0 <= q <= HZ e) by (split; nia).
  set (t := sec * HZ e + q). pose proof (Z.mul_div_le MAX_SCHEDULE_TIMEOUT (HZ e) Hz).
  assert (0 <= t < MAX_SCHEDULE_TIMEOUT) as Htb by (subst t; nia).
  assert (store_timeout e sec usec = (0, Some t)) as Hst.
  { unfold store_timeout. rewrite Ht.
    replace ((usec <? 0) || (USEC_PER_SEC <=? usec)) with false
      by (symmetry; apply orb_false_iff; rewrite Z.ltb_ge, Z.leb_gt; lia).
    replace (sec <? 0) with false by (symmetry; apply Z.ltb_ge; lia).
    replace ((sec =? 0) && (usec =? 0)) with false
      by (symmetry; apply andb_false_iff; rewrite !Z.eqb_neq; lia).
    replace (sec <? MAX_SCHEDULE_TIMEOUT / HZ e - 1) with true by (symmetry; apply Z.ltb_lt; lia).
    fold q. fold t. rewrite wraps_id; [done|lia|]. unfold in_s, MAX_SCHEDULE_TIMEOUT in *.
    change (2 ^ (64 - 1)) with (2 ^ 63). lia. }
  pose proof (Z.div_mod t (HZ e)). pose proof (Z.mod_pos_bound t (HZ e)).
  exists (upd f t sk), (t / HZ e), (t mod HZ e * tick).
  assert (t mod HZ e * USEC_PER_SEC / HZ e = t mod HZ e * tick) as Heq
    by (rewrite Htick, Z.mul_assoc; apply Z.div_mul; lia).
  assert (t * tick = sec * USEC_PER_SEC + q * tick) by (subst t; rewrite Htick; ring).
  assert (t / HZ e * USEC_PER_SEC + t mod HZ e * tick = t * tick) by (rewrite Htick; nia).
  split_and!; [|rewrite <- Heq; eapply timeout_get; try done; apply upd_eq|apply Z.div_pos; lia|nia|nia|nia|rewrite Ht; nia].
  rewrite (timeout_set e o f old) by (unfold MAX_SCHEDULE_TIMEOUT, USEC_PER_SEC in *; try done; nia). by rewrite Hst.
Qed.

Lemma timeout_roundtrip_witness :
  exists sk' sec' usec',
    sock_setsockopt (demo_oenv false) SO_RCVTIMEO_NEW (timeval 1 999001) 16 (fun _ => 0) = (0, sk', []) /\
    sk_getsockopt (demo_oenv false) 16 true SO_RCVTIMEO_NEW (Some 16) sk' = GOut 0 sk' (timeval sec' usec') (Some 16) /\
    sk' sk_rcvtimeo = 500 /\ 1999001 <= sec' * 1000000 + usec' < 2003001.
Proof.
  destruct (timeout_roundtrip (demo_oenv false) SO_RCVTIMEO_NEW sk_rcvtimeo false 1 999001 16 (fun _ => 0))
    as (sk' & sec' & usec' & H1 & H2 & _ & _ & H5);
    [apply demo_oenv_ok|by exists 4000|reflexivity|lia|split; [lia|reflexivity]|unfold USEC_PER_SEC; lia|lia|].
  exists sk', sec', usec'. split; [exact H1|]. split; [exact H2|]. split; [injection H1 as <-; reflexivity|].
  change (USEC_PER_SEC / HZ (demo_oenv false)) with 4000 in H5. unfold USEC_PER_SEC in H5. lia.
Defined.

(** struct linger. *)
Definition linger (l_onoff l_linger : Z) : list Z := le_bytes 4 l_onoff ++ le_bytes 4 l_linger.

Lemma linger_set e l sk : 0 <= l < 2 ^ 31 ->
  sock_setsockopt e SO_LINGER (linger 1 l) 8 sk =
  (0, upd SOCK_LINGER 1 (upd sk_lingertime (wrapu 32 (l * HZ e)) sk), []).
Proof.
  intros Hl.
  unfold sock_setsockopt. change (8 <? 4) with false. cbv iota.
  assert (copy_from (linger 1 l) 4 = Some (take 4 (linger 1 l))) as -> by done. cbv zeta iota.
  cbn [set_basic set_timing]. unfold set_linger. change (8 <? 8) with false. cbv iota.
  unfold linger. rewrite (copy_two 4), int_of_bytes by (unfold int32; lia). cbn [ztrue negb].
  rewrite drop_two, int_of_bytes' by (unfold int32; lia). change (ztrue 1) with true. cbn [negb].
  rewrite (wrapu_id 32 l) by (unfold in_u; lia). done.
Qed.

(** The linger time is computed in 32 bits: a time of [l] seconds reads back as [l] as
    long as [l * HZ] fits in an unsigned int, and as the wrapped, shorter time otherwise. *)
Theorem linger_roundtrip e l room sk :
  env_ok e -> 0 <= l < 2 ^ 31 -> (8 <= room)%nat ->
  exists sk', sock_setsockopt e SO_LINGER (linger 1 l) 8 sk = (0, sk', []) /\
    sk_getsockopt e room true SO_LINGER (Some 8) sk' =
      GOut 0 sk' (linger 1 (wrapu 32 (l * HZ e) / HZ e)) (Some 8) /\
    (l * HZ e < 2 ^ 32 -> wrapu 32 (l * HZ e) / HZ e = l) /\
    (2 ^ 32 <= l * HZ e -> wrapu 32 (l * HZ e) / HZ e < l).
Proof.
  intros He Hl Hr. destruct (hz_pos e He) as [Hz _].
  exists (upd SOCK_LINGER 1 (upd sk_lingertime (wrapu 32 (l * HZ e)) sk)).
  pose proof (wrapu_range 32 (l * HZ e)) as Hw. unfold in_u in Hw. split; [|split; [|split]].
  - by apply linger_set.
  - unfold sk_getsockopt. change (8 <? 0) with false. cbn [show_int show_int_first show_struct].
    unfold upd at 1 2. cbn [fld_eqb fld_id Nat.eqb]. rewrite upd_ne, upd_eq by done. unfold out_v, copy_out.
    rewrite length_app, !length_le_bytes. change (8 `min` Z.of_nat (4 + 4)) with 8.
    destruct (Nat.leb_spec (Z.to_nat 8) room); [|lia].
    rewrite take_ge by (rewrite length_app, !length_le_bytes; lia). done.
  - intros H. rewrite wrapu_id by (unfold in_u; nia). by apply Z.div_mul; lia.
  - intros H. apply Z.div_lt_upper_bound; nia.
Qed.

Lemma linger_roundtrip_witness :
  exists sk', sock_setsockopt (demo_oenv false) SO_LINGER (linger 1 17179870) 8 (fun _ => 0) = (0, sk', []) /\
    sk_getsockopt (demo_oenv false) 8 true SO_LINGER (Some 8) sk' = GOut 0 sk' (linger 1 0) (Some 8).
Proof.
  destruct (linger_roundtrip (demo_oenv false) 17179870 8 (fun _ => 0)) as (sk' & H1 & H2 & _);
    [apply demo_oenv_ok|lia|lia|]. exists sk'. split; [exact H1|exact H2].
Defined.

(** ** The kernel's setters *)

(** Each setter the kernel uses on its own sockets does what the option does when a
    caller with all capabilities sets it, on the socket and on the rest of the kernel. *)
Theorem kernel_setters_agree e sk val secs i :
  env_ok e -> cap_net_admin e = true -> ns_net_admin e = true ->
  sk sk_family = AF_INET \/ sk sk_family = AF_INET6 ->
  0 <= val < 2 ^ 31 -> 0 <= secs <= 2 ^ 63 - 1 -> int32 i ->
  set_int e SO_REUSEADDR 1 sk = (0, sock_set_reuseaddr sk, []) /\
  set_int e SO_REUSEPORT 1 sk = (0, sock_set_reuseport sk, []) /\
  sock_setsockopt e SO_LINGER (linger 1 0) 8 sk = (0, sock_no_linger sk, []) /\
  set_int e SO_PRIORITY val sk = (0, sock_set_priority val sk, []) /\
  sock_setsockopt e SO_SNDTIMEO_NEW (timeval secs 0) 16 sk = (0, sock_set_sndtimeo e secs sk, []) /\
  set_int e SO_TIMESTAMPNS_OLD 1 sk = (0, sock_enable_timestamps sk, []) /\
  set_int e SO_KEEPALIVE 1 sk = (0, (sock_set_keepalive e sk).1, (sock_set_keepalive e sk).2) /\
  set_int e SO_RCVBUFFORCE val sk = (0, sock_set_rcvbuf e val sk, []) /\
  set_int e SO_MARK val sk = (0, (sock_set_mark val sk).1, (sock_set_mark val sk).2) /\
  set_int e SO_BINDTOIFINDEX i sk = sock_bindtoindex_locked e i sk.
Proof.
  intros He Hc Hn Hf Hv Hs Hi. assert (int32 val) as Hv' by (unfold int32; lia). destruct (hz_pos e He) as [Hz Hz1].
  assert (int32 1) as H1 by (unfold int32; lia).
  rewrite !set_int_eq by done. cbn [set_basic set_timing set_filter set_late]. unfold ok, bool_flag.
  rewrite Hc, Hn. cbn [negb]. rewrite !orb_true_r. split_and!; try done.
  - destruct Hf as [-> | ->]; done.
  - unfold sock_set_priority. by rewrite wrapu_id by (unfold in_u; lia).
  - rewrite (timeout_set e SO_SNDTIMEO_NEW sk_sndtimeo false) by (done || lia).
    unfold store_timeout, sock_set_sndtimeo, ztrue. change ((0 <? 0) || (USEC_PER_SEC <=? 0)) with false. cbv iota.
    destruct (Z.ltb_spec secs 0); [lia|]. destruct (Z.eqb_spec secs 0) as [->|]; [done|]. cbn [andb negb].
    assert ((0 + USEC_PER_SEC / HZ e - 1) / (USEC_PER_SEC / HZ e) = 0) as ->.
    { assert (0 < USEC_PER_SEC / HZ e) by (apply Z.div_str_pos; lia). apply Z.div_small. lia. }
    rewrite Z.add_0_r. by destruct (secs <? _).
  - cbv zeta. rewrite Z.max_l by lia. done.
  - unfold sock_set_mark. by destruct (__sock_set_mark val sk).
Qed.

Lemma kernel_setters_agree_witness :
  let e := demo_oenv true in
  let sk := new_sock AF_INET IPPROTO_TCP 131072 16384 0 (Some SOCK_STREAM) in
  set_int e SO_RCVBUFFORCE 500000 sk = (0, sock_set_rcvbuf e 500000 sk, []) /\
  sock_set_rcvbuf e 500000 sk sk_rcvbuf = 1000000.
Proof.
  intros e sk. destruct (kernel_setters_agree e sk 500000 5 1) as (_ & _ & _ & _ & _ & _ & _ & H & _);
    [apply demo_oenv_ok|reflexivity|reflexivity|left; reflexivity|lia|lia|unfold int32; lia|].
  split; [exact H|reflexivity].
Defined.

(** ** Reads *)

(** What a read relies on: device names fit their array, a protocol's getname fills the
    address up to the length it gives, and sk_get_meminfo fills its nine words. *)
Record read_env_ok (e : oenv) : Prop := {
  names_ok : forall i, match netdev_get_name e i with
                       | inr name => Z.of_nat (length name) < IFNAMSIZ
                       | inl ret => ret <> 0
                       end;
  getname_ok : Z.of_nat (length (getname e).2) = (getname e).1 \/ (getname e).1 < 0;
  meminfo_ok : length (meminfo e) = 9%nat
}.

(** Within the buffer and the length given, with the length written on success. *)
Definition in_bounds (room : nat) (len : Z) (sk : sock) (r : gout) : Prop :=
  (length (g_val r) <= room)%nat /\ Z.of_nat (length (g_val r)) <= len /\
  (g_ret r = 0 -> g_len r = Some (Z.of_nat (length (g_val r)))) /\ g_sk r = sk.

Lemma copy_out_bounds room len_ok v n len sk :
  0 <= n <= Z.of_nat (length v) -> n <= len -> in_bounds room len sk (copy_out room len_ok v n sk).
Proof.
  intros Hn Hl. unfold copy_out, lenout, gerr, in_bounds. destruct (Nat.leb_spec (Z.to_nat n) room), len_ok; simpl;
    rewrite ?length_take; split_and!; try done; try lia. intros _. f_equal. lia.
Qed.

Lemma gerr_bounds room len ret sk : 0 <= len -> ret <> 0 -> in_bounds room len sk (gerr ret sk).
Proof. intros ? ?. unfold in_bounds. simpl. split_and!; try done; lia. Qed.

Lemma groups_bounds room i gids ret l : groups_to_user room i gids = (ret, l) -> (4 * i <= room)%nat ->
  (4 * i + length l <= room)%nat /\ (ret = 0 -> length l = (4 * length gids)%nat) /\ (length l <= 4 * length gids)%nat.
Proof.
  revert i ret l. induction gids as [|g gids IH]; intros i ret l E Hr; cbn [groups_to_user] in E; [simplify_eq; simpl; lia|].
  destruct (Nat.leb_spec (4 * i + 4) room); [|simplify_eq; simpl; split_and!; try lia; done].
  destruct (groups_to_user room (S i) gids) as [ret' l'] eqn:E'.
  assert (l = le_bytes 4 g ++ l' /\ ret = ret') as [-> ->] by (split; congruence).
  destruct (IH (S i) ret' l' E') as (H1 & H2 & H3); [lia|]. rewrite length_app, length_le_bytes. cbn [length]. lia.
Qed.

Lemma length_show_struct e o len sk v : show_struct e o len sk = Some v -> (0 < length v)%nat.
Proof.
  unfold show_struct, sock_get_timeout. intros E. destruct o; try done; repeat case_match; simplify_eq;
    rewrite ?length_app, !length_le_bytes; lia.
Qed.

Lemma meminfo_length l : length (concat (map (le_bytes 4) l)) = (4 * length l)%nat.
Proof. induction l as [|x l IH]; [done|]. cbn [map concat length]. rewrite length_app, length_le_bytes, IH. lia. Qed.

Lemma bindtodevice_bounds e room len_ok len sk : read_env_ok e -> 0 <= len ->
  in_bounds room len sk (sock_getbindtodevice e room len_ok len sk).
Proof.
  intros He Hl. unfold sock_getbindtodevice.
  destruct (sk sk_bound_dev_if =? 0); [destruct len_ok; unfold in_bounds; simpl; split_and!; try done; lia|].
  destruct (Z.ltb_spec len IFNAMSIZ); [by apply gerr_bounds|].
  pose proof (names_ok e He (sk sk_bound_dev_if)) as Hn.
  destruct (netdev_get_name e (sk sk_bound_dev_if)); [by apply gerr_bounds|].
  apply copy_out_bounds; [rewrite length_app; simpl; lia|lia].
Qed.

Lemma peergroups_bounds e room len_ok len sk : 0 <= len ->
  in_bounds room len sk (show_direct e room len_ok SO_PEERGROUPS len sk).
Proof.
  intros Hl. cbn [show_direct]. destruct (peer_cred e) as [[[uid gid] gids]|]; [|by apply gerr_bounds]. cbv zeta.
  destruct (Z.ltb_spec len (4 * Z.of_nat (length gids)));
    [destruct len_ok; unfold in_bounds; simpl; split_and!; try done; lia|].
  destruct (groups_to_user room 0 gids) as [ret l] eqn:E. apply groups_bounds in E as (H1 & H2 & H3); [|lia].
  unfold ztrue. destruct (Z.eqb_spec ret 0) as [->|]; cbn [negb];
    [|unfold in_bounds; simpl; split_and!; try done; lia].
  specialize (H2 eq_refl). unfold lenout. destruct len_ok; unfold in_bounds; simpl; split_and!; try done; try lia.
  intros _. f_equal. lia.
Qed.

(** The socket after a read: only SO_ERROR changes it. *)
Definition after_read (o : sopt) (sk : sock) : sock :=
  match o with SO_ERROR => (take_error sk).2 | _ => sk end.

(** A read is within bounds: it never writes past the caller's buffer nor more than the
    length the caller gave, whatever the option; when it succeeds the length it reports is
    the number of bytes it wrote, all of them set by the kernel; and it changes the socket
    only by taking the pending error, which the next read no longer shows. *)
Theorem getsockopt_bounded e room len_ok o len sk :
  read_env_ok e -> 0 <= len -> o <> SO_PEERSEC -> o <> SO_GET_FILTER ->
  let r := sk_getsockopt e room len_ok o (Some len) sk in
  in_bounds room len (after_read o sk) r /\
  (o = SO_ERROR -> sk sk_err <> 0 -> sk sk_err_soft = 0 -> (take_error (g_sk r)).1 = 0).
Proof.
  intros He Hl Hp Hg r. assert (in_bounds room len (after_read o sk) r) as H.
  { unfold r, sk_getsockopt. destruct (Z.ltb_spec len 0); [lia|].
    assert (forall v sk, in_bounds room len sk (out_v room len_ok v len sk)) as Ho
      by (intros; apply copy_out_bounds; lia).
    destruct (show_int e o sk) eqn:E1; [by destruct o|]. destruct (show_struct e o len sk) eqn:E2; [by destruct o|].
    destruct o; try done; try (by apply peergroups_bounds); cbn [show_direct after_read];
      try (apply gerr_bounds; done).
    - destruct (take_error sk). apply Ho.
    - destruct (set_peek_off e); [apply Ho|by apply gerr_bounds].
    - by apply bindtodevice_bounds.
    - apply copy_out_bounds; [|lia]. unfold cred_to_ucred. destruct (peer_cred e) as [[[??]?]|];
        rewrite !length_app, !length_le_bytes; lia.
    - pose proof (getname_ok e He) as Hn. destruct (getname e) as [lv address]. cbn [fst snd] in Hn.
      destruct (Z.ltb_spec lv 0); [by apply gerr_bounds|]. destruct (Z.ltb_spec lv len); [by apply gerr_bounds|].
      apply copy_out_bounds; lia.
    - apply copy_out_bounds; [|lia]. rewrite meminfo_length, (meminfo_ok e He). lia.
    - destruct (len <? 8); [by apply gerr_bounds|apply Ho].
    - destruct (negb (len =? 8)); [by apply gerr_bounds|apply Ho]. }
  split; [done|]. intros -> He1 He2. destruct H as (_ & _ & _ & ->). simpl. unfold take_error, ztrue.
  destruct (Z.eqb_spec (sk sk_err) 0); [done|]. cbn [negb snd]. rewrite upd_eq. cbn. by rewrite He2.
Qed.

Lemma demo_read_ok cap : read_env_ok (demo_oenv cap).
Proof. split; simpl; [|right; lia|done]. intros i. destruct (i =? 1); simpl; unfold IFNAMSIZ; [lia|done]. Qed.

Lemma getsockopt_bounded_witness :
  let r := sk_getsockopt (demo_oenv false) 64 true SO_PEERGROUPS (Some 64) (fun _ => 0) in
  in_bounds 64 64 (fun _ => 0) r /\ g_ret r = 0 /\ g_len r = Some 8.
Proof.
  intros r. destruct (getsockopt_bounded (demo_oenv false) 64 true SO_PEERGROUPS 64 (fun _ => 0)
    (demo_read_ok false)) as [H _]; [lia|done|done|]. split; [exact H|]. split; reflexivity.
Defined.
