(* ===== verification/SockLife.v ===== *)
(** * The life of a protocol socket (src/kvm/linux-5.15.178/net/core/sock.c)

    Allocation, cloning and destruction with everything a socket holds ([Life]), and the
    packets in flight that keep it alive through sk_wmem_alloc ([Packets]).  The options of
    SockOpt.v are part of a socket; allocators, security hooks, filters, storage of BPF
    programs and policies answer through parameters. *)

From S2P Require Import Prelude SockOpt SockOptSpec.
Import Options.

Definition SOCK_BINDPORT_LOCK : Z := 8.

(** What sockets hold of the rest of the kernel, as counts; [Res] is also used for the
    difference a call makes. *)
Record res := Res {
  r_slab : Z; r_security : Z; r_module : Z; r_net : Z; r_inuse : Z; r_stamp : Z; r_filter : Z;
  r_storage : Z; r_page : Z; r_cred : Z; r_allocated : Z
}.
Definition radd (a b : res) : res :=
  Res (r_slab a + r_slab b) (r_security a + r_security b) (r_module a + r_module b) (r_net a + r_net b)
    (r_inuse a + r_inuse b) (r_stamp a + r_stamp b) (r_filter a + r_filter b) (r_storage a + r_storage b)
    (r_page a + r_page b) (r_cred a + r_cred b) (r_allocated a + r_allocated b).
Definition rneg (a : res) : res :=
  Res (- r_slab a) (- r_security a) (- r_module a) (- r_net a) (- r_inuse a) (- r_stamp a) (- r_filter a)
    (- r_storage a) (- r_page a) (- r_cred a) (- r_allocated a).
Definition rzero : res := Res 0 0 0 0 0 0 0 0 0 0 0.

(** A protocol socket: its options, counters, and what its pointers hold.  [filter_size] is
    the option memory of the filter. *)
Record lsock := LSock {
  fields : sock;
  refcnt : Z; wmem_alloc : Z; rmem_alloc : Z; omem_alloc : Z; wmem_queued : Z; forward_alloc : Z; drops : Z;
  net_refcnt : bool; kern : bool;
  filter_size : option Z; storage : bool; page : bool; peer_cred_ : bool; reuseport_cb : bool;
  destructor : bool; use_write_queue : bool
}.

(** Answers of the rest of the kernel. *)
Record lenv := LEnv {
  slab_ok : bool; security_ok : bool; module_ok : bool;
  filter_charge : Z -> bool; xfrm_ok : bool; storage_clone : option bool; cpu : Z;
  has_sockets_allocated : bool
}.

Module Life.

Definition b1 (b : bool) : Z := b2z b.

(** sk_prot_alloc: memory, security and the module, undone in order. *)
Definition sk_prot_alloc (e : lenv) (r : res) : bool * res :=
  if negb (slab_ok e) then (false, r)
  else
    let r := radd r (Res 1 0 0 0 0 0 0 0 0 0 0) in
    if negb (security_ok e) then (false, radd r (Res (-1) 0 0 0 0 0 0 0 0 0 0))
    else
      let r := radd r (Res 0 1 0 0 0 0 0 0 0 0 0) in
      if negb (module_ok e)
      then (false, radd (radd r (Res 0 (-1) 0 0 0 0 0 0 0 0 0)) (Res (-1) 0 0 0 0 0 0 0 0 0 0))
      else (true, radd r (Res 0 0 1 0 0 0 0 0 0 0 0)).
Definition sk_prot_free (r : res) : res := radd r (Res (-1) (-1) (-1) 0 0 0 0 0 0 0 0).

Definition sk_alloc (e : lenv) (family : Z) (is_kern : bool) (r : res) : option lsock * res :=
  let '(ok, r) := sk_prot_alloc e r in
  if ok then
    let net_refcnt := negb is_kern in
    (Some (LSock (upd sk_family family (fun _ => 0)) 0 1 0 0 0 0 0 net_refcnt is_kern None false false false false
             false false),
     if net_refcnt then radd r (Res 0 0 0 1 1 0 0 0 0 0 0) else r)
  else (None, r).

(** sock_disable_timestamp with both flags. *)
Definition disable_timestamps (sk : sock) : sock * Z :=
  if any_timestamp sk then
    let sk' := upd SOCK_TIMESTAMPING_RX_SOFTWARE 0 (upd SOCK_TIMESTAMP 0 sk) in
    (sk', if sock_needs_netstamp sk' && negb (any_timestamp sk') then -1 else 0)
  else (sk, 0).

(** __sk_destruct; the result is what is left held. *)
Definition __sk_destruct (sk : lsock) (r : res) : res :=
  let r := match filter_size sk with Some _ => radd r (Res 0 0 0 0 0 0 (-1) 0 0 0 0) | None => r end in
  let r := radd r (Res 0 0 0 0 0 (disable_timestamps (fields sk)).2 0 0 0 0 0) in
  let r := if storage sk then radd r (Res 0 0 0 0 0 0 0 (-1) 0 0 0) else r in
  let r := if page sk then radd r (Res 0 0 0 0 0 0 0 0 (-1) 0 0) else r in
  let r := if peer_cred_ sk then radd r (Res 0 0 0 0 0 0 0 0 0 (-1) 0) else r in
  let r := if net_refcnt sk then radd r (Res 0 0 0 (-1) 0 0 0 0 0 0 0) else r in
  sk_prot_free r.
(** __sk_free and sk_destruct: at once or after a grace period, the same is given back. *)
Definition __sk_free (sk : lsock) (r : res) : res :=
  let r := if net_refcnt sk then radd r (Res 0 0 0 0 (-1) 0 0 0 0 0 0) else r in
  __sk_destruct sk r.
(** sk_free: the socket while packets are in flight. *)
Definition with_wmem (w : Z) (sk : lsock) : lsock :=
  LSock (fields sk) (refcnt sk) w (rmem_alloc sk) (omem_alloc sk) (wmem_queued sk) (forward_alloc sk) (drops sk)
    (net_refcnt sk) (kern sk) (filter_size sk) (storage sk) (page sk) (peer_cred_ sk) (reuseport_cb sk)
    (destructor sk) (use_write_queue sk).
Definition sk_free (sk : lsock) (r : res) : option lsock * res :=
  let w := wmem_alloc sk - 1 in
  if w =? 0 then (None, __sk_free sk r) else (Some (with_wmem w sk), r).

(** *** sk_clone_lock *)

Definition sk_free_unlock_clone (sk : lsock) (r : res) : res :=
  let sk := LSock (fields sk) (refcnt sk) (wmem_alloc sk) (rmem_alloc sk) (omem_alloc sk) (wmem_queued sk)
              (forward_alloc sk) (drops sk) (net_refcnt sk) (kern sk) (filter_size sk) (storage sk) (page sk)
              (peer_cred_ sk) (reuseport_cb sk) false (use_write_queue sk) in
  (sk_free sk r).2.

(** The copy with its fresh counters, before the filter; what it shares with the parent by
    pointer is the filter, the storage, the page, the credentials and the group. *)
Definition raw_clone (sk : lsock) : lsock :=
  LSock (upd sk_userlocks (Z.land (fields sk sk_userlocks) (Z.lnot SOCK_BINDPORT_LOCK)) (fields sk))
    (refcnt sk) 1 0 0 0 0 0 (net_refcnt sk) (kern sk) (filter_size sk) (storage sk) (page sk) (peer_cred_ sk)
    (reuseport_cb sk) (destructor sk) (use_write_queue sk).
Definition with_filter (f : option Z) (omem : Z) (sk : lsock) : lsock :=
  LSock (fields sk) (refcnt sk) (wmem_alloc sk) (rmem_alloc sk) omem (wmem_queued sk) (forward_alloc sk) (drops sk)
    (net_refcnt sk) (kern sk) f (storage sk) (page sk) (peer_cred_ sk) (reuseport_cb sk) (destructor sk)
    (use_write_queue sk).
Definition with_storage (b : bool) (sk : lsock) : lsock :=
  LSock (fields sk) (refcnt sk) (wmem_alloc sk) (rmem_alloc sk) (omem_alloc sk) (wmem_queued sk) (forward_alloc sk)
    (drops sk) (net_refcnt sk) (kern sk) (filter_size sk) b (page sk) (peer_cred_ sk) false (destructor sk)
    (use_write_queue sk).
(** The last assignments. *)
Definition finish_clone (e : lenv) (sk : lsock) : lsock :=
  LSock (upd sk_incoming_cpu (cpu e) (upd sk_priority 0 (upd sk_err_soft 0 (upd sk_err 0 (fields sk)))))
    2 (wmem_alloc sk) (rmem_alloc sk) (omem_alloc sk) (wmem_queued sk) (forward_alloc sk) (drops sk)
    (net_refcnt sk) (kern sk) (filter_size sk) (storage sk) (page sk) (peer_cred_ sk) (reuseport_cb sk)
    (destructor sk) (use_write_queue sk).

Definition sk_clone_lock (e : lenv) (sk : lsock) (r : res) : option lsock * res :=
  let '(ok, r) := sk_prot_alloc e r in
  if negb ok then (None, r)
  else
    let newsk := raw_clone sk in
    let r := if net_refcnt newsk then radd r (Res 0 0 0 1 1 0 0 0 0 0 0) else r in
    let is_charged := match filter_size sk with Some n => filter_charge e n | None => true end in
    let r := match filter_size sk with
             | Some _ => if is_charged then radd r (Res 0 0 0 0 0 0 1 0 0 0 0) else r
             | None => r
             end in
    let newsk := with_filter (filter_size sk)
                   (match filter_size sk with Some n => if is_charged then n else 0 | None => 0 end) newsk in
    if negb is_charged || negb (xfrm_ok e) then
      (None, sk_free_unlock_clone (if is_charged then newsk else with_filter None (omem_alloc newsk) newsk) r)
    else
      match storage_clone e with
      | None => (None, sk_free_unlock_clone (with_storage false newsk) r)
      | Some cloned =>
          let newsk := finish_clone e (with_storage cloned newsk) in
          let r := radd r (Res 0 0 0 0 0 0 0 (b1 cloned) 0 0 (b1 (has_sockets_allocated e))) in
          (Some newsk,
           if sock_needs_netstamp (fields sk) && any_timestamp (fields newsk)
           then radd r (Res 0 0 0 0 0 1 0 0 0 0 0) else r)
      end.

(** ** What a socket holds *)

Definition holdings (sk : lsock) : res :=
  Res 1 1 1 (b1 (net_refcnt sk)) (b1 (net_refcnt sk))
    (b1 (sock_needs_netstamp (fields sk) && any_timestamp (fields sk)))
    (match filter_size sk with Some _ => 1 | None => 0 end) (b1 (storage sk)) (b1 (page sk)) (b1 (peer_cred_ sk)) 0.

Lemma res_eq a b :
  r_slab a = r_slab b -> r_security a = r_security b -> r_module a = r_module b -> r_net a = r_net b ->
  r_inuse a = r_inuse b -> r_stamp a = r_stamp b -> r_filter a = r_filter b -> r_storage a = r_storage b ->
  r_page a = r_page b -> r_cred a = r_cred b -> r_allocated a = r_allocated b -> a = b.
Proof. destruct a, b. simpl. intros. by subst. Qed.

Ltac res_tac := apply res_eq; unfold b1; simpl; lia.

Lemma radd_zero r : radd r rzero = r.
Proof. res_tac. Qed.

Lemma disable_holds sk : (disable_timestamps sk).2 = - b1 (sock_needs_netstamp sk && any_timestamp sk).
Proof.
  unfold disable_timestamps, b1. destruct (any_timestamp sk); [|by rewrite andb_false_r].
  rewrite andb_true_r. assert (sock_needs_netstamp (upd SOCK_TIMESTAMPING_RX_SOFTWARE 0 (upd SOCK_TIMESTAMP 0 sk)) =
    sock_needs_netstamp sk) as -> by done. simpl. rewrite andb_true_r. by destruct (sock_needs_netstamp sk).
Qed.

(** Destruction gives back what the socket holds. *)
Lemma sk_free_holds sk r : __sk_free sk r = radd r (rneg (holdings sk)).
Proof.
  unfold __sk_free, __sk_destruct, sk_prot_free, holdings. rewrite disable_holds.
  destruct (net_refcnt sk), (filter_size sk), (storage sk), (page sk), (peer_cred_ sk); res_tac.
Qed.

Lemma prot_alloc_holds e r : sk_prot_alloc e r =
  if slab_ok e && security_ok e && module_ok e then (true, radd r (Res 1 1 1 0 0 0 0 0 0 0 0)) else (false, r).
Proof.
  unfold sk_prot_alloc. destruct (slab_ok e), (security_ok e), (module_ok e); simpl; f_equal; res_tac.
Qed.

(** A socket that sk_alloc makes takes exactly what it holds, and freeing it gives all of
    it back; when sk_alloc fails, at any of its steps, nothing is held. *)
Theorem sk_alloc_balanced e family is_kern r :
  match sk_alloc e family is_kern r with
  | (Some sk, r') => r' = radd r (holdings sk) /\ wmem_alloc sk = 1 /\ fields sk sk_family = family /\
                     sk_free sk r' = (None, r)
  | (None, r') => r' = r
  end.
Proof.
  unfold sk_alloc. rewrite prot_alloc_holds. destruct (slab_ok e && security_ok e && module_ok e); [|done].
  cbv zeta iota. unfold sk_free. cbn [wmem_alloc Z.sub Z.eqb fields]. rewrite sk_free_holds.
  destruct is_kern; cbn [negb]; (split; [unfold holdings; simpl; rewrite andb_false_r; res_tac|]); (split; [done|]);
    (split; [apply upd_eq|]); f_equal; unfold holdings; simpl; rewrite andb_false_r; res_tac.
Qed.

(** What a clone that fails leaves behind: its flags and pointers are the parent's, so its
    destruction gives back a timestamp count the clone never took and, when it fails before
    its storage is its own, the parent's storage. *)
Definition clone_fails_early (e : lenv) (sk : lsock) : bool :=
  negb (match filter_size sk with Some n => filter_charge e n | None => true end) || negb (xfrm_ok e).
Definition clone_loss (e : lenv) (sk : lsock) : res :=
  Res 0 0 0 0 0 (- b1 (sock_needs_netstamp (fields sk) && any_timestamp (fields sk))) 0
    (if clone_fails_early e sk then - b1 (storage sk) else 0) 0 0 0.

Lemma raw_clone_stamp sk v :
  sock_needs_netstamp (upd sk_userlocks v (fields sk)) && any_timestamp (upd sk_userlocks v (fields sk)) =
  sock_needs_netstamp (fields sk) && any_timestamp (fields sk).
Proof. done. Qed.

Lemma free_clone_holds sk r : wmem_alloc sk = 1 -> sk_free_unlock_clone sk r = radd r (rneg (holdings sk)).
Proof. intros Hw. unfold sk_free_unlock_clone, sk_free. cbn [wmem_alloc]. rewrite Hw. simpl. by rewrite sk_free_holds. Qed.

(** (C24) sk_clone_lock, for a parent without peer credentials and page (a listener): the clone
    takes exactly what it holds, has one reference for its caller and one for its lock
    holder, fresh counters, no pending error and priority 0 whatever the parent's; when it
    fails, nothing of the parent's should change, but the discarded clone gives back the
    parent's timestamp count, and its storage if the failure is an early one. *)
Theorem sk_clone_lock_spec e sk r :
  page sk = false -> peer_cred_ sk = false ->
  match sk_clone_lock e sk r with
  | (Some n, r') =>
      r' = radd (radd r (holdings n)) (Res 0 0 0 0 0 0 0 0 0 0 (b1 (has_sockets_allocated e))) /\
      refcnt n = 2 /\ wmem_alloc n = 1 /\ rmem_alloc n = 0 /\ wmem_queued n = 0 /\ forward_alloc n = 0 /\
      fields n sk_priority = 0 /\ fields n sk_err = 0 /\
      omem_alloc n = (match filter_size n with Some size => size | None => 0 end)
  | (None, r') =>
      r' = if slab_ok e && security_ok e && module_ok e then radd r (clone_loss e sk) else r
  end.
Proof.
  intros Hp Hc. unfold sk_clone_lock. rewrite prot_alloc_holds.
  destruct (slab_ok e && security_ok e && module_ok e); [|done]. cbv iota zeta. cbn [negb net_refcnt raw_clone].
  unfold clone_loss, clone_fails_early.
  set (charged := match filter_size sk with Some n => filter_charge e n | None => true end).
  destruct (negb charged || negb (xfrm_ok e)) eqn:Ef.
  - destruct charged; rewrite free_clone_holds by done; unfold holdings, raw_clone, with_filter; simpl;
      rewrite Hp, Hc; change (any_timestamp (upd sk_userlocks ?v ?f)) with (any_timestamp f);
      change (sock_needs_netstamp (upd sk_userlocks ?v ?f)) with (sock_needs_netstamp f);
      destruct (net_refcnt sk), (filter_size sk); res_tac.
  - apply orb_false_iff in Ef as [Ech _]. apply negb_false_iff in Ech. rewrite Ech.
    destruct (storage_clone e) as [cloned|].
    + set (n := finish_clone e _).
      assert (any_timestamp (fields n) = any_timestamp (fields sk)) as Ea by done.
      assert (sock_needs_netstamp (fields n) = sock_needs_netstamp (fields sk)) as En by done.
      split; [|split_and!; try done; simpl; by destruct (filter_size sk)].
      unfold holdings. rewrite En, Ea. subst n. simpl. rewrite Hp, Hc.
      destruct (sock_needs_netstamp (fields sk) && any_timestamp (fields sk)), (net_refcnt sk), (filter_size sk); res_tac.
    + rewrite free_clone_holds by done. unfold holdings, raw_clone, with_filter, with_storage; simpl. rewrite Hp, Hc.
      change (any_timestamp (upd sk_userlocks ?v ?f)) with (any_timestamp f).
      change (sock_needs_netstamp (upd sk_userlocks ?v ?f)) with (sock_needs_netstamp f).
      destruct (net_refcnt sk), (filter_size sk); res_tac.
Qed.

(** A listener that timestamps, cloned when its filter cannot be charged: one count lost. *)
Lemma sk_clone_lock_spec_witness :
  let sk := LSock (upd SOCK_TIMESTAMP 1 (upd sk_family AF_INET (fun _ => 0))) 1 1 0 0 0 0 0 true false (Some 100)
              false false false false true false in
  let r := radd rzero (holdings sk) in
  sk_clone_lock (LEnv true true true (fun _ => false) true (Some false) 0 true) sk r =
  (None, radd r (Res 0 0 0 0 0 (-1) 0 0 0 0 0)) /\ r_stamp r = 1.
Proof.
  intros sk r. split; [|reflexivity].
  pose proof (sk_clone_lock_spec (LEnv true true true (fun _ => false) true (Some false) 0 true) sk r eq_refl eq_refl) as H.
  destruct (sk_clone_lock _ sk r) as [[n|] r'] eqn:E; [discriminate E|]. by rewrite H.
Defined.

End Life.

(** ** Packets in flight *)

Module Packets.
Import Life.

(** skb_set_owner_w on a full socket, and sock_wmalloc: a packet of [truesize] bytes, if the
    send buffer has room or it is forced, and memory is there.  The counter is unbounded: a refcount_t would saturate at INT_MAX. *)
Definition skb_set_owner_w (truesize : Z) (sk : lsock) : lsock := with_wmem (wmem_alloc sk + truesize) sk.
Definition sock_wmalloc (truesize : Z) (force alloc_ok : bool) (sk : lsock) : option lsock :=
  if (force || (wmem_alloc sk <? fields sk sk_sndbuf)) && alloc_ok then Some (skb_set_owner_w truesize sk) else None.

(** sock_wfree in its two subtractions: the first leaves one byte, so that the write-space
    callback runs on a live socket.  The flag says that the counter reached zero there. *)
Definition wfree_first (truesize : Z) (sk : lsock) : lsock * bool :=
  let w := wmem_alloc sk - (truesize - 1) in (with_wmem w sk, w =? 0).
(** refcount_sub_and_test, then __sk_free: the socket, or what is left held without it. *)
Definition wfree_last (len : Z) (sk : lsock) (r : res) : option lsock * res :=
  let w := wmem_alloc sk - len in
  if w =? 0 then (None, __sk_free sk r) else (Some (with_wmem w sk), r).
Definition __sock_wfree (truesize : Z) (sk : lsock) (r : res) : option lsock * res := wfree_last truesize sk r.

(** A packet in flight has its size, or one byte after the first subtraction. *)
Inductive packet := Whole (truesize : Z) | Byte.
Definition psize (p : packet) : Z := match p with Whole t => t | Byte => 1 end.
Definition total (ps : list packet) : Z := foldr (fun p a => psize p + a) 0 ps.

(** The socket (while it exists), its packets, whether its owner freed it, whether a warning
    was given, and what is held; packets end in any order, on any processor. *)
Record world := World { sk_ : option lsock; packets : list packet; freed : bool; warned : bool; held : res }.
Inductive wstep : world -> world -> Prop :=
| w_alloc sk sk' t force ps r warn : 1 <= t -> sock_wmalloc t force true sk = Some sk' ->
    wstep (World (Some sk) ps false warn r) (World (Some sk') (Whole t :: ps) false warn r)
| w_first sk sk' t z ps1 ps2 fr warn r : use_write_queue sk = false -> wfree_first t sk = (sk', z) ->
    wstep (World (Some sk) (ps1 ++ Whole t :: ps2) fr warn r) (World (Some sk') (ps1 ++ Byte :: ps2) fr (warn || z) r)
| w_last sk o ps1 ps2 fr warn r r' : wfree_last 1 sk r = (o, r') ->
    wstep (World (Some sk) (ps1 ++ Byte :: ps2) fr warn r) (World o (ps1 ++ ps2) fr warn r')
| w_tcp sk o t ps1 ps2 fr warn r r' : use_write_queue sk = true -> __sock_wfree t sk r = (o, r') ->
    wstep (World (Some sk) (ps1 ++ Whole t :: ps2) fr warn r) (World o (ps1 ++ ps2) fr warn r')
| w_free sk o ps warn r r' : sk_free sk r = (o, r') ->
    wstep (World (Some sk) ps false warn r) (World o ps true warn r').

(** The counter is the owner's one and the packets' bytes; without a socket, the owner has
    freed it and no packet is left. *)
Definition counted (sk0 : lsock) (r0 : res) (w : world) : Prop :=
  warned w = false /\ Forall (fun p => 1 <= psize p) (packets w) /\
  match sk_ w with
  | Some sk => wmem_alloc sk = b1 (negb (freed w)) + total (packets w) /\ 0 < wmem_alloc sk /\
               holdings sk = holdings sk0 /\ held w = r0
  | None => freed w = true /\ packets w = [] /\ held w = radd r0 (rneg (holdings sk0))
  end.

Lemma total_app a b : total (a ++ b) = total a + total b.
Proof. induction a as [|p a IH]; simpl; [done|]. unfold total in *. simpl. lia. Qed.

Lemma total_pos ps : Forall (fun p => 1 <= psize p) ps -> 0 <= total ps /\ (total ps = 0 -> ps = []).
Proof.
  induction 1 as [|p ps Hp Hps IH]; [by split; [simpl; lia|]|]. simpl. split; [lia|lia].
Qed.

Lemma wfree_last_counted sk0 r0 len sk ps fr r o r' :
  wfree_last len sk r = (o, r') -> Forall (fun p => 1 <= psize p) ps ->
  wmem_alloc sk = b1 (negb fr) + total ps + len -> holdings sk = holdings sk0 -> r = r0 ->
  counted sk0 r0 (World o ps fr false r').
Proof.
  intros E Hps Hw Hh ->. destruct (total_pos ps Hps) as [Ht Ht0]. pose proof (b2z_bit (negb fr)) as Hb. unfold b1 in *.
  unfold wfree_last in E. destruct (Z.eqb_spec (wmem_alloc sk - len) 0); injection E as <- <-; split_and!; try done; simpl.
  - assert (b2z (negb fr) = 0) as Hb0 by lia. split_and!; [by destruct fr|apply Ht0; lia|]. rewrite sk_free_holds. by rewrite Hh.
  - split_and!; try done; unfold b1; lia.
Qed.

Lemma wstep_counted sk0 r0 w w' : counted sk0 r0 w -> wstep w w' -> counted sk0 r0 w'.
Proof.
  intros (Hwarn & Hps & HI) Hst.
  destruct Hst as [sk sk' t force ps r warn Ht E|sk sk' t z ps1 ps2 fr warn r Hq E|sk o ps1 ps2 fr warn r r' E
    |sk o t ps1 ps2 fr warn r r' Hq E|sk o ps warn r r' E];
    cbn [warned packets sk_ freed held] in *; destruct HI as (I1 & I2 & I3 & I4); subst warn;
    try (rewrite total_app in I1; cbn [total foldr psize] in I1; fold (total ps2) in I1;
         apply Forall_app in Hps as [P1 P2]; apply Forall_cons in P2 as [P2 P3]; cbn [psize] in P2).
  - unfold sock_wmalloc in E. destruct (_ && true); [|done]. injection E as <-.
    split_and!; try done; simpl; [by constructor|]. unfold b1 in *; simpl in *. split_and!; try done; lia.
  - unfold wfree_first in E. injection E as <- <-.
    destruct (total_pos _ P1) as [? _], (total_pos _ P3) as [? _]. pose proof (b2z_bit (negb fr)). unfold b1 in *.
    split_and!; simpl; try done.
    + apply Z.eqb_neq. lia.
    + apply Forall_app. split; [done|]. constructor; [simpl; lia|done].
    + rewrite total_app. cbn [total foldr psize]. fold (total ps2). unfold b1. split_and!; try done; lia.
  - eapply wfree_last_counted; [done|by apply Forall_app|rewrite total_app; lia|done|done].
  - eapply wfree_last_counted; [done|by apply Forall_app|rewrite total_app; lia|done|done].
  - eapply (wfree_last_counted sk0 r0 1); [exact E|done|unfold b1 in *; simpl in *; lia|done|done].
Qed.

(** (C23) Packets in flight keep their socket: however packets are made, end on any processors
    in any order, in one or two steps, and whenever the owner frees the socket, the socket
    exists as long as a packet is in flight or the owner has not freed it; it is destroyed
    once, with the last of them, and gives back all it held; and the counter never reaches
    zero at the first subtraction of sock_wfree, which would warn. *)
Theorem packets_keep_socket sk r w :
  wmem_alloc sk = 1 -> rtc wstep (World (Some sk) [] false false r) w ->
  warned w = false /\
  match sk_ w with
  | Some sk' => (freed w = false \/ packets w <> []) /\ wmem_alloc sk' = b1 (negb (freed w)) + total (packets w) /\ held w = r
  | None => freed w = true /\ packets w = [] /\ held w = radd r (rneg (holdings sk))
  end.
Proof.
  intros Hw Hr. assert (counted sk r w) as (H1 & H2 & H3).
  { revert w Hr. apply (rtc_ind_r (counted sk r)); [|intros; by eapply wstep_counted].
    split_and!; simpl; try done. unfold b1. simpl. split_and!; try done; lia. }
  split; [done|]. destruct (sk_ w) as [sk'|]; [|done]. destruct H3 as (I1 & I2 & _ & I4). split_and!; try done.
  destruct (freed w); [right|by left]. intros E. rewrite E in I1. unfold b1 in I1. simpl in I1. lia.
Qed.

Definition demo_sk : lsock :=
  LSock (upd sk_sndbuf 4096 (upd sk_family AF_INET (fun _ => 0))) 1 1 0 0 0 0 0 true false None false false false false true false.

Lemma packets_keep_socket_witness :
  exists w, rtc wstep (World (Some demo_sk) [] false false (holdings demo_sk)) w /\ sk_ w = None /\ held w = rzero /\
    packets w = [].
Proof.
  set (w := World None [] true false (radd (holdings demo_sk) (rneg (holdings demo_sk)))).
  assert (rtc wstep (World (Some demo_sk) [] false false (holdings demo_sk)) w) as Hr.
  { eapply rtc_l; [eapply (w_alloc _ _ 700 false); [lia|reflexivity]|].
    eapply rtc_l; [eapply w_free; reflexivity|].
    eapply rtc_l; [eapply (w_first _ _ 700 false [] []); [reflexivity|reflexivity]|].
    eapply rtc_l; [eapply (w_last _ _ [] []); reflexivity|]. apply rtc_refl. }
  exists w. split; [exact Hr|]. destruct (packets_keep_socket demo_sk (holdings demo_sk) w eq_refl Hr) as (_ & _ & H2 & H3).
  split; [reflexivity|]. split; [exact H3|exact H2].
Defined.

End Packets.
