(* ===== verification/SockMem.v ===== *)
(** * Memory of sockets (src/kvm/linux-5.15.178/net/core/sock.c)

    [Pages]: pages charged to a protocol and to the memory control group for what a socket
    queues, with the limits of the protocol and the state of memory pressure.  [Option]:
    option memory under its own limit.  [Send]: allocation of a packet with waiting.
    Limits, control group and the functions of a protocol are parameters. *)

From S2P Require Import Prelude.

Module Pages.

Inductive kind := SK_MEM_SEND | SK_MEM_RECV.

(** The shared counter of the protocol and its pressure flag, the charge to the control
    group, and the counters of one socket. *)
Record mst := MSt {
  memory_allocated : Z; memory_pressure : bool; memcg : Z;
  forward : Z; rmem : Z; queued : Z; wmem : Z; sndbuf : Z
}.

(** The rest of the network stack: sk_prot_mem_limits, SK_MEM_QUANTUM_SHIFT and sk_mem_pages,
    which has the pages of a size; [charge_ok]: the control group takes the charge; [enter_fn]
    and [leave_fn]: what the functions of the protocol make of the flag, if it has them;
    the tests for pressure; the minima sk_get_rmem0 and sk_get_wmem0;
    sk_sockets_allocated_read_positive; [moderate]: the send buffer that
    sk_stream_moderate_sndbuf leaves. *)
Record penv := PEnv {
  mem_limit : nat -> Z; quantum_shift : Z; sk_mem_pages : Z -> Z;
  memcg_on : bool; charge_ok : bool;
  enter_fn : option (bool -> bool); leave_fn : option (bool -> bool);
  has_pressure : bool; under_pressure : mst -> bool; under_global_pressure : mst -> bool;
  rmem0 : Z; wmem0 : Z; is_stream : bool; sockets_allocated : Z; moderate : mst -> Z
}.

Section Account.
Context (e : penv).

Definition add_allocated (d : Z) (s : mst) : mst :=
  MSt (memory_allocated s + d) (memory_pressure s) (memcg s) (forward s) (rmem s) (queued s) (wmem s) (sndbuf s).
Definition add_memcg (d : Z) (s : mst) : mst :=
  MSt (memory_allocated s) (memory_pressure s) (memcg s + d) (forward s) (rmem s) (queued s) (wmem s) (sndbuf s).
Definition add_forward (d : Z) (s : mst) : mst :=
  MSt (memory_allocated s) (memory_pressure s) (memcg s) (wraps 32 (forward s + d)) (rmem s) (queued s) (wmem s) (sndbuf s).
Definition set_pressure (b : bool) (s : mst) : mst :=
  MSt (memory_allocated s) b (memcg s) (forward s) (rmem s) (queued s) (wmem s) (sndbuf s).
Definition put_sndbuf (v : Z) (s : mst) : mst :=
  MSt (memory_allocated s) (memory_pressure s) (memcg s) (forward s) (rmem s) (queued s) (wmem s) v.

Definition sk_enter_memory_pressure (s : mst) : mst :=
  match enter_fn e with Some f => set_pressure (f (memory_pressure s)) s | None => s end.
Definition sk_leave_memory_pressure (s : mst) : mst :=
  match leave_fn e with
  | Some f => set_pressure (f (memory_pressure s)) s
  | None => if has_pressure e && memory_pressure s then set_pressure false s else s
  end.

(** A socket below its minimum, or below its share under pressure, may go on. *)
Definition below_minimum (k : kind) (s : mst) : bool :=
  match k with
  | SK_MEM_RECV => rmem s <? rmem0 e
  | SK_MEM_SEND => if is_stream e then queued s <? wmem0 e else wmem s <? wmem0 e
  end.
Definition below_share (s : mst) : bool :=
  has_pressure e &&
  (negb (under_pressure e s) ||
   (wrapu 64 (sockets_allocated e * sk_mem_pages e (wraps 32 (queued s + rmem s + forward s)))
      <? mem_limit e 2)).

(** The label suppress_allocation. *)
Definition suppress_allocation (size amt : Z) (k : kind) (charged : bool) (s : mst) : bool * mst :=
  let stream_send := match k with SK_MEM_SEND => is_stream e | SK_MEM_RECV => false end in
  let s := if stream_send then put_sndbuf (moderate e s) s else s in
  if stream_send && (sndbuf s <=? wraps 32 (queued s + size))
  then (true, if memcg_on e && negb charged then add_memcg amt s else s)
  else
    let s := add_allocated (- amt) s in
    (false, if memcg_on e && charged then add_memcg (- amt) s else s).

Definition __sk_mem_raise_allocated (size amt : Z) (k : kind) (s : mst) : bool * mst :=
  let s := add_allocated amt s in
  let allocated := memory_allocated s in
  let charged := negb (memcg_on e) || charge_ok e in
  if negb charged then suppress_allocation size amt k false s
  else
    let s := if memcg_on e then add_memcg amt s else s in
    if allocated <=? mem_limit e 0 then (true, sk_leave_memory_pressure s)
    else
      let s := if mem_limit e 1 <? allocated then sk_enter_memory_pressure s else s in
      if mem_limit e 2 <? allocated then suppress_allocation size amt k true s
      else if below_minimum k s then (true, s)
      else if below_share s then (true, s)
      else suppress_allocation size amt k true s.

Definition __sk_mem_schedule (size : Z) (k : kind) (s : mst) : bool * mst :=
  let amt := sk_mem_pages e size in
  let s := add_forward (Z.shiftl amt (quantum_shift e)) s in
  let '(ret, s) := __sk_mem_raise_allocated size amt k s in
  (ret, if ret then s else add_forward (- Z.shiftl amt (quantum_shift e)) s).

Definition __sk_mem_reduce_allocated (amount : Z) (s : mst) : mst :=
  let s := add_allocated (- amount) s in
  let s := if memcg_on e then add_memcg (- amount) s else s in
  if under_global_pressure e s && (memory_allocated s <? mem_limit e 0)
  then sk_leave_memory_pressure s else s.
Definition __sk_mem_reclaim (amount : Z) (s : mst) : mst :=
  let amount := Z.shiftr amount (quantum_shift e) in
  __sk_mem_reduce_allocated amount (add_forward (- Z.shiftl amount (quantum_shift e)) s).

(** ** Charges *)

(** The difference a call makes to the three counters of a charge. *)
Definition charged_by (s s' : mst) (pages : Z) : Prop :=
  memory_allocated s' = memory_allocated s + pages /\
  memcg s' = memcg s + (if memcg_on e then pages else 0) /\
  rmem s' = rmem s /\ queued s' = queued s /\ wmem s' = wmem s.

Lemma suppress_spec size amt k charged s ret s' :
  suppress_allocation size amt k charged s = (ret, s') -> (charged = false -> memcg_on e = true) ->
  memory_allocated s' = memory_allocated s - (if ret then 0 else amt) /\
  memcg s' = memcg s + (if memcg_on e then (if ret then (if charged then 0 else amt) else (if charged then - amt else 0)) else 0) /\
  forward s' = forward s /\ rmem s' = rmem s /\ queued s' = queued s /\ wmem s' = wmem s /\
  (ret = true -> k = SK_MEM_SEND /\ is_stream e = true /\ sndbuf s' <= wraps 32 (queued s + size)).
Proof.
  unfold suppress_allocation. intros E Hc.
  destruct k, (is_stream e), (memcg_on e), charged; cbn [andb negb] in E; try (discriminate (Hc eq_refl));
    repeat case_match; simplify_eq; bool_prop; simpl in *; split_and!; try done; lia.
Qed.

Lemma pressure_keeps (f : mst -> mst) s :
  f = sk_enter_memory_pressure \/ f = sk_leave_memory_pressure ->
  memory_allocated (f s) = memory_allocated s /\ memcg (f s) = memcg s /\ forward (f s) = forward s /\
  rmem (f s) = rmem s /\ queued (f s) = queued s /\ wmem (f s) = wmem s.
Proof.
  intros [-> | ->]; unfold sk_enter_memory_pressure, sk_leave_memory_pressure; repeat case_match; done.
Qed.

Lemma raise_spec size amt k s ret s' : mem_limit e 0 <= mem_limit e 2 ->
  __sk_mem_raise_allocated size amt k s = (ret, s') ->
  charged_by s s' (if ret then amt else 0) /\ forward s' = forward s /\
  (ret = true -> memory_allocated s + amt <= mem_limit e 2 \/
     (k = SK_MEM_SEND /\ is_stream e = true /\ sndbuf s' <= wraps 32 (queued s + size))) /\
  (memory_allocated s + amt <= mem_limit e 0 -> memcg_on e = true -> charge_ok e = true -> ret = true) /\
  (memory_allocated s + amt <= mem_limit e 0 -> memcg_on e = false -> ret = true).
Proof.
  intros Hl E. unfold __sk_mem_raise_allocated in E. cbv zeta in E. cbn [memory_allocated add_allocated] in E.
  destruct (negb (negb (memcg_on e) || charge_ok e)) eqn:Ec.
  { apply suppress_spec in E; [|intros _; by destruct (memcg_on e)]. unfold charged_by. simpl in *.
    destruct E as (A & B & C & D & F & G & H), (memcg_on e), (charge_ok e), ret; try done;
      split_and!; try done; try lia; try (intros; congruence); intros _; right; by apply H. }
  set (s1 := if memcg_on e then add_memcg amt (add_allocated amt s) else add_allocated amt s) in E.
  assert (charged_by s s1 amt /\ forward s1 = forward s) as [H1 F1].
  { unfold charged_by, s1. destruct (memcg_on e); simpl; split_and!; try done; lia. }
  clearbody s1. destruct (Z.leb_spec (memory_allocated s + amt) (mem_limit e 0)).
  { injection E as <- <-. destruct (pressure_keeps sk_leave_memory_pressure s1) as (A & B & C & D & F & G); [by right|].
    unfold charged_by in *. rewrite A, B, C, D, F, G. split_and!; try tauto. intros _. left. lia. }
  set (s2 := if mem_limit e 1 <? memory_allocated s + amt then sk_enter_memory_pressure s1 else s1) in E.
  assert (charged_by s s2 amt /\ forward s2 = forward s) as [H2 F2].
  { unfold s2. destruct (mem_limit e 1 <? memory_allocated s + amt); [|done]. destruct (pressure_keeps sk_enter_memory_pressure s1) as (A & B & C & D & F & G); [by left|].
    unfold charged_by in *. by rewrite A, B, C, D, F, G. }
  clearbody s2. assert (forall r t, suppress_allocation size amt k true s2 = (r, t) -> charged_by s t (if r then amt else 0) /\
    forward t = forward s /\ (r = true -> k = SK_MEM_SEND /\ is_stream e = true /\ sndbuf t <= wraps 32 (queued s + size))) as Hsup.
  { intros r t Et. apply suppress_spec in Et; [|done]. unfold charged_by in *.
    destruct Et as (A & B & C & D & F & G & Hst), H2 as (H2a & H2b & H2c & H2d & H2e). rewrite H2d in Hst.
    destruct (memcg_on e), r; split_and!; try congruence; try lia; done. }
  destruct (Z.ltb_spec (mem_limit e 2) (memory_allocated s + amt)).
  { destruct (Hsup _ _ E) as (A & B & C). split_and!; try done; try lia. intros Hr. right. by apply C. }
  destruct (below_minimum k s2); [injection E as <- <-; split_and!; try tauto; try lia|].
  destruct (below_share s2); [injection E as <- <-; split_and!; try tauto; try lia|].
  destruct (Hsup _ _ E) as (A & B & C). split_and!; try done; try lia.
Qed.
End Account.

Lemma wraps_add_sub x d : in_s 32 x -> wraps 32 (wraps 32 (x + d) - d) = x.
Proof.
  intros Hx. unfold wraps, in_s in *. change (2 ^ (32 - 1)) with (2 ^ 31) in *.
  replace ((x + d + 2 ^ 31) mod 2 ^ 32 - 2 ^ 31 - d + 2 ^ 31) with ((x + d + 2 ^ 31) mod 2 ^ 32 + (- d)) by lia.
  rewrite Z.add_mod_idemp_l by lia. replace (x + d + 2 ^ 31 + - d) with (x + 2 ^ 31) by lia. rewrite Z.mod_small; lia.
Qed.

(** Scheduling memory for a socket charges the pages of the size to the socket, to the
    protocol and to the control group, or nothing at all to any of them; it never takes the
    protocol over its hard limit, but for a stream that has its send buffer full; it does not
    refuse below the low limit when the control group takes the charge; and reclaiming what
    was charged brings every counter back. *)
Theorem sk_mem_schedule_spec e size k s ret s' :
  mem_limit e 0 <= mem_limit e 2 -> 0 <= quantum_shift e -> in_s 32 (forward s) ->
  __sk_mem_schedule e size k s = (ret, s') ->
  let amt := sk_mem_pages e size in
  let bytes := Z.shiftl amt (quantum_shift e) in
  charged_by e s s' (if ret then amt else 0) /\
  forward s' = (if ret then wraps 32 (forward s + bytes) else forward s) /\
  (ret = true -> memory_allocated s' <= mem_limit e 2 \/
     (k = SK_MEM_SEND /\ is_stream e = true /\ sndbuf s' <= wraps 32 (queued s + size))) /\
  (memory_allocated s + amt <= mem_limit e 0 -> negb (memcg_on e) || charge_ok e = true -> ret = true) /\
  (ret = true -> let s2 := __sk_mem_reclaim e bytes s' in
     memory_allocated s2 = memory_allocated s /\ memcg s2 = memcg s /\ forward s2 = forward s).
Proof.
  intros Hl Hq Hf E. unfold __sk_mem_schedule in E. cbv zeta in E. intros amt bytes. fold amt in E. fold bytes in E.
  set (s1 := add_forward bytes s) in E.
  destruct (__sk_mem_raise_allocated e size amt k s1) as [r t] eqn:Er. injection E as <- <-.
  apply raise_spec in Er as (A & B & C & D & F); [|done]. simpl in B, C, D, F. unfold charged_by in *. simpl in A.
  assert (forall u, memory_allocated (sk_leave_memory_pressure e u) = memory_allocated u /\
    memcg (sk_leave_memory_pressure e u) = memcg u /\ forward (sk_leave_memory_pressure e u) = forward u) as Hk.
  { intros u. destruct (pressure_keeps e (sk_leave_memory_pressure e) u) as (? & ? & ? & _); [by right|done]. }
  destruct r; simpl; split_and!; try tauto; try lia.
  - intros _. destruct C as [C|C]; [done|left; lia|by right].
  - intros _ . unfold __sk_mem_reclaim, __sk_mem_reduce_allocated.
    assert (Z.shiftr bytes (quantum_shift e) = amt) as ->
      by (unfold bytes; rewrite Z.shiftr_shiftl_l, Z.sub_diag by lia; apply Z.shiftl_0_r).
    fold bytes. cbv zeta. destruct A as (A1 & A2 & _).
    destruct (memcg_on e); (case_match; [rewrite !(proj1 (Hk _)), !(proj1 (proj2 (Hk _))), !(proj2 (proj2 (Hk _)))|]);
      simpl; rewrite A1, A2, B; split_and!; try lia; apply wraps_add_sub; done.
  - rewrite B. by apply wraps_add_sub.
  - intros H1 H2. destruct (memcg_on e); [by apply D|by apply F].
Qed.

(** A datagram receiver under the low limit, charged to its control group. *)
Definition env0 : penv :=
  PEnv (fun i => match i with 0%nat => 100 | 1%nat => 150 | _ => 200 end) 12 (fun n => Z.shiftr (n + 4095) 12)
    true true None None true memory_pressure memory_pressure 1024 1024 false 3 sndbuf.
Definition st0 : mst := MSt 90 true 90 0 0 0 0 8192.
Lemma sk_mem_schedule_spec_witness :
  __sk_mem_schedule env0 5000 SK_MEM_RECV st0 = (true, MSt 92 false 92 8192 0 0 0 8192) /\
  let s2 := __sk_mem_reclaim env0 (Z.shiftl (sk_mem_pages env0 5000) (quantum_shift env0))
              (MSt 92 false 92 8192 0 0 0 8192) in
  memory_allocated s2 = 90 /\ memcg s2 = 90 /\ forward s2 = 0.
Proof.
  assert (__sk_mem_schedule env0 5000 SK_MEM_RECV st0 = (true, MSt 92 false 92 8192 0 0 0 8192)) as E by done.
  split; [done|].
  destruct (sk_mem_schedule_spec env0 5000 SK_MEM_RECV st0 true _ ltac:(simpl; lia) ltac:(simpl; lia)
    ltac:(unfold in_s; simpl; lia) E) as (_ & _ & _ & _ & H). by apply H.
Defined.
End Pages.

(** ** Option memory *)
Module Optmem.

(** sk_omem_alloc is an int; the calls take the limit sysctl_optmem_max as it is when they
    run, and [mem] says whether the allocator has memory. *)
Definition sock_kmalloc (optmem_max size : Z) (mem : bool) (omem : Z) : bool * Z :=
  if (wrapu 32 size <=? wrapu 32 optmem_max) && (wraps 32 (omem + size) <? optmem_max) then
    let omem := wraps 32 (omem + size) in
    if mem then (true, omem) else (false, wraps 32 (omem - size))
  else (false, omem).

(** [mem]: the block, [None] for a null pointer; both frees give back the charge. *)
Definition __sock_kfree_s (mem : option Z) (size : Z) (nullify : bool) (omem : Z) : Z :=
  match mem with None => omem | Some _ => wraps 32 (omem - size) end.
Definition sock_kfree_s (mem : option Z) (size omem : Z) : Z := __sock_kfree_s mem size false omem.
Definition sock_kzfree_s (mem : option Z) (size omem : Z) : Z := __sock_kfree_s mem size true omem.

(** [estimate] is SKB_TRUESIZE of the size, an unsigned long; [skb] the size that the packet
    turns out to have, if there is memory. *)
Definition sock_omalloc (optmem_max estimate : Z) (skb : option Z) (omem : Z) : option Z * Z :=
  if wrapu 64 optmem_max <? wrapu 64 (omem + estimate) then (None, omem)
  else match skb with
       | None => (None, omem)
       | Some truesize => (Some truesize, wraps 32 (omem + truesize))
       end.
Definition sock_ofree (truesize omem : Z) : Z := wraps 32 (omem - truesize).

(** A use of the option memory of a socket: the counter and the blocks and packets out. *)
Record ost := OSt { omem_of : Z; out : list Z }.
Inductive oevent :=
| EKmalloc (optmem_max size : Z) (mem : bool)
| EKfree (i : nat) (nullify : bool)
| EKfreeNull (size : Z)
| EOmalloc (optmem_max estimate : Z) (skb : option Z)
| EOfree (i : nat).

(** Blocks are freed with the size they were allocated with, once. *)
Definition ostep (s : ost) (ev : oevent) : ost :=
  match ev with
  | EKmalloc m size mem =>
      let '(ok, o) := sock_kmalloc m size mem (omem_of s) in OSt o (if ok then size :: out s else out s)
  | EKfree i nullify =>
      match out s !! i with
      | Some size => OSt ((if nullify then sock_kzfree_s else sock_kfree_s) (Some size) size (omem_of s)) (delete i (out s))
      | None => s
      end
  | EKfreeNull size => OSt (sock_kfree_s None size (omem_of s)) (out s)
  | EOmalloc m est skb =>
      let '(r, o) := sock_omalloc m est skb (omem_of s) in
      OSt o (match r with Some t => t :: out s | None => out s end)
  | EOfree i =>
      match out s !! i with
      | Some t => OSt (sock_ofree t (omem_of s)) (delete i (out s))
      | None => s
      end
  end.

(** Limits stay below [lim], sizes are ints, and a packet is at most [slack] bytes larger than
    its estimate. *)
Definition oevent_ok (lim slack : Z) (ev : oevent) : Prop :=
  match ev with
  | EKmalloc m size _ => 0 <= m <= lim /\ in_s 32 size
  | EOmalloc m est skb =>
      0 <= m <= lim /\ in_u 64 est /\ est < 2 ^ 63 /\
      match skb with Some t => 0 <= t <= est + slack | None => True end
  | _ => True
  end.

Definition bytes_out (l : list Z) : Z := foldr Z.add 0 l.
Definition accounted (lim slack : Z) (s : ost) : Prop :=
  omem_of s = bytes_out (out s) /\ Forall (fun z => 0 <= z) (out s) /\ omem_of s <= lim + slack.

Lemma bytes_out_nonneg l : Forall (fun z => 0 <= z) l -> 0 <= bytes_out l.
Proof. induction 1; simpl; lia. Qed.

Lemma bytes_out_delete l i z : l !! i = Some z -> bytes_out (delete i l) = bytes_out l - z.
Proof.
  revert i; induction l as [|x l IH]; intros [|i] E; simpl in *; simplify_eq; [lia|]. rewrite (IH _ E). lia.
Qed.

Lemma wraps32_id x : - 2 ^ 31 <= x < 2 ^ 31 -> wraps 32 x = x.
Proof. intros. apply wraps_id; [lia|]. unfold in_s. change (2 ^ (32 - 1)) with (2 ^ 31). lia. Qed.

Lemma freed_accounted lim slack s i z : 0 <= lim -> 0 <= slack -> lim + slack < 2 ^ 31 ->
  accounted lim slack s -> out s !! i = Some z ->
  accounted lim slack (OSt (wraps 32 (omem_of s - z)) (delete i (out s))).
Proof.
  intros ? ? Hl (A & B & C) E. pose proof (bytes_out_delete _ _ _ E) as Hd.
  assert (Forall (fun z => 0 <= z) (delete i (out s))) as B' by by apply Forall_delete.
  pose proof (bytes_out_nonneg _ B'). pose proof (Forall_lookup_1 _ _ _ _ B E) as Hz. simpl in Hz.
  unfold accounted. cbn [omem_of out]. rewrite wraps32_id by lia. split_and!; [lia|done|lia].
Qed.

Lemma kmalloc_spec lim m size mem o : 0 <= m <= lim -> lim <= 2 ^ 30 -> in_s 32 size -> 0 <= o < 2 ^ 30 ->
  match sock_kmalloc m size mem o with
  | (true, o') => o' = o + size /\ 0 <= size /\ o' < m
  | (false, o') => o' = o
  end.
Proof.
  unfold sock_kmalloc, in_s. change (2 ^ (32 - 1)) with (2 ^ 31). intros Hm Hl Hs Ho.
  rewrite (wrapu_id 32 m) by (unfold in_u; lia).
  destruct (Z.leb_spec (wrapu 32 size) m) as [L|L]; cbn [andb]; [|done].
  assert (0 <= size) as Hs0.
  { destruct (Z.le_gt_cases 0 size); [done|]. exfalso. unfold wrapu in L.
    rewrite <- (Z.mod_add size 1 (2 ^ 32)), Z.mod_small in L by lia. lia. }
  rewrite wrapu_id in L by (unfold in_u; lia).
  rewrite (wraps32_id (o + size)) by lia. destruct (Z.ltb_spec (o + size) m); [|done].
  destruct mem; [lia|]. rewrite wraps32_id; lia.
Qed.

Lemma omalloc_spec m est skb o : 0 <= m < 2 ^ 31 -> in_u 64 est -> est < 2 ^ 63 -> 0 <= o < 2 ^ 31 ->
  match sock_omalloc m est skb o with
  | (Some t, o') => skb = Some t /\ o' = wraps 32 (o + t) /\ o + est <= m
  | (None, o') => o' = o
  end.
Proof.
  unfold sock_omalloc, in_u. intros. rewrite !wrapu_id by (unfold in_u; lia).
  destruct (Z.ltb_spec m (o + est)); [done|]. by destruct skb.
Qed.

Lemma ostep_accounted lim slack s ev : 0 <= lim -> 0 <= slack -> lim + slack < 2 ^ 30 ->
  oevent_ok lim slack ev -> accounted lim slack s -> accounted lim slack (ostep s ev).
Proof.
  intros Hlim Hsl Hb Hev HI. pose proof HI as (A & B & C). pose proof (bytes_out_nonneg _ B).
  destruct ev as [m size mem|i nl|size|m est skb|i]; cbn [ostep oevent_ok] in *.
  - destruct Hev as [Hm Hs]. pose proof (kmalloc_spec lim m size mem (omem_of s) Hm ltac:(lia) Hs ltac:(lia)) as K.
    destruct (sock_kmalloc m size mem (omem_of s)) as [[] o'].
    + destruct K as (-> & K1 & K2). split_and!; simpl; [lia|by constructor|lia].
    + by rewrite K.
  - destruct (out s !! i) as [z|] eqn:E; [|done]. destruct nl; apply freed_accounted; try done; lia.
  - done.
  - destruct Hev as (Hm & He & He2 & Ht).
    pose proof (omalloc_spec m est skb (omem_of s) ltac:(lia) He He2 ltac:(lia)) as K.
    destruct (sock_omalloc m est skb (omem_of s)) as [[t|] o'].
    + destruct K as (-> & -> & K). rewrite wraps32_id by lia. split_and!; simpl; [lia|constructor; [lia|done]|lia].
    + by rewrite K.
  - destruct (out s !! i) as [z|] eqn:E; [|done]. apply freed_accounted; try done; lia.
Qed.

(** However option memory is allocated and freed, with the limit changing between the
    calls, the counter of a socket is exactly the bytes it has out, is never negative, and
    never passes the largest limit in force by more than the slack of a packet's estimate;
    when everything is freed it is zero, and a failed allocation charges nothing. *)
Theorem option_memory_accounted lim slack evs :
  0 <= lim -> 0 <= slack -> lim + slack < 2 ^ 30 -> Forall (oevent_ok lim slack) evs ->
  let s := foldl ostep (OSt 0 []) evs in
  omem_of s = bytes_out (out s) /\ 0 <= omem_of s <= lim + slack /\ (out s = [] -> omem_of s = 0) /\
  forall m size, 0 <= m <= lim -> in_s 32 size ->
    match sock_kmalloc m size false (omem_of s) with (ok, o) => ok = false /\ o = omem_of s end.
Proof.
  intros Hlim Hsl Hb Hevs s. assert (accounted lim slack s) as (A & B & C).
  { subst s. assert (accounted lim slack (OSt 0 [])) as H0 by (unfold accounted; simpl; split_and!; [done|done|lia]).
    revert H0. generalize (OSt 0 []). induction Hevs as [|ev evs Hev Hevs IH]; intros s0 H0; simpl; [done|].
    apply IH, ostep_accounted; try done; lia. }
  clearbody s. pose proof (bytes_out_nonneg _ B). split_and!; try lia.
  - intros E. by rewrite A, E.
  - intros m size Hm Hs. pose proof (kmalloc_spec lim m size false (omem_of s) Hm ltac:(lia) Hs ltac:(lia)) as K.
    destruct (sock_kmalloc m size false (omem_of s)) as [[] o] eqn:E; [|done].
    unfold sock_kmalloc in E. by destruct (_ && _).
Qed.

Lemma option_memory_accounted_witness :
  let s := foldl ostep (OSt 0 []) [EKmalloc 20480 (-1) true; EKmalloc 20480 20000 true; EOmalloc 20480 512 (Some 768);
                                    EKmalloc 20480 100 true; EKfree 1 false] in
  omem_of s = 100 /\ omem_of s = bytes_out (out s).
Proof.
  split; [done|].
  apply (option_memory_accounted 20480 4096); try lia.
  unfold oevent_ok, in_s, in_u. repeat constructor; simpl; lia.
Defined.
End Optmem.

(** ** Allocating a packet, with waiting *)
Module Send.

Definition EPIPE : Z := 32.
Definition SEND_SHUTDOWN : Z := 2.

(** What the caller reads in one turn of a loop: the result of sock_error (which clears the
    error), sk_err, the shutdown mask, the counters, a pending signal, and the time that
    schedule_timeout leaves.  Other processors change all of these between two turns. *)
Record obs := Obs {
  o_error : Z; o_err : Z; o_shutdown : Z; o_wmem : Z; o_sndbuf : Z; o_signal : bool; o_left : Z
}.

(** The bits SOCKWQ_ASYNC_NOSPACE and SOCK_NOSPACE. *)
Record bits := Bits { async_nospace : bool; nospace : bool }.

Section Wait.
(** sk_set_bit and sk_clear_bit on the asynchronous bit, the error of an interrupted wait,
    and the allocator: the size of the packet, or an error. *)
Context (sk_set_bit sk_clear_bit : bool -> bool) (sock_intr_errno : Z -> Z) (alloc_skb_with_frags : Z + Z).

(** The loop of sock_wait_for_wmem: the time left and the turns not used, or [None] while the
    caller still sleeps. *)
Fixpoint wait_loop (timeo : Z) (b : bits) (os : list obs) : option (Z * bits * list obs) :=
  match os with
  | [] => None
  | o :: os =>
      if timeo =? 0 then Some (timeo, b, os)
      else if o_signal o then Some (timeo, b, os)
      else
        let b := Bits (async_nospace b) true in
        if o_wmem o <? o_sndbuf o then Some (timeo, b, os)
        else if flag (o_shutdown o) SEND_SHUTDOWN then Some (timeo, b, os)
        else if ztrue (o_err o) then Some (timeo, b, os)
        else wait_loop (o_left o) b os
  end.
Definition sock_wait_for_wmem (timeo : Z) (b : bits) (os : list obs) : option (Z * bits * list obs) :=
  wait_loop timeo (Bits (sk_clear_bit (async_nospace b)) (nospace b)) os.

(** Still asleep; a packet of a size, charged to the socket; or no packet, with the code. *)
Inductive answer := Asleep | Packet (truesize wmem : Z) | Failed (err : Z).

(** Every turn uses an observation, so [length os] turns are all there are. *)
Fixpoint alloc_loop (fuel : nat) (timeo : Z) (b : bits) (os : list obs) : answer * bits :=
  match fuel, os with
  | S fuel, o :: os =>
      if ztrue (o_error o) then (Failed (o_error o), b)
      else if flag (o_shutdown o) SEND_SHUTDOWN then (Failed (- EPIPE), b)
      else if o_wmem o <? o_sndbuf o then
        (match alloc_skb_with_frags with
         | inl truesize => Packet truesize (o_wmem o + truesize)
         | inr err => Failed err
         end, b)
      else
        let b := Bits (sk_set_bit (async_nospace b)) true in
        if timeo =? 0 then (Failed (- EAGAIN), b)
        else if o_signal o then (Failed (sock_intr_errno timeo), b)
        else match sock_wait_for_wmem timeo b os with
             | None => (Asleep, b)
             | Some (timeo, b, os) => alloc_loop fuel timeo b os
             end
  | _, _ => (Asleep, b)
  end.
Definition sock_alloc_send_pskb (timeo : Z) (b : bits) (os : list obs) : answer * bits :=
  alloc_loop (length os) timeo b os.

(** What the last turn read, for each answer. *)
Definition justified (o : obs) (a : answer) : Prop :=
  match a with
  | Asleep => False
  | Packet t w => o_error o = 0 /\ flag (o_shutdown o) SEND_SHUTDOWN = false /\ o_wmem o < o_sndbuf o /\
                  alloc_skb_with_frags = inl t /\ w = o_wmem o + t
  | Failed err =>
      (o_error o <> 0 /\ err = o_error o) \/
      (o_error o = 0 /\ flag (o_shutdown o) SEND_SHUTDOWN = true /\ err = - EPIPE) \/
      (o_wmem o < o_sndbuf o /\ alloc_skb_with_frags = inr err) \/
      (o_sndbuf o <= o_wmem o /\ err = - EAGAIN) \/
      (o_sndbuf o <= o_wmem o /\ o_signal o = true /\ exists t, err = sock_intr_errno t /\ t <> 0)
  end.

(** A turn that ends any wait: room, a shutdown, an error or a signal. *)
Definition ready (o : obs) : Prop :=
  o_wmem o < o_sndbuf o \/ flag (o_shutdown o) SEND_SHUTDOWN = true \/ (o_error o <> 0 /\ o_err o <> 0) \/ o_signal o = true.

Lemma wait_loop_uses timeo b os t b' os' : wait_loop timeo b os = Some (t, b', os') ->
  exists pre, os = pre ++ os' /\ (0 < length pre)%nat.
Proof.
  revert timeo b; induction os as [|o os IH]; intros timeo b E; [done|]. cbn [wait_loop] in E.
  repeat case_match; simplify_eq; try (exists [o]; split; [done|simpl; lia]).
  destruct (IH _ _ E) as (pre & -> & H'). exists (o :: pre). split; [done|simpl; lia].
Qed.

Lemma wait_loop_ready timeo b os o : ready o -> exists t b',
  wait_loop timeo b (os ++ [o; o]) = Some (t, b', [o]) \/
  exists os', wait_loop timeo b (os ++ [o; o]) = Some (t, b', os' ++ [o; o]) /\ (length os' < length os)%nat.
Proof.
  intros Hr. revert timeo b; induction os as [|x os IH]; intros timeo b; cbn [wait_loop app length].
  { unfold ready, ztrue in *.
    destruct (timeo =? 0); [by eauto|]. destruct (o_signal o); [by eauto|].
    destruct (Z.ltb_spec (o_wmem o) (o_sndbuf o)); [by eauto|]. destruct (flag (o_shutdown o) SEND_SHUTDOWN); [by eauto|].
    destruct (Z.eqb_spec (o_err o) 0); cbn [negb]; [|by eauto]. exfalso. destruct Hr as [?|[?|[[? ?]|?]]]; done || lia. }
  repeat case_match; try (eexists _, _; right; eexists; split; [reflexivity|lia]).
  destruct (IH (o_left x) (Bits (async_nospace b) true)) as (t & b' & [E|(os' & E & L)]); rewrite E; eexists _, _; [by left|].
  right. eexists; split; [reflexivity|lia].
Qed.

(** Closes one of the cases of a justification. *)
Ltac pick_case := unfold justified; first [by left | right; pick_case | done].

Lemma turn_justified fuel timeo b os a b' :
  alloc_loop fuel timeo b os = (a, b') -> a <> Asleep -> exists o, o ∈ os /\ justified o a.
Proof.
  revert timeo b os; induction fuel as [|fuel IH]; intros timeo b [|o os] E Ha; cbn [alloc_loop] in E; simplify_eq.
  unfold ztrue in E. destruct (Z.eqb_spec (o_error o) 0) as [He|He]; cbn [negb] in E.
  2: { injection E as <- <-. exists o. split; [by left|]. by left. }
  destruct (flag (o_shutdown o) SEND_SHUTDOWN) eqn:Hs; [injection E as <- <-; exists o; split; [by left|]; pick_case|].
  destruct (Z.ltb_spec (o_wmem o) (o_sndbuf o)).
  { injection E as <- <-. exists o. split; [by left|]. unfold justified; destruct alloc_skb_with_frags; [done|pick_case]. }
  destruct (Z.eqb_spec timeo 0); [injection E as <- <-; exists o; split; [by left|]; pick_case|].
  destruct (o_signal o) eqn:Hg.
  { injection E as <- <-. exists o. split; [by left|]. do 4 right. split_and!; [done|done|by exists timeo]. }
  destruct (sock_wait_for_wmem _ _ os) as [[[t b1] os1]|] eqn:Ew; [|by simplify_eq].
  destruct (IH _ _ _ E Ha) as (o1 & Ho & Hj). apply wait_loop_uses in Ew as (pre & -> & _).
  exists o1. split; [|done]. right. apply elem_of_app. by right.
Qed.

(** A turn that reads a ready socket, or has no time, answers. *)
Lemma turn_answers fuel timeo b o os : ready o \/ timeo = 0 ->
  exists a b', alloc_loop (S fuel) timeo b (o :: os) = (a, b') /\ a <> Asleep.
Proof.
  intros Hr. cbn [alloc_loop]. unfold ztrue, ready in *.
  destruct (Z.eqb_spec (o_error o) 0); cbn [negb]; [|by eauto].
  destruct (flag (o_shutdown o) SEND_SHUTDOWN); [by eauto|].
  destruct (Z.ltb_spec (o_wmem o) (o_sndbuf o)); [destruct alloc_skb_with_frags; by eauto|].
  destruct (Z.eqb_spec timeo 0); [by eauto|]. destruct (o_signal o); [by eauto|].
  exfalso. destruct Hr as [[?|[?|[[? ?]|?]]]|?]; done || lia.
Qed.

Lemma loop_answers fuel timeo b os o : ready o -> (length os + 2 <= fuel)%nat ->
  exists a b', alloc_loop fuel timeo b (os ++ [o; o]) = (a, b') /\ a <> Asleep.
Proof.
  intros Hr. revert timeo b os; induction fuel as [|fuel IH]; intros timeo b os Hf; [lia|].
  destruct os as [|x os]; [by apply turn_answers; left|]. cbn [app alloc_loop]. simpl in Hf.
  repeat match goal with
  | |- context [alloc_skb_with_frags] => destruct alloc_skb_with_frags
  | |- context [if ?c then _ else _] => destruct c
  end; try (eexists _, _; split; [reflexivity|done]).
  all: unfold sock_wait_for_wmem;
    match goal with |- context [wait_loop ?t ?b _] => destruct (wait_loop_ready t b os o Hr) as (t' & b' & [E|(os' & E & L)]) end;
    rewrite E; [destruct fuel; [lia|apply turn_answers; by left]|apply IH; lia].
Qed.

(** Allocating a packet to send: a packet is charged to the socket only when its last
    look found no error, no shutdown and room in the send buffer, and every failure has the
    code of what was found; a caller that may not block answers at its first look; and once
    the socket has room, is shut down, has an error or a signal is pending for two looks in a
    row, a waiting caller answers. *)
Theorem sock_alloc_send_spec timeo b os :
  (forall a b', sock_alloc_send_pskb timeo b os = (a, b') -> a <> Asleep -> exists o, o ∈ os /\ justified o a) /\
  (timeo = 0 -> forall o, os = [o] -> exists a b', sock_alloc_send_pskb timeo b os = (a, b') /\ a <> Asleep) /\
  (forall pre o, ready o -> os = pre ++ [o; o] ->
     exists a b', sock_alloc_send_pskb timeo b os = (a, b') /\ a <> Asleep).
Proof.
  unfold sock_alloc_send_pskb. split_and!.
  - intros a b'. apply turn_justified.
  - intros Ht o ->. apply turn_answers. by right.
  - intros pre o Hr ->. apply loop_answers; [done|]. rewrite length_app. simpl. lia.
Qed.
End Wait.

(** A caller sleeps through a full buffer, then finds room. *)
Definition full : obs := Obs 0 0 0 4096 4096 false 90.
Definition room : obs := Obs 0 0 0 100 4096 false 80.
Lemma sock_alloc_send_spec_witness :
  exists a b', sock_alloc_send_pskb (fun _ => true) (fun _ => false) (fun _ => - 4) (inl 768) 100 (Bits false false)
                 ([full; full] ++ [room; room]) = (a, b') /\ a <> Asleep.
Proof.
  apply (proj2 (proj2 (sock_alloc_send_spec (fun _ => true) (fun _ => false) (fun _ => - 4) (inl 768) 100
    (Bits false false) ([full; full] ++ [room; room]))) [full; full] room); [left; simpl; lia|done].
Defined.
End Send.
