(* ===== verification/SockLock.v ===== *)
(** * The lock of a socket and its backlog (src/kvm/linux-5.15.178/net/core/sock.c)

    A socket is owned by one thread at a time (lock_sock, release_sock); packets that arrive
    while it is owned go to its backlog, which the owner handles when it releases or flushes.
    The owner handles packets without the spin lock, so more arrive meanwhile.  Every step
    is one section under the spin lock sk_lock.slock, or one packet handled outside it, and
    threads and arriving packets take them in any order. *)

From S2P Require Import Prelude.

Record skb := Skb { id : Z; truesize : Z }.
Definition bytes (l : list skb) : Z := foldr (fun p a => truesize p + a) 0 l.

(** What the handler does at the end of __release_sock. *)
Inductive mode := Releasing | Flushing.

(** Where a thread is: outside, asleep in __lock_sock, owner, handling the packets it took
    ([handled] are those of this call it is done with), or on the fast path with the spin
    lock held. *)
Inductive place := Idle | Asleep | Owner | Handling (m : mode) (handled rest : list skb) | Fast.

(** The lock and the backlog of a socket; [accepted] and [processed] are the packets taken in
    and the packets given to sk_backlog_rcv so far, in order; [discarded] those freed. *)
Record lock_state := LockState {
  owned : bool; slock : bool; backlog : list skb; len : Z; drops : Z; refs : Z;
  accepted : list skb; processed : list skb; discarded : list skb; pcs : Z -> place
}.

Definition at_ (t : Z) (p : place) (f : Z -> place) : Z -> place := fun u => if u =? t then p else f u.
Definition set_pc (t : Z) (p : place) (s : lock_state) : lock_state :=
  LockState (owned s) (slock s) (backlog s) (len s) (drops s) (refs s) (accepted s) (processed s) (discarded s) (at_ t p (pcs s)).
Definition set_owned (b : bool) (s : lock_state) : lock_state :=
  LockState b (slock s) (backlog s) (len s) (drops s) (refs s) (accepted s) (processed s) (discarded s) (pcs s).
Definition set_slock (b : bool) (s : lock_state) : lock_state :=
  LockState (owned s) b (backlog s) (len s) (drops s) (refs s) (accepted s) (processed s) (discarded s) (pcs s).
Definition set_backlog (l : list skb) (n : Z) (s : lock_state) : lock_state :=
  LockState (owned s) (slock s) l n (drops s) (refs s) (accepted s) (processed s) (discarded s) (pcs s).
Definition process (p : skb) (s : lock_state) : lock_state :=
  LockState (owned s) (slock s) (backlog s) (len s) (drops s) (refs s) (accepted s) (processed s ++ [p]) (discarded s) (pcs s).
Definition accept (p : skb) (s : lock_state) : lock_state :=
  LockState (owned s) (slock s) (backlog s) (len s) (drops s) (refs s) (accepted s ++ [p]) (processed s) (discarded s) (pcs s).
Definition discard (p : skb) (s : lock_state) : lock_state :=
  LockState (owned s) (slock s) (backlog s) (len s) (drops s) (refs s) (accepted s) (processed s) (discarded s ++ [p]) (pcs s).
Definition count_drop (s : lock_state) : lock_state :=
  LockState (owned s) (slock s) (backlog s) (len s) (drops s + 1) (refs s) (accepted s) (processed s) (discarded s) (pcs s).
Definition sock_put (b : bool) (s : lock_state) : lock_state :=
  LockState (owned s) (slock s) (backlog s) (len s) (drops s) (refs s - (if b then 1 else 0)) (accepted s) (processed s) (discarded s) (pcs s).

(** ** Taking the lock; [None] while the spin lock is held *)

(** lock_sock_nested: the caller owns the socket, or sleeps. *)
Definition lock_sock_nested (t : Z) (s : lock_state) : option lock_state :=
  if slock s then None
  else if owned s then Some (set_pc t Asleep s)
  else Some (set_owned true (set_pc t Owner s)).
(** __lock_sock after schedule: look again under the spin lock. *)
Definition __lock_sock (t : Z) (s : lock_state) : option lock_state :=
  if slock s then None
  else if owned s then Some s
  else Some (set_owned true (set_pc t Owner s)).
(** __lock_sock_fast: a free socket is returned with the spin lock held, and not owned; the
    bool is the result for a caller that need not sleep. *)
Definition __lock_sock_fast (t : Z) (s : lock_state) : option (bool * lock_state) :=
  if slock s then None
  else if owned s then Some (true, set_pc t Asleep s)
  else Some (false, set_slock true (set_pc t Fast s)).

(** ** Releasing *)

(** After the backlog: the end of release_sock, or of __sk_flush_backlog. *)
Definition after_release (m : mode) (t : Z) (s : lock_state) : lock_state :=
  match m with Releasing => set_owned false (set_pc t Idle s) | Flushing => set_pc t Owner s end.
(** The loop head of __release_sock: take all of the backlog, or zero its length and go on. *)
Definition release_head (m : mode) (handled : list skb) (t : Z) (s : lock_state) : lock_state :=
  match backlog s with
  | [] => after_release m t (set_backlog [] 0 s)
  | l => set_pc t (Handling m handled l) (set_backlog [] (len s) s)
  end.
(** release_sock; the release_cb of a protocol, which runs under the spin lock before the
    ownership is given up, is left out. *)
Definition release_sock (t : Z) (s : lock_state) : option lock_state :=
  if slock s then None
  else match backlog s with
       | [] => Some (after_release Releasing t s)
       | _ => Some (release_head Releasing [] t s)
       end.
Definition __sk_flush_backlog (t : Z) (s : lock_state) : option lock_state :=
  if slock s then None else Some (release_head Flushing [] t s).
(** __release_sock: one packet handled, or the end of the packets taken. *)
Definition __release_sock (t : Z) (s : lock_state) : option lock_state :=
  match pcs s t with
  | Handling m handled (p :: rest) => Some (set_pc t (Handling m (handled ++ [p]) rest) (process p s))
  | Handling m handled [] => if slock s then None else Some (release_head m handled t s)
  | _ => None
  end.

(** ** A packet arrives *)
Section Receive.
(** sk_backlog_rcv, the handler of the protocol; sk_add_backlog takes a packet or not, by the
    length of the backlog, and adds its size. *)
Context (sk_backlog_rcv : skb -> Z) (backlog_takes : Z -> skb -> bool).

(** [filtered]: the filter drops the packet; [full]: sk_rcvqueues_full, read without the lock. *)
Definition __sk_receive_skb (filtered full refcounted : bool) (p : skb) (s : lock_state) : option (Z * lock_state) :=
  if filtered then Some (0, sock_put refcounted (discard p s))
  else if full then Some (0, sock_put refcounted (discard p (count_drop s)))
  else if slock s then None
  else if negb (owned s) then Some (sk_backlog_rcv p, sock_put refcounted (process p (accept p s)))
  else if backlog_takes (len s) p
  then Some (0, sock_put refcounted (set_backlog (backlog s ++ [p]) (wraps 32 (len s + truesize p)) (accept p s)))
  else Some (0, sock_put refcounted (discard p (count_drop s))).

(** Any thread and any packet, of a size up to [maxsize]. *)
Context (maxsize : Z).
Definition size_ok (p : skb) : Prop := 1 <= truesize p <= maxsize.

Inductive lstep : lock_state -> lock_state -> Prop :=
| l_lock t s s' : pcs s t = Idle -> lock_sock_nested t s = Some s' -> lstep s s'
| l_wake t s s' : pcs s t = Asleep -> __lock_sock t s = Some s' -> lstep s s'
| l_fast t b s s' : pcs s t = Idle -> __lock_sock_fast t s = Some (b, s') -> lstep s s'
| l_unlock_fast t s : pcs s t = Fast -> lstep s (set_slock false (set_pc t Idle s))
| l_release t s s' : pcs s t = Owner -> release_sock t s = Some s' -> lstep s s'
| l_flush t s s' : pcs s t = Owner -> __sk_flush_backlog t s = Some s' -> lstep s s'
| l_handle t s s' : __release_sock t s = Some s' -> lstep s s'
| l_receive p filtered full refcounted rc s s' : size_ok p ->
    __sk_receive_skb filtered full refcounted p s = Some (rc, s') -> lstep s s'.

Definition fresh (n : Z) : lock_state := LockState false false [] 0 0 n [] [] [] (fun _ => Idle).

(** ** The invariant: the three situations of a socket *)

Definition quiet (p : place) : Prop := p = Idle \/ p = Asleep.
Definition others_quiet (t : Z) (s : lock_state) : Prop := forall u, u <> t -> quiet (pcs s u).
(** The owner, with the packets of its call that are handled and those it still has. *)
Definition has (s : lock_state) (t : Z) (handled rest : list skb) : Prop :=
  (pcs s t = Owner /\ handled = [] /\ rest = []) \/ exists m, pcs s t = Handling m handled rest.

Inductive situation (s : lock_state) : Prop :=
| sit_free : owned s = false -> slock s = false -> (forall u, quiet (pcs s u)) ->
    backlog s = [] -> len s = 0 -> accepted s = processed s -> situation s
| sit_fast t : owned s = false -> slock s = true -> pcs s t = Fast -> others_quiet t s ->
    backlog s = [] -> len s = 0 -> accepted s = processed s -> situation s
| sit_held t handled rest : owned s = true -> slock s = false -> has s t handled rest -> others_quiet t s ->
    accepted s = processed s ++ rest ++ backlog s -> Forall size_ok (handled ++ rest ++ backlog s) ->
    len s = bytes (handled ++ rest ++ backlog s) -> situation s.

Lemma bytes_app a b : bytes (a ++ b) = bytes a + bytes b.
Proof. induction a as [|p a IH]; simpl; [done|]. unfold bytes in *. simpl. lia. Qed.

Lemma bytes_length l : Forall size_ok l -> Z.of_nat (length l) <= bytes l.
Proof. unfold size_ok. induction 1 as [|p l Hp Hl IH]; simpl; [done|]. unfold bytes in *. lia. Qed.

Lemma others_at t p s : others_quiet t s -> forall u, u <> t -> quiet (at_ t p (pcs s) u).
Proof. intros H u Hu. unfold at_. destruct (Z.eqb_spec u t); [done|by apply H]. Qed.

Lemma at_same t p f : at_ t p f t = p.
Proof. unfold at_. by rewrite Z.eqb_refl. Qed.

Lemma quiet_at t p f : quiet p -> (forall u, u <> t -> quiet (f u)) -> forall u, quiet (at_ t p f u).
Proof. intros Hp Hf u. unfold at_. destruct (Z.eqb_spec u t); [done|by apply Hf]. Qed.

(** A thread that is not quiet is the one of the situation. *)
Lemma others_is t u s : others_quiet t s -> ~ quiet (pcs s u) -> u = t.
Proof. intros Ho Hn. destruct (Z.eq_dec u t); [done|]. destruct Hn. by apply Ho. Qed.

Context (limit : Z) (Htakes : forall l p, backlog_takes l p = true -> l <= limit).
Context (Hlimit : 0 <= limit) (Hmax : limit + maxsize < 2 ^ 31) (Hmax0 : 0 <= maxsize).

Definition linv (s : lock_state) : Prop := situation s /\ len s <= limit + maxsize.

Lemma sleep_keeps t s : situation s -> quiet (pcs s t) -> situation (set_pc t Asleep s).
Proof.
  intros Hs Hq. assert (quiet Asleep) as Ha by by right.
  destruct Hs as [A B C D E F|h A B C Ho D E F|h hd rest A B C Ho D E F].
  - apply sit_free; try done. by apply quiet_at.
  - assert (t <> h) by (intros ->; destruct Hq; congruence).
    apply (sit_fast _ h); try done; simpl; [by unfold at_; destruct (Z.eqb_spec h t)|].
    intros u Hu. simpl. unfold at_. destruct (Z.eqb_spec u t); [done|by apply Ho].
  - assert (t <> h) by (intros ->; destruct Hq, C as [(? & _)|(? & ?)]; congruence).
    apply (sit_held _ h hd rest); try done.
    + unfold has in *. simpl. unfold at_. by destruct (Z.eqb_spec h t).
    + intros u Hu. simpl. unfold at_. destruct (Z.eqb_spec u t); [done|by apply Ho].
Qed.

(** A socket with neither lock held is free. *)
Lemma free_sit s : situation s -> owned s = false -> slock s = false ->
  (forall u, quiet (pcs s u)) /\ backlog s = [] /\ len s = 0 /\ accepted s = processed s.
Proof. intros [A B C D E F|h A B C Ho D E F|h hd rest A B C Ho D E F] H1 H2; [done|congruence|congruence]. Qed.

Lemma own_keeps t s : linv s -> owned s = false -> slock s = false -> linv (set_owned true (set_pc t Owner s)).
Proof.
  intros [Hs Hl] Hw Hk. destruct (free_sit s Hs Hw Hk) as (Q & Hb & Hn & Ha). split; [|done].
  apply (sit_held _ t [] []); simpl; rewrite ?Hb; try done.
  - left. simpl. by rewrite at_same.
  - intros u Hu. apply others_at; [|done]. intros v _. apply Q.
  - by rewrite Ha, app_nil_r.
Qed.

Lemma fast_keeps t s : linv s -> owned s = false -> slock s = false -> linv (set_slock true (set_pc t Fast s)).
Proof.
  intros [Hs Hl] Hw Hk. destruct (free_sit s Hs Hw Hk) as (Q & Hb & Hn & Ha). split; [|done].
  apply (sit_fast _ t); simpl; try done; [by rewrite at_same|].
  intros u Hu. apply others_at; [|done]. intros v _. apply Q.
Qed.

(** The end of a call that holds nothing more: the owner leaves or goes on. *)
Lemma after_keeps m t s : owned s = true -> slock s = false -> others_quiet t s -> backlog s = [] -> len s = 0 ->
  accepted s = processed s -> linv (after_release m t s).
Proof.
  intros Hw Hk Ho Hb Hn Ha. split; [|destruct m; simpl; lia]. destruct m; simpl.
  - apply sit_free; try done. apply quiet_at; [by left|done].
  - apply (sit_held _ t [] []); simpl; rewrite ?Hb; try done.
    + left. simpl. by rewrite at_same.
    + intros u Hu. by apply others_at.
    + by rewrite Ha, app_nil_r.
Qed.

Lemma release_head_keeps m t handled s : owned s = true -> slock s = false -> others_quiet t s ->
  accepted s = processed s ++ backlog s -> Forall size_ok (handled ++ backlog s) ->
  len s = bytes (handled ++ backlog s) -> len s <= limit + maxsize -> linv (release_head m handled t s).
Proof.
  intros Hw Hk Ho Ha Hf Hn Hl. unfold release_head. destruct (backlog s) as [|p l] eqn:Hb.
  - apply after_keeps; try done. simpl; by rewrite Ha, app_nil_r.
  - split; [|done]. apply (sit_held _ t handled (p :: l)); simpl; rewrite ?app_nil_r; try done.
    + right. exists m. simpl. by rewrite at_same.
    + intros u Hu. by apply others_at.
Qed.

(** The counters and what was discarded do not matter. *)
Lemma situation_ext s s' : owned s' = owned s -> slock s' = slock s -> backlog s' = backlog s -> len s' = len s ->
  accepted s' = accepted s -> processed s' = processed s -> pcs s' = pcs s -> situation s -> situation s'.
Proof.
  intros E1 E2 E3 E4 E5 E6 E7 [A B C D G F|h A B C Ho D G F|h hd rest A B C Ho D G F].
  - apply sit_free; by rewrite ?E1, ?E2, ?E3, ?E4, ?E5, ?E6, ?E7.
  - apply (sit_fast _ h); unfold others_quiet; by rewrite ?E1, ?E2, ?E3, ?E4, ?E5, ?E6, ?E7.
  - apply (sit_held _ h hd rest); unfold others_quiet, has; by rewrite ?E1, ?E2, ?E3, ?E4, ?E5, ?E6, ?E7.
Qed.

Lemma receive_keeps filtered full refcounted p rc s s' : size_ok p -> linv s ->
  __sk_receive_skb filtered full refcounted p s = Some (rc, s') -> linv s'.
Proof.
  intros Hp [Hs Hl] E. unfold __sk_receive_skb in E.
  assert (forall s2, situation s2 -> situation (sock_put refcounted s2)) as Hput by (intros s2; by apply situation_ext).
  assert (situation (discard p s)) as Hd by by apply (situation_ext s).
  assert (situation (discard p (count_drop s))) as Hd2 by by apply (situation_ext s).
  destruct filtered; [injection E as <- <-; split; [by apply Hput|done]|].
  destruct full; [injection E as <- <-; split; [by apply Hput|done]|].
  destruct (slock s) eqn:Hk; [done|]. destruct (owned s) eqn:Hw; cbn [negb] in E.
  2: { injection E as <- <-. split; [|done]. destruct (free_sit s Hs Hw Hk) as (Q & Hb & Hn & Ha).
       apply Hput, sit_free; try done. simpl. by rewrite Ha. }
  destruct (backlog_takes (len s) p) eqn:Ht; injection E as <- <-; [|split; [by apply Hput|done]].
  destruct Hs as [|h ? ? ? ? ? ? ?|h hd rest A B C Ho D G F]; [congruence|congruence|].
  assert (0 <= len s) by (rewrite F; pose proof (bytes_length _ G); lia).
  apply Htakes in Ht. unfold size_ok in Hp.
  assert (wraps 32 (len s + truesize p) = len s + truesize p) as Ew
    by (apply wraps_id; [lia|]; unfold in_s; change (2 ^ (32 - 1)) with (2 ^ 31); lia).
  split; [apply Hput, (sit_held _ h hd rest); try done; simpl|simpl; lia].
  - rewrite D. by rewrite <- !app_assoc.
  - rewrite !app_assoc in *. apply Forall_app. split; [done|]. by constructor.
  - rewrite Ew, F. rewrite !app_assoc, (bytes_app _ [p]). unfold bytes at 3. simpl. lia.
Qed.

Lemma held_by s t : situation s -> ~ quiet (pcs s t) -> pcs s t <> Fast -> exists handled rest,
  owned s = true /\ slock s = false /\ has s t handled rest /\ others_quiet t s /\
  accepted s = processed s ++ rest ++ backlog s /\ Forall size_ok (handled ++ rest ++ backlog s) /\
  len s = bytes (handled ++ rest ++ backlog s).
Proof.
  intros Hs Hq Hf. destruct Hs as [A B C D G F|h A B C Ho D G F|h hd rest A B C Ho D G F].
  - destruct Hq. apply C.
  - pose proof (others_is _ _ _ Ho Hq). congruence.
  - pose proof (others_is _ _ _ Ho Hq). subst h. by exists hd, rest.
Qed.

Lemma handle_keeps t s s' : linv s -> __release_sock t s = Some s' -> linv s'.
Proof.
  intros [Hs Hl] E. unfold __release_sock in E. destruct (pcs s t) as [| | |m h rest|] eqn:Hp; try done.
  destruct (held_by s t Hs) as (h' & r' & Hw & Hk & Hh & Ho & Ha & Hf & Hn);
    [rewrite Hp; intros [?|?]; done|by rewrite Hp|].
  destruct Hh as [(? & _)|(m' & Hp')]; [congruence|]. rewrite Hp in Hp'. injection Hp' as <- <- <-.
  destruct rest as [|p rest].
  - rewrite Hk in E. injection E as <-. by apply release_head_keeps.
  - injection E as <-. split; [|done]. apply (sit_held _ t (h ++ [p]) rest); simpl; try done.
    + right. exists m. simpl. by rewrite at_same.
    + intros u Hu. by apply others_at.
    + rewrite Ha. by rewrite <- app_assoc.
    + by rewrite <- app_assoc.
    + by rewrite <- app_assoc.
Qed.

Lemma lstep_keeps s s' : linv s -> lstep s s' -> linv s'.
Proof.
  intros HI Hst. pose proof HI as [Hs Hl].
  destruct Hst as [t s s' Hp E|t s s' Hp E|t b s s' Hp E|t s Hp|t s s' Hp E|t s s' Hp E|t s s' E|p f1 f2 f3 rc s s' Hp E].
  - unfold lock_sock_nested in E. destruct (slock s) eqn:Hk; [done|]. destruct (owned s) eqn:Hw; injection E as <-.
    + split; [|done]. apply sleep_keeps; [done|]. rewrite Hp. by left.
    + by apply own_keeps.
  - unfold __lock_sock in E. destruct (slock s) eqn:Hk; [done|]. destruct (owned s) eqn:Hw; injection E as <-; [done|].
    by apply own_keeps.
  - unfold __lock_sock_fast in E. destruct (slock s) eqn:Hk; [done|]. destruct (owned s) eqn:Hw; injection E as <- <-.
    + split; [|done]. apply sleep_keeps; [done|]. rewrite Hp. by left.
    + by apply fast_keeps.
  - destruct Hs as [A B C D G F|h A B C Ho D G F|h hd rest A B C Ho D G F].
    + destruct (C t); congruence.
    + split; [|done]. assert (t = h) as -> by (apply (others_is _ _ s Ho); rewrite Hp; intros [?|?]; done).
      apply sit_free; try done. simpl. apply quiet_at; [by left|done].
    + assert (t = h) as -> by (apply (others_is _ _ s Ho); rewrite Hp; intros [?|?]; done).
      destruct C as [(? & _)|(? & ?)]; congruence.
  - unfold release_sock in E.
    destruct (held_by s t Hs) as (h' & r' & Hw & Hk & Hh & Ho & Ha & Hf & Hn);
      [rewrite Hp; intros [?|?]; done|by rewrite Hp|].
    destruct Hh as [(_ & -> & ->)|(m & Hm)]; [|congruence]. simpl in Ha, Hf, Hn. rewrite Hk in E.
    destruct (backlog s) as [|p l] eqn:Hb; injection E as <-.
    + apply (after_keeps Releasing t s); try done. by rewrite Ha, app_nil_r.
    + apply release_head_keeps; simpl; rewrite ?Hb; done.
  - unfold __sk_flush_backlog in E.
    destruct (held_by s t Hs) as (h' & r' & Hw & Hk & Hh & Ho & Ha & Hf & Hn);
      [rewrite Hp; intros [?|?]; done|by rewrite Hp|].
    destruct Hh as [(_ & -> & ->)|(m & Hm)]; [|congruence]. rewrite Hk in E. injection E as <-.
    by apply release_head_keeps.
  - by eapply handle_keeps.
  - by eapply receive_keeps.
Qed.

Lemma reachable_linv n s : rtc lstep (fresh n) s -> linv s.
Proof.
  revert s. apply (rtc_ind_r linv); [|intros s1 s2 _ Hst IH; by eapply lstep_keeps].
  split; [apply sit_free; try done; intros u; by left|simpl; lia].
Qed.

(** (C21) However threads lock, release and flush a socket and packets arrive, by slow and
    fast path, at most one thread is inside; packets are handled in the order they were
    accepted, none lost and none twice: those not yet handled are with the thread that
    empties the backlog, then on the backlog; and a socket nobody owns has handled all it
    accepted. *)
Theorem sock_lock_order n s : rtc lstep (fresh n) s ->
  (forall t u, ~ quiet (pcs s t) -> ~ quiet (pcs s u) -> t = u) /\
  (exists rest, accepted s = processed s ++ rest ++ backlog s) /\
  (forall t m handled rest, pcs s t = Handling m handled rest -> accepted s = processed s ++ rest ++ backlog s) /\
  (forall t, pcs s t = Owner -> accepted s = processed s ++ backlog s) /\
  (owned s = false -> accepted s = processed s).
Proof.
  intros Hr. destruct (reachable_linv n s Hr) as [Hs _].
  split_and!.
  - intros t u Ht Hu. destruct Hs as [A B C D G F|h A B C Ho D G F|h hd rest A B C Ho D G F].
    + by destruct (Ht (C t)).
    + by rewrite (others_is h t s), (others_is h u s).
    + by rewrite (others_is h t s), (others_is h u s).
  - destruct Hs as [A B C D G F|h A B C Ho D G F|h hd rest A B C Ho D G F];
      [exists []; by rewrite F, D, app_nil_r|exists []; by rewrite F, D, app_nil_r|by exists rest].
  - intros t m h r Hp. destruct (held_by s t Hs) as (h' & r' & _ & _ & Hh & _ & Ha & _);
      [rewrite Hp; intros [?|?]; done|by rewrite Hp|].
    destruct Hh as [(? & _)|(m' & Hm)]; congruence.
  - intros t Hp. destruct (held_by s t Hs) as (h' & r' & _ & _ & Hh & _ & Ha & _);
      [rewrite Hp; intros [?|?]; done|by rewrite Hp|].
    destruct Hh as [(_ & -> & ->)|(m' & Hm)]; [done|congruence].
  - intros Hw. destruct Hs; [done|done|congruence].
Qed.

(** Packets a call may still handle, twice, and one more turn for a backlog to take. *)
Definition turns_left (handled rest : list skb) : Z :=
  2 * (limit + maxsize - Z.of_nat (length handled)) + (match rest with [] => 1 | _ => 0 end).

(** (C22) Emptying the backlog ends, however many packets arrive meanwhile, because its length
    is zeroed only at the end: a thread in __release_sock is never blocked, every turn of it
    ends the call or lowers a bound that stays above zero, and nothing another thread or a
    packet does moves it. *)
Theorem release_sock_ends n s t m handled rest :
  rtc lstep (fresh n) s -> pcs s t = Handling m handled rest ->
  0 <= turns_left handled rest /\ is_Some (__release_sock t s) /\
  (forall s', __release_sock t s = Some s' ->
     pcs s' t = (match m with Releasing => Idle | Flushing => Owner end) \/
     exists handled' rest', pcs s' t = Handling m handled' rest' /\ turns_left handled' rest' < turns_left handled rest) /\
  (forall s', lstep s s' -> pcs s' t = pcs s t \/ __release_sock t s = Some s').
Proof.
  intros Hr Hp. destruct (reachable_linv n s Hr) as [Hs Hl].
  assert (~ quiet (pcs s t)) as Hnq by (rewrite Hp; intros [?|?]; done).
  destruct (held_by s t Hs Hnq) as (h' & r' & Hw & Hk & Hh & Ho & Ha & Hf & Hn); [by rewrite Hp|].
  destruct Hh as [(? & _)|(m' & Hm)]; [congruence|]. rewrite Hp in Hm. injection Hm as <- <- <-.
  assert (Z.of_nat (length handled) <= limit + maxsize) as Hb.
  { pose proof (bytes_length _ Hf) as H1. rewrite length_app in H1. lia. }
  split_and!.
  - unfold turns_left. destruct rest; lia.
  - unfold __release_sock. rewrite Hp, Hk. by destruct rest.
  - unfold __release_sock. rewrite Hp, Hk. intros s'. destruct rest as [|p rest]; intros [= <-].
    + unfold release_head. destruct (backlog s) as [|q l].
      * left. destruct m; simpl; by rewrite at_same.
      * right. exists handled, (q :: l). simpl. rewrite at_same. split; [done|]. unfold turns_left. lia.
    + right. exists (handled ++ [p]), rest. simpl. rewrite at_same. split; [done|].
      unfold turns_left. rewrite length_app. simpl. destruct rest; lia.
  - intros s' Hst. destruct Hst as [u s s' Hu E|u s s' Hu E|u b s s' Hu E|u s Hu|u s s' Hu E|u s s' Hu E|u s s' E|p f1 f2 f3 rc s s' _ E].
    7: { destruct (Z.eq_dec u t) as [->|]; [by right|]. exfalso. unfold __release_sock in E.
         destruct (Ho u) as [H1|H1]; [done|by rewrite H1 in E|by rewrite H1 in E]. }
    7: { left. unfold __sk_receive_skb in E. by repeat case_match; simplify_eq. }
    all: assert (u <> t) by congruence.
    all: left; try (unfold lock_sock_nested, __lock_sock, __lock_sock_fast in E; repeat case_match; simplify_eq; simpl;
      unfold at_; by destruct (Z.eqb_spec t u)).
    all: exfalso; destruct (Ho u); congruence.
Qed.
End Receive.

(** ** A run: a packet arrives while thread 1 owns the socket, another while it releases *)
Definition takes0 (l : Z) (_ : skb) : bool := l <=? 4096.
Definition p7 : skb := Skb 7 768.
Definition p8 : skb := Skb 8 512.

Definition run (s : lock_state) (fs : list (lock_state -> option lock_state)) : option lock_state :=
  foldl (fun o f => match o with Some s => f s | None => None end) (Some s) fs.
Definition receive (p : skb) (s : lock_state) : option lock_state :=
  option_map snd (__sk_receive_skb (fun _ => 0) takes0 false false true p s).
Definition busy : lock_state :=
  default (fresh 4) (run (fresh 4) [lock_sock_nested 1; receive p7; release_sock 1; receive p8; __release_sock 1]).

Lemma busy_reached : rtc (lstep (fun _ => 0) takes0 2048) (fresh 4) busy.
Proof.
  eapply rtc_l; [eapply (l_lock _ _ _ 1); vm_compute; reflexivity|].
  eapply rtc_l; [eapply (l_receive _ _ _ p7 false false true); [unfold size_ok; simpl; lia|vm_compute; reflexivity]|].
  eapply rtc_l; [eapply (l_release _ _ _ 1); vm_compute; reflexivity|].
  eapply rtc_l; [eapply (l_receive _ _ _ p8 false false true); [unfold size_ok; simpl; lia|vm_compute; reflexivity]|].
  eapply rtc_l; [eapply (l_handle _ _ _ 1); vm_compute; reflexivity|]. vm_compute. apply rtc_refl.
Qed.

Lemma takes0_limit l p : takes0 l p = true -> l <= 4096.
Proof. apply Z.leb_le. Qed.

Lemma sock_lock_order_witness : processed busy = [p7] /\ accepted busy = [p7; p8] /\
  forall t u, ~ quiet (pcs busy t) -> ~ quiet (pcs busy u) -> t = u.
Proof.
  split; [exact eq_refl|]. split; [exact eq_refl|].
  apply (sock_lock_order (fun _ => 0) takes0 2048 4096 takes0_limit ltac:(lia) ltac:(lia) ltac:(lia) 4 busy busy_reached).
Defined.

Lemma release_sock_ends_witness : pcs busy 1 = Handling Releasing [p7] [] /\ is_Some (__release_sock 1 busy).
Proof.
  split; [exact eq_refl|].
  apply (release_sock_ends (fun _ => 0) takes0 2048 4096 takes0_limit ltac:(lia) ltac:(lia) ltac:(lia) 4 busy 1
    Releasing [p7] [] busy_reached eq_refl).
Defined.
