(* ===== verification/Socket.v ===== *)
(** * The socket layer: creation, release and descriptors
      (src/kvm/linux-5.15.178/net/socket.c)

    [Layer]: sockets, their files and descriptors, the references on protocol modules
    and the counters of the calling task; the functions that create and release them,
    with the per-thread limit, up to the system calls socket, socketpair and accept.
    [Limit]: the limit over sequences of calls.  Security hooks, the protocol families
    and the file and descriptor allocators are parameters. *)

From stdpp Require Import gmultiset.
From S2P Require Import Prelude SocketAttrs.

Definition NPROTO : Z := 46.
Definition SOCK_MAX : Z := 11.
Definition SOCK_PACKET : Z := 10.
Definition PF_INET : Z := 2.
Definition PF_PACKET : Z := 17.
Definition SOCK_TYPE_MASK : Z := 0xf.
Definition SOCK_CLOEXEC : Z := 0x80000.
Definition SOCK_NONBLOCK : Z := 0x800.
Definition O_CLOEXEC : Z := 0x80000.
Definition O_NONBLOCK : Z := 0x800.
Definition ECONNABORTED : Z := 103.

Module Layer.

(** struct socket: the type, the module that owns the operations (none: no operations),
    whether it has a protocol sock, the file bound to it. *)
Record socket := Sock { s_type : Z; s_ops : option Z; s_sk : bool; s_file : option Z }.

(** The sockets (inodes) and the socket files by number; the descriptors of the process,
    reserved ([None]) or installed; the references held on modules; the number of
    protocol socks; the calling task. *)
Record world := World {
  socks : gmap Z socket; next_sock : Z;
  sfiles : gmap Z Z; next_file : Z;
  fds : gmap Z (option Z);
  mods : gmultiset Z;
  sks : Z;
  cur : Attrs.task
}.

Definition set_socks (f : gmap Z socket -> gmap Z socket) (w : world) : world :=
  World (f (socks w)) (next_sock w) (sfiles w) (next_file w) (fds w) (mods w) (sks w) (cur w).
Definition set_fds (f : gmap Z (option Z) -> gmap Z (option Z)) (w : world) : world :=
  World (socks w) (next_sock w) (sfiles w) (next_file w) (f (fds w)) (mods w) (sks w) (cur w).
Definition set_mods (f : gmultiset Z -> gmultiset Z) (w : world) : world :=
  World (socks w) (next_sock w) (sfiles w) (next_file w) (fds w) (f (mods w)) (sks w) (cur w).
Definition add_sks (d : Z) (w : world) : world :=
  World (socks w) (next_sock w) (sfiles w) (next_file w) (fds w) (mods w) (sks w + d) (cur w).
Definition set_cur (t : Attrs.task) (w : world) : world :=
  World (socks w) (next_sock w) (sfiles w) (next_file w) (fds w) (mods w) (sks w) t.

Definition module_get (o : Z) : world -> world := set_mods (fun m => {[+ o +]} ⊎ m).
Definition module_put (o : Z) : world -> world := set_mods (fun m => m ∖ {[+ o +]}).

(** sock_alloc. *)
Definition sock_alloc (ok : bool) (w : world) : option Z * world :=
  if ok then (Some (next_sock w),
    World (<[next_sock w:=Sock 0 None false None]> (socks w)) (next_sock w + 1) (sfiles w) (next_file w)
          (fds w) (mods w) (sks w) (cur w))
  else (None, w).

(** __sock_release: the protocol's release and the module reference, then the inode when
    no file is bound to the socket. *)
Definition __sock_release (sock : Z) (w : world) : world :=
  match socks w !! sock with
  | None => w
  | Some s =>
      let w := match s_ops s with
               | Some owner => module_put owner (if s_sk s then add_sks (-1) w else w)
               | None => w
               end in
      match s_file s with
      | None => set_socks (delete sock) w
      | Some _ =>
          let sk := match s_ops s with Some _ => false | None => s_sk s end in
          set_socks (insert sock (Sock (s_type s) None sk None)) w
      end
  end.
Definition sock_release (sock : Z) (w : world) : world := __sock_release sock w.

(** The last fput of a socket file: sock_close releases the socket, then the file's
    dentry gives the inode back. *)
Definition fput_last (file : Z) (w : world) : world :=
  match sfiles w !! file with
  | None => w
  | Some sock =>
      let w1 := __sock_release sock w in
      World (delete sock (socks w1)) (next_sock w1) (delete file (sfiles w1)) (next_file w1)
            (fds w1) (mods w1) (sks w1) (cur w1)
  end.

(** sock_alloc_file; [alloc] is an error of alloc_file_pseudo or 0. *)
Definition sock_alloc_file (alloc : Z) (sock : Z) (w : world) : (Z + Z) * world :=
  if negb (alloc =? 0) then (inl alloc, sock_release sock w)
  else
    let file := next_file w in
    let bind s := Sock (s_type s) (s_ops s) (s_sk s) (Some file) in
    (inr file, World (alter bind sock (socks w)) (next_sock w) (<[file:=sock]> (sfiles w)) (file + 1)
                     (fds w) (mods w) (sks w) (cur w)).

Definition get_unused_fd (fd : Z) (w : world) : world := set_fds (insert fd None) w.
Definition put_unused_fd (fd : Z) (w : world) : world := set_fds (delete fd) w.
Definition fd_install (fd file : Z) (w : world) : world := set_fds (insert fd (Some file)) w.

(** sock_map_fd; [fd] is what get_unused_fd_flags answers. *)
Definition sock_map_fd (fd alloc : Z) (sock : Z) (w : world) : Z * world :=
  if fd <? 0 then (fd, sock_release sock w)
  else
    let w := get_unused_fd fd w in
    match sock_alloc_file alloc sock w with
    | (inr newfile, w) => (fd, fd_install fd newfile w)
    | (inl e, w) => (e, put_unused_fd fd w)
    end.

(** What one call of __sock_create meets: the security hooks, the allocation, the owner
    of the family (none: not registered), whether its module can be pinned, the family's
    create (a result, and the owner of the operations it installs), whether that module
    can be pinned. *)
Record create_env := CreateEnv {
  sec_create : Z -> Z -> Z -> bool -> Z;
  alloc_ok : bool;
  net_families : Z -> option Z;
  pf_get_ok : bool;
  pf_create : Z -> Z -> bool -> Z * Z;
  ops_get_ok : bool;
  sec_post : Z -> Z -> Z -> bool -> Z
}.

(** The per-thread limit, as tested. *)
Definition limit_reached (t : Attrs.task) : bool :=
  (0 <? Attrs.max_socket_allowed t) && (Attrs.max_socket_allowed t <=? Attrs.socket_count t).

Definition count_socket (t : Attrs.task) : Attrs.task :=
  Attrs.Task (Attrs.t_uid t) (Attrs.t_euid t) (Attrs.usage t) (Attrs.max_socket_allowed t)
    (wraps 32 (Attrs.socket_count t + 1)) (Attrs.priority_level t).

(** __sock_create from the allocated socket on: the family's create and its errors. *)
Definition create_in_family (e : create_env) (sock family type protocol : Z) (kern : bool) (w : world)
    : Z * option Z * world :=
  let set_ops o sk := set_socks (alter (fun s => Sock (s_type s) o sk (s_file s)) sock) in
  match net_families e family with
  | None => (- EAFNOSUPPORT, None, sock_release sock w)
  | Some owner =>
      if negb (pf_get_ok e) then (- EAFNOSUPPORT, None, sock_release sock w)
      else
        let w := module_get owner w in
        let '(err, ops_owner) := pf_create e owner protocol kern in
        if err <? 0 then
          (err, None, sock_release sock (module_put owner (set_ops None false w)))
        else
          let w := add_sks 1 (set_ops (Some ops_owner) true w) in
          if negb (ops_get_ok e) then
            (- EAFNOSUPPORT, None, sock_release sock (module_put owner (set_ops None true w)))
          else
            let w := module_put owner (module_get ops_owner w) in
            let err := sec_post e family type protocol kern in
            if ztrue err then (err, None, sock_release sock w)
            else (0, Some sock,
                  if kern then w else set_cur (count_socket (cur w)) w)
  end.

(** __sock_create. *)
Definition __sock_create (e : create_env) (family type protocol : Z) (kern : bool) (w : world)
    : Z * option Z * world :=
  if (family <? 0) || (NPROTO <=? family) then (- EAFNOSUPPORT, None, w)
  else if (type <? 0) || (SOCK_MAX <=? type) then (- EINVAL, None, w)
  else if negb kern && limit_reached (cur w) then (- EMFILE, None, w)
  else
    let family := if (family =? PF_INET) && (type =? SOCK_PACKET) then PF_PACKET else family in
    let err := sec_create e family type protocol kern in
    if ztrue err then (err, None, w)
    else
      match sock_alloc (alloc_ok e) w with
      | (None, w) => (- ENFILE, None, w)
      | (Some sock, w) =>
          let w := set_socks (alter (fun s => Sock type (s_ops s) (s_sk s) (s_file s)) sock) w in
          create_in_family e sock family type protocol kern w
      end.

Definition sock_create (e : create_env) (family type protocol : Z) (w : world) :=
  __sock_create e family type protocol false w.
Definition sock_create_kern (e : create_env) (family type protocol : Z) (w : world) :=
  __sock_create e family type protocol true w.

(** The flags part of the type argument; SOCK_NONBLOCK is O_NONBLOCK here. *)
Definition type_flags (type : Z) : Z := Z.land type (Z.lnot SOCK_TYPE_MASK).
Definition bad_flags (flags : Z) : bool :=
  ztrue (Z.land flags (Z.lnot (Z.lor SOCK_CLOEXEC SOCK_NONBLOCK))).

(** __sys_socket; [None]: a creation that fails with a result that is not negative leaves
    the socket pointer uninitialised. *)
Definition __sys_socket (e : create_env) (fd alloc : Z) (family type protocol : Z) (w : world)
    : option (Z * world) :=
  if bad_flags (type_flags type) then Some (- EINVAL, w)
  else
    let '(retval, sock, w1) := sock_create e family (Z.land type SOCK_TYPE_MASK) protocol w in
    if retval <? 0 then Some (retval, w1)
    else sock ← sock; Some (sock_map_fd fd alloc sock w1).

(** What __sys_socketpair meets beside the two creations: the descriptors, the user
    writes, the hooks, the protocol's socketpair, the two files. *)
Record pair_env := PairEnv {
  fd1 : Z; fd2 : Z; put1 : Z; put2 : Z; sec_pair : Z; ops_pair : Z; file1 : Z; file2 : Z
}.

(** The label out: of __sys_socketpair. *)
Definition pair_out (pe : pair_env) (err : Z) (w : world) : Z * world :=
  (err, put_unused_fd (fd1 pe) (put_unused_fd (fd2 pe) w)).

(** __sys_socketpair with both sockets created. *)
Definition pair_files (pe : pair_env) (sock1 sock2 : Z) (w : world) : Z * world :=
  if ztrue (sec_pair pe) then
    pair_out pe (sec_pair pe) (sock_release sock1 (sock_release sock2 w))
  else if ops_pair pe <? 0 then
    pair_out pe (ops_pair pe) (sock_release sock1 (sock_release sock2 w))
  else
    match sock_alloc_file (file1 pe) sock1 w with
    | (inl err, w) => pair_out pe err (sock_release sock2 w)
    | (inr newfile1, w) =>
        match sock_alloc_file (file2 pe) sock2 w with
        | (inl err, w) => pair_out pe err (fput_last newfile1 w)
        | (inr newfile2, w) =>
            (0, fd_install (fd2 pe) newfile2 (fd_install (fd1 pe) newfile1 w))
        end
    end.

(** From the two creations on. *)
Definition pair_create (e1 e2 : create_env) (pe : pair_env) (family type protocol : Z) (w : world)
    : option (Z * world) :=
  let '(err, sock1, w) := sock_create e1 family type protocol w in
  if err <? 0 then Some (pair_out pe err w)
  else
    sock1 ← sock1;
    let '(err, sock2, w) := sock_create e2 family type protocol w in
    if err <? 0 then Some (pair_out pe err (sock_release sock1 w))
    else sock2 ← sock2; Some (pair_files pe sock1 sock2 w).

Definition __sys_socketpair (e1 e2 : create_env) (pe : pair_env) (family type protocol : Z)
    (w : world) : option (Z * world) :=
  if bad_flags (type_flags type) then Some (- EINVAL, w)
  else
    let type := Z.land type SOCK_TYPE_MASK in
    if fd1 pe <? 0 then Some (fd1 pe, w)
    else
      let w := get_unused_fd (fd1 pe) w in
      if fd2 pe <? 0 then Some (fd2 pe, put_unused_fd (fd1 pe) w)
      else
        let w := get_unused_fd (fd2 pe) w in
        if ztrue (put1 pe) then Some (pair_out pe (put1 pe) w)
        else if ztrue (put2 pe) then Some (pair_out pe (put2 pe) w)
        else pair_create e1 e2 pe family type protocol w.

(** What do_accept meets: the allocation, the file, the hook, the protocol's accept, the
    peer's name (asked for when [want_peer]) and its copy to the user. *)
Record accept_env := AcceptEnv {
  acc_alloc_ok : bool; acc_file : Z; sec_accept : Z; ops_accept : Z;
  want_peer : bool; getname : Z; to_user : Z
}.

(** do_accept: the new file or an error; [None]: the socket has no operations. *)
Definition do_accept (ae : accept_env) (file : Z) (w : world) : option ((Z + Z) * world) :=
  match sfiles w !! file with
  | None => Some (inl (- ENOTSOCK), w)
  | Some sock =>
    match sock_alloc (acc_alloc_ok ae) w with
    | (None, w) => Some (inl (- ENFILE), w)
    | (Some newsock, w) =>
        s ← socks w !! sock;
        owner ← s_ops s;
        let w := module_get owner (set_socks (insert newsock (Sock (s_type s) (Some owner) false None)) w) in
        match sock_alloc_file (acc_file ae) newsock w with
        | (inl e, w) => Some (inl e, w)
        | (inr newfile, w) =>
            if ztrue (sec_accept ae) then Some (inl (sec_accept ae), fput_last newfile w)
            else if ops_accept ae <? 0 then Some (inl (ops_accept ae), fput_last newfile w)
            else
              let graft s := Sock (s_type s) (s_ops s) true (s_file s) in
              let w := add_sks 1 (set_socks (alter graft newsock) w) in
              if want_peer ae && (getname ae <? 0)
              then Some (inl (- ECONNABORTED), fput_last newfile w)
              else if want_peer ae && (to_user ae <? 0)
              then Some (inl (to_user ae), fput_last newfile w)
              else Some (inr newfile, w)
        end
    end
  end.

Definition __sys_accept4_file (ae : accept_env) (newfd : Z) (file flags : Z) (w : world)
    : option (Z * world) :=
  if bad_flags flags then Some (- EINVAL, w)
  else if newfd <? 0 then Some (newfd, w)
  else
    '(r, w) ← do_accept ae file (get_unused_fd newfd w);
    match r with
    | inl e => Some (e, put_unused_fd newfd w)
    | inr newfile => Some (newfd, fd_install newfd newfile w)
    end.

Definition __sys_accept4 (ae : accept_env) (newfd fd flags : Z) (w : world) : option (Z * world) :=
  match fds w !! fd with
  | Some (Some file) => __sys_accept4_file ae newfd file flags w
  | _ => Some (- EBADF, w)
  end.

(** ** Single sockets and files *)

Definition wf (w : world) : Prop :=
  (forall k, next_sock w <= k -> socks w !! k = None) /\
  (forall f, next_file w <= f -> sfiles w !! f = None) /\
  (forall f k, sfiles w !! f = Some k ->
     exists s, socks w !! k = Some s /\ is_Some (s_ops s)).

(** [w'] is [w] with the new socket [s]. *)
Definition plus_sock (s : socket) (w w' : world) : Prop :=
  socks w' = <[next_sock w:=s]> (socks w) /\ next_sock w' = next_sock w + 1 /\
  sfiles w' = sfiles w /\ next_file w' = next_file w /\ fds w' = fds w.

(** Releasing a socket without a file takes it, its module reference and its protocol
    sock away. *)
Lemma sock_release_new k s m (w : world) :
  socks w = <[k:=s]> m -> m !! k = None -> s_file s = None ->
  sock_release k w =
  World m (next_sock w) (sfiles w) (next_file w) (fds w)
    (match s_ops s with Some o => mods w ∖ {[+ o +]} | None => mods w end)
    (match s_ops s with Some _ => if s_sk s then sks w - 1 else sks w | None => sks w end) (cur w).
Proof.
  intros Hs Hm Hf. unfold sock_release, __sock_release. rewrite Hs, lookup_insert_eq, Hf.
  destruct (s_ops s), (s_sk s); unfold set_socks; simpl; rewrite Hs, delete_insert_id by done; done.
Qed.

(** The last reference on a new socket file takes file and socket away. *)
Lemma fput_last_new f k s m fm (w : world) :
  socks w = <[k:=s]> m -> m !! k = None -> sfiles w = <[f:=k]> fm -> fm !! f = None ->
  s_file s = Some f ->
  fput_last f w =
  World m (next_sock w) fm (next_file w) (fds w)
    (match s_ops s with Some o => mods w ∖ {[+ o +]} | None => mods w end)
    (match s_ops s with Some _ => if s_sk s then sks w - 1 else sks w | None => sks w end) (cur w).
Proof.
  intros Hs Hm Hf Hfm Hsf. unfold fput_last. rewrite Hf, lookup_insert_eq.
  unfold __sock_release. rewrite Hs, lookup_insert_eq, Hsf.
  destruct (s_ops s), (s_sk s); unfold set_socks; simpl; rewrite Hs, Hf;
    rewrite insert_insert_eq, !delete_insert_id by done; done.
Qed.

(** What a call leaves behind when it fails: nothing, but for one protocol sock per
    creation whose module was going away. *)
Definition same_res (w w' : world) : Prop :=
  socks w' = socks w /\ sfiles w' = sfiles w /\ next_file w <= next_file w' /\
  next_sock w <= next_sock w' /\ mods w' = mods w.

Definition env_ok (e : create_env) : Prop :=
  (forall f t p k, sec_create e f t p k <= 0) /\ (forall f t p k, sec_post e f t p k <= 0).

(** Everything __sock_create may do. *)
Definition create_post (e : create_env) (type : Z) (kern : bool) (w : world)
    (err : Z) (res : option Z) (w' : world) : Prop :=
  (err < 0 /\ res = None /\ same_res w w' /\ fds w' = fds w /\ cur w' = cur w /\
     (sks w' = sks w \/ ops_get_ok e = false /\ sks w' = sks w + 1)) \/
  (err = 0 /\ res = Some (next_sock w) /\ (kern = false -> limit_reached (cur w) = false) /\
     cur w' = (if kern then cur w else count_socket (cur w)) /\
     exists o, plus_sock (Sock type (Some o) true None) w w' /\
       mods w' = {[+ o +]} ⊎ mods w /\ sks w' = sks w + 1).

Lemma multi_put (x : Z) (m : gmultiset Z) : ({[+ x +]} ⊎ m) ∖ {[+ x +]} = m.
Proof. multiset_solver. Qed.
Lemma multi_swap (x y : Z) (m : gmultiset Z) : ({[+ y +]} ⊎ ({[+ x +]} ⊎ m)) ∖ {[+ x +]} = {[+ y +]} ⊎ m.
Proof. multiset_solver. Qed.

Lemma create_in_family_post e family type protocol kern (w w1 : world) err res w' :
  env_ok e -> wf w -> (kern = false -> limit_reached (cur w) = false) ->
  w1 = World (<[next_sock w:=Sock type None false None]> (socks w)) (next_sock w + 1) (sfiles w)
         (next_file w) (fds w) (mods w) (sks w) (cur w) ->
  create_in_family e (next_sock w) family type protocol kern w1 = (err, res, w') ->
  create_post e type kern w err res w'.
Proof.
  intros [_ Hpost] [Hwf _] Hlim -> H. assert (socks w !! next_sock w = None) as Hn by (apply Hwf; lia).
  unfold create_in_family in H.
  destruct (net_families e family) as [owner|]; [destruct (pf_get_ok e)|]; simpl in H.
  2-3: injection H as <- <- <-; left; (split; [done|]); (split; [done|]);
       erewrite sock_release_new by done; simpl; (split; [by repeat split; simpl; lia|]); auto.
  destruct (pf_create e owner protocol kern) as [cerr o]. destruct (Z.ltb_spec cerr 0).
  { injection H as <- <- <-. left. split; [done|]. split; [done|].
    erewrite sock_release_new; [|simpl; by rewrite alter_insert_eq|done|done]. simpl.
    rewrite multi_put. split; [by repeat split; simpl; lia|]. auto. }
  destruct (ops_get_ok e) eqn:Eg; simpl in H.
  2: { injection H as <- <- <-. left. split; [done|]. split; [done|].
       erewrite sock_release_new; [|simpl; by rewrite !alter_insert_eq|done|done]. simpl.
       rewrite multi_put. split; [by repeat split; simpl; lia|]. auto. }
  specialize (Hpost family type protocol kern). unfold ztrue in H.
  destruct (Z.eqb_spec (sec_post e family type protocol kern) 0); simpl in H; injection H as <- <- <-.
  - right. split; [done|]. split; [done|]. split; [done|]. split; [by destruct kern|].
    exists o. unfold plus_sock. destruct kern; simpl; rewrite alter_insert_eq, multi_swap; by repeat split.
  - left. split; [lia|]. split; [done|].
    erewrite sock_release_new; [|simpl; by rewrite alter_insert_eq|done|done]. simpl.
    rewrite multi_swap, multi_put. split; [by repeat split; simpl; lia|]. split; [done|].
    split; [done|]. left. lia.
Qed.

Lemma sock_create_post e family type protocol kern (w : world) err res w' :
  env_ok e -> wf w -> __sock_create e family type protocol kern w = (err, res, w') ->
  create_post e type kern w err res w'.
Proof.
  intros He Hwf H. unfold __sock_create in H.
  assert (forall x, x < 0 -> create_post e type kern w x None w) as Hfail.
  { intros x Hx. left. repeat split; auto; lia. }
  destruct ((family <? 0) || (NPROTO <=? family))%bool; [injection H as <- <- <-; by apply Hfail|].
  destruct ((type <? 0) || (SOCK_MAX <=? type))%bool; [injection H as <- <- <-; by apply Hfail|].
  destruct (negb kern && limit_reached (cur w))%bool eqn:El; [injection H as <- <- <-; by apply Hfail|].
  set (fam := if ((family =? PF_INET) && (type =? SOCK_PACKET))%bool then PF_PACKET else family) in *.
  unfold ztrue in H. pose proof (proj1 He fam type protocol kern).
  destruct (Z.eqb_spec (sec_create e fam type protocol kern) 0); simpl in H;
    [|injection H as <- <- <-; apply Hfail; lia].
  unfold sock_alloc in H. destruct (alloc_ok e); [|injection H as <- <- <-; by apply Hfail].
  eapply (create_in_family_post e fam type protocol kern w); [done|done| | |exact H].
  - intros ->. by simpl in El.
  - unfold set_socks; simpl. by rewrite alter_insert_eq.
Qed.

(** ** The system calls *)

Inductive call :=
| CSocket (e : create_env) (fd alloc family type protocol : Z)
| CPair (e1 e2 : create_env) (pe : pair_env) (family type protocol : Z)
| CAccept (ae : accept_env) (newfd fd flags : Z).

Definition run_call (c : call) (w : world) : option (Z * world) :=
  match c with
  | CSocket e fd alloc family type protocol => __sys_socket e fd alloc family type protocol w
  | CPair e1 e2 pe family type protocol => __sys_socketpair e1 e2 pe family type protocol w
  | CAccept ae newfd fd flags => __sys_accept4 ae newfd fd flags w
  end.

(** A descriptor that is handed out is not in use; errors are not positive. *)
Definition unused (fd : Z) (w : world) : Prop := 0 <= fd -> fds w !! fd = None.
Definition call_ok (c : call) (w : world) : Prop :=
  match c with
  | CSocket e fd alloc _ _ _ => env_ok e /\ unused fd w /\ alloc <= 0
  | CPair e1 e2 pe _ _ _ =>
      env_ok e1 /\ env_ok e2 /\ unused (fd1 pe) w /\ unused (fd2 pe) w /\ fd1 pe <> fd2 pe /\
      put1 pe <= 0 /\ put2 pe <= 0 /\ sec_pair pe <= 0 /\ file1 pe <= 0 /\ file2 pe <= 0
  | CAccept ae newfd _ _ => unused newfd w /\ acc_file ae <= 0 /\ sec_accept ae <= 0
  end.

(** The descriptor [fd] now names a new socket. *)
Definition opened (w w' : world) (fd : Z) : Prop :=
  fds w !! fd = None /\
  exists f k s, fds w' !! fd = Some (Some f) /\ sfiles w' !! f = Some k /\ sfiles w !! f = None /\
    socks w' !! k = Some s /\ socks w !! k = None /\ s_file s = Some f /\ is_Some (s_ops s).

(** Everything that was there stays, and exactly the descriptors [l] are new. *)
Definition extends (w w' : world) (l : list Z) : Prop :=
  socks w ⊆ socks w' /\ sfiles w ⊆ sfiles w' /\ fds w ⊆ fds w' /\
  dom (fds w') = list_to_set l ∪ dom (fds w) /\ Forall (opened w w') l.

Definition call_post (w : world) (l : list Z) (r : Z) (w' : world) : Prop :=
  wf w' /\
  ((r < 0 /\ same_res w w' /\ fds w' = fds w) \/
   (0 <= r /\ extends w w' l /\ (l = [r] \/ length l = 2%nat))).

Lemma wf_same w w' : wf w -> same_res w w' -> wf w'.
Proof.
  intros (H1 & H2 & H3) (S1 & S2 & S3 & S4 & _). split_and!.
  - intros k Hk. rewrite S1. apply H1. lia.
  - intros f Hf. rewrite S2. apply H2. lia.
  - intros f k. rewrite S1, S2. apply H3.
Qed.

Lemma same_res_refl w : same_res w w.
Proof. repeat split; lia. Qed.

Lemma failed w l r w' : wf w -> r < 0 -> same_res w w' -> fds w' = fds w -> call_post w l r w'.
Proof. intros. split; [by eapply wf_same|]. by left. Qed.

(** One new socket, one new file, one new descriptor. *)
Lemma opened_one (w w' : world) fd s :
  wf w -> 0 <= fd -> fds w !! fd = None -> s_file s = Some (next_file w) -> is_Some (s_ops s) ->
  socks w' = <[next_sock w:=s]> (socks w) -> next_sock w' = next_sock w + 1 ->
  sfiles w' = <[next_file w:=next_sock w]> (sfiles w) -> next_file w' = next_file w + 1 ->
  fds w' = <[fd:=Some (next_file w)]> (fds w) ->
  call_post w [fd] fd w'.
Proof.
  intros (H1 & H2 & H3) Hfd Hfree Hsf Hops S1 S2 S3 S4 S5.
  assert (socks w !! next_sock w = None) by (apply H1; lia).
  assert (sfiles w !! next_file w = None) by (apply H2; lia).
  split.
  - split_and!.
    + intros k Hk. rewrite S1, lookup_insert_ne by lia. apply H1. lia.
    + intros f Hf. rewrite S3, lookup_insert_ne by lia. apply H2. lia.
    + intros f k. rewrite S3, S1, lookup_insert_Some. intros [[_ <-]|[_ Hf]].
      * exists s. by rewrite lookup_insert_eq.
      * destruct (H3 f k Hf) as (s' & Hs' & ?). exists s'.
        rewrite lookup_insert_ne by congruence. done.
  - right. split; [done|]. split; [|by left]. unfold extends. rewrite S1, S3, S5. split_and!.
    + by apply insert_subseteq.
    + by apply insert_subseteq.
    + by apply insert_subseteq.
    + rewrite dom_insert_L. set_solver.
    + constructor; [|constructor]. split; [done|].
      exists (next_file w), (next_sock w), s. rewrite S1, S3, S5, !lookup_insert_eq. done.
Qed.

Lemma sys_socket_post e fd alloc family type protocol w :
  wf w -> env_ok e -> unused fd w -> alloc <= 0 ->
  exists r w', __sys_socket e fd alloc family type protocol w = Some (r, w') /\ call_post w [fd] r w'.
Proof.
  intros Hwf He Hfd Hal. unfold __sys_socket, sock_create.
  destruct (bad_flags _).
  { do 2 eexists. split; [done|]. apply failed; done || apply same_res_refl. }
  destruct (__sock_create _ _ _ _ _ _) as [[err res] w1] eqn:Ec.
  apply sock_create_post in Ec as [(He0 & -> & Hs & Hf & _)|(-> & -> & _ & _ & o & (S1 & S2 & S3 & S4 & S5) & Hm & Hk)];
    [| |done|done].
  { rewrite (proj2 (Z.ltb_lt err 0)) by done. do 2 eexists. split; [done|]. by apply failed. }
  simpl. do 2 eexists. split; [f_equal; apply surjective_pairing|]. pose proof Hwf as (H1 & H2 & H3).
  assert (socks w !! next_sock w = None) as Hn by (apply H1; lia).
  assert (same_res w (sock_release (next_sock w) w1) /\ fds (sock_release (next_sock w) w1) = fds w) as [Hrel Hrf].
  { erewrite sock_release_new by done. simpl. rewrite Hm, multi_put. repeat split; simpl; try done; lia. }
  unfold sock_map_fd. destruct (Z.ltb_spec fd 0); [by apply failed|].
  unfold sock_alloc_file. destruct (Z.eqb_spec alloc 0) as [->|]; simpl.
  - eapply (opened_one w _ fd (Sock _ (Some o) true (Some (next_file w)))); simpl; try done; [by apply Hfd|..].
    + by rewrite S1, alter_insert_eq, S4.
    + by rewrite S3, S4.
    + lia.
    + by rewrite insert_insert_eq, S4, S5.
  - apply failed; [done|lia| |].
    + erewrite sock_release_new by done. simpl. rewrite Hm, multi_put. repeat split; simpl; try done; lia.
    + erewrite sock_release_new by done. simpl. rewrite S5, delete_insert_id by by apply Hfd. done.
Qed.

(** The exit of socketpair: with the resources as before, the call has failed cleanly. *)
Lemma pair_out_failed pe l err w w1 r w' :
  pair_out pe err w1 = (r, w') -> wf w -> 0 <= fd1 pe -> 0 <= fd2 pe -> unused (fd1 pe) w -> unused (fd2 pe) w -> fd1 pe <> fd2 pe ->
  err < 0 -> same_res w w1 -> fds w1 = <[fd2 pe:=None]> (<[fd1 pe:=None]> (fds w)) ->
  call_post w l r w'.
Proof.
  intros [= <- <-] Hwf P1 P2 U1 U2 Hne Herr Hs Hf. apply failed; [done|done|exact Hs|]. simpl.
  rewrite Hf, delete_insert_id, delete_insert_id; [done|by apply U1|].
  rewrite lookup_insert_ne by done. by apply U2.
Qed.

(** Two new sockets in the world. *)
Definition two_socks (s1 s2 : socket) (w w' : world) : Prop :=
  socks w' = <[next_sock w + 1:=s2]> (<[next_sock w:=s1]> (socks w)) /\
  next_sock w' = next_sock w + 2.

(** Two new sockets with two new files and descriptors. *)
Lemma opened_two (w w' : world) a b s1 s2 :
  wf w -> a <> b -> fds w !! a = None -> fds w !! b = None ->
  s_file s1 = Some (next_file w) -> s_file s2 = Some (next_file w + 1) ->
  is_Some (s_ops s1) -> is_Some (s_ops s2) -> two_socks s1 s2 w w' ->
  sfiles w' = <[next_file w + 1:=next_sock w + 1]> (<[next_file w:=next_sock w]> (sfiles w)) ->
  next_file w' = next_file w + 2 ->
  fds w' = <[b:=Some (next_file w + 1)]> (<[a:=Some (next_file w)]> (fds w)) ->
  call_post w [a; b] 0 w'.
Proof.
  intros (H1 & H2 & H3) Hab Ha Hb F1 F2 O1 O2 [S1 S2] S3 S4 S5.
  assert (forall k, next_sock w <= k -> socks w !! k = None) as Hsk by exact H1.
  assert (forall f, next_file w <= f -> sfiles w !! f = None) as Hsf by exact H2.
  split.
  - split_and!.
    + intros k Hk. rewrite S1, !lookup_insert_ne by lia. apply H1. lia.
    + intros f Hf. rewrite S3, !lookup_insert_ne by lia. apply H2. lia.
    + intros f k. rewrite S3, S1, !lookup_insert_Some. intros [[_ <-]|[_ [[_ <-]|[_ Hf]]]].
      * exists s2. by rewrite lookup_insert_eq.
      * exists s1. rewrite lookup_insert_ne by lia. by rewrite lookup_insert_eq.
      * destruct (H3 f k Hf) as (s' & Hs' & ?). exists s'. split; [|done].
        rewrite !lookup_insert_ne; [done| |]; intros <-; rewrite Hsk in Hs' by lia; done.
  - right. split; [done|]. split; [|by right]. unfold extends. rewrite S1, S3, S5. split_and!.
    + etransitivity; apply insert_subseteq; [apply Hsk; lia|].
      rewrite lookup_insert_ne by lia. apply Hsk. lia.
    + etransitivity; apply insert_subseteq; [apply Hsf; lia|].
      rewrite lookup_insert_ne by lia. apply Hsf. lia.
    + etransitivity; apply insert_subseteq; [done|]. by rewrite lookup_insert_ne.
    + rewrite !dom_insert_L. set_solver.
    + repeat constructor; try done.
      * exists (next_file w), (next_sock w), s1. rewrite S1, S3, S5.
        split_and!; try done; try (apply Hsk; lia); try (apply Hsf; lia);
          rewrite lookup_insert_ne, lookup_insert_eq by (done || lia); done.
      * exists (next_file w + 1), (next_sock w + 1), s2. rewrite S1, S3, S5, !lookup_insert_eq.
        rewrite Hsk, Hsf by lia. done.
Qed.

Lemma pair_files_post pe o1 o2 ty (w w2 : world) r w' :
  pair_files pe (next_sock w) (next_sock w + 1) w2 = (r, w') -> wf w -> 0 <= fd1 pe -> 0 <= fd2 pe -> unused (fd1 pe) w -> unused (fd2 pe) w -> fd1 pe <> fd2 pe ->
  sec_pair pe <= 0 -> file1 pe <= 0 -> file2 pe <= 0 ->
  two_socks (Sock ty (Some o1) true None) (Sock ty (Some o2) true None) w w2 ->
  sfiles w2 = sfiles w -> next_file w2 = next_file w ->
  fds w2 = <[fd2 pe:=None]> (<[fd1 pe:=None]> (fds w)) ->
  mods w2 = {[+ o2 +]} ⊎ ({[+ o1 +]} ⊎ mods w) ->
  call_post w [fd1 pe; fd2 pe] r w'.
Proof.
  intros R Hwf P1 P2 U1 U2 Hne Hsp Hf1 Hf2 [S1 S2] S3 S4 S5 Hm. pose proof Hwf as (H1 & H2 & _).
  assert (forall k, next_sock w <= k -> socks w !! k = None) as Hsk by exact H1.
  set (s1 := Sock ty (Some o1) true None) in *. set (s2 := Sock ty (Some o2) true None) in *.
  set (k1 := next_sock w) in *. set (k2 := k1 + 1) in *.
  assert ((<[k1:=s1]> (socks w)) !! k2 = None) as Hk2
    by (rewrite lookup_insert_ne by lia; apply Hsk; lia).
  assert (socks w2 = <[k1:=s1]> (<[k2:=s2]> (socks w))) as S1'
    by (rewrite S1; apply insert_insert_ne; lia).
  assert ((<[k2:=s2]> (socks w)) !! k1 = None) as Hk1
    by (rewrite lookup_insert_ne by lia; apply Hsk; lia).
  assert (same_res w (sock_release k1 (sock_release k2 w2)) /\
    fds (sock_release k1 (sock_release k2 w2)) = fds w2) as [Hrel Hrelf].
  { erewrite (sock_release_new k2) by done. erewrite (sock_release_new k1) by (done || apply Hsk; lia).
    simpl. rewrite Hm, !multi_put. repeat split; simpl; try done; lia. }
  unfold pair_files, ztrue in R. destruct (Z.eqb_spec (sec_pair pe) 0); simpl negb in R; cbv iota in R.
  2: { apply (pair_out_failed _ _ _ _ _ _ _ R); try done; [lia|by rewrite Hrelf]. }
  destruct (Z.ltb_spec (ops_pair pe) 0); [apply (pair_out_failed _ _ _ _ _ _ _ R); try done; by rewrite Hrelf|].
  unfold sock_alloc_file at 1 in R. destruct (Z.eqb_spec (file1 pe) 0); simpl negb in R; cbv iota in R.
  2: { erewrite (sock_release_new k1) in R by done.
       erewrite (sock_release_new k2) in R by (done || apply Hsk; lia).
       apply (pair_out_failed _ _ _ _ _ _ _ R); try done; [lia|]. simpl. rewrite Hm, multi_swap, multi_put.
       repeat split; simpl; try done; lia. }
  unfold sock_alloc_file in R. cbn [socks next_sock sfiles next_file fds mods sks cur] in R.
  destruct (Z.eqb_spec (file2 pe) 0); simpl negb in R; cbv iota in R.
  - injection R as <- <-.
    apply (opened_two w _ _ _ (Sock ty (Some o1) true (Some (next_file w)))
      (Sock ty (Some o2) true (Some (next_file w + 1)))); try done; try (by apply U1); try (by apply U2); simpl.
    + split; simpl; [|done]. rewrite S1', alter_insert_eq. simpl.
      rewrite insert_insert_ne, alter_insert_eq, S4 by lia. done.
    + by rewrite S3, S4.
    + lia.
    + rewrite S5, S4. apply map_eq. intros x.
      destruct (decide (x = fd2 pe)) as [->|]; [by rewrite !lookup_insert_eq|].
      rewrite !(lookup_insert_ne _ (fd2 pe) x) by done.
      destruct (decide (x = fd1 pe)) as [->|]; [by rewrite !lookup_insert_eq|].
      rewrite !lookup_insert_ne by done. done.
  - set (f1 := next_file w2) in *. 
    erewrite (sock_release_new k2 s2 (<[k1:=Sock ty (Some o1) true (Some f1)]> (socks w))) in R;
      [|simpl; by rewrite S1', alter_insert_eq, insert_insert_ne by lia
       |rewrite lookup_insert_ne by lia; apply Hsk; lia|done].
    simpl in R. rewrite S3, Hm, multi_put in R.
    rewrite (fput_last_new f1 k1 (Sock ty (Some o1) true (Some f1)) (socks w) (sfiles w)) in R;
      [|done|apply Hsk; lia|done|apply H2; lia|done].
    simpl in R. rewrite multi_put in R. apply (pair_out_failed _ _ _ _ _ _ _ R); try done; [lia|].
    repeat split; simpl; try done; try (unfold f1); lia.
Qed.

Lemma wf_fds f w : wf w -> wf (set_fds f w).
Proof. done. Qed.

Lemma sys_socketpair_post e1 e2 pe family type protocol w :
  wf w -> call_ok (CPair e1 e2 pe family type protocol) w ->
  exists r w', __sys_socketpair e1 e2 pe family type protocol w = Some (r, w') /\
    call_post w [fd1 pe; fd2 pe] r w'.
Proof.
  intros Hwf (He1 & He2 & U1 & U2 & Hne & Hp1 & Hp2 & Hsp & Hf1 & Hf2). unfold __sys_socketpair.
  destruct (bad_flags _).
  { do 2 eexists. split; [done|]. apply failed; done || apply same_res_refl. }
  destruct (Z.ltb_spec (fd1 pe) 0).
  { do 2 eexists. split; [done|]. apply failed; done || apply same_res_refl. }
  destruct (Z.ltb_spec (fd2 pe) 0).
  { do 2 eexists. split; [done|]. apply failed; [done|done|repeat split; simpl; lia|].
    simpl. by rewrite delete_insert_id by by apply U1. }
  set (w0 := get_unused_fd (fd2 pe) (get_unused_fd (fd1 pe) w)).
  assert (wf w0) as Hwf0 by exact Hwf.
  assert (same_res w w0) as Hs0 by (repeat split; simpl; lia).
  assert (forall err w1, err < 0 -> same_res w w1 -> fds w1 = fds w0 ->
    exists r w', Some (pair_out pe err w1) = Some (r, w') /\ call_post w [fd1 pe; fd2 pe] r w') as Hout.
  { intros err w1 Herr Hs Hf. destruct (pair_out pe err w1) as [r w'] eqn:E. exists r, w'. split; [done|].
    by apply (pair_out_failed _ _ _ _ _ _ _ E). }
  unfold ztrue. destruct (Z.eqb_spec (put1 pe) 0); simpl negb; cbv iota; [|apply Hout; done || lia].
  destruct (Z.eqb_spec (put2 pe) 0); simpl negb; cbv iota; [|apply Hout; done || lia].
  unfold pair_create, sock_create. set (ty := Z.land type SOCK_TYPE_MASK).
  destruct (__sock_create e1 _ _ _ _ _) as [[err res] w1] eqn:Ec1.
  apply sock_create_post in Ec1 as [(Hneg & -> & Hs & Hf & _)|(-> & -> & _ & _ & o1 & (A1 & A2 & A3 & A4 & A5) & Am & _)];
    [| |done|done].
  { rewrite (proj2 (Z.ltb_lt err 0)) by done. apply Hout; done. }
  simpl. assert (wf w1) as Hwf1.
  { destruct Hwf as (H1 & H2 & H3). split_and!.
    - intros k Hk. rewrite A1, lookup_insert_ne by (simpl in *; lia). apply H1. simpl in *. lia.
    - intros f Hfl. rewrite A3. apply H2. simpl in *. lia.
    - intros f k. rewrite A1, A3. intros Hk. destruct (H3 f k Hk) as (s & Hsk & Ho). exists s.
      simpl. destruct (decide (k = next_sock w)) as [->|]; [|by rewrite lookup_insert_ne].
      rewrite H1 in Hsk by lia. done. }
  destruct (__sock_create e2 _ _ _ _ _) as [[err res] w2] eqn:Ec2.
  apply sock_create_post in Ec2 as [(Hneg & -> & Hs & Hf & _)|(-> & -> & _ & _ & o2 & (B1 & B2 & B3 & B4 & B5) & Bm & _)];
    [| |done|done].
  { rewrite (proj2 (Z.ltb_lt err 0)) by done. destruct Hs as (C1 & C2 & C3 & C4 & C5).
    assert (socks w !! next_sock w = None) by (apply Hwf; lia).
    erewrite sock_release_new; [|by rewrite C1, A1|done|done]. simpl in *.
    apply Hout; simpl; [done| |congruence].
    rewrite C5, Am, multi_put. repeat split; simpl; try congruence; lia. }
  simpl. destruct (pair_files pe (next_sock w) (next_sock w1) w2) as [r w'] eqn:E. exists r, w'. split; [done|].
  simpl in *. rewrite A2 in E. apply (pair_files_post pe o1 o2 ty w w2 _ _ E); try done; try congruence.
  split; [by rewrite B1, A1, A2|lia].
Qed.

Lemma do_accept_post ae file w :
  wf w -> acc_file ae <= 0 -> sec_accept ae <= 0 ->
  exists r w', do_accept ae file w = Some (r, w') /\
    ((exists e, r = inl e /\ e < 0 /\ same_res w w' /\ fds w' = fds w) \/
     (r = inr (next_file w) /\ exists s, s_file s = Some (next_file w) /\ is_Some (s_ops s) /\
        socks w' = <[next_sock w:=s]> (socks w) /\ next_sock w' = next_sock w + 1 /\
        sfiles w' = <[next_file w:=next_sock w]> (sfiles w) /\ next_file w' = next_file w + 1 /\
        fds w' = fds w)).
Proof.
  intros (H1 & H2 & H3) Hf Hsec. unfold do_accept.
  destruct (sfiles w !! file) as [sock|] eqn:Ef.
  2: { do 2 eexists. split; [done|]. left. eexists. split; [done|]. split; [done|].
       split; [apply same_res_refl|done]. }
  destruct (H3 _ _ Ef) as (s & Hs & [owner Ho]).
  assert (socks w !! next_sock w = None) as Hn by (apply H1; lia).
  assert (sfiles w !! next_file w = None) as Hnf by (apply H2; lia).
  unfold sock_alloc. destruct (acc_alloc_ok ae).
  2: { do 2 eexists. split; [done|]. left. eexists. split; [done|]. split; [done|].
       split; [apply same_res_refl|done]. }
  cbn [socks]. rewrite lookup_insert_ne, Hs by congruence. cbn [mbind option_bind]. rewrite Ho.
  cbn [mbind option_bind]. unfold module_get, set_mods, set_socks.
  cbn [socks next_sock sfiles next_file fds mods sks cur]. rewrite insert_insert_eq.
  unfold sock_alloc_file. destruct (Z.eqb_spec (acc_file ae) 0); simpl negb; cbv iota.
  2: { do 2 eexists. split; [done|]. left. eexists. split; [done|]. split; [lia|].
       erewrite sock_release_new by done. simpl. rewrite multi_put.
       split; [|done]. repeat split; simpl; lia. }
  cbn [socks next_sock sfiles next_file fds mods sks cur]. rewrite alter_insert_eq.
  cbn [s_type s_ops s_sk s_file].
  set (file' := next_file w). set (sk := next_sock w).
  assert (forall b n e (w1 : world), e < 0 ->
    w1 = World (<[sk:=Sock (s_type s) (Some owner) b (Some file')]> (socks w)) (sk + 1)
           (<[file':=sk]> (sfiles w)) (file' + 1) (fds w) ({[+ owner +]} ⊎ mods w) n (cur w) ->
    exists r w', Some (inl (B:=Z) e, fput_last file' w1) = Some (r, w') /\
      ((exists e, r = inl e /\ e < 0 /\ same_res w w' /\ fds w' = fds w) \/
       (r = inr (next_file w) /\ exists s, s_file s = Some (next_file w) /\ is_Some (s_ops s) /\
        socks w' = <[next_sock w:=s]> (socks w) /\ next_sock w' = next_sock w + 1 /\
        sfiles w' = <[next_file w:=next_sock w]> (sfiles w) /\ next_file w' = next_file w + 1 /\
        fds w' = fds w))) as Hout.
  { intros b n e' w1 He ->. do 2 eexists. split; [done|]. left. exists e'. split; [done|].
    split; [done|]. erewrite fput_last_new by done. simpl. rewrite multi_put.
    split; [|done]. repeat split; simpl; lia. }
  unfold ztrue. destruct (Z.eqb_spec (sec_accept ae) 0); simpl negb; cbv iota;
    [|eapply Hout; [lia|done]].
  destruct (Z.ltb_spec (ops_accept ae) 0); [by eapply Hout|].
  unfold add_sks. cbn [socks next_sock sfiles next_file fds mods sks cur]. rewrite alter_insert_eq.
  cbn [s_type s_ops s_sk s_file].
  destruct (want_peer ae && (getname ae <? 0))%bool; [by eapply Hout|].
  destruct (want_peer ae && (to_user ae <? 0))%bool eqn:Eu;
    [apply andb_true_iff in Eu as [_ Eu%Z.ltb_lt]; by eapply Hout|].
  do 2 eexists. split; [done|]. right. split; [done|].
  exists (Sock (s_type s) (Some owner) true (Some file')). by split_and!.
Qed.

Lemma sys_accept_post ae newfd fd flags w :
  wf w -> call_ok (CAccept ae newfd fd flags) w ->
  exists r w', __sys_accept4 ae newfd fd flags w = Some (r, w') /\ call_post w [newfd] r w'.
Proof.
  intros Hwf (U & Hf & Hsec). unfold __sys_accept4.
  assert (forall e, e < 0 -> exists r w', Some (e, w) = Some (r, w') /\ call_post w [newfd] r w') as Hfail.
  { intros e He. do 2 eexists. split; [done|]. apply failed; done || apply same_res_refl. }
  destruct (fds w !! fd) as [[file|]|]; [|by apply Hfail|by apply Hfail].
  unfold __sys_accept4_file. destruct (bad_flags flags); [by apply Hfail|].
  destruct (Z.ltb_spec newfd 0); [by apply Hfail|].
  destruct (do_accept_post ae file (get_unused_fd newfd w)) as (r & w' & -> & Hp); [done..|].
  cbn [mbind option_bind].
  destruct Hp as [(e & -> & He & Hs & Hfd)|(-> & s & Hsf & Hso & S1 & S2 & S3 & S4 & S5)].
  - do 2 eexists. split; [done|]. apply failed; [done|done|exact Hs|]. simpl.
    rewrite Hfd. simpl. by rewrite delete_insert_id by by apply U.
  - do 2 eexists. split; [done|]. eapply (opened_one w _ newfd s); try done; [by apply U|].
    simpl. rewrite S5. simpl. by rewrite insert_insert_eq.
Qed.

(** (C18) The system calls socket, socketpair and accept are all or nothing: whatever
    allocation, module, hook or protocol operation fails, they return an error (no
    pointer is used uninitialised) with the sockets, files, descriptors and module
    references as they were; when they succeed, everything that was there stays, and the
    one or two new descriptors name new socket files with sockets that have operations. *)
Theorem socket_calls_atomic c w :
  wf w -> call_ok c w ->
  exists r w', run_call c w = Some (r, w') /\ wf w' /\
    ((r < 0 /\ socks w' = socks w /\ sfiles w' = sfiles w /\ fds w' = fds w /\ mods w' = mods w) \/
     (0 <= r /\ exists l, extends w w' l /\
        match c with CPair _ _ pe _ _ _ => l = [fd1 pe; fd2 pe] | _ => l = [r] end)).
Proof.
  intros Hwf Hok.
  assert (exists l r w', run_call c w = Some (r, w') /\ call_post w l r w' /\
    match c with CPair _ _ pe _ _ _ => l = [fd1 pe; fd2 pe] | _ => length l = 1%nat end)
    as (l & r & w' & -> & [Hw Hp] & Hl).
  { destruct c as [e fd alloc f t p|e1 e2 pe f t p|ae nfd fd fl]; simpl run_call.
    - destruct Hok as (? & ? & ?).
      destruct (sys_socket_post e fd alloc f t p w) as (r & w' & -> & Hp); [done..|]. eauto 10.
    - destruct (sys_socketpair_post e1 e2 pe f t p w) as (r & w' & -> & Hp); [done..|]. eauto 10.
    - destruct (sys_accept_post ae nfd fd fl w) as (r & w' & -> & Hp); [done..|]. eauto 10. }
  exists r, w'. split; [done|]. split; [done|].
  destruct Hp as [(? & (? & ? & _ & _ & ?) & ?)|(? & ? & Hlr)]; [by left|right].
  split; [done|]. exists l. split; [done|].
  destruct c; try done; (destruct Hlr as [?|Hlr]; [done|congruence]).
Qed.

(** __sock_create is all or nothing.  On success it returns the new socket, of the
    type asked for, with the operations' module pinned once and the family's module not,
    and the counter of the calling task is one more, unless the socket is the kernel's;
    the limit of the task was not reached before.  On failure it returns an error and no
    socket, with sockets, files, descriptors, module references and counter as before;
    only when the operations' module is going away does a protocol sock stay behind. *)
Theorem sock_create_atomic e family type protocol kern w :
  env_ok e -> wf w ->
  let '(err, res, w') := __sock_create e family type protocol kern w in
  (err < 0 /\ res = None /\ socks w' = socks w /\ sfiles w' = sfiles w /\ fds w' = fds w /\
     mods w' = mods w /\ cur w' = cur w /\
     (sks w' = sks w \/ ops_get_ok e = false /\ sks w' = sks w + 1)) \/
  (err = 0 /\ res = Some (next_sock w) /\ (kern = false -> limit_reached (cur w) = false) /\
     cur w' = (if kern then cur w else count_socket (cur w)) /\ fds w' = fds w /\
     exists o, socks w' = <[next_sock w:=Sock type (Some o) true None]> (socks w) /\
       mods w' = {[+ o +]} ⊎ mods w /\ sks w' = sks w + 1).
Proof.
  intros He Hwf. destruct (__sock_create e family type protocol kern w) as [[err res] w'] eqn:E.
  destruct (sock_create_post _ _ _ _ _ _ _ _ _ He Hwf E)
    as [(? & ? & (? & ? & _ & _ & ?) & ? & ? & ?)|(? & ? & ? & ? & o & (? & _ & _ & _ & ?) & ? & ?)].
  - left. by split_and!.
  - right. split_and!; try done. by exists o.
Qed.

End Layer.

Module Limit.
Import Layer.

(** Closing a descriptor whose file has no other reference. *)
Definition close_fd (fd : Z) (w : world) : world :=
  match fds w !! fd with
  | Some (Some file) => fput_last file (set_fds (delete fd) w)
  | _ => w
  end.

(** What a task does with sockets: the calls, in any order and with any outcome, and
    closing; and set_thread_socket_attrs, called by the task or by another one for any
    task, which may change the limit of this one.  The limit may also change between the
    two creations of a socketpair: [step_create] is a creation on its own.  (A change
    between the test of a creation and its increment is the same as one after it: the
    creation does not read the limit again.) *)
Inductive step : world -> world -> Prop :=
| step_call c w r w' : call_ok c w -> run_call c w = Some (r, w') -> step w w'
| step_create e f t p w err res w' : sock_create e f t p w = (err, res, w') -> step w w'
| step_close fd w : step w (close_fd fd w)
| step_set caller capable pid ms pr flags ts r ts' me t' w :
    ts !! me = Some (cur w) -> in_s 32 ms ->
    Attrs.set_thread_socket_attrs caller capable pid ms pr flags ts = Some (r, ts') ->
    ts' !! me = Some t' -> step w (set_cur t' w).

(** The counter moves only by creations the limit allows. *)
Definition counted (t t' : Attrs.task) : Prop := limit_reached t = false /\ t' = count_socket t.

Lemma release_cur k w : cur (sock_release k w) = cur w.
Proof. unfold sock_release, __sock_release. repeat case_match; done. Qed.
Lemma fput_cur f w : cur (fput_last f w) = cur w.
Proof. unfold fput_last. case_match; [|done]. simpl. apply release_cur. Qed.
Lemma alloc_file_cur a k w r w' : sock_alloc_file a k w = (r, w') -> cur w' = cur w.
Proof. unfold sock_alloc_file. case_match; intros [= <- <-]; [apply release_cur|done]. Qed.
Lemma map_fd_cur fd a k w : cur (sock_map_fd fd a k w).2 = cur w.
Proof.
  unfold sock_map_fd. case_match; [apply release_cur|].
  destruct (sock_alloc_file a k (get_unused_fd fd w)) as [[e|f] w1] eqn:E;
    apply alloc_file_cur in E; done.
Qed.
Lemma pair_files_cur pe a b w : cur (pair_files pe a b w).2 = cur w.
Proof.
  unfold pair_files. repeat (case_match; simpl; [by rewrite !release_cur|]).
  destruct (sock_alloc_file (file1 pe) a w) as [[e|f] w1] eqn:E1; apply alloc_file_cur in E1; simpl;
    [by rewrite release_cur|].
  destruct (sock_alloc_file (file2 pe) b w1) as [[e|f2] w2] eqn:E2; apply alloc_file_cur in E2; simpl;
    rewrite ?fput_cur; congruence.
Qed.

Lemma create_in_family_cur e k f t p kern w err res w' :
  create_in_family e k f t p kern w = (err, res, w') ->
  cur w' = cur w \/ (kern = false /\ err = 0 /\ cur w' = count_socket (cur w)).
Proof.
  unfold create_in_family. intros H.
  repeat (case_match; simplify_eq/=; rewrite ?release_cur; auto).
Qed.

Lemma create_cur e f t p w err res w' :
  sock_create e f t p w = (err, res, w') ->
  cur w' = cur w \/ (err = 0 /\ counted (cur w) (cur w')).
Proof.
  unfold sock_create, __sock_create. intros H.
  destruct ((f <? 0) || (NPROTO <=? f))%bool; [simplify_eq; auto|].
  destruct ((t <? 0) || (SOCK_MAX <=? t))%bool; [simplify_eq; auto|].
  destruct (negb false && limit_reached (cur w))%bool eqn:El; [simplify_eq; auto|].
  destruct (ztrue _); [simplify_eq; auto|].
  unfold sock_alloc in H. destruct (alloc_ok e); [|simplify_eq; auto].
  apply create_in_family_cur in H as [H|(_ & -> & H)]; simpl in H; [auto|]. right.
  split; [done|]. by split.
Qed.

Lemma do_accept_cur ae file w r w' : do_accept ae file w = Some (r, w') -> cur w' = cur w.
Proof.
  unfold do_accept. destruct (sfiles w !! file) as [k|]; [|by intros [= <- <-]].
  unfold sock_alloc. destruct (acc_alloc_ok ae); [|by intros [= <- <-]].
  cbn [socks next_sock]. destruct (<[_:=_]> (socks w) !! k) as [s|]; [|done].
  cbn [mbind option_bind]. destruct (s_ops s) as [o|]; [|done]. cbn [mbind option_bind].
  destruct (sock_alloc_file _ _ _) as [[e|f] w1] eqn:E; apply alloc_file_cur in E; simpl in E;
    [by intros [= <- <-]|].
  repeat case_match; intros [= <- <-]; rewrite ?fput_cur; done.
Qed.

(** A call moves the counter by creations within the limit, at most two. *)
Lemma call_cur c w r w' : run_call c w = Some (r, w') -> rtc counted (cur w) (cur w').
Proof.
  intros H.
  destruct c as [e fd alloc f t p|e1 e2 pe f t p|ae nfd fd fl]; simpl in H.
  - unfold __sys_socket in H. destruct (bad_flags _); [by simplify_eq|].
    destruct (sock_create _ _ _ _ _) as [[err res] w1] eqn:Ec.
    assert (cur w' = cur w1) as ->.
    { destruct (err <? 0); [by simplify_eq|]. destruct res as [k|]; [|done]. simpl in H. simplify_eq.
      rewrite <- (map_fd_cur fd alloc k w1). by rewrite H. }
    apply create_cur in Ec as [->|[_ ?]]; [done|by apply rtc_once].
  - unfold __sys_socketpair, pair_create, pair_out in H. destruct (bad_flags _); [by simplify_eq|].
    destruct (fd1 pe <? 0); [by simplify_eq|]. destruct (fd2 pe <? 0); [by simplify_eq|].
    destruct (ztrue (put1 pe)); [by simplify_eq|]. destruct (ztrue (put2 pe)); [by simplify_eq|].
    destruct (sock_create e1 _ _ _ _) as [[err res] w1] eqn:Ec.
    assert (rtc counted (cur w) (cur w1)) as Hr1
      by (apply create_cur in Ec as [->|[_ ?]]; [done|by apply rtc_once]).
    destruct (err <? 0); [by simplify_eq|]. destruct res as [k|]; [|done]. simpl in H.
    destruct (sock_create e2 _ _ _ _) as [[err2 res2] w2] eqn:Ec2.
    assert (rtc counted (cur w1) (cur w2)) as Hr2
      by (apply create_cur in Ec2 as [->|[_ ?]]; [done|by apply rtc_once]).
    assert (cur w' = cur w2) as ->; [|by etransitivity].
    destruct (err2 <? 0); [simplify_eq/=; by rewrite release_cur|].
    destruct res2 as [k2|]; [|done]. simpl in H. simplify_eq.
    rewrite <- (pair_files_cur pe k k2 w2). by rewrite H.
  - unfold __sys_accept4 in H. destruct (fds w !! fd) as [[file|]|]; try by simplify_eq.
    unfold __sys_accept4_file in H. destruct (bad_flags fl); [by simplify_eq|].
    destruct (nfd <? 0); [by simplify_eq|].
    destruct (do_accept _ _ _) as [[r' w1]|] eqn:Ea; [|done]. simpl in H.
    apply do_accept_cur in Ea. destruct r'; simplify_eq/=; by rewrite Ea.
Qed.

(** A step moves the counter by creations within the limit, or sets the attributes. *)
Lemma step_cur w w' : step w w' ->
  rtc counted (cur w) (cur w') \/ Attrs.socket_count (cur w') = Attrs.socket_count (cur w).
Proof.
  destruct 1 as [c w r w' _ H|e f t p w err res w' H|fd w|caller cap pid ms pr flags ts r ts' me t' w Hme _ H Ht'].
  - left. by eapply call_cur.
  - left. apply create_cur in H as [->|[_ ?]]; [done|by apply rtc_once].
  - right. unfold close_fd. repeat case_match; rewrite ?fput_cur; done.
  - right. simpl. eapply Attrs.set_thread_socket_attrs_task in H as [-> | ->]; [done|done|exact Hme|exact Ht'].
Qed.

(** With the limit reached the counter stays. *)
Lemma counted_stuck t t' : rtc counted t t' -> limit_reached t = true -> t' = t.
Proof. intros H Hl. inversion H as [|? ? ? [Hf _]]; [done|]. congruence. Qed.

(** The limit in force is a limit, and at most [M]. *)
Definition within (M : Z) (w : world) : Prop := 0 < Attrs.max_socket_allowed (cur w) <= M.

(** Creations raise the counter, up to the limit. *)
Lemma counted_bound t t' :
  rtc counted t t' ->
  0 < Attrs.max_socket_allowed t < 2 ^ 31 -> 0 <= Attrs.socket_count t ->
  Attrs.max_socket_allowed t' = Attrs.max_socket_allowed t /\
  Attrs.socket_count t <= Attrs.socket_count t' <=
    Z.max (Attrs.socket_count t) (Attrs.max_socket_allowed t).
Proof.
  induction 1 as [t|t t1 t' [Hl ->] _ IH]; intros Hm Hc; [lia|].
  unfold limit_reached in Hl. rewrite (proj2 (Z.ltb_lt 0 _)) in Hl by lia. simpl in Hl.
  apply Z.leb_gt in Hl.
  assert (wraps 32 (Attrs.socket_count t + 1) = Attrs.socket_count t + 1) as Hw
    by (apply wraps_id; [lia|unfold in_s; change (2 ^ (32 - 1)) with (2 ^ 31); lia]).
  destruct IH as [I1 I2]; simpl in *; rewrite ?Hw in *; lia.
Qed.

Lemma step_bound M w w' :
  within M w -> step w w' -> M < 2 ^ 31 -> 0 <= Attrs.socket_count (cur w) ->
  Attrs.socket_count (cur w) <= Attrs.socket_count (cur w') <= Z.max (Attrs.socket_count (cur w)) M.
Proof.
  intros Hw [Hs|Hs]%step_cur HM Hc; unfold within in Hw; [|lia].
  apply counted_bound in Hs as [_ Hs]; lia.
Qed.

Lemma create_limited e f t p w : limit_reached (cur w) = true ->
  exists err w', sock_create e f t p w = (err, None, w') /\ err < 0.
Proof.
  intros Hl. unfold sock_create, __sock_create. rewrite Hl; cbn [negb andb].
  destruct ((f <? 0) || (NPROTO <=? f))%bool; [by exists (- EAFNOSUPPORT), w|].
  destruct ((t <? 0) || (SOCK_MAX <=? t))%bool; [by exists (- EINVAL), w|].
  by exists (- EMFILE), w.
Qed.

(** The calls that create sockets within the limit. *)
Definition creates (c : call) : bool := match c with CAccept _ _ _ _ => false | _ => true end.

Lemma call_limited c w r w' :
  limit_reached (cur w) = true -> creates c = true -> call_ok c w ->
  run_call c w = Some (r, w') -> r < 0 /\ cur w' = cur w.
Proof.
  intros Hl Hc Hok H. split; [|by eapply counted_stuck; [eapply call_cur|]].
  destruct c as [e fd alloc f t p|e1 e2 pe f t p|]; [| |done]; simpl in H, Hok.
  - unfold __sys_socket in H. destruct (bad_flags _); [by simplify_eq|].
    destruct (create_limited e f (Z.land t SOCK_TYPE_MASK) p w Hl) as (err & w1 & Hc' & Herr).
    rewrite Hc' in H. rewrite (proj2 (Z.ltb_lt err 0)) in H by done. by simplify_eq.
  - unfold __sys_socketpair, pair_create, pair_out, ztrue in H. destruct (bad_flags _); [by simplify_eq|].
    destruct (Z.ltb_spec (fd1 pe) 0); [by simplify_eq|]. destruct (Z.ltb_spec (fd2 pe) 0); [by simplify_eq|].
    destruct (Z.eqb_spec (put1 pe) 0); simpl in H; [|simplify_eq; lia].
    destruct (Z.eqb_spec (put2 pe) 0); simpl in H; [|simplify_eq; lia].
    destruct (create_limited e1 f (Z.land t SOCK_TYPE_MASK) p
      (get_unused_fd (fd2 pe) (get_unused_fd (fd1 pe) w)) Hl) as (err & w1 & Hc' & Herr).
    rewrite Hc' in H. rewrite (proj2 (Z.ltb_lt err 0)) in H by done. by simplify_eq.
Qed.

(** Nothing but the limit stands in the way of a creation. *)
Record willing (e : create_env) : Prop := Willing {
  w_sec : forall f t p, sec_create e f t p false = 0; w_alloc : alloc_ok e = true;
  w_family : forall f, is_Some (net_families e f); w_pf : pf_get_ok e = true;
  w_create : forall o p, 0 <= (pf_create e o p false).1; w_ops : ops_get_ok e = true;
  w_post : forall f t p, sec_post e f t p false = 0
}.

Lemma create_allowed e f t p w :
  willing e -> 0 <= f < NPROTO -> 0 <= t < SOCK_MAX ->
  exists err res w', sock_create e f t p w = (err, res, w') /\
    if limit_reached (cur w) then err = - EMFILE /\ res = None /\ w' = w
    else err = 0 /\ res = Some (next_sock w) /\ cur w' = count_socket (cur w).
Proof.
  intros [W1 W2 W3 W4 W5 W6 W7] Hf Ht. unfold sock_create, __sock_create.
  rewrite (proj2 (Z.ltb_ge f 0)), (proj2 (Z.leb_gt NPROTO f)) by lia.
  rewrite (proj2 (Z.ltb_ge t 0)), (proj2 (Z.leb_gt SOCK_MAX t)) by lia. cbn [orb negb andb].
  destruct (limit_reached (cur w)); [by do 3 eexists|].
  set (fam := if ((f =? PF_INET) && (t =? SOCK_PACKET))%bool then PF_PACKET else f). rewrite W1; cbn [ztrue negb Z.eqb].
  unfold sock_alloc. rewrite W2. unfold create_in_family. destruct (W3 fam) as [o ->]. rewrite W4; cbn [negb].
  destruct (pf_create e o p false) as [err oo] eqn:E. specialize (W5 o p). rewrite E in W5. simpl in W5.
  rewrite (proj2 (Z.ltb_ge err 0)), W6 by lia. cbn [negb]. rewrite W7; cbn [ztrue negb Z.eqb].
  by do 3 eexists.
Qed.

(** (C16) The limit of a thread, which set_thread_socket_attrs can change at any time.
    As long as the limit in force is positive and at most [M], the counter never goes
    down and never rises above [M] (or above where it was, when it started higher).  So
    once it is at [M] or above, socket and socketpair fail and change nothing of the
    thread as long as the limit is not raised beyond [M] or lifted, also when every
    socket has been closed; accept is not limited.  Exactly the limit decides: a
    creation that nothing else stands in the way of is refused with EMFILE when the
    limit is positive and the counter has reached it, and otherwise succeeds and
    counts. *)
Theorem socket_limit M w w' :
  rtc (fun a b => within M a /\ step a b) w w' ->
  M < 2 ^ 31 -> 0 <= Attrs.socket_count (cur w) ->
  Attrs.socket_count (cur w) <= Attrs.socket_count (cur w') <= Z.max (Attrs.socket_count (cur w)) M /\
  (M <= Attrs.socket_count (cur w) -> within M w' ->
   forall c r w'', creates c = true -> call_ok c w' -> run_call c w' = Some (r, w'') ->
     r < 0 /\ cur w'' = cur w') /\
  (forall e f t p, willing e -> 0 <= f < NPROTO -> 0 <= t < SOCK_MAX ->
   exists err res w'', sock_create e f t p w' = (err, res, w'') /\
     if limit_reached (cur w') then err = - EMFILE /\ res = None /\ w'' = w'
     else err = 0 /\ res = Some (next_sock w') /\ cur w'' = count_socket (cur w')).
Proof.
  intros Hr HM Hc.
  assert (Attrs.socket_count (cur w) <= Attrs.socket_count (cur w') <= Z.max (Attrs.socket_count (cur w)) M) as Hb.
  { induction Hr as [w|w w1 w' [Hw Hs] _ IH]; [lia|].
    pose proof (step_bound M w w1 Hw Hs HM Hc). lia. }
  split; [done|]. split; [|intros; by apply create_allowed].
  intros HMc Hw' c r w'' Hcr Hok H. eapply call_limited; try done.
  unfold within in Hw'. unfold limit_reached. apply andb_true_iff. rewrite Z.ltb_lt, Z.leb_le. lia.
Qed.

(** A task with limit 1, the creation of a socket that succeeds, and its closing. *)
Definition good_env : create_env :=
  CreateEnv (fun _ _ _ _ => 0) true (fun _ => Some 1) true (fun _ _ _ => (0, 2)) true (fun _ _ _ _ => 0).
Definition demo_world : world :=
  World ∅ 1 ∅ 1 ∅ ∅ 0 (Attrs.Task 1000 1000 1 1 0 0).

Lemma demo_wf : wf demo_world.
Proof. split_and!; intros *; simpl; by rewrite ?lookup_empty. Qed.
Lemma good_env_ok : env_ok good_env.
Proof. split; intros; simpl; lia. Qed.

(** A task creates a socket with limit 2, lowers its limit to 1 and closes the socket:
    the next creation is refused. *)
Definition lowered : world :=
  set_cur (Attrs.Task 1000 1000 1 1 1 0)
    (default demo_world (snd <$> __sys_socket good_env 3 0 2 1 0 (set_cur (Attrs.Task 1000 1000 1 2 0 0) demo_world))).

Lemma socket_limit_witness :
  exists w', rtc (fun a b => within 2 a /\ step a b) (set_cur (Attrs.Task 1000 1000 1 2 0 0) demo_world) lowered /\
    rtc (fun a b => within 1 a /\ step a b) lowered w' /\ fds w' = ∅ /\
    Attrs.socket_count (cur w') = 1 /\
    (forall r w'', __sys_socket good_env 3 0 2 1 0 w' = Some (r, w'') -> r < 0).
Proof.
  exists (close_fd 3 lowered).
  assert (rtc (fun a b => within 1 a /\ step a b) lowered (close_fd 3 lowered)) as Hr.
  { apply rtc_once. split; [split; simpl; lia|apply step_close]. }
  split; [|split; [exact Hr|]].
  - eapply rtc_l; [split; [split; simpl; lia|]|apply rtc_once; split].
    + by eapply (step_call (CSocket good_env 3 0 2 1 0)); [|vm_compute; reflexivity].
    + split; simpl; lia.
    + eapply (step_set 7 false 0 1 (-1) 0 {[7 := Attrs.Task 1000 1000 1 2 1 0]} _ _ 7);
        [reflexivity|unfold in_s; lia|vm_compute; reflexivity|vm_compute; reflexivity].
  - destruct (socket_limit 1 _ _ Hr) as (H1 & H2 & _); [lia|simpl; lia|].
    assert (fds (close_fd 3 lowered) = ∅) as Hfd by (vm_compute; reflexivity).
    split; [exact Hfd|]. split; [vm_compute; reflexivity|]. intros r w'' H.
    refine (proj1 (H2 ltac:(vm_compute; discriminate) ltac:(split; vm_compute; done)
      (CSocket good_env 3 0 2 1 0) r w'' eq_refl _ H)).
    split; [exact good_env_ok|]. split; [intros _; rewrite Hfd; reflexivity|lia].
Defined.

Lemma sock_create_atomic_witness :
  let '(err, res, w') := __sock_create good_env 2 1 0 false demo_world in
  err = 0 /\ Attrs.socket_count (cur w') = 1 /\ is_Some (socks w' !! 1).
Proof.
  pose proof (sock_create_atomic good_env 2 1 0 false demo_world good_env_ok demo_wf) as H.
  assert (fst (fst (__sock_create good_env 2 1 0 false demo_world)) = 0) as He by (vm_compute; reflexivity).
  destruct (__sock_create good_env 2 1 0 false demo_world) as [[err res] w'] eqn:E. simpl in He.
  destruct H as [(H & _)|(_ & _ & _ & Hc & _ & o & Hs & _)]; [lia|].
  split; [exact He|]. split; [rewrite Hc; vm_compute; reflexivity|]. rewrite Hs. by eexists.
Defined.

Lemma socket_calls_atomic_witness :
  exists r w', run_call (CSocket good_env 3 0 2 1 0) demo_world = Some (r, w') /\ wf w' /\
    (r < 0 \/ exists l, extends demo_world w' l /\ l = [r]).
Proof.
  destruct (socket_calls_atomic (CSocket good_env 3 0 2 1 0) demo_world demo_wf)
    as (r & w' & H & Hwf & Hp).
  - split; [exact good_env_ok|]. split; [intros _; reflexivity|lia].
  - exists r, w'. split; [exact H|]. split; [exact Hwf|]. destruct Hp as [(? & _)|(_ & Hl)]; [by left|by right].
Defined.

End Limit.
