(* ===== verification/Fork.v ===== *)
(** * Creating tasks (src/kvm/linux-5.15.178/kernel/fork.c)

    [CopyProcess]: copy_process from the checks of the clone flags to the new task, with
    the parts it copies or shares (copy_mm, copy_fs, copy_files, copy_sighand,
    copy_signal, copy_io), the key-value store of the new task and the labels that undo
    a failed attempt.  The state holds the reference counts of the shared objects, the
    other resources acquired so far, the key-value arrays allocated, the counters of
    tasks and the links from parents to children.  [Clone]: kernel_clone and the system
    calls that lead to it, with the checks of clone3's arguments.  [Unshare]: unshare. *)

From S2P Require Import Prelude.

Definition CSIGNAL : Z := 0xff.
Definition CLONE_NEWTIME : Z := 0x80.
Definition CLONE_VM : Z := 0x100.
Definition CLONE_FS : Z := 0x200.
Definition CLONE_FILES : Z := 0x400.
Definition CLONE_SIGHAND : Z := 0x800.
Definition CLONE_PIDFD : Z := 0x1000.
Definition CLONE_PTRACE : Z := 0x2000.
Definition CLONE_VFORK : Z := 0x4000.
Definition CLONE_PARENT : Z := 0x8000.
Definition CLONE_THREAD : Z := 0x10000.
Definition CLONE_NEWNS : Z := 0x20000.
Definition CLONE_SYSVSEM : Z := 0x40000.
Definition CLONE_PARENT_SETTID : Z := 0x100000.
Definition CLONE_DETACHED : Z := 0x400000.
Definition CLONE_UNTRACED : Z := 0x800000.
Definition CLONE_NEWCGROUP : Z := 0x2000000.
Definition CLONE_NEWUTS : Z := 0x4000000.
Definition CLONE_NEWIPC : Z := 0x8000000.
Definition CLONE_NEWUSER : Z := 0x10000000.
Definition CLONE_NEWPID : Z := 0x20000000.
Definition CLONE_NEWNET : Z := 0x40000000.
Definition CLONE_IO : Z := 0x80000000.
Definition CLONE_CLEAR_SIGHAND : Z := 0x100000000.
Definition CLONE_INTO_CGROUP : Z := 0x200000000.
Definition CLONE_LEGACY_FLAGS : Z := 0xffffffff.
Definition ERESTARTNOINTR : Z := 513.
Definition E2BIG : Z := 7.

Module CopyProcess.

(** Resources a task under construction holds, beside the counted objects. *)
Inductive res :=
| RDelayed | RTask | RCreds | RCount | RDelayacct | RMempolicy | RPerf | RAudit | RSecurity
| RSemundo | RNamespaces | RThread | RPid | RPidfd | RPidfile | RCgroup | RTasklist
| RSchedCore | RSiglock.
#[export] Instance res_eq_dec : EqDecision res.
Proof. solve_decision. Defined.

(** The number of key-value arrays allocated, the counters nr_threads and total_forks, and
    the processes linked into their parent's list of children, with the parent. *)
Record counters := Cnt { kv_arrays : Z; nr_threads : Z; total_forks : Z; children : list (Z * Z) }.

(** The counts of mm, fs, files, sighand, signal and io objects; the resources, last
    acquired first; the counters. *)
Record kstate := KState { refs : gmap Z Z; held : list res; cnt : counters }.

(** Code that changes the state; [None]: something that is not held is given back. *)
Definition F (A : Type) := kstate -> option (A * kstate).
#[export] Instance F_ret : MRet F := fun A a s => Some (a, s).
#[export] Instance F_bind : MBind F :=
  fun A B f m s => match m s with Some (a, s') => f a s' | None => None end.

Fixpoint remove_res (r : res) (l : list res) : option (list res) :=
  match l with
  | [] => None
  | x :: l' => if decide (x = r) then Some l' else y ← remove_res r l'; Some (x :: y)
  end.

Definition acquire (r : res) : F unit :=
  fun s => Some (tt, KState (refs s) (r :: held s) (cnt s)).
Definition release (r : res) : F unit :=
  fun s => l ← remove_res r (held s); Some (tt, KState (refs s) l (cnt s)).
(** hlist_del_init: harmless when the node is not on a list. *)
Definition del_init (r : res) : F unit :=
  fun s => match remove_res r (held s) with
           | Some l => Some (tt, KState (refs s) l (cnt s))
           | None => Some (tt, s)
           end.

(** An address that is not NULL and not in use. *)
Definition fresh_obj (s : kstate) : Z := fresh ({[0]} ∪ dom (refs s) : gset Z).

(** A new object with one reference; one more; one less, the last one frees. *)
Definition new_obj : F Z :=
  fun s => let o := fresh_obj s in Some (o, KState (<[o:=1]> (refs s)) (held s) (cnt s)).
Definition get_obj (o : Z) : F unit :=
  fun s => n ← refs s !! o; Some (tt, KState (<[o:=n + 1]> (refs s)) (held s) (cnt s)).
Definition put_obj (o : Z) : F unit :=
  fun s => n ← refs s !! o;
    Some (tt, KState (if n =? 1 then delete o (refs s) else <[o:=n - 1]> (refs s))
                (held s) (cnt s)).

Definition more_kv (k : Z) (c : counters) : counters :=
  Cnt (kv_arrays c + k) (nr_threads c) (total_forks c) (children c).
Definition alloc_kv (ok : bool) : F bool :=
  fun s => Some (ok, if ok then KState (refs s) (held s) (more_kv 1 (cnt s)) else s).

(** The calling task; 0 for an object it does not have. *)
Record ptask := PTask {
  t_pid : Z; t_tgid : Z; t_leader : Z; t_parent : Z; t_exit_signal : Z;
  t_mm : Z; t_fs : Z; t_files : Z; t_sighand : Z; t_signal : Z; t_io : Z;
  t_kv_shared : bool;                (* the key-value store is the caller's *)
  t_socket_attrs : Z * Z * Z         (* limit, count, priority *)
}.

(** What the calls of copy_process answer, in the order they are made: a negative error
    or 0, or whether an allocation succeeds. *)
Record cp_env := CpEnv {
  unkillable : bool; ns_differs : bool; time_ns_differs : bool;
  sigpending : bool; dup_ok : bool; creds_ret : Z; over_rlimit : bool; too_many : bool;
  mpol_ret : Z; sched_ret : Z; perf_ret : Z; audit_ret : Z; security_ret : Z; sem_ret : Z;
  dup_fd_ret : Z; fs_in_exec : bool; fs_copy_ok : bool; sighand_ok : bool; signal_ok : bool;
  dup_mm_ok : bool; ns_ret : Z; ioprio_valid : bool; io_ok : bool; thread_ret : Z;
  pid_ret : Z; fd_ret : Z; file_ret : Z; put_ret : Z; kv_ok : bool; kv_lock_ok : bool;
  cgroup_ret : Z; ns_adding : bool; fatal_pending : bool; group_exit_signal : Z
}.

Section Copy.
Context (env : cp_env) (clone_flags : Z) (current : ptask) (is_init_pid : bool) (exit_signal : Z).

Definition has (m : Z) : bool := flag clone_flags m.
Definition both (m : Z) : bool := Z.land clone_flags m =? m.

(** *** What is shared or copied *)

(** copy_mm: the mm of the child; a kernel thread has none. *)
Definition copy_mm : F (Z + Z) :=
  if t_mm current =? 0 then mret (inr 0)
  else if has CLONE_VM then get_obj (t_mm current);; mret (inr (t_mm current))
  else if dup_mm_ok env then mm ← new_obj; mret (inr mm)
  else mret (inl (- ENOMEM)).

Definition copy_fs : F (Z + Z) :=
  if has CLONE_FS then
    if fs_in_exec env then mret (inl (- EAGAIN))
    else get_obj (t_fs current);; mret (inr (t_fs current))
  else if fs_copy_ok env then fs ← new_obj; mret (inr fs)
  else mret (inl (- ENOMEM)).

Definition copy_files : F (Z + Z) :=
  if t_files current =? 0 then mret (inr 0)
  else if has CLONE_FILES then get_obj (t_files current);; mret (inr (t_files current))
  else if ztrue (dup_fd_ret env) then mret (inl (dup_fd_ret env))
  else newf ← new_obj; mret (inr newf).

(** copy_io: without CLONE_IO a new context is made only when the priority is valid. *)
Definition copy_io : F (Z + Z) :=
  if t_io current =? 0 then mret (inr 0)
  else if has CLONE_IO then get_obj (t_io current);; mret (inr (t_io current))
  else if ioprio_valid env then
    if io_ok env then ioc ← new_obj; mret (inr ioc) else mret (inl (- ENOMEM))
  else mret (inr 0).

Definition copy_sighand : F (Z + Z) :=
  if has CLONE_SIGHAND then get_obj (t_sighand current);; mret (inr (t_sighand current))
  else if sighand_ok env then sig ← new_obj; mret (inr sig)
  else mret (inl (- ENOMEM)).

Definition copy_signal : F (Z + Z) :=
  if has CLONE_THREAD then mret (inr (t_signal current))
  else if signal_ok env then sig ← new_obj; mret (inr sig)
  else mret (inl (- ENOMEM)).

(** *** The labels, from the last to the first; [p] is the task under construction. *)

Definition fork_out : F unit := del_init RDelayed.
Definition bad_fork_free : F unit := release RTask;; fork_out.
Definition bad_fork_cleanup_count : F unit := release RCount;; release RCreds;; bad_fork_free.
Definition bad_fork_cleanup_threadgroup_lock : F unit := release RDelayacct;; bad_fork_cleanup_count.
Definition bad_fork_cleanup_policy : F unit := release RMempolicy;; bad_fork_cleanup_threadgroup_lock.
Definition bad_fork_cleanup_perf : F unit := release RPerf;; bad_fork_cleanup_policy.
Definition bad_fork_cleanup_audit : F unit := release RAudit;; bad_fork_cleanup_perf.
Definition bad_fork_cleanup_security : F unit := release RSecurity;; bad_fork_cleanup_audit.
Definition bad_fork_cleanup_semundo : F unit := release RSemundo;; bad_fork_cleanup_security.
Definition put_if (o : Z) : F unit := if o =? 0 then mret tt else put_obj o.
Definition bad_fork_cleanup_files (files : Z) : F unit := put_if files;; bad_fork_cleanup_semundo.
Definition bad_fork_cleanup_fs (files fs : Z) : F unit := put_obj fs;; bad_fork_cleanup_files files.
Definition bad_fork_cleanup_sighand (files fs sighand : Z) : F unit :=
  put_obj sighand;; bad_fork_cleanup_fs files fs.
Definition bad_fork_cleanup_signal (files fs sighand signal : Z) : F unit :=
  (if negb (has CLONE_THREAD) then put_obj signal else mret tt);;
  bad_fork_cleanup_sighand files fs sighand.
Definition bad_fork_cleanup_mm (files fs sighand signal mm : Z) : F unit :=
  put_if mm;; bad_fork_cleanup_signal files fs sighand signal.
Definition bad_fork_cleanup_namespaces (files fs sighand signal mm : Z) : F unit :=
  release RNamespaces;; bad_fork_cleanup_mm files fs sighand signal mm.
Definition bad_fork_cleanup_io (files fs sighand signal mm io : Z) : F unit :=
  put_if io;; bad_fork_cleanup_namespaces files fs sighand signal mm.
Definition bad_fork_cleanup_thread (p : ptask) : F unit :=
  release RThread;;
  bad_fork_cleanup_io (t_files p) (t_fs p) (t_sighand p) (t_signal p) (t_mm p) (t_io p).
Definition bad_fork_free_pid (p : ptask) : F unit :=
  (if negb is_init_pid then release RPid else mret tt);; bad_fork_cleanup_thread p.
Definition bad_fork_put_pidfd (p : ptask) : F unit :=
  (if has CLONE_PIDFD then release RPidfile;; release RPidfd else mret tt);; bad_fork_free_pid p.
Definition bad_fork_cancel_cgroup (p : ptask) : F unit :=
  release RSchedCore;; release RSiglock;; release RTasklist;; release RCgroup;;
  bad_fork_put_pidfd p.

(** [fail label err]: the goto. *)
Definition fail {A} (label : F unit) (err : Z) : F (Z + A) := label;; mret (inl err).

(** *** The stages, from the last to the first *)

(** CLONE_PARENT and CLONE_THREAD re-use the caller's parent. *)
Definition set_parent (p : ptask) : ptask :=
  if has (Z.lor CLONE_PARENT CLONE_THREAD)
  then PTask (t_pid p) (t_tgid p) (t_leader p) (t_parent current)
         (if has CLONE_THREAD then -1 else group_exit_signal env)
         (t_mm p) (t_fs p) (t_files p) (t_sighand p) (t_signal p) (t_io p) (t_kv_shared p) (t_socket_attrs p)
  else PTask (t_pid p) (t_tgid p) (t_leader p) (t_pid current) exit_signal
         (t_mm p) (t_fs p) (t_files p) (t_sighand p) (t_signal p) (t_io p) (t_kv_shared p) (t_socket_attrs p).

(** The task joins the lists: a group leader its parent's children, a thread the caller's
    signal structure.  The idle tasks, with pid 0, do not. *)
Definition published (p : ptask) (c : counters) : counters :=
  if t_pid p =? 0 then Cnt (kv_arrays c) (nr_threads c) (total_forks c + 1) (children c)
  else Cnt (kv_arrays c) (nr_threads c + 1) (total_forks c + 1)
         (if 0 <=? t_exit_signal p then children c ++ [(t_pid p, t_parent p)] else children c).
Definition link_task (p : ptask) : F unit :=
  fun s => Some (tt, KState (refs s) (held s) (published p (cnt s))).
Definition publish_task (p : ptask) : F unit :=
  (if negb (t_pid p =? 0) && negb (0 <=? t_exit_signal p) then get_obj (t_signal current) else mret tt);;
  link_task p.

(** From cgroup_can_fork on: the task becomes visible or the attempt is undone. *)
Definition cp_publish (p : ptask) : F (Z + ptask) :=
  if ztrue (cgroup_ret env) then fail (bad_fork_put_pidfd p) (cgroup_ret env)
  else
    acquire RCgroup;; acquire RTasklist;;
    let p := set_parent p in
    acquire RSchedCore;; acquire RSiglock;;
    if negb (ns_adding env) then fail (bad_fork_cancel_cgroup p) (- ENOMEM)
    else if fatal_pending env then fail (bad_fork_cancel_cgroup p) (- EINTR)
    else
      publish_task p;; del_init RDelayed;; release RSiglock;; release RTasklist;; release RCgroup;;
      mret (inr p).

(** The key-value store of the new task: the caller's for a thread, two new arrays for a
    process.  The error return leaves by return, not by a label. *)
Definition with_kv (b : bool) (p : ptask) : ptask :=
  PTask (t_pid p) (t_tgid p) (t_leader p) (t_parent p) (t_exit_signal p)
    (t_mm p) (t_fs p) (t_files p) (t_sighand p) (t_signal p) (t_io p) b (t_socket_attrs p).
Definition cp_kv (p : ptask) : F (Z + ptask) :=
  if has CLONE_THREAD then cp_publish (with_kv true p)
  else
    kv_store ← alloc_kv (kv_ok env);
    kv_store_lock ← alloc_kv (kv_lock_ok env);
    if negb kv_store || negb kv_store_lock then mret (inl (- ENOMEM))
    else cp_publish (with_kv false p).

(** The pid and the pidfd, then pid, group leader and thread group id. *)
Definition cp_pid (files fs sighand signal mm io : Z) : F (Z + ptask) :=
  let p0 := PTask 0 0 0 0 0 mm fs files sighand signal io false (0, 0, 0) in
  acquire RThread;;
  if negb is_init_pid && (pid_ret env <? 0) then fail (bad_fork_cleanup_thread p0) (pid_ret env)
  else
    (if negb is_init_pid then acquire RPid else mret tt);;
    let pid := if is_init_pid then 0 else pid_ret env in
    let p := PTask pid (if has CLONE_THREAD then t_tgid current else pid)
               (if has CLONE_THREAD then t_leader current else pid) 0 0
               mm fs files sighand signal io false (0, 0, 0) in
    if has CLONE_PIDFD then
      if fd_ret env <? 0 then fail (bad_fork_free_pid p) (fd_ret env)
      else
        acquire RPidfd;;
        if ztrue (file_ret env) then release RPidfd;; fail (bad_fork_free_pid p) (file_ret env)
        else
          acquire RPidfile;;
          if ztrue (put_ret env) then fail (bad_fork_put_pidfd p) (put_ret env)
          else cp_kv p
    else cp_kv p.

(** copy_semundo to copy_thread. *)
Definition cp_copy : F (Z + ptask) :=
  if ztrue (sem_ret env) then fail bad_fork_cleanup_security (sem_ret env)
  else
  acquire RSemundo;;
  r ← copy_files;
  match r with
  | inl e => fail bad_fork_cleanup_semundo e
  | inr files =>
  r ← copy_fs;
  match r with
  | inl e => fail (bad_fork_cleanup_files files) e
  | inr fs =>
  r ← copy_sighand;
  match r with
  | inl e => fail (bad_fork_cleanup_fs files fs) e
  | inr sighand =>
  r ← copy_signal;
  match r with
  | inl e => fail (bad_fork_cleanup_sighand files fs sighand) e
  | inr signal =>
  r ← copy_mm;
  match r with
  | inl e => fail (bad_fork_cleanup_signal files fs sighand signal) e
  | inr mm =>
  if ztrue (ns_ret env) then fail (bad_fork_cleanup_mm files fs sighand signal mm) (ns_ret env)
  else
  acquire RNamespaces;;
  r ← copy_io;
  match r with
  | inl e => fail (bad_fork_cleanup_namespaces files fs sighand signal mm) e
  | inr io =>
  if ztrue (thread_ret env) then fail (bad_fork_cleanup_io files fs sighand signal mm io) (thread_ret env)
  else cp_pid files fs sighand signal mm io
  end end end end end end.

(** The task structure, credentials, policies, auditing and security. *)
Definition cp_alloc : F (Z + ptask) :=
  (if negb (has CLONE_THREAD) then acquire RDelayed else mret tt);;
  if sigpending env then fail fork_out (- ERESTARTNOINTR)
  else if negb (dup_ok env) then fail fork_out (- ENOMEM)
  else
  acquire RTask;;
  if creds_ret env <? 0 then fail bad_fork_free (creds_ret env)
  else
  acquire RCreds;; acquire RCount;;
  if over_rlimit env then fail bad_fork_cleanup_count (- EAGAIN)
  else if too_many env then fail bad_fork_cleanup_count (- EAGAIN)
  else
  acquire RDelayacct;;
  if ztrue (mpol_ret env) then fail bad_fork_cleanup_threadgroup_lock (mpol_ret env)
  else
  acquire RMempolicy;;
  if ztrue (sched_ret env) then fail bad_fork_cleanup_policy (sched_ret env)
  else if ztrue (perf_ret env) then fail bad_fork_cleanup_policy (perf_ret env)
  else
  acquire RPerf;;
  if ztrue (audit_ret env) then fail bad_fork_cleanup_perf (audit_ret env)
  else
  acquire RAudit;;
  if ztrue (security_ret env) then fail bad_fork_cleanup_audit (security_ret env)
  else acquire RSecurity;; cp_copy.

(** The checks of the flags. *)
Definition bad_clone_flags : bool :=
  both (Z.lor CLONE_NEWNS CLONE_FS)
  || both (Z.lor CLONE_NEWUSER CLONE_FS)
  || (has CLONE_THREAD && negb (has CLONE_SIGHAND))
  || (has CLONE_SIGHAND && negb (has CLONE_VM))
  || (has CLONE_PARENT && unkillable env)
  || (has CLONE_THREAD && (has (Z.lor CLONE_NEWUSER CLONE_NEWPID) || ns_differs env))
  || (has (Z.lor CLONE_THREAD CLONE_VM) && time_ns_differs env)
  || (has CLONE_PIDFD && has (Z.lor CLONE_DETACHED CLONE_THREAD)).

Definition copy_process : F (Z + ptask) :=
  if bad_clone_flags then mret (inl (- EINVAL)) else cp_alloc.

End Copy.
(** ** Undoing *)

Lemma fresh_obj_new s : refs s !! fresh_obj s = None /\ fresh_obj s <> 0.
Proof.
  unfold fresh_obj. pose proof (is_fresh ({[0]} ∪ dom (refs s) : gset Z)) as Hf.
  split; [apply not_elem_of_dom; set_solver|]. intros E. set_solver.
Qed.

(** What a copied or shared object is given back as. *)
Lemma put_new s : put_obj (fresh_obj s) (KState (<[fresh_obj s:=1]> (refs s)) (held s) (cnt s))
  = Some (tt, s).
Proof.
  destruct (fresh_obj_new s) as [Hn _]. unfold put_obj; simpl. rewrite lookup_insert_eq. simpl.
  rewrite delete_insert_id by done. by destruct s.
Qed.
Lemma put_get_obj o n s : refs s !! o = Some n -> 1 <= n ->
  put_obj o (KState (<[o:=n + 1]> (refs s)) (held s) (cnt s)) = Some (tt, s).
Proof.
  intros Hn H1. unfold put_obj; simpl. rewrite lookup_insert_eq. simpl.
  rewrite (proj2 (Z.eqb_neq (n + 1) 1)) by lia. rewrite insert_insert_eq.
  replace (n + 1 - 1) with n by lia. rewrite insert_id by done. by destruct s.
Qed.

Lemma more_kv_0 c : more_kv 0 c = c.
Proof. unfold more_kv. rewrite Z.add_0_r. by destruct c. Qed.
Lemma more_kv_plus a b c : more_kv b (more_kv a c) = more_kv (a + b) c.
Proof. unfold more_kv; simpl. f_equal. lia. Qed.

(** Labels leave the key-value arrays alone. *)
Definition add_kv (k : Z) (s : kstate) : kstate := KState (refs s) (held s) (more_kv k (cnt s)).
Class KvFrame (m : F unit) : Prop :=
  kv_frame : forall s k, m (add_kv k s) = (fun us => (us.1, add_kv k us.2)) <$> m s.

#[export] Instance release_frame r : KvFrame (release r).
Proof. intros s k. unfold release; simpl. by destruct (remove_res r (held s)). Qed.
#[export] Instance del_init_frame r : KvFrame (del_init r).
Proof. intros s k. unfold del_init; simpl. by destruct (remove_res r (held s)). Qed.
#[export] Instance put_frame o : KvFrame (put_obj o).
Proof. intros s k. unfold put_obj; simpl. by destruct (refs s !! o). Qed.
#[export] Instance ret_frame : KvFrame (mret tt).
Proof. by intros s k. Qed.
#[export] Instance bind_frame (m1 m2 : F unit) : KvFrame m1 -> KvFrame m2 -> KvFrame (m1;; m2).
Proof.
  intros H1 H2 s k. unfold mbind, F_bind. rewrite (H1 s k).
  destruct (m1 s) as [[[] s1]|]; [|done]. apply (H2 s1 k).
Qed.
#[export] Instance if_frame (b : bool) (m1 m2 : F unit) :
  KvFrame m1 -> KvFrame m2 -> KvFrame (if b then m1 else m2).
Proof. by destruct b. Qed.

Ltac frame := repeat (first [ progress unfold fork_out, bad_fork_free, bad_fork_cleanup_count,
  bad_fork_cleanup_threadgroup_lock, bad_fork_cleanup_policy, bad_fork_cleanup_perf,
  bad_fork_cleanup_audit, bad_fork_cleanup_security, bad_fork_cleanup_semundo, put_if,
  bad_fork_cleanup_files, bad_fork_cleanup_fs, bad_fork_cleanup_sighand, bad_fork_cleanup_signal,
  bad_fork_cleanup_mm, bad_fork_cleanup_namespaces, bad_fork_cleanup_io, bad_fork_cleanup_thread,
  bad_fork_free_pid, bad_fork_put_pidfd | apply _ ]).

Lemma put_pidfd_frame fl i p : KvFrame (bad_fork_put_pidfd fl i p).
Proof. frame. Qed.

(** What a stage may end with, when everything is given back in state [s0]. *)
Definition outcome (env : cp_env) (fl : Z) (s0 : kstate) (good : ptask -> kstate -> Prop)
    (o : option ((Z + ptask) * kstate)) : Prop :=
  match o with
  | None => False
  | Some (inr p, s) => good p s
  | Some (inl e, s) =>
      e < 0 /\
      (s = s0 \/
       flag fl CLONE_THREAD = false /\
         (s = add_kv 2 s0 \/
          (kv_ok env && kv_lock_ok env)%bool = false /\ e = - ENOMEM /\ RTask ∈ held s))
  end.

Section Unwind.
Context (env : cp_env) (fl : Z) (cur : ptask) (i : bool) (es : Z).

Lemma fail_undone {A} (label : F unit) e s s0 :
  label s = Some (tt, s0) -> fail (A:=A) label e s = Some (inl e, s0).
Proof. intros H. unfold fail, mbind, F_bind. by rewrite H. Qed.

(** hlist_del_init on the list of resources. *)
Definition del_held (l : list res) : list res :=
  match remove_res RDelayed l with Some l' => l' | None => l end.

Lemma publish_task_run p s :
  is_Some (refs s !! t_signal cur) ->
  exists r, publish_task cur p s = Some (tt, KState r (held s) (published p (cnt s))) /\
    (forall o, is_Some (refs s !! o) -> is_Some (r !! o)).
Proof.
  intros [n Hn]. unfold publish_task. destruct (negb _ && _)%bool; [|by exists (refs s)].
  unfold get_obj, mbind at 1, F_bind at 1. rewrite Hn. cbn [mbind option_bind].
  exists (<[t_signal cur:=n + 1]> (refs s)). split; [done|].
  intros o Ho. destruct (decide (o = t_signal cur)) as [->|];
    [rewrite lookup_insert_eq; by eexists|by rewrite lookup_insert_ne].
Qed.

Lemma cp_publish_spec p s s0 :
  bad_fork_put_pidfd fl i p s = Some (tt, s0) -> cgroup_ret env <= 0 -> is_Some (refs s !! t_signal cur) ->
  (exists e, cp_publish env fl cur i es p s = Some (inl e, s0) /\ e < 0) \/
  (exists r, cp_publish env fl cur i es p s =
     Some (inr (set_parent env fl cur es p),
       KState r (RSchedCore :: del_held (held s)) (published (set_parent env fl cur es p) (cnt s))) /\
     (forall o, is_Some (refs s !! o) -> is_Some (r !! o))).
Proof.
  intros Hu Hc Hsig. unfold cp_publish, ztrue.
  destruct (Z.eqb_spec (cgroup_ret env) 0); cbn [negb].
  2: { left. exists (cgroup_ret env). split; [by apply fail_undone|lia]. }
  set (p' := set_parent env fl cur es p).
  assert (t_files p' = t_files p /\ t_fs p' = t_fs p /\ t_sighand p' = t_sighand p /\
    t_signal p' = t_signal p /\ t_mm p' = t_mm p /\ t_io p' = t_io p) as (E1 & E2 & E3 & E4 & E5 & E6)
    by (unfold p', set_parent; by destruct (has fl _)).
  assert (bad_fork_put_pidfd fl i p' s = Some (tt, s0)) as Hu'.
  { unfold bad_fork_put_pidfd, bad_fork_free_pid, bad_fork_cleanup_thread in *.
    by rewrite E1, E2, E3, E4, E5, E6. }
  assert (forall e, fail (A:=ptask) (bad_fork_cancel_cgroup fl i p') e
    (KState (refs s) (RSiglock :: RSchedCore :: RTasklist :: RCgroup :: held s) (cnt s)) =
    Some (inl e, s0)) as Hcancel.
  { intros e'. apply fail_undone. unfold bad_fork_cancel_cgroup, mbind, F_bind.
    cbn. by destruct s. }
  unfold mbind, F_bind, acquire; cbn [refs held cnt].
  destruct (ns_adding env); cbn [negb]; [|left; exists (- ENOMEM); by rewrite Hcancel].
  destruct (fatal_pending env); [left; exists (- EINTR); by rewrite Hcancel|]. right.
  match goal with |- context [publish_task cur p' ?x] => destruct (publish_task_run p' x Hsig) as (r & -> & Hr) end.
  exists r. split; [|done]. unfold del_init, release, mret, F_ret, del_held. cbn.
  by destruct (remove_res RDelayed (held s)).
Qed.

(** The state and the task that a successful attempt leaves. *)
Definition visible (p p' : ptask) (s s' : kstate) : Prop :=
  p' = set_parent env fl cur es (with_kv (flag fl CLONE_THREAD) p) /\
  held s' = RSchedCore :: del_held (held s) /\
  cnt s' = published p' (more_kv (if flag fl CLONE_THREAD then 0 else 2) (cnt s)) /\
  (forall o, is_Some (refs s !! o) -> is_Some (refs s' !! o)).

Lemma cp_kv_spec p s s0 :
  bad_fork_put_pidfd fl i p s = Some (tt, s0) -> cgroup_ret env <= 0 -> is_Some (refs s !! t_signal cur) ->
  RTask ∈ held s ->
  outcome env fl s0 (fun p' s' => visible p p' s s') (cp_kv env fl cur i es p s).
Proof.
  intros Hu Hc Hs Ht. unfold cp_kv, visible. unfold has at 1. destruct (flag fl CLONE_THREAD) eqn:Eth.
  - destruct (cp_publish_spec (with_kv true p) s s0) as [(e & -> & He)|(r & -> & Hr)]; try done.
    + split; [done|by left].
    + split; [done|]. split; [done|]. split; [by rewrite more_kv_0|done].
  - unfold mbind, F_bind, alloc_kv. 
    set (s1 := if kv_ok env then _ else s). set (s2 := if kv_lock_ok env then _ else s1).
    assert (held s2 = held s) as Hh by (unfold s2, s1; by destruct (kv_lock_ok env), (kv_ok env)).
    destruct (negb (kv_ok env) || negb (kv_lock_ok env))%bool eqn:Ek.
    + split; [done|]. right. split; [done|]. right. split; [|by rewrite Hh].
      by destruct (kv_ok env), (kv_lock_ok env).
    + apply orb_false_iff in Ek as [E1%negb_false_iff E2%negb_false_iff].
      assert (s2 = add_kv 2 s) as ->.
      { unfold s2, s1. rewrite E1, E2. unfold add_kv; simpl. by rewrite more_kv_plus. }
      destruct (cp_publish_spec (with_kv false p) (add_kv 2 s) (add_kv 2 s0)) as [(e & -> & He)|(r & -> & Hr)];
        [|done|done| |].
      * change (bad_fork_put_pidfd fl i p (add_kv 2 s) = Some (tt, add_kv 2 s0)).
        rewrite (put_pidfd_frame fl i p s 2), Hu. done.
      * split; [done|]. right. split; [done|]. by left.
      * split; [done|]. split; [done|]. split; [done|done].
Qed.

(** *** Objects *)

Definition grows (s s' : kstate) : Prop :=
  forall o n, refs s !! o = Some n -> exists n', refs s' !! o = Some n' /\ n <= n'.
Definition live (o : Z) (s : kstate) : Prop := exists n, refs s !! o = Some n /\ 1 <= n.

Lemma grows_refl s : grows s s.
Proof. intros o n H. exists n. split; [done|lia]. Qed.
Lemma grows_trans s1 s2 s3 : grows s1 s2 -> grows s2 s3 -> grows s1 s3.
Proof.
  intros H1 H2 o n Hn. destruct (H1 o n Hn) as (n1 & E1 & ?). destruct (H2 o n1 E1) as (n2 & E2 & ?).
  exists n2. split; [done|lia].
Qed.
Lemma live_grows o s s' : live o s -> grows s s' -> live o s'.
Proof. intros (n & Hn & ?) Hg. destruct (Hg o n Hn) as (n' & ? & ?). exists n'. split; [done|lia]. Qed.

(** A part of the task was taken over: it is the caller's, or new, and [put] gives it
    back. *)
Definition taken (shared : bool) (mine o : Z) (put : F unit) (s s' : kstate) : Prop :=
  put s' = Some (tt, s) /\ grows s s' /\ held s' = held s /\ cnt s' = cnt s /\
  (if shared then o = mine else o = 0 \/ (o <> 0 /\ refs s !! o = None)).

Definition copied (shared : bool) (mine : Z) (put : Z -> F unit) (s : kstate)
    (r : option ((Z + Z) * kstate)) : Prop :=
  (exists e, r = Some (inl e, s) /\ e < 0) \/
  (exists o s', r = Some (inr o, s') /\ taken shared mine o (put o) s s').

Lemma copied_new s (put : Z -> F unit) mine :
  (forall s1 o, o <> 0 -> put o s1 = put_obj o s1) ->
  copied false mine put s (Some (inr (fresh_obj s), KState (<[fresh_obj s:=1]> (refs s)) (held s) (cnt s))).
Proof.
  intros Hp. destruct (fresh_obj_new s) as [Hn H0]. right. do 2 eexists. split; [done|].
  split; [rewrite Hp by done; apply put_new|]. split; [|by auto].
  intros o n Ho. exists n. simpl. rewrite lookup_insert_ne by congruence. split; [done|lia].
Qed.

Lemma copied_get s (put : Z -> F unit) mine :
  (mine <> 0 -> forall s1, put mine s1 = put_obj mine s1) -> mine <> 0 -> live mine s ->
  copied true mine put s ((get_obj mine;; mret (inr mine)) s).
Proof.
  intros Hp H0 (n & Hn & H1). right. unfold mbind, F_bind, get_obj. rewrite Hn. do 2 eexists.
  split; [done|]. split; [rewrite Hp by done; by apply put_get_obj|]. split; [|done].
  intros o m Ho. destruct (decide (o = mine)) as [->|].
  - exists (n + 1). simpl. rewrite lookup_insert_eq. split; [done|]. simplify_eq. lia.
  - exists m. simpl. rewrite lookup_insert_ne by done. split; [done|lia].
Qed.

Lemma copied_fail s (put : Z -> F unit) b mine e : e < 0 -> copied b mine put s (Some (inl e, s)).
Proof. intros He. left. eauto. Qed.

Lemma copied_none s (put : Z -> F unit) mine :
  put 0 s = Some (tt, s) -> copied false mine put s (Some (inr 0, s)).
Proof. intros Hp. right. do 2 eexists. split; [done|]. split; [done|]. split; [apply grows_refl|auto]. Qed.

Lemma put_if_nz o s : o <> 0 -> put_if o s = put_obj o s.
Proof. intros H. unfold put_if. by rewrite (proj2 (Z.eqb_neq _ _) H). Qed.

(** The caller's objects are live; fs, sighand and signal are always there. *)
Definition caller_ok (s : kstate) : Prop :=
  live (t_fs cur) s /\ live (t_sighand cur) s /\ live (t_signal cur) s /\
  t_fs cur <> 0 /\ t_sighand cur <> 0 /\
  (t_mm cur <> 0 -> live (t_mm cur) s) /\ (t_files cur <> 0 -> live (t_files cur) s) /\
  (t_io cur <> 0 -> live (t_io cur) s).

Lemma caller_ok_grows s s' : caller_ok s -> grows s s' -> caller_ok s'.
Proof. intros (H1 & H2 & H3 & ? & ? & H4 & H5 & H6) Hg. split_and!; eauto using live_grows. Qed.

Lemma copy_mm_spec s : caller_ok s ->
  copied (flag fl CLONE_VM && negb (t_mm cur =? 0)) (t_mm cur) put_if s (copy_mm env fl cur s).
Proof.
  intros (_ & _ & _ & _ & _ & Hm & _). unfold copy_mm, has.
  destruct (Z.eqb_spec (t_mm cur) 0); simpl negb; [rewrite andb_false_r; by apply copied_none|].
  rewrite andb_true_r. destruct (flag fl CLONE_VM).
  - apply copied_get; [intros; by apply put_if_nz|done|auto].
  - destruct (dup_mm_ok env); [apply copied_new; intros; by apply put_if_nz|by apply copied_fail].
Qed.

Lemma copy_files_spec s : caller_ok s -> dup_fd_ret env <= 0 ->
  copied (flag fl CLONE_FILES && negb (t_files cur =? 0)) (t_files cur) put_if s (copy_files env fl cur s).
Proof.
  intros (_ & _ & _ & _ & _ & _ & Hm & _) Hd. unfold copy_files, has, ztrue.
  destruct (Z.eqb_spec (t_files cur) 0); simpl negb; [rewrite andb_false_r; by apply copied_none|].
  rewrite andb_true_r. destruct (flag fl CLONE_FILES).
  - apply copied_get; [intros; by apply put_if_nz|done|auto].
  - destruct (Z.eqb_spec (dup_fd_ret env) 0); cbn [negb];
      [apply copied_new; intros; by apply put_if_nz|apply copied_fail; lia].
Qed.

Lemma copy_io_spec s : caller_ok s ->
  copied (flag fl CLONE_IO && negb (t_io cur =? 0)) (t_io cur) put_if s (copy_io env fl cur s).
Proof.
  intros (_ & _ & _ & _ & _ & _ & _ & Hm). unfold copy_io, has.
  destruct (Z.eqb_spec (t_io cur) 0); simpl negb; [rewrite andb_false_r; by apply copied_none|].
  rewrite andb_true_r. destruct (flag fl CLONE_IO).
  - apply copied_get; [intros; by apply put_if_nz|done|auto].
  - destruct (ioprio_valid env); [|by apply copied_none].
    destruct (io_ok env); [apply copied_new; intros; by apply put_if_nz|by apply copied_fail].
Qed.

Lemma copy_fs_spec s : caller_ok s ->
  copied (flag fl CLONE_FS) (t_fs cur) put_obj s (copy_fs env fl cur s).
Proof.
  intros (Hm & _ & _ & ? & _). unfold copy_fs, has. destruct (flag fl CLONE_FS).
  - destruct (fs_in_exec env); [by apply copied_fail|by apply copied_get].
  - destruct (fs_copy_ok env); [by apply copied_new|by apply copied_fail].
Qed.

Lemma copy_sighand_spec s : caller_ok s ->
  copied (flag fl CLONE_SIGHAND) (t_sighand cur) put_obj s (copy_sighand env fl cur s).
Proof.
  intros (_ & Hm & _ & _ & ? & _). unfold copy_sighand, has. destruct (flag fl CLONE_SIGHAND).
  - by apply copied_get.
  - destruct (sighand_ok env); [by apply copied_new|by apply copied_fail].
Qed.

Definition put_signal (signal : Z) : F unit :=
  if negb (has fl CLONE_THREAD) then put_obj signal else mret tt.
Lemma copy_signal_spec s : caller_ok s ->
  copied (flag fl CLONE_THREAD) (t_signal cur) put_signal s (copy_signal env fl cur s).
Proof.
  intros _. unfold copy_signal, put_signal, has. destruct (flag fl CLONE_THREAD); cbn [negb].
  - right. do 2 eexists. split; [done|]. split; [done|]. split; [apply grows_refl|done].
  - destruct (signal_ok env); [by apply copied_new|by apply copied_fail].
Qed.

(** *** From the pid on *)

Definition env_neg : Prop :=
  pid_ret env < 2 ^ 31 /\ file_ret env <= 0 /\ put_ret env <= 0 /\ cgroup_ret env <= 0 /\
  dup_fd_ret env <= 0 /\ ns_ret env <= 0 /\ thread_ret env <= 0 /\ sem_ret env <= 0 /\
  security_ret env <= 0 /\ audit_ret env <= 0 /\ perf_ret env <= 0 /\ sched_ret env <= 0 /\
  mpol_ret env <= 0.

(** The resources of the pid, the pidfd and the thread state. *)
Definition pid_held : list res :=
  (if flag fl CLONE_PIDFD then [RPidfile; RPidfd] else []) ++
  (if i then [] else [RPid]) ++ [RThread].
(** The task the pid stage makes. *)
Definition pid_task (files fs sighand signal mm io : Z) : ptask :=
  let pid := if i then 0 else pid_ret env in
  PTask pid (if flag fl CLONE_THREAD then t_tgid cur else pid)
    (if flag fl CLONE_THREAD then t_leader cur else pid) 0 0 mm fs files sighand signal io false (0, 0, 0).

Lemma cp_pid_spec files fs sighand signal mm io s s0 :
  env_neg -> bad_fork_cleanup_io fl files fs sighand signal mm io s = Some (tt, s0) ->
  is_Some (refs s !! t_signal cur) -> RTask ∈ held s ->
  outcome env fl s0
    (fun p' s' => visible (pid_task files fs sighand signal mm io) p'
       (KState (refs s) (pid_held ++ held s) (cnt s)) s')
    (cp_pid env fl cur i es files fs sighand signal mm io s).
Proof.
  intros (_ & Hf & Hp & Hc & _) Hu Hs Ht. unfold cp_pid, pid_held, has, ztrue.
  set (s1 := KState (refs s) (RThread :: held s) (cnt s)).
  assert (forall p, t_files p = files -> t_fs p = fs -> t_sighand p = sighand -> t_signal p = signal ->
    t_mm p = mm -> t_io p = io -> bad_fork_cleanup_thread fl p s1 = Some (tt, s0)) as Hthread.
  { intros p E1 E2 E3 E4 E5 E6. unfold bad_fork_cleanup_thread. rewrite E1, E2, E3, E4, E5, E6.
    unfold mbind, F_bind. cbn [release remove_res s1 held refs cnt]. simpl. by destruct s. }
  unfold mbind at 1, F_bind at 1, acquire at 1. fold s1.
  destruct (negb i && (pid_ret env <? 0))%bool eqn:Epid.
  { unfold mbind, F_bind. rewrite (fail_undone _ _ s1 s0); [|by apply Hthread].
    apply andb_true_iff in Epid as [_ Epid%Z.ltb_lt]. split; [done|by left]. }
  fold (pid_task files fs sighand signal mm io).
  set (p := pid_task files fs sighand signal mm io).
  set (s2 := KState (refs s) ((if i then [] else [RPid]) ++ [RThread] ++ held s) (cnt s)).
  assert (bad_fork_free_pid fl i p s2 = Some (tt, s0)) as Hpid.
  { unfold bad_fork_free_pid, mbind, F_bind, s2. destruct i; cbn [negb]; cbn; by apply Hthread. }
  assert ((if negb i then acquire RPid else mret tt) s1 = Some (tt, s2)) as Hacq by by destruct i.
  unfold mbind at 1, F_bind at 1. rewrite Hacq. destruct (flag fl CLONE_PIDFD) eqn:Epf.
  - destruct (Z.ltb_spec (fd_ret env) 0).
    { rewrite (fail_undone _ _ s2 s0) by done. split; [done|by left]. }
    unfold mbind, F_bind, acquire. 
    destruct (Z.eqb_spec (file_ret env) 0); cbn [negb].
    2: { assert (release RPidfd (KState (refs s2) (RPidfd :: held s2) (cnt s2)) = Some (tt, s2)) as ->
           by reflexivity.
         rewrite (fail_undone _ _ s2 s0) by done. split; [lia|by left]. }
    cbn [refs held cnt s2].
    set (s3 := KState (refs s) (RPidfile :: RPidfd :: (if i then [] else [RPid]) ++ [RThread] ++ held s) (cnt s)).
    assert (bad_fork_put_pidfd fl i p s3 = Some (tt, s0)) as Hput.
    { unfold bad_fork_put_pidfd, has. rewrite Epf. unfold mbind, F_bind. exact Hpid. }
    destruct (Z.eqb_spec (put_ret env) 0); cbn [negb].
    2: { rewrite (fail_undone _ _ s3 s0) by done. split; [lia|by left]. }
    rewrite <- !app_assoc.
    apply cp_kv_spec; try done. simpl. set_solver.
  - rewrite <- !app_assoc.
    apply cp_kv_spec; try done; [|simpl; set_solver].
    unfold bad_fork_put_pidfd, has. by rewrite Epf.
Qed.

(** *** From the copies on *)

(** A part of the child: the caller's when shared, else absent or new. *)
Definition part (shared : bool) (mine o : Z) (s : kstate) : Prop :=
  if shared then o = mine else o = 0 \/ refs s !! o = None.

(** The new task: its numbers, parent, parts and attributes. *)
Definition child_ok (p : ptask) (s : kstate) : Prop :=
  let pid := if i then 0 else pid_ret env in
  let thread := flag fl CLONE_THREAD in
  let sib := flag fl (Z.lor CLONE_PARENT CLONE_THREAD) in
  t_pid p = pid /\ t_tgid p = (if thread then t_tgid cur else pid) /\
  t_leader p = (if thread then t_leader cur else pid) /\
  t_parent p = (if sib then t_parent cur else t_pid cur) /\
  t_exit_signal p = (if sib then if thread then -1 else group_exit_signal env else es) /\
  t_kv_shared p = thread /\ t_socket_attrs p = (0, 0, 0) /\
  part (flag fl CLONE_VM && negb (t_mm cur =? 0)) (t_mm cur) (t_mm p) s /\
  part (flag fl CLONE_FS) (t_fs cur) (t_fs p) s /\
  part (flag fl CLONE_FILES && negb (t_files cur =? 0)) (t_files cur) (t_files p) s /\
  part (flag fl CLONE_SIGHAND) (t_sighand cur) (t_sighand p) s /\
  part thread (t_signal cur) (t_signal p) s /\
  part (flag fl CLONE_IO && negb (t_io cur =? 0)) (t_io cur) (t_io p) s.

Lemma part_taken b mine o put s0 s s' :
  taken b mine o put s s' -> grows s0 s -> part b mine o s0.
Proof.
  intros (_ & _ & _ & _ & H) Hg. unfold part. destruct b; [done|].
  destruct H as [?|[_ Hn]]; [by left|right].
  destruct (refs s0 !! o) as [n|] eqn:E; [|done]. destruct (Hg o n E) as (? & ? & _). congruence.
Qed.

Lemma outcome_impl s0 (good good' : ptask -> kstate -> Prop) o :
  outcome env fl s0 good o -> (forall p s, good p s -> good' p s) -> outcome env fl s0 good' o.
Proof. intros H Hi. destruct o as [[[e|p] s]|]; simpl in *; auto. Qed.

Lemma fail_outcome s0 good (label : F unit) e s :
  label s = Some (tt, s0) -> e < 0 -> outcome env fl s0 good (fail label e s).
Proof. intros Hl He. rewrite (fail_undone _ _ _ _ Hl). split; [done|by left]. Qed.

(** Giving a part back and going on with the label below it. *)
Lemma undo_step (put label : F unit) s s' s0 :
  put s' = Some (tt, s) -> label s = Some (tt, s0) -> (put;; label) s' = Some (tt, s0).
Proof. intros Hp Hl. unfold mbind, F_bind. by rewrite Hp. Qed.

Lemma bind_run {A B} (m : F A) (k : A -> F B) s a s' : m s = Some (a, s') -> (m ≫= k) s = k a s'.
Proof. intros H. unfold mbind, F_bind. by rewrite H. Qed.

Definition push (r : res) (s : kstate) : kstate := KState (refs s) (r :: held s) (cnt s).
Lemma undo_res r (label : F unit) s s0 :
  label s = Some (tt, s0) -> (release r;; label) (push r s) = Some (tt, s0).
Proof.
  apply undo_step. unfold release, push; simpl. rewrite decide_True by done. by destruct s.
Qed.

(** One copied part: an error undoes what is there, success goes on. *)
Lemma copied_outcome b mine put s s0 (good : ptask -> kstate -> Prop) (m : F (Z + Z)) (label : F unit)
    (k : Z -> F (Z + ptask)) :
  copied b mine put s (m s) -> label s = Some (tt, s0) ->
  (forall o s', taken b mine o (put o) s s' -> outcome env fl s0 good (k o s')) ->
  outcome env fl s0 good
    ((r ← m; match r with inl e => fail label e | inr o => k o end) s).
Proof.
  intros [(e & Hm & He)|(o & s' & Hm & Ht)] Hl Hk; rewrite (bind_run _ _ _ _ _ Hm);
    [by apply fail_outcome|by apply Hk].
Qed.

(** A call that answers 0 or an error. *)
Lemma tested_outcome ret (label : F unit) s s0 good (k : F (Z + ptask)) :
  label s = Some (tt, s0) -> ret <= 0 -> outcome env fl s0 good (k s) ->
  outcome env fl s0 good ((if ztrue ret then fail label ret else k) s).
Proof.
  intros Hl Hr Hk. unfold ztrue. destruct (Z.eqb_spec ret 0); cbn [negb]; [done|].
  apply fail_outcome; [done|lia].
Qed.
Lemma acquire_run {A} r (k : F A) s : (acquire r;; k) s = k (push r s).
Proof. done. Qed.

(** The parts of the task that the pid stage made are the child's. *)
Lemma child_ok_intro files fs sighand signal mm io s :
  part (flag fl CLONE_VM && negb (t_mm cur =? 0)) (t_mm cur) mm s ->
  part (flag fl CLONE_FS) (t_fs cur) fs s ->
  part (flag fl CLONE_FILES && negb (t_files cur =? 0)) (t_files cur) files s ->
  part (flag fl CLONE_SIGHAND) (t_sighand cur) sighand s ->
  part (flag fl CLONE_THREAD) (t_signal cur) signal s ->
  part (flag fl CLONE_IO && negb (t_io cur =? 0)) (t_io cur) io s ->
  child_ok (set_parent env fl cur es (with_kv (flag fl CLONE_THREAD) (pid_task files fs sighand signal mm io))) s.
Proof.
  intros. unfold child_ok, set_parent, has. by destruct (flag fl (Z.lor CLONE_PARENT CLONE_THREAD)).
Qed.

Ltac copy_part spec Hok U o s' T P G E K U' Hok' :=
  eapply copied_outcome; [by apply spec|exact U|]; intros o s' T;
  pose proof T as (P & G & E & K & _); pose proof (undo_step _ _ _ _ _ P U) as U';
  pose proof (caller_ok_grows _ _ Hok G) as Hok'.

Lemma cp_copy_spec s s0 :
  env_neg -> caller_ok s -> bad_fork_cleanup_security s = Some (tt, s0) -> RTask ∈ held s ->
  outcome env fl s0
    (fun p s' => child_ok p s /\
       held s' = RSchedCore :: del_held (pid_held ++ RNamespaces :: RSemundo :: held s) /\
       cnt s' = published p (more_kv (if flag fl CLONE_THREAD then 0 else 2) (cnt s)))
    (cp_copy env fl cur i es s).
Proof.
  intros Hneg Hok Hsec Ht. pose proof Hneg as (_ & _ & _ & _ & Hdup & Hns & Hthr & Hsem & _).
  unfold cp_copy. apply tested_outcome; [done|done|]. rewrite acquire_run. set (s1 := push RSemundo s).
  assert (bad_fork_cleanup_semundo s1 = Some (tt, s0)) as U1 by (by apply undo_res).
  assert (caller_ok s1) as Hok1 by exact Hok.
  copy_part copy_files_spec Hok1 U1 files s2 T2 P2 G2 E2 K2 U2 Hok2.
  copy_part copy_fs_spec Hok2 U2 fs s3 T3 P3 G3 E3 K3 U3 Hok3.
  copy_part copy_sighand_spec Hok3 U3 sighand s4 T4 P4 G4 E4 K4 U4 Hok4.
  copy_part copy_signal_spec Hok4 U4 signal s5 T5 P5 G5 E5 K5 U5 Hok5.
  copy_part copy_mm_spec Hok5 U5 mm s6 T6 P6 G6 E6 K6 U6 Hok6.
  apply tested_outcome; [exact U6|done|]. rewrite acquire_run. set (s7 := push RNamespaces s6).
  pose proof (undo_res RNamespaces _ _ _ U6 : bad_fork_cleanup_namespaces _ _ _ _ _ _ s7 = _) as U7.
  assert (caller_ok s7) as Hok7 by exact Hok6.
  copy_part copy_io_spec Hok7 U7 io s8 T8 P8 G8 E8 K8 U8 Hok8.
  apply tested_outcome; [exact U8|done|].
  assert (held s8 = RNamespaces :: RSemundo :: held s) as Hh.
  { rewrite E8. unfold s7, push; cbn [held]. by rewrite E6, E5, E4, E3, E2. }
  assert (cnt s8 = cnt s) as Hkv.
  { rewrite K8. unfold s7, push; cbn [cnt]. by rewrite K6, K5, K4, K3, K2. }
  assert (grows s s1) as G1 by exact (grows_refl s).
  assert (grows s6 s7) as G7 by exact (grows_refl s6).
  assert (grows s s2 /\ grows s s3 /\ grows s s4 /\ grows s s5 /\ grows s s7)
    as (L2 & L3 & L4 & L5 & L7) by (split_and!; eauto 8 using grows_trans).
  assert (is_Some (refs s8 !! t_signal cur)) as Hsig.
  { destruct Hok8 as (_ & _ & (n & Hn & _) & _). by exists n. }
  eapply outcome_impl; [apply cp_pid_spec; [done|exact U8|exact Hsig|rewrite Hh; set_solver]|].
  intros p s' (Hp & Hheld & Hk & _). cbn [held cnt] in Hheld, Hk. rewrite Hh in Hheld.
  rewrite Hkv in Hk. split; [|by split]. rewrite Hp. apply child_ok_intro; eauto using part_taken.
Qed.

(** *** The whole attempt *)

(** What a new task holds. *)
Definition child_held : list res :=
  RSchedCore :: pid_held ++ [RNamespaces; RSemundo; RSecurity; RAudit; RPerf; RMempolicy;
                             RDelayacct; RCount; RCreds; RTask].

Lemma cp_alloc_spec s :
  env_neg -> caller_ok s -> held s = [] ->
  outcome env fl s
    (fun p s' => child_ok p s /\ held s' = child_held /\
       cnt s' = published p (more_kv (if flag fl CLONE_THREAD then 0 else 2) (cnt s)))
    (cp_alloc env fl cur i es s).
Proof.
  intros Hneg Hok Hh. pose proof Hneg as (_ & _ & _ & _ & _ & _ & _ & _ & Hsec & Haud & Hperf & Hsched & Hmp).
  unfold cp_alloc.
  set (s1 := if flag fl CLONE_THREAD then s else push RDelayed s).
  rewrite (bind_run _ _ _ tt s1) by (unfold has, s1; by destruct (flag fl CLONE_THREAD)).
  assert (fork_out s1 = Some (tt, s)) as U1.
  { unfold fork_out, del_init, s1. destruct (flag fl CLONE_THREAD); [by rewrite Hh|].
    unfold push; cbn. rewrite decide_True by done. by destruct s. }
  destruct (sigpending env); [by apply fail_outcome|].
  destruct (dup_ok env); cbn [negb]; [|by apply fail_outcome].
  rewrite acquire_run. pose proof (undo_res RTask _ _ _ U1) as U2. set (s2 := push RTask s1) in *.
  destruct (Z.ltb_spec (creds_ret env) 0); [by apply fail_outcome|].
  rewrite !acquire_run. assert (bad_fork_cleanup_count (push RCount (push RCreds s2)) = Some (tt, s)) as U3
    by (by apply undo_res, undo_res). set (s3 := push RCount (push RCreds s2)) in *.
  destruct (over_rlimit env); [by apply fail_outcome|]. destruct (too_many env); [by apply fail_outcome|].
  rewrite acquire_run. pose proof (undo_res RDelayacct _ _ _ U3) as U4. set (s4 := push RDelayacct s3) in *.
  apply tested_outcome; [exact U4|done|].
  rewrite acquire_run. pose proof (undo_res RMempolicy _ _ _ U4) as U5. set (s5 := push RMempolicy s4) in *.
  apply tested_outcome; [exact U5|done|]. apply tested_outcome; [exact U5|done|].
  rewrite acquire_run. pose proof (undo_res RPerf _ _ _ U5) as U6. set (s6 := push RPerf s5) in *.
  apply tested_outcome; [exact U6|done|].
  rewrite acquire_run. pose proof (undo_res RAudit _ _ _ U6) as U7. set (s7 := push RAudit s6) in *.
  apply tested_outcome; [exact U7|done|].
  rewrite acquire_run. pose proof (undo_res RSecurity _ _ _ U7) as U8.
  assert (refs (push RSecurity s7) = refs s /\ cnt (push RSecurity s7) = cnt s /\
    held (push RSecurity s7) = [RSecurity; RAudit; RPerf; RMempolicy; RDelayacct; RCount; RCreds; RTask]
      ++ (if flag fl CLONE_THREAD then [] else [RDelayed])) as (Hr & Hk & Hhd).
  { unfold s7, s6, s5, s4, s3, s2, s1. destruct (flag fl CLONE_THREAD); simpl; by rewrite Hh. }
  set (s8 := push RSecurity s7) in *. clearbody s8.
  eapply outcome_impl; [apply cp_copy_spec; [done| |exact U8|rewrite Hhd; set_solver]|].
  - unfold caller_ok, live. rewrite Hr. exact Hok.
  - intros p s' (Hc & Hheld & Hkv). split; [|split].
    + unfold child_ok, part in *. by rewrite Hr in Hc.
    + rewrite Hheld, Hhd. unfold child_held, pid_held, del_held.
      destruct (flag fl CLONE_PIDFD), i, (flag fl CLONE_THREAD); reflexivity.
    + by rewrite Hkv, Hk.
Qed.

(** The flags a successful attempt had. *)
Definition flags_consistent : Prop :=
  (flag fl CLONE_THREAD = true -> flag fl CLONE_SIGHAND = true) /\
  (flag fl CLONE_SIGHAND = true -> flag fl CLONE_VM = true) /\
  (flag fl CLONE_THREAD = true -> flag fl CLONE_PIDFD = false).

Lemma flag_lor a b x : flag x (Z.lor a b) = flag x a || flag x b.
Proof.
  unfold flag, ztrue. rewrite Z.land_lor_distr_r.
  destruct (Z.eqb_spec (Z.land x a) 0) as [->|Ha]; simpl; [by rewrite Z.lor_0_l|].
  apply negb_true_iff, Z.eqb_neq. intros E. apply Z.lor_eq_0_iff in E as [? _]. done.
Qed.

Lemma good_flags : bad_clone_flags env fl = false -> flags_consistent.
Proof.
  unfold bad_clone_flags, has. rewrite !flag_lor. unfold flags_consistent.
  destruct (flag fl CLONE_THREAD), (flag fl CLONE_SIGHAND), (flag fl CLONE_VM), (flag fl CLONE_PIDFD);
    rewrite ?orb_true_r, ?andb_true_r, ?orb_true_r; simpl; intros H; repeat split; try done;
    rewrite ?orb_true_r in H; try discriminate.
Qed.

End Unwind.

(** (C5) copy_process, whatever fails.  It never gives back what it does not hold.  When
    it returns an error, every count, lock, list node and structure is as before, with
    two exceptions: if the key-value arrays of the new process cannot be allocated, it
    returns without undoing anything, the new task structure included; and an error
    after their allocation leaves the two arrays behind.  When it returns a task, the
    flags were consistent, the task shares exactly the parts the flags name and has new
    ones otherwise, is in the caller's thread group and uses the caller's key-value store
    exactly if it is a thread, starts with the default socket attributes, holds exactly
    the resources of a task, is counted, and a group leader is linked to its parent. *)
Theorem copy_process_unwinds env fl cur i es s :
  env_neg env -> caller_ok cur s -> held s = [] ->
  match copy_process env fl cur i es s with
  | None => False
  | Some (inl e, s') =>
      e < 0 /\
      (s' = s \/
       flag fl CLONE_THREAD = false /\
         (s' = add_kv 2 s \/
          (kv_ok env && kv_lock_ok env)%bool = false /\ e = - ENOMEM /\ RTask ∈ held s'))
  | Some (inr p, s') =>
      flags_consistent fl /\ child_ok env fl cur i es p s /\ held s' = child_held fl i /\
      cnt s' = published p (more_kv (if flag fl CLONE_THREAD then 0 else 2) (cnt s))
  end.
Proof.
  intros Hneg Hok Hh. unfold copy_process. destruct (bad_clone_flags env fl) eqn:Eb.
  { split; [done|by left]. }
  pose proof (cp_alloc_spec env fl cur i es s Hneg Hok Hh) as Ho. unfold outcome in Ho.
  destruct (cp_alloc env fl cur i es s) as [[[e|p] s']|]; [done| |done].
  split; [|done]. by eapply good_flags.
Qed.

(** A caller with its objects, and calls that all succeed, or all but the allocation of
    the key-value locks. *)
Definition demo_caller : ptask := PTask 10 10 10 1 17 1 2 3 4 5 0 false (0, 0, 0).
Definition demo_state : kstate := KState {[1 := 1; 2 := 1; 3 := 1; 4 := 1; 5 := 1]} [] (Cnt 0 1 0 []).
Definition demo_env (lock_ok : bool) : cp_env :=
  CpEnv false false false false true 0 false false 0 0 0 0 0 0 0 false true true true true 0 false true
    0 11 3 0 0 true lock_ok 0 true false 17.

Lemma demo_ok b : env_neg (demo_env b) /\ caller_ok demo_caller demo_state /\ held demo_state = [].
Proof.
  split; [unfold env_neg; simpl; lia|]. split; [|done].
  unfold caller_ok, live; simpl. split_and!; try done; intros; eexists; (split; [vm_compute; reflexivity|lia]).
Qed.

Lemma copy_process_unwinds_witness :
  (exists p s', copy_process (demo_env true) 0 demo_caller false 17 demo_state = Some (inr p, s') /\
     t_tgid p = 11 /\ t_kv_shared p = false /\ cnt s' = Cnt 2 2 1 [(11, 10)]) /\
  (exists e s', copy_process (demo_env false) 0 demo_caller false 17 demo_state = Some (inl e, s') /\
     RTask ∈ held s').
Proof.
  destruct (demo_ok true) as (A1 & A2 & A3). destruct (demo_ok false) as (B1 & B2 & B3). split.
  - pose proof (copy_process_unwinds (demo_env true) 0 demo_caller false 17 demo_state A1 A2 A3) as H.
    destruct (copy_process (demo_env true) 0 demo_caller false 17 demo_state) as [[[e|p] s']|] eqn:E;
      [vm_compute in E; discriminate| |destruct H].
    destruct H as (_ & (_ & H2 & _ & _ & _ & H6 & _) & _). exists p, s'. split; [reflexivity|].
    split; [exact H2|split; [exact H6|]]. vm_compute in E. by injection E as _ <-.
  - pose proof (copy_process_unwinds (demo_env false) 0 demo_caller false 17 demo_state B1 B2 B3) as H.
    destruct (copy_process (demo_env false) 0 demo_caller false 17 demo_state) as [[[e|p] s']|] eqn:E;
      [|vm_compute in E; discriminate|destruct H].
    exists e, s'. split; [reflexivity|]. destruct H as (_ & [H|(_ & [H|(_ & _ & H)])]); [| |exact H].
    + subst s'. vm_compute in E. discriminate.
    + subst s'. vm_compute in E. discriminate.
Defined.

End CopyProcess.

Module Clone.
Import CopyProcess.

Definition SIGCHLD : Z := 17.
Definition NSIG : Z := 64.
Definition MAX_PID_NS_LEVEL : Z := 32.
Definition INT_MAX : Z := 2 ^ 31 - 1.
Definition CLONE_ARGS_SIZE_VER0 : Z := 64.
Definition CLONE_ARGS_SIZE_VER2 : Z := 88.
Definition PTRACE_EVENT_FORK : Z := 1.
Definition PTRACE_EVENT_VFORK : Z := 2.
Definition PTRACE_EVENT_CLONE : Z := 3.
Definition PTRACE_EVENT_VFORK_DONE : Z := 5.

Record kernel_clone_args := KArgs {
  flags : Z; pidfd : Z; child_tid : Z; parent_tid : Z; exit_signal : Z;
  stack : Z; stack_size : Z; tls : Z; set_tid : Z; set_tid_size : Z; cgroup : Z
}.

(** What happens after the copy, in order. *)
Inductive ev := EPutTid (addr nr : Z) | EWake (pid : Z) | EPtrace (event : Z) | EVforkWait.

Section KernelClone.
Context (env : cp_env) (cur : ptask).
(** ptrace_event_enabled; whether the vfork wait ends normally; the number of a pid in the
    caller's namespace. *)
Context (event_enabled : Z -> bool) (vfork_done : bool) (pid_vnr : Z -> Z).

(** Which event to report to the tracer. *)
Definition trace_event (args : kernel_clone_args) : Z :=
  if flag (flags args) CLONE_UNTRACED then 0
  else
    let trace := if flag (flags args) CLONE_VFORK then PTRACE_EVENT_VFORK
                 else if negb (exit_signal args =? SIGCHLD) then PTRACE_EVENT_CLONE
                 else PTRACE_EVENT_FORK in
    if event_enabled trace then trace else 0.

Definition kernel_clone (args : kernel_clone_args) (s : kstate) : option (Z * list ev * kstate) :=
  if flag (flags args) CLONE_PIDFD && flag (flags args) CLONE_PARENT_SETTID
     && (pidfd args =? parent_tid args)
  then Some (- EINVAL, [], s)
  else
    let trace := trace_event args in
    match copy_process env (flags args) cur false (exit_signal args) s with
    | None => None
    | Some (inl e, s1) => Some (e, [], s1)
    | Some (inr p, s1) =>
        let nr := pid_vnr (t_pid p) in
        Some (nr,
          (if flag (flags args) CLONE_PARENT_SETTID then [EPutTid (parent_tid args) nr] else [])
          ++ [EWake nr]
          ++ (if ztrue trace then [EPtrace trace] else [])
          ++ (if flag (flags args) CLONE_VFORK
              then EVforkWait :: (if vfork_done then [EPtrace PTRACE_EVENT_VFORK_DONE] else [])
              else []), s1)
    end.

Definition lower_32_bits (x : Z) : Z := Z.land x 0xffffffff.

(** kernel_thread, and the system calls fork, vfork and clone: the arguments they pass. *)
Definition kernel_thread_args (fn arg fl : Z) : kernel_clone_args :=
  KArgs (Z.land (Z.lor (Z.lor (lower_32_bits fl) CLONE_VM) CLONE_UNTRACED) (Z.lnot CSIGNAL)) 0 0 0
    (Z.land (lower_32_bits fl) CSIGNAL) fn arg 0 0 0 0.
Definition fork_args : kernel_clone_args := KArgs 0 0 0 0 SIGCHLD 0 0 0 0 0 0.
Definition vfork_args : kernel_clone_args :=
  KArgs (Z.lor CLONE_VFORK CLONE_VM) 0 0 0 SIGCHLD 0 0 0 0 0 0.
Definition clone_args_of (clone_flags newsp parent_tidptr child_tidptr tlsv : Z) : kernel_clone_args :=
  KArgs (Z.land (lower_32_bits clone_flags) (Z.lnot CSIGNAL)) parent_tidptr child_tidptr parent_tidptr
    (Z.land (lower_32_bits clone_flags) CSIGNAL) newsp 0 tlsv 0 0 0.

(** *** clone3 *)

(** copy_struct_from_user gives the user's structure, extended with zeros; the tids are
    copied apart.  access_ok tells whether a range is in user space. *)
Context (copy_struct : Z -> Z + kernel_clone_args) (copy_tids_ok : bool) (access_ok : Z -> Z -> bool).

Definition valid_signal (sig : Z) : bool := sig <=? NSIG.

Definition copy_clone_args_from_user (usize : Z) : Z + kernel_clone_args :=
  if 4096 <? usize then inl (- E2BIG)
  else if usize <? CLONE_ARGS_SIZE_VER0 then inl (- EINVAL)
  else
    match copy_struct usize with
    | inl err => inl err
    | inr a =>
        if MAX_PID_NS_LEVEL <? set_tid_size a then inl (- EINVAL)
        else if (set_tid a =? 0) && (0 <? set_tid_size a) then inl (- EINVAL)
        else if negb (set_tid a =? 0) && (set_tid_size a =? 0) then inl (- EINVAL)
        else if ztrue (Z.land (exit_signal a) (wrapu 64 (Z.lnot CSIGNAL)))
                || negb (valid_signal (exit_signal a)) then inl (- EINVAL)
        else if flag (flags a) CLONE_INTO_CGROUP
                && ((INT_MAX <? cgroup a) || (usize <? CLONE_ARGS_SIZE_VER2)) then inl (- EINVAL)
        else if negb (set_tid a =? 0) && negb copy_tids_ok then inl (- EFAULT)
        else inr a
    end.

(** clone3_stack_valid: the stack argument becomes its top. *)
Definition clone3_stack_valid (a : kernel_clone_args) : option kernel_clone_args :=
  if stack a =? 0 then if 0 <? stack_size a then None else Some a
  else if stack_size a =? 0 then None
  else if negb (access_ok (stack a) (stack_size a)) then None
  else Some (KArgs (flags a) (pidfd a) (child_tid a) (parent_tid a) (exit_signal a)
               (stack a +u64 stack_size a)%cint (stack_size a) (tls a) (set_tid a) (set_tid_size a) (cgroup a)).

Definition clone3_args_valid (a : kernel_clone_args) : option kernel_clone_args :=
  if ztrue (Z.land (flags a)
       (wrapu 64 (Z.lnot (Z.lor CLONE_LEGACY_FLAGS (Z.lor CLONE_CLEAR_SIGHAND CLONE_INTO_CGROUP)))))
  then None
  else if flag (flags a) (Z.lor CLONE_DETACHED (Z.land CSIGNAL (Z.lnot CLONE_NEWTIME))) then None
  else if Z.land (flags a) (Z.lor CLONE_SIGHAND CLONE_CLEAR_SIGHAND)
          =? Z.lor CLONE_SIGHAND CLONE_CLEAR_SIGHAND then None
  else if flag (flags a) (Z.lor CLONE_THREAD CLONE_PARENT) && ztrue (exit_signal a) then None
  else clone3_stack_valid a.

(** The arguments clone3 passes on, or its error. *)
Definition clone3_args (usize : Z) : Z + kernel_clone_args :=
  match copy_clone_args_from_user usize with
  | inl err => inl err
  | inr a => match clone3_args_valid a with None => inl (- EINVAL) | Some a => inr a end
  end.

Definition clone3 (usize : Z) (s : kstate) : option (Z * list ev * kstate) :=
  match clone3_args usize with
  | inl err => Some (err, [], s)
  | inr a => kernel_clone a s
  end.

End KernelClone.

(** ** What reaches kernel_clone *)

(** The documented behaviour of access_ok: the range ends below the user limit. *)
Definition access_ok_spec (task_size : Z) (access_ok : Z -> Z -> bool) : Prop :=
  forall a n, access_ok a n = true -> a + n <= task_size.
Definition u64_args (a : kernel_clone_args) : Prop :=
  in_u 64 (flags a) /\ in_u 64 (exit_signal a) /\ in_u 64 (stack a) /\ in_u 64 (stack_size a) /\
  in_u 64 (set_tid_size a).

Lemma flag_false x m : flag x m = false -> Z.land x m = 0.
Proof. unfold flag, ztrue. intros H%negb_false_iff. by apply Z.eqb_eq. Qed.

Lemma known_flags x k : 0 <= k -> in_u 64 x ->
  Z.land x (wrapu 64 (Z.lnot (2 ^ k - 1))) = 0 -> 0 <= x < 2 ^ k.
Proof.
  intros Hk Hx H. rewrite land_mask64 in H by done. unfold in_u in Hx.
  pose proof (Z.mod_pos_bound x (2 ^ k)). assert (0 < 2 ^ k) by (apply Z.pow_pos_nonneg; lia). lia.
Qed.

Lemma land_pow2 x k : 0 <= k -> Z.land x (2 ^ k) = if Z.testbit x k then 2 ^ k else 0.
Proof.
  intros Hk. apply Z.bits_inj'. intros n Hn. rewrite Z.land_spec, Z.pow2_bits_eqb by done.
  destruct (Z.eqb_spec k n) as [->|Hne].
  - destruct (Z.testbit x n); simpl; [by rewrite Z.pow2_bits_true|by rewrite Z.bits_0].
  - rewrite andb_false_r. destruct (Z.testbit x k); [by rewrite Z.pow2_bits_false by lia|by rewrite Z.bits_0].
Qed.

Lemma flag_pow2 x k : 0 <= k -> flag x (2 ^ k) = true -> Z.land x (2 ^ k) = 2 ^ k.
Proof.
  intros Hk. unfold flag, ztrue. rewrite land_pow2 by done. by destruct (Z.testbit x k).
Qed.

(** The stack part of the checks. *)
Lemma stack_valid_spec task_size access_ok a a' :
  access_ok_spec task_size access_ok -> 0 <= task_size < 2 ^ 64 -> u64_args a ->
  clone3_stack_valid access_ok a = Some a' ->
  flags a' = flags a /\ exit_signal a' = exit_signal a /\ set_tid_size a' = set_tid_size a /\
  ((stack a' = 0 /\ stack_size a' = 0 /\ stack a = 0) \/
   (stack a' = stack a + stack_size a /\ stack_size a' = stack_size a /\ 0 < stack_size a /\
    stack a' <= task_size)).
Proof.
  intros Hacc Hts (_ & _ & Hs & Hz & _). unfold in_u in Hs, Hz. unfold clone3_stack_valid.
  destruct (Z.eqb_spec (stack a) 0).
  - destruct (Z.ltb_spec 0 (stack_size a)); [done|]. intros [= <-]. split_and!; try done. left. lia.
  - destruct (Z.eqb_spec (stack_size a) 0); [done|].
    destruct (access_ok (stack a) (stack_size a)) eqn:Ea; simpl; [|done]. intros [= <-].
    apply Hacc in Ea. split_and!; try done. right. simpl.
    rewrite wrapu_id by (unfold in_u; lia). lia.
Qed.

(** What clone3 passes on is checked: no flag outside the known ones and none of the
    reserved bits, the exit signal is a signal and 0 for a thread or a sibling, at most
    32 pids are asked for, handlers are not both shared and cleared, and the stack is
    either absent or its top lies, without wrap-around, in user space, above the base the
    user gave by the size. *)
Theorem clone3_args_checked task_size copy_struct tids access_ok usize a :
  access_ok_spec task_size access_ok -> 0 <= task_size < 2 ^ 64 ->
  (forall u b, copy_struct u = inr b -> u64_args b) ->
  clone3_args copy_struct tids access_ok usize = inr a ->
  CLONE_ARGS_SIZE_VER0 <= usize <= 4096 /\
  0 <= flags a < 2 ^ 34 /\ flag (flags a) CLONE_DETACHED = false /\
  Z.land (flags a) 0x7f = 0 /\
  0 <= exit_signal a <= 64 /\
  (flag (flags a) CLONE_THREAD = true \/ flag (flags a) CLONE_PARENT = true -> exit_signal a = 0) /\
  0 <= set_tid_size a <= MAX_PID_NS_LEVEL /\
  (flag (flags a) CLONE_SIGHAND && flag (flags a) CLONE_CLEAR_SIGHAND)%bool = false /\
  (exists b, copy_struct usize = inr b /\ flags a = flags b /\
     ((stack a = 0 /\ stack_size a = 0 /\ stack b = 0) \/
      (stack a = stack b + stack_size b /\ stack_size a = stack_size b /\ 0 < stack_size b /\
       stack a <= task_size))).
Proof.
  intros Hacc Hts Hu H. unfold clone3_args in H.
  destruct (copy_clone_args_from_user copy_struct tids usize) as [?|b] eqn:Ec; [done|].
  unfold copy_clone_args_from_user in Ec.
  destruct (Z.ltb_spec 4096 usize); [done|].
  destruct (Z.ltb_spec usize CLONE_ARGS_SIZE_VER0); [done|].
  destruct (copy_struct usize) as [?|b'] eqn:Es; [done|].
  destruct (Z.ltb_spec MAX_PID_NS_LEVEL (set_tid_size b')); [done|].
  repeat (match type of Ec with (if ?x then _ else _) = _ => destruct x eqn:? end; [done|]).
  injection Ec as ->. bool_prop. specialize (Hu _ _ Es). pose proof Hu as (U1 & U2 & _ & _ & U5).
  destruct (clone3_args_valid access_ok b) as [b'|] eqn:Ev; [|done]. injection H as ->.
  unfold clone3_args_valid in Ev.
  destruct (ztrue _) eqn:E1 in Ev; [done|]. destruct (flag (flags b) (Z.lor CLONE_DETACHED _)) eqn:E2; [done|].
  destruct (Z.land (flags b) (Z.lor CLONE_SIGHAND CLONE_CLEAR_SIGHAND) =? _) eqn:E3; [done|].
  destruct (flag (flags b) (Z.lor CLONE_THREAD CLONE_PARENT) && ztrue (exit_signal b))%bool eqn:E4; [done|].
  destruct (stack_valid_spec task_size access_ok b a Hacc Hts Hu Ev) as (F1 & F2 & F3 & F4).
  rewrite F1, F2, F3. rewrite flag_lor in E2, E4. apply orb_false_iff in E2 as [E2 E2'].
  unfold in_u in U2, U5. unfold valid_signal in H4. apply Z.leb_le in H4. unfold NSIG in H4.
  unfold ztrue in E1. apply negb_false_iff, Z.eqb_eq in E1.
  apply (known_flags _ 34) in E1; [|lia|done].
  split; [lia|]. split; [done|]. split; [done|].
  split; [exact (flag_false _ _ E2')|]. split; [lia|]. split.
  { intros Ht. assert (flag (flags b) CLONE_THREAD || flag (flags b) CLONE_PARENT = true) as Hs
      by (apply orb_true_iff; tauto).
    rewrite Hs in E4. simpl in E4. unfold ztrue in E4. apply negb_false_iff, Z.eqb_eq in E4. done. }
  split; [lia|]. split; [|by exists b].
  apply Z.eqb_neq in E3. apply not_true_is_false. intros [S1 S2]%andb_true_iff. apply E3.
  rewrite Z.land_lor_distr_r. f_equal; [apply (flag_pow2 _ 11); [lia|done]|apply (flag_pow2 _ 32); [lia|done]].
Qed.

Lemma clone3_args_checked_witness :
  exists a, clone3_args (fun _ => inr (KArgs CLONE_VM 0 0 0 SIGCHLD 0x10000 0x1000 0 0 0 0)) true
    (fun a n => a + n <=? 2 ^ 47 - 4096) 88 = inr a /\ stack a <= 2 ^ 47 - 4096 /\ exit_signal a <= 64.
Proof.
  destruct (clone3_args_checked (2 ^ 47 - 4096)
    (fun _ => inr (KArgs CLONE_VM 0 0 0 SIGCHLD 0x10000 0x1000 0 0 0 0)) true
    (fun a n => a + n <=? 2 ^ 47 - 4096) 88
    (KArgs CLONE_VM 0 0 0 SIGCHLD 0x11000 0x1000 0 0 0 0)) as (_ & _ & _ & _ & H & _ & _ & _ & b & _ & _ & Hs).
  - intros a n. apply Z.leb_le.
  - lia.
  - intros u b [= <-]. unfold u64_args, in_u; simpl. unfold CLONE_VM, SIGCHLD. lia.
  - vm_compute. reflexivity.
  - eexists. split; [vm_compute; reflexivity|]. cbn [stack exit_signal] in *.
    destruct Hs as [(Hs & _)|(_ & _ & _ & Hs)]; [discriminate|]. split; [exact Hs|apply H].
Defined.

End Clone.

Module Unshare.
Import CopyProcess.

(** The parts of the calling task that unshare replaces, and whether its semaphore undo
    list and its shared memory segments were given up. *)
Record utask := UTask { u_fs : Z; u_files : Z; u_cred : Z; u_ns : Z; u_sem_exited : bool; u_shm_exited : bool }.

(** What the calls answer.  [userns] and [nsproxy] (of other files) answer an error, or
    whether they made a new object, from the flags (and from new_cred and new_fs). *)
Record unshare_env := UEnv {
  group_empty : bool; sighand_shared : bool; single_threaded : bool;
  fs_ok : bool; fd_err : Z; userns : Z -> Z + bool; nsproxy : Z -> Z -> Z -> Z + bool; ucounts_err : Z
}.

Section Calls.
Context (env : unshare_env) (cur : utask).

(** The flags that a flag implies. *)
Definition imply (b : bool) (m fl : Z) : Z := if b then Z.lor fl m else fl.
Definition close_flags (fl : Z) : Z :=
  let fl := imply (flag fl CLONE_NEWUSER) (Z.lor CLONE_THREAD CLONE_FS) fl in
  let fl := imply (flag fl CLONE_VM) CLONE_SIGHAND fl in
  let fl := imply (flag fl CLONE_SIGHAND) CLONE_THREAD fl in
  imply (flag fl CLONE_NEWNS) CLONE_FS fl.

Definition UNSHARE_FLAGS : Z :=
  Z.lor CLONE_THREAD (Z.lor CLONE_FS (Z.lor CLONE_NEWNS (Z.lor CLONE_SIGHAND (Z.lor CLONE_VM
  (Z.lor CLONE_FILES (Z.lor CLONE_SYSVSEM (Z.lor CLONE_NEWUTS (Z.lor CLONE_NEWIPC (Z.lor CLONE_NEWNET
  (Z.lor CLONE_NEWUSER (Z.lor CLONE_NEWPID (Z.lor CLONE_NEWCGROUP CLONE_NEWTIME)))))))))))).
Definition check_unshare_flags (fl : Z) : Z :=
  if ztrue (Z.land fl (wrapu 64 (Z.lnot UNSHARE_FLAGS))) then - EINVAL
  else if flag fl (Z.lor CLONE_THREAD (Z.lor CLONE_SIGHAND CLONE_VM)) && negb (group_empty env) then - EINVAL
  else if flag fl (Z.lor CLONE_SIGHAND CLONE_VM) && sighand_shared env then - EINVAL
  else if flag fl CLONE_VM && negb (single_threaded env) then - EINVAL
  else 0.

(** A new object, 0 when there is nothing to unshare, or an error. *)
Definition unshare_fs (fl : Z) : F (Z + Z) :=
  if negb (flag fl CLONE_FS) || (u_fs cur =? 0) then mret (inr 0)
  else fun s =>
    if bool_decide (refs s !! u_fs cur = Some 1) then Some (inr 0, s)
    else if fs_ok env then (o ← new_obj; mret (inr o)) s else Some (inl (- ENOMEM), s).

Definition unshare_fd (fl : Z) : F (Z + Z) :=
  if flag fl CLONE_FILES && negb (u_files cur =? 0) then fun s =>
    if bool_decide (1 < default 0 (refs s !! u_files cur)) then
      if ztrue (fd_err env) then Some (inl (fd_err env), s) else (o ← new_obj; mret (inr o)) s
    else Some (inr 0, s)
  else mret (inr 0).

(** The object that unshare_userns or unshare_nsproxy_namespaces made, as answered. *)
Definition answered (r : Z + bool) : F (Z + Z) :=
  match r with
  | inl err => mret (inl err)
  | inr false => mret (inr 0)
  | inr true => o ← new_obj; mret (inr o)
  end.

(** The labels. *)
Definition bad_unshare_cleanup_fs (new_fs : Z) : F unit := put_if new_fs.
Definition bad_unshare_cleanup_fd (new_fs new_fd : Z) : F unit :=
  put_if new_fd;; bad_unshare_cleanup_fs new_fs.
Definition bad_unshare_cleanup_cred (new_fs new_fd new_cred : Z) : F unit :=
  put_if new_cred;; bad_unshare_cleanup_fd new_fs new_fd.

(** The replacement of what is new; the old parts lose one reference each (the old
    descriptor table is put after the labels are reached, with new_fd pointing to it). *)
Definition replace (new old : Z) : F unit := if new =? 0 then mret tt else put_obj old.
Definition pick (new old : Z) : Z := if new =? 0 then old else new.
(** commit_creds makes new credentials both the objective and the subjective ones of the
    task: they gain a reference, the old ones lose two. *)
Definition commit_creds (new old : Z) : F unit :=
  if new =? 0 then mret tt else get_obj new;; put_obj old;; put_obj old.
Definition do_sysvsem (fl : Z) : bool := flag fl (Z.lor CLONE_NEWIPC CLONE_SYSVSEM).
Definition install (fl new_fs new_fd new_cred new_ns : Z) : F utask :=
  replace new_ns (u_ns cur);; replace new_fs (u_fs cur);; commit_creds new_cred (u_cred cur);;
  replace new_fd (u_files cur);;
  mret (UTask (pick new_fs (u_fs cur)) (pick new_fd (u_files cur)) (pick new_cred (u_cred cur))
          (pick new_ns (u_ns cur)) (do_sysvsem fl || u_sem_exited cur) (flag fl CLONE_NEWIPC || u_shm_exited cur)).

(** ksys_unshare: the result and the task. *)
Definition ksys_unshare (fl : Z) : F (Z * utask) :=
  let fl := close_flags fl in
  let err := check_unshare_flags fl in
  if ztrue err then mret (err, cur)
  else
  r ← unshare_fs fl;
  match r with
  | inl err => mret (err, cur)
  | inr new_fs =>
  r ← unshare_fd fl;
  match r with
  | inl err => bad_unshare_cleanup_fs new_fs;; mret (err, cur)
  | inr new_fd =>
  r ← answered (userns env fl);
  match r with
  | inl err => bad_unshare_cleanup_fd new_fs new_fd;; mret (err, cur)
  | inr new_cred =>
  r ← answered (nsproxy env fl new_cred new_fs);
  match r with
  | inl err => bad_unshare_cleanup_cred new_fs new_fd new_cred;; mret (err, cur)
  | inr new_ns =>
  if negb (new_cred =? 0) && ztrue (ucounts_err env)
  then bad_unshare_cleanup_cred new_fs new_fd new_cred;; mret (ucounts_err env, cur)
  else t ← install fl new_fs new_fd new_cred new_ns; mret (0, t)
  end end end end.

End Calls.

(** ** Unsharing is all or nothing *)

(** A step that makes a new object, or none, or fails without a trace. *)
Definition made (s : kstate) (r : option ((Z + Z) * kstate)) : Prop :=
  (exists e, r = Some (inl e, s) /\ e < 0) \/ r = Some (inr 0, s) \/
  (r = Some (inr (fresh_obj s), KState (<[fresh_obj s:=1]> (refs s)) (held s) (cnt s))).

(** [new] is 0 or an object that [put_if] takes away again. *)
Definition fresh_in (new : Z) (s s' : kstate) : Prop :=
  put_if new s' = Some (tt, s) /\
  ((new = 0 /\ s' = s) \/ (new <> 0 /\ refs s !! new = None /\
     s' = KState (<[new:=1]> (refs s)) (held s) (cnt s))).

Lemma made_fresh s r : made s r ->
  (exists e, r = Some (inl e, s) /\ e < 0) \/ (exists new s', r = Some (inr new, s') /\ fresh_in new s s').
Proof.
  intros [H|[H|H]]; [by left|right|right].
  - exists 0, s. split; [done|]. split; [done|by left].
  - destruct (fresh_obj_new s) as [Hn H0]. do 2 eexists. split; [exact H|].
    split; [rewrite put_if_nz by done; apply put_new|right; done].
Qed.

Section Atomic.
Context (env : unshare_env) (cur : utask).
Definition uenv_neg : Prop :=
  fd_err env <= 0 /\ ucounts_err env <= 0 /\
  (forall fl e, userns env fl = inl e -> e < 0) /\ (forall fl c f e, nsproxy env fl c f = inl e -> e < 0).

Lemma unshare_fs_made fl s : made s (unshare_fs env cur fl s).
Proof.
  unfold unshare_fs. destruct (negb _ || _)%bool; [by right; left|].
  case_bool_decide; [by right; left|]. destruct (fs_ok env); [by right; right|left; by eexists].
Qed.
Lemma unshare_fd_made fl s : uenv_neg -> made s (unshare_fd env cur fl s).
Proof.
  intros (H & _). unfold unshare_fd, ztrue. destruct (flag fl CLONE_FILES && _)%bool; [|by right; left].
  case_bool_decide; [|by right; left].
  destruct (Z.eqb_spec (fd_err env) 0); cbn [negb]; [by right; right|left; eexists; split; [done|lia]].
Qed.
Lemma answered_made r s : (forall e, r = inl e -> e < 0) -> made s (answered r s).
Proof.
  intros H. destruct r as [e|[]]; [left; eexists; split; [done|by apply H]|by right; right|by right; left].
Qed.

(** A copy is made exactly when it was asked for and the part is in use by others. *)
Lemma unshare_fs_iff fl a s s' : unshare_fs env cur fl s = Some (inr a, s') ->
  a <> 0 <-> flag fl CLONE_FS = true /\ u_fs cur <> 0 /\ refs s !! u_fs cur <> Some 1.
Proof.
  unfold unshare_fs. destruct (flag fl CLONE_FS); simpl; [|intros [= <- _]; naive_solver].
  destruct (Z.eqb_spec (u_fs cur) 0); [intros [= <- _]; naive_solver|].
  case_bool_decide; [intros [= <- _]; naive_solver|]. destruct (fs_ok env); [|done].
  intros [= <- _]. pose proof (proj2 (fresh_obj_new s)). naive_solver.
Qed.
Lemma unshare_fd_iff fl b s s' : unshare_fd env cur fl s = Some (inr b, s') ->
  b <> 0 <-> flag fl CLONE_FILES = true /\ u_files cur <> 0 /\ 1 < default 0 (refs s !! u_files cur).
Proof.
  unfold unshare_fd. destruct (flag fl CLONE_FILES); simpl; [|intros [= <- _]; naive_solver].
  destruct (Z.eqb_spec (u_files cur) 0); simpl; [intros [= <- _]; naive_solver|].
  case_bool_decide; [|intros [= <- _]; naive_solver]. destruct (ztrue (fd_err env)); [done|].
  intros [= <- _]. pose proof (proj2 (fresh_obj_new s)). naive_solver.
Qed.
Lemma answered_iff r c s s' : answered r s = Some (inr c, s') -> c <> 0 <-> r = inr true.
Proof.
  destruct r as [e|[]]; [done| |].
  - intros [= <- _]. pose proof (proj2 (fresh_obj_new s)). naive_solver.
  - intros [= <- _]. naive_solver.
Qed.

(** Nothing fails. *)
Definition all_granted (fl : Z) : Prop :=
  check_unshare_flags env fl = 0 /\ fs_ok env = true /\ fd_err env = 0 /\ ucounts_err env = 0 /\
  (forall e, userns env fl <> inl e) /\ (forall c f e, nsproxy env fl c f <> inl e).
Lemma unshare_fs_fails fl e s : unshare_fs env cur fl s = Some (inl e, s) -> fs_ok env = false.
Proof. unfold unshare_fs, mret, F_ret. repeat case_match; done. Qed.
Lemma unshare_fd_fails fl e s : unshare_fd env cur fl s = Some (inl e, s) -> fd_err env <> 0.
Proof.
  unfold unshare_fd, ztrue, mret, F_ret. destruct (_ && _)%bool; [|done]. case_bool_decide; [|done].
  by destruct (Z.eqb_spec (fd_err env) 0).
Qed.
Lemma answered_fails r e s : answered r s = Some (inl e, s) -> r = inl e.
Proof. destruct r as [e'|[]]; [by intros [= ->]|done|done]. Qed.

(** The four steps in turn: one fails, or makes its copy exactly when it should. *)
Lemma unshare_fs_stage fl s :
  (exists e, unshare_fs env cur fl s = Some (inl e, s) /\ e < 0 /\ fs_ok env = false) \/
  exists a s', unshare_fs env cur fl s = Some (inr a, s') /\ fresh_in a s s' /\
    (a <> 0 <-> flag fl CLONE_FS = true /\ u_fs cur <> 0 /\ refs s !! u_fs cur <> Some 1).
Proof.
  destruct (made_fresh _ _ (unshare_fs_made fl s)) as [(e & E & He)|(a & s' & E & F)].
  - left. eauto using unshare_fs_fails.
  - right. do 2 eexists. split; [done|]. split; [done|]. by eapply unshare_fs_iff.
Qed.
Lemma unshare_fd_stage fl s : uenv_neg ->
  (exists e, unshare_fd env cur fl s = Some (inl e, s) /\ e < 0 /\ fd_err env <> 0) \/
  exists b s', unshare_fd env cur fl s = Some (inr b, s') /\ fresh_in b s s' /\
    (b <> 0 <-> flag fl CLONE_FILES = true /\ u_files cur <> 0 /\ 1 < default 0 (refs s !! u_files cur)).
Proof.
  intros Hneg. destruct (made_fresh _ _ (unshare_fd_made fl s Hneg)) as [(e & E & He)|(b & s' & E & F)].
  - left. eauto using unshare_fd_fails.
  - right. do 2 eexists. split; [done|]. split; [done|]. by eapply unshare_fd_iff.
Qed.
Lemma answered_stage r s : (forall e, r = inl e -> e < 0) ->
  (exists e, answered r s = Some (inl e, s) /\ e < 0 /\ r = inl e) \/
  exists c s', answered r s = Some (inr c, s') /\ fresh_in c s s' /\ (c <> 0 <-> r = inr true).
Proof.
  intros Hr. destruct (made_fresh _ _ (answered_made r s Hr)) as [(e & E & He)|(c & s' & E & F)].
  - left. eauto using answered_fails.
  - right. do 2 eexists. split; [done|]. split; [done|]. by eapply answered_iff.
Qed.

(** Counts after an object is added or a reference dropped. *)
Definition add_ref (new : Z) (m : gmap Z Z) : gmap Z Z := if new =? 0 then m else <[new:=1]> m.
Definition drop_ref (new old : Z) (m : gmap Z Z) : gmap Z Z :=
  if new =? 0 then m
  else match m !! old with
       | Some n => if n =? 1 then delete old m else <[old:=n - 1]> m
       | None => m
       end.

Lemma fresh_in_refs new s s' : fresh_in new s s' ->
  s' = KState (add_ref new (refs s)) (held s) (cnt s) /\ (new = 0 \/ refs s !! new = None).
Proof.
  intros [_ [[-> ->]|(H0 & Hn & ->)]]; unfold add_ref.
  - split; [by destruct s|by left].
  - rewrite (proj2 (Z.eqb_neq _ _) H0). auto.
Qed.

(** Giving a new object back does not touch another new object. *)
Definition with_ref (x : Z) (s : kstate) : kstate := KState (add_ref x (refs s)) (held s) (cnt s).
Lemma put_if_other o x s s' :
  fresh_in o s' s -> (x = 0 \/ refs s !! x = None) -> put_if o (with_ref x s) = Some (tt, with_ref x s').
Proof.
  intros [Hp Hf] Hx. destruct Hf as [[-> ->]|(H0 & Hn & ->)]; [done|].
  rewrite put_if_nz in * by done. unfold with_ref, add_ref, put_obj in *. cbn [refs held cnt] in *.
  destruct (Z.eqb_spec x 0) as [->|Hx0]; cbn [refs]; [rewrite Hp; by destruct s'|].
  destruct Hx as [?|Hx]; [done|]. destruct (decide (x = o)) as [->|Hxo]; [by rewrite lookup_insert_eq in Hx|].
  rewrite lookup_insert_ne, lookup_insert_eq by done. simpl.
  rewrite insert_insert_ne, delete_insert_id by (done || by rewrite lookup_insert_ne). done.
Qed.

Lemma replace_run new old s :
  is_Some (refs s !! old) ->
  replace new old s = Some (tt, KState (drop_ref new old (refs s)) (held s) (cnt s)).
Proof.
  intros [n Hn]. unfold replace, drop_ref. destruct (new =? 0); [by destruct s|].
  unfold put_obj. by rewrite Hn.
Qed.

(** The counts after commit_creds. *)
Definition commit_ref (new old : Z) (m : gmap Z Z) : gmap Z Z :=
  if new =? 0 then m else drop_ref new old (drop_ref new old (<[new:=2]> m)).
Lemma drop_ref_ne new old m o : o <> old -> drop_ref new old m !! o = m !! o.
Proof.
  intros Hne. unfold drop_ref. repeat case_match; [done| | |done].
  - by rewrite lookup_delete_ne.
  - by rewrite lookup_insert_ne.
Qed.
Lemma commit_ref_ne new old m o : o <> old -> o <> new -> commit_ref new old m !! o = m !! o.
Proof.
  intros H1 H2. unfold commit_ref. destruct (new =? 0); [done|].
  by rewrite !drop_ref_ne, lookup_insert_ne by done.
Qed.
Lemma commit_run new old n s :
  new = 0 \/ refs s !! new = Some 1 -> refs s !! old = Some n -> 2 <= n -> new <> old ->
  commit_creds new old s = Some (tt, KState (commit_ref new old (refs s)) (held s) (cnt s)).
Proof.
  intros Hnew Ho Hn Hne. unfold commit_creds, commit_ref. destruct (Z.eqb_spec new 0) as [->|H0]; [by destruct s|].
  destruct Hnew as [?|Hnew]; [done|].
  assert (get_obj new s = Some (tt, KState (<[new:=2]> (refs s)) (held s) (cnt s))) as Hg
    by (unfold get_obj; by rewrite Hnew).
  rewrite (bind_run _ _ _ _ _ Hg). unfold drop_ref. rewrite (proj2 (Z.eqb_neq _ _) H0).
  unfold put_obj, mbind, F_bind, option_bind. cbn [refs held cnt].
  rewrite lookup_insert_ne, Ho by done. rewrite (proj2 (Z.eqb_neq n 1)) by lia. cbn [refs held cnt].
  by rewrite lookup_insert_eq.
Qed.

Lemma add_ref_live new m o : is_Some (m !! o) -> (new = 0 \/ m !! new = None) -> is_Some (add_ref new m !! o).
Proof.
  intros [n Hn] Hnew. unfold add_ref. destruct (Z.eqb_spec new 0); [by eexists|].
  destruct Hnew as [?|Hnew]; [done|]. rewrite lookup_insert_ne by congruence. by eexists.
Qed.
Lemma drop_ref_live new old m o : is_Some (m !! o) -> o <> old -> is_Some (drop_ref new old m !! o).
Proof.
  intros [n Hn] Hne. unfold drop_ref. repeat case_match; try by eexists.
  - by rewrite lookup_delete_ne, Hn.
  - by rewrite lookup_insert_ne, Hn.
Qed.

(** The caller's parts exist and are four objects; it holds its credentials twice. *)
Definition ucaller_ok (s : kstate) : Prop :=
  NoDup [u_fs cur; u_files cur; u_cred cur; u_ns cur] /\
  is_Some (refs s !! u_fs cur) /\ is_Some (refs s !! u_files cur) /\
  (exists n, refs s !! u_cred cur = Some n /\ 2 <= n) /\ is_Some (refs s !! u_ns cur).

Lemma install_run fl a b c d s :
  ucaller_ok s -> c = 0 \/ refs s !! c = Some 1 -> c ∉ [u_fs cur; u_files cur; u_cred cur; u_ns cur] ->
  install cur fl a b c d s = Some (UTask (pick a (u_fs cur)) (pick b (u_files cur)) (pick c (u_cred cur)) (pick d (u_ns cur))
      (do_sysvsem fl || u_sem_exited cur) (flag fl CLONE_NEWIPC || u_shm_exited cur),
    KState (drop_ref b (u_files cur) (commit_ref c (u_cred cur) (drop_ref a (u_fs cur) (drop_ref d (u_ns cur) (refs s)))))
      (held s) (cnt s)).
Proof.
  intros (Hnd & H1 & H2 & (n & H3 & Hn) & H4) Hc Hc'. rewrite !NoDup_cons, !not_elem_of_cons in Hnd.
  rewrite !not_elem_of_cons in Hc'. destruct Hc' as (C1 & C2 & C3 & C4 & _).
  destruct Hnd as ((N1 & N2 & N3 & _) & (N4 & N5 & _) & (N6 & _) & _). unfold install.
  rewrite (bind_run _ _ _ _ _ (replace_run d (u_ns cur) s H4)).
  erewrite bind_run; [|apply replace_run; simpl; by apply drop_ref_live].
  erewrite bind_run; [|apply (commit_run c (u_cred cur) n); simpl; rewrite ?drop_ref_ne by congruence; try done; auto].
  erewrite bind_run; [|apply replace_run; simpl; rewrite commit_ref_ne, !drop_ref_ne by congruence; done].
  done.
Qed.

Lemma check_neg fl : ztrue (check_unshare_flags env fl) = true -> check_unshare_flags env fl < 0.
Proof. unfold check_unshare_flags, EINVAL. by repeat case_match. Qed.

(** The labels give back what the steps before them made, whatever was made after. *)
Lemma cleanup_fd_run a b s s1 s2 :
  fresh_in a s s1 -> fresh_in b s1 s2 -> bad_unshare_cleanup_fd a b s2 = Some (tt, s).
Proof. intros [H1 _] [H2 _]. unfold bad_unshare_cleanup_fd. by rewrite (bind_run _ _ _ _ _ H2). Qed.
Lemma cleanup_cred_run a b c s s1 s2 s3 :
  fresh_in a s s1 -> fresh_in b s1 s2 -> fresh_in c s2 s3 ->
  bad_unshare_cleanup_cred a b c s3 = Some (tt, s).
Proof.
  intros H1 H2 [H3 _]. unfold bad_unshare_cleanup_cred. rewrite (bind_run _ _ _ _ _ H3).
  by eapply cleanup_fd_run.
Qed.

Lemma fresh_in_none o x s s' : fresh_in o s s' -> refs s' !! x = None -> refs s !! x = None.
Proof.
  intros [_ [[_ ->]|(_ & Hn & ->)]]; [done|]. cbn [refs]. by intros [? _]%lookup_insert_None.
Qed.
Lemma fresh_in_or o x s s' : fresh_in o s s' -> (x = 0 \/ refs s' !! x = None) -> x = 0 \/ refs s !! x = None.
Proof. intros H [?|?]; [by left|right; by eapply fresh_in_none]. Qed.
Lemma fresh_in_live o x s s' : fresh_in o s s' -> is_Some (refs s !! x) -> refs s' !! x = refs s !! x.
Proof.
  intros [_ [[_ ->]|(_ & Hn & ->)]] Hx; [done|]. cbn [refs]. apply lookup_insert_ne.
  intros ->. rewrite Hn in Hx. by destruct Hx.
Qed.
Lemma ucaller_fresh o s s' : fresh_in o s s' -> ucaller_ok s -> ucaller_ok s'.
Proof.
  intros H (? & H1 & H2 & (n & H3 & Hn) & H4). unfold ucaller_ok.
  rewrite !(fresh_in_live _ _ _ _ H) by done. split_and!; try done. by exists n.
Qed.
(** A new object is none of the caller's and has one reference, also after the next. *)
Lemma fresh_not_caller c d s s1 s2 : ucaller_ok s -> u_fs cur <> 0 -> u_files cur <> 0 ->
  u_cred cur <> 0 -> u_ns cur <> 0 -> fresh_in c s s1 -> fresh_in d s1 s2 ->
  (c = 0 \/ refs s2 !! c = Some 1) /\ c ∉ [u_fs cur; u_files cur; u_cred cur; u_ns cur].
Proof.
  intros (_ & H1 & H2 & (n & H3 & _) & H4) Z1 Z2 Z3 Z4 [_ Hc] Fd.
  destruct Hc as [[-> ->]|(Hc0 & Hcn & ->)].
  - split; [by left|]. rewrite !not_elem_of_cons, elem_of_nil. naive_solver.
  - split.
    + right. rewrite (fresh_in_live _ _ _ _ Fd); simpl; by rewrite lookup_insert_eq.
    + rewrite !not_elem_of_cons, elem_of_nil.
      destruct H1 as [? H1], H2 as [? H2], H4 as [? H4]. split_and!; [congruence..|tauto].
Qed.

Lemma cleanup_cred_other a b c x s s1 s2 s3 :
  fresh_in a s s1 -> fresh_in b s1 s2 -> fresh_in c s2 s3 -> (x = 0 \/ refs s3 !! x = None) ->
  bad_unshare_cleanup_cred a b c (with_ref x s3) = Some (tt, with_ref x s).
Proof.
  intros H1 H2 H3 Hx. unfold bad_unshare_cleanup_cred, bad_unshare_cleanup_fd.
  rewrite (bind_run _ _ _ _ _ (put_if_other _ _ _ _ H3 Hx)). apply (fresh_in_or _ _ _ _ H3) in Hx.
  rewrite (bind_run _ _ _ _ _ (put_if_other _ _ _ _ H2 Hx)). apply (fresh_in_or _ _ _ _ H2) in Hx.
  apply (put_if_other _ _ _ _ H1 Hx).
Qed.

End Atomic.

(** The call fails: [t] shows that not everything was granted. *)
Local Tactic Notation "refused" tactic3(t) :=
  do 3 eexists; split; [reflexivity|]; split; [t|left; auto].

(** (C30) unshare is all or nothing.  On an error (a flag that is not allowed, a thread
    group or address space that is in use by others, or a copy that cannot be made) the
    task keeps its parts and every new object is given back, except that the new
    namespaces stay behind when charging the new user fails; there is no error when the
    flags are allowed and every copy can be made.  On success the filesystem part is
    replaced exactly when it was asked for (or implied) and is in use by others, the
    descriptor table likewise, and credentials and namespaces exactly when their makers
    made new ones; each replaced part is a new object, the old one loses the caller's
    references, the undo list and the segments are given up as the flags say, and nothing
    else changes. *)
Theorem ksys_unshare_atomic env cur fl s :
  uenv_neg env -> ucaller_ok cur s ->
  Forall (fun o => o <> 0) [u_fs cur; u_files cur; u_cred cur; u_ns cur] ->
  let f := close_flags fl in
  exists err t s', ksys_unshare env cur fl s = Some ((err, t), s') /\
  (all_granted env f -> err = 0) /\
  ((err < 0 /\ t = cur /\
    (s' = s \/ exists x, err = ucounts_err env /\ refs s !! x = None /\
       s' = KState (<[x:=1]> (refs s)) (held s) (cnt s))) \/
   (err = 0 /\ exists a b c d,
      (a <> 0 <-> flag f CLONE_FS = true /\ u_fs cur <> 0 /\ refs s !! u_fs cur <> Some 1) /\
      (b <> 0 <-> flag f CLONE_FILES = true /\ u_files cur <> 0 /\ 1 < default 0 (refs s !! u_files cur)) /\
      (c <> 0 <-> userns env f = inr true) /\ (d <> 0 <-> nsproxy env f c a = inr true) /\
      Forall (fun o => o = 0 \/ refs s !! o = None) [a; b; c; d] /\
      t = UTask (pick a (u_fs cur)) (pick b (u_files cur)) (pick c (u_cred cur)) (pick d (u_ns cur))
            (do_sysvsem f || u_sem_exited cur) (flag f CLONE_NEWIPC || u_shm_exited cur) /\
      s' = KState (drop_ref b (u_files cur) (commit_ref c (u_cred cur) (drop_ref a (u_fs cur) (drop_ref d (u_ns cur)
             (add_ref d (add_ref c (add_ref b (add_ref a (refs s)))))))))
             (held s) (cnt s))).
Proof.
  intros Hneg Hok Hnz f. pose proof Hneg as (_ & Huc & Hu & Hn). unfold ksys_unshare. fold f.
  rewrite !Forall_cons in Hnz. destruct Hnz as (Z1 & Z2 & Z3 & Z4 & _).
  destruct (ztrue (check_unshare_flags env f)) eqn:Eck.
  { pose proof (check_neg _ _ Eck). refused (intros [G _]; by rewrite G in Eck). }
  destruct (unshare_fs_stage env cur f s) as [(e & E & He & G)|(a & s1 & E1 & F1 & Ha)].
  { rewrite (bind_run _ _ _ _ _ E). refused (intros (_ & ? & _); congruence). }
  rewrite (bind_run _ _ _ _ _ E1).
  destruct (unshare_fd_stage env cur f s1 Hneg) as [(e & E & He & G)|(b & s2 & E2 & F2 & Hb)].
  { rewrite (bind_run _ _ _ _ _ E), (bind_run _ _ _ _ _ (proj1 F1 : bad_unshare_cleanup_fs a s1 = _)).
    refused (intros (_ & _ & ? & _); congruence). }
  rewrite (bind_run _ _ _ _ _ E2). rewrite (fresh_in_live _ _ _ _ F1) in Hb by apply Hok.
  destruct (answered_stage _ s2 (Hu f)) as [(e & E & He & G)|(c & s3 & E3 & F3 & Hc)].
  { rewrite (bind_run _ _ _ _ _ E), (bind_run _ _ _ _ _ (cleanup_fd_run _ _ _ _ _ F1 F2)).
    refused (intros (_ & _ & _ & _ & N & _); by apply N in G). }
  rewrite (bind_run _ _ _ _ _ E3).
  destruct (answered_stage _ s3 (Hn f c a)) as [(e & E & He & G)|(d & s4 & E4 & F4 & Hd)].
  { rewrite (bind_run _ _ _ _ _ E), (bind_run _ _ _ _ _ (cleanup_cred_run _ _ _ _ _ _ _ F1 F2 F3)).
    refused (intros (_ & _ & _ & _ & _ & N); by apply N in G). }
  rewrite (bind_run _ _ _ _ _ E4).
  assert (ucaller_ok cur s2) as Hok2 by eauto using ucaller_fresh.
  destruct (fresh_not_caller cur c d s2 s3 s4 Hok2 Z1 Z2 Z3 Z4 F3 F4) as [Hc1 Hc2].
  assert (ucaller_ok cur s4) as Hok4 by eauto using ucaller_fresh.
  destruct (fresh_in_refs _ _ _ F1) as [-> N1], (fresh_in_refs _ _ _ F2) as [-> N2],
    (fresh_in_refs _ _ _ F3) as [-> N3], (fresh_in_refs _ _ _ F4) as [-> N4].
  pose proof (fresh_in_or _ _ _ _ F1 N2) as N2'.
  pose proof (fresh_in_or _ _ _ _ F1 (fresh_in_or _ _ _ _ F2 N3)) as N3'.
  pose proof (fresh_in_or _ _ _ _ F1 (fresh_in_or _ _ _ _ F2 (fresh_in_or _ _ _ _ F3 N4))) as N4'.
  destruct (negb (c =? 0) && ztrue (ucounts_err env))%bool eqn:Ec.
  - rewrite (bind_run _ _ _ _ _ (cleanup_cred_other _ _ _ d _ _ _ _ F1 F2 F3 N4)).
    apply andb_true_iff in Ec as [_ Ec%negb_true_iff%Z.eqb_neq].
    do 3 eexists. split; [reflexivity|]. split; [intros (_ & _ & _ & G & _); congruence|].
    left. split; [lia|]. split; [done|].
    unfold with_ref, add_ref. destruct (Z.eqb_spec d 0); [left; by destruct s|right].
    exists d. destruct N4' as [?|?]; [done|auto].
  - erewrite bind_run; [|by apply install_run].
    do 3 eexists. split; [reflexivity|]. split; [done|]. right. split; [done|]. exists a, b, c, d.
    split_and!; try done.
    by rewrite !Forall_cons, Forall_nil.
Qed.

Definition unshare_wit_state : kstate := KState {[1 := 2; 2 := 2; 3 := 5; 4 := 5]} [] (Cnt 0 1 0 []).
Lemma ksys_unshare_atomic_witness :
  ksys_unshare (UEnv true false true true 0 (fun _ => inr false) (fun _ _ _ => inr false) 0)
    (UTask 1 2 3 4 false false) (Z.lor CLONE_FS CLONE_FILES) unshare_wit_state
  = Some ((0, UTask 5 6 3 4 false false), KState {[1 := 1; 2 := 1; 3 := 5; 4 := 5; 5 := 1; 6 := 1]} [] (Cnt 0 1 0 [])) /\
  exists err t s', ksys_unshare (UEnv true false true true (-12) (fun _ => inr false) (fun _ _ _ => inr false) 0)
    (UTask 1 2 3 4 false false) (Z.lor CLONE_FS CLONE_FILES) unshare_wit_state = Some ((err, t), s') /\
    err < 0 /\ s' = unshare_wit_state.
Proof.
  split; [vm_compute; reflexivity|].
  destruct (ksys_unshare_atomic
    (UEnv true false true true (-12) (fun _ => inr false) (fun _ _ _ => inr false) 0)
    (UTask 1 2 3 4 false false) (Z.lor CLONE_FS CLONE_FILES) unshare_wit_state) as (err & t & s' & E & H).
  - unfold uenv_neg; simpl. split_and!; try lia; try done.
  - split; [by apply (bool_decide_unpack _); vm_compute|]. split_and!; try by eexists.
  - repeat constructor; simpl; lia.
  - vm_compute in E. injection E as <- <- <-. do 3 eexists. split; [vm_compute; reflexivity|].
    split; [lia|]. reflexivity.
Defined.

End Unshare.
