(* ===== verification/ForkMm.v ===== *)
(** * Address spaces (src/kvm/linux-5.15.178/kernel/fork.c)

    [Dup]: making and duplicating an mm_struct (mm_init, mm_alloc, dup_mmap, dup_mm) and
    taking it apart (__mmput, __mmdrop), with a ledger of everything taken.  [Exe]: the
    executable file of an address space.  [MmLife]: users and references of one address
    space, as a step relation.  [Vfork]: the completion a vfork parent waits for.
    The memory manager, allocators and signals answer through parameters. *)

From S2P Require Import Prelude.

Definition ETXTBSY : Z := 26.
Definition EBUSY : Z := 16.

(** ** What the kernel holds *)

(** [OCommit] counts pages of committed memory; [OWritable] is i_mmap_writable of a file's
    mapping, [ODeny] the denials of write access to a file. *)
Inductive robj :=
| OMm | OPgd | OCtx | ONs (ns : Z) | OArea | OPolicy (p : Z) | OFile (f : Z) | ODeny (f : Z)
| OWritable (f : Z) | OCommit | OModule (m : Z) | OKsm | OKhuge | OOldLock | ONewLock | OUprobe.
#[export] Instance robj_eq : EqDecision robj.
Proof. solve_decision. Defined.

(** A ledger, and the differences operations make to it, are functions; they are compared
    at every object. *)
Definition ledger : Type := robj -> Z.
Definition none : ledger := fun _ => 0.
Definition one (r : robj) : ledger := fun x => if decide (x = r) then 1 else 0.
Definition plus (a b : ledger) : ledger := fun x => a x + b x.
Definition minus (a b : ledger) : ledger := fun x => a x - b x.
Definition times (n : Z) (a : ledger) : ledger := fun x => n * a x.
Definition opt {A} (f : A -> ledger) (o : option A) : ledger := match o with Some a => f a | None => none end.
Definition when (b : bool) (a : ledger) : ledger := if b then a else none.
Declare Scope ledger_scope.
Delimit Scope ledger_scope with ledger.
Notation "a ⊕ b" := (plus a b) (at level 50, left associativity) : ledger_scope.
Notation "a ⊖ b" := (minus a b) (at level 50, left associativity) : ledger_scope.
Local Open Scope ledger_scope.

Definition leq_ledger (a b : ledger) : Prop := forall x, a x = b x.
Infix "≐" := leq_ledger (at level 70) : ledger_scope.
#[export] Instance ledger_equiv : Equivalence leq_ledger.
Proof. split; [done|intros a b H x; by rewrite H|intros a b c H1 H2 x; by rewrite H1, H2]. Qed.
#[export] Instance plus_proper : Proper (leq_ledger ==> leq_ledger ==> leq_ledger) plus.
Proof. intros a a' Ha b b' Hb x. unfold plus. by rewrite Ha, Hb. Qed.
#[export] Instance minus_proper : Proper (leq_ledger ==> leq_ledger ==> leq_ledger) minus.
Proof. intros a a' Ha b b' Hb x. unfold minus. by rewrite Ha, Hb. Qed.

(** Compares two ledgers at one object, as linear arithmetic. *)
Ltac ledger_solve :=
  let x := fresh "x" in
  intros x; repeat match goal with H : leq_ledger _ _ |- _ => specialize (H x) end;
  unfold opt, when, plus, minus, times, none in *; repeat case_match; try congruence; simplify_eq; lia.

(** ** Memory areas and address spaces *)

Definition VM_SHARED : Z := 0x8.
Definition VM_LOCKED : Z := 0x2000.
Definition VM_DONTCOPY : Z := 0x20000.
Definition VM_LOCKONFAULT : Z := 0x80000.
Definition VM_ACCOUNT : Z := 0x100000.
Definition VM_WIPEONFORK : Z := 0x2000000.

(** A vm_area_struct: its pages, flags, file, policy and anonymous mapping. *)
Record area := Area {
  a_start : Z; a_pages : Z; a_flags : Z; a_file : option Z; a_policy : option Z; a_anon : option Z
}.
Record vm_stats := Stats { total_vm : Z; data_vm : Z; exec_vm : Z; stack_vm : Z }.
(** An address space.  [mm_count] leaves out the references that ksm and khugepaged take when
    they register it: their registration is a unit of the ledger ([OKsm], [OKhuge]).  The
    contexts of userfaultfd are not in the ledger. *)
Record aspace := Aspace {
  areas : list area; map_count : Z; stats : vm_stats; exe_file : option Z; binfmt : option Z;
  user_ns : Z; mm_owner : option Z; mm_users : Z; mm_count : Z; mm_flags : Z; def_flags : Z;
  ksm : bool; khugepaged : bool; hiwater_vm : Z; locked_vm : Z
}.

(** What a linked area, and what an address space, holds. *)
Definition area_holds (v : area) : ledger :=
  one OArea ⊕ opt (fun p => one (OPolicy p)) (a_policy v)
  ⊕ opt (fun f => one (OFile f) ⊕ when (flag (a_flags v) VM_SHARED) (one (OWritable f))) (a_file v)
  ⊕ times (if flag (a_flags v) VM_ACCOUNT then a_pages v else 0) (one OCommit).
Definition areas_hold (l : list area) : ledger := foldr (fun v h => area_holds v ⊕ h) none l.
(** Without the module of its binary format. *)
Definition map_holds (m : aspace) : ledger :=
  areas_hold (areas m) ⊕ opt (fun f => one (OFile f) ⊕ one (ODeny f)) (exe_file m)
  ⊕ when (ksm m) (one OKsm) ⊕ when (khugepaged m) (one OKhuge).
Definition base_holds (m : aspace) : ledger :=
  one OMm ⊕ one OPgd ⊕ one OCtx ⊕ one (ONs (user_ns m)) ⊕ map_holds m.
Definition space_holds (m : aspace) : ledger := base_holds m ⊕ opt (fun b => one (OModule b)) (binfmt m).

Module Dup.

(** Answers for one area: a fatal signal, the check of committed memory, the allocator,
    vma_dup_policy (an error or the policy), dup_userfaultfd, anon_vma_fork ([None] fails)
    and copy_page_range. *)
Record venv := VEnv {
  fatal_signal : bool; enough_memory : bool; area_alloc : bool; dup_policy : Z + option Z;
  dup_userfaultfd : Z; anon_vma_fork : option (option Z); copy_page_range : Z
}.
(** Answers for one call; [exe_live] is get_file_rcu, [deny_ok] deny_write_access, [ksm_fork]
    and [khugepaged_fork] give an error, or 0 and whether they registered the address space. *)
Record denv := DEnv {
  mm_alloc_ok : bool; pgd_ok : bool; context_ok : bool;
  lock_killed : bool; exe_live : bool; deny_ok : bool; ksm_fork : Z * bool; khugepaged_fork : Z * bool;
  on_area : nat -> venv; arch_dup_mmap : Z; module_ok : bool;
  mmf_init_mask : Z; vm_init_def_mask : Z; default_dump_filter : Z
}.

Section Dup.
(** The memory manager: account pages of a kind, and unmap all areas. *)
Context (vm_stat_account : Z -> Z -> vm_stats -> vm_stats) (exit_mmap : list area -> ledger -> ledger).
Context (e : denv).

(** *** Making and freeing an mm_struct *)

(** mm_alloc_pgd, mm_free_pgd, allocate_mm and free_mm are entries of the ledger. *)
Definition mm_init (mm : aspace) (p : option Z) (ns : Z) (cur : option aspace) (l : ledger) : option aspace * ledger :=
  let mm := Aspace [] 0 (stats mm) None (binfmt mm) ns p 1 1
              (match cur with Some c => Z.land (mm_flags c) (mmf_init_mask e) | None => default_dump_filter e end)
              (match cur with Some c => Z.land (def_flags c) (vm_init_def_mask e) | None => 0 end)
              false false (hiwater_vm mm) 0 in
  if negb (pgd_ok e) then (None, l ⊖ one OMm)
  else
    let l := l ⊕ one OPgd in
    if negb (context_ok e) then (None, l ⊖ one OPgd ⊖ one OMm)
    else (Some mm, l ⊕ one OCtx ⊕ one (ONs ns)).
Definition zero_space : aspace :=
  Aspace [] 0 (Stats 0 0 0 0) None None 0 None 0 0 0 0 false false 0 0.
Definition mm_alloc (current : Z) (ns : Z) (cur : option aspace) (l : ledger) : option aspace * ledger :=
  if negb (mm_alloc_ok e) then (None, l) else mm_init zero_space (Some current) ns cur (l ⊕ one OMm).

Definition __mmdrop (mm : aspace) (l : ledger) : ledger :=
  l ⊖ one OPgd ⊖ one OCtx ⊖ one (ONs (user_ns mm)) ⊖ one OMm.
(** mmdrop of the reference that the users share, on the last user's way out. *)
Definition mmdrop (mm : aspace) (l : ledger) : ledger := if mm_count mm - 1 =? 0 then __mmdrop mm l else l.
(** set_mm_exe_file without a new file. *)
Definition clear_exe_file (mm : aspace) (l : ledger) : ledger :=
  match exe_file mm with Some f => l ⊖ one (ODeny f) ⊖ one (OFile f) | None => l end.
Definition __mmput (mm : aspace) (l : ledger) : ledger :=
  let l := if ksm mm then l ⊖ one OKsm else l in
  let l := if khugepaged mm then l ⊖ one OKhuge else l in
  let l := exit_mmap (areas mm) l in
  let l := clear_exe_file mm l in
  let l := match binfmt mm with Some b => l ⊖ one (OModule b) | None => l end in
  mmdrop mm l.
Definition mmput (mm : aspace) (l : ledger) : ledger := if mm_users mm - 1 =? 0 then __mmput mm l else l.

(** *** Duplicating the areas *)

(** An area of the parent is left out, linked into the child (with the result so far), or
    ends the loop with an error. *)
Inductive vres := Skip | Link (tmp : area) (ret : Z) (l : ledger) | Out (ret : Z) (l : ledger).

Definition fail_nomem (charge : Z) (l : ledger) : vres := Out (- ENOMEM) (l ⊖ times charge (one OCommit)).
Definition fail_nomem_policy (charge : Z) (l : ledger) : vres := fail_nomem charge (l ⊖ one OArea).
Definition fail_nomem_anon_vma_fork (tmp : area) (charge : Z) (l : ledger) : vres :=
  fail_nomem_policy charge (l ⊖ opt (fun p => one (OPolicy p)) (a_policy tmp)).

Definition set_policy (p : option Z) (v : area) : area := Area (a_start v) (a_pages v) (a_flags v) (a_file v) p (a_anon v).
Definition set_anon (a : option Z) (v : area) : area := Area (a_start v) (a_pages v) (a_flags v) (a_file v) (a_policy v) a.
Definition clear_locked (v : area) : area :=
  Area (a_start v) (a_pages v) (Z.land (a_flags v) (Z.lnot (Z.lor VM_LOCKED VM_LOCKONFAULT))) (a_file v) (a_policy v) (a_anon v).

(** The rest of the loop body, from the anonymous mapping on. *)
Definition link_area (a : venv) (tmp : area) (l : ledger) : vres :=
  let tmp := clear_locked tmp in
  let l := match a_file tmp with
           | Some f => l ⊕ one (OFile f) ⊕ when (flag (a_flags tmp) VM_SHARED) (one (OWritable f))
           | None => l
           end in
  Link tmp (if flag (a_flags tmp) VM_WIPEONFORK then 0 else copy_page_range a) l.

Definition dup_area (a : venv) (mpnt : area) (l : ledger) : vres :=
  if flag (a_flags mpnt) VM_DONTCOPY then Skip
  else if fatal_signal a then Out (- EINTR) l
  else if flag (a_flags mpnt) VM_ACCOUNT && negb (enough_memory a) then fail_nomem 0 l
  else
    let charge := if flag (a_flags mpnt) VM_ACCOUNT then a_pages mpnt else 0 in
    let l := l ⊕ times charge (one OCommit) in
    if negb (area_alloc a) then fail_nomem charge l
    else
      let l := l ⊕ one OArea in
      match dup_policy a with
      | inl _ => fail_nomem_policy charge l
      | inr p =>
          let tmp := set_policy p mpnt in
          let l := l ⊕ opt (fun p => one (OPolicy p)) p in
          if ztrue (dup_userfaultfd a) then fail_nomem_anon_vma_fork tmp charge l
          else if flag (a_flags tmp) VM_WIPEONFORK then link_area a (set_anon None tmp) l
          else match anon_vma_fork a with
               | None => fail_nomem_anon_vma_fork tmp charge l
               | Some an => link_area a (set_anon an tmp) l
               end
      end.

Definition account (v : area) (n : Z) (mm : aspace) : aspace :=
  Aspace (areas mm) (map_count mm) (vm_stat_account (a_flags v) n (stats mm)) (exe_file mm) (binfmt mm) (user_ns mm)
    (mm_owner mm) (mm_users mm) (mm_count mm) (mm_flags mm) (def_flags mm) (ksm mm) (khugepaged mm) (hiwater_vm mm) (locked_vm mm).
Definition add_area (v : area) (mm : aspace) : aspace :=
  Aspace (areas mm ++ [v]) (map_count mm + 1) (stats mm) (exe_file mm) (binfmt mm) (user_ns mm)
    (mm_owner mm) (mm_users mm) (mm_count mm) (mm_flags mm) (def_flags mm) (ksm mm) (khugepaged mm) (hiwater_vm mm) (locked_vm mm).

(** The loop of dup_mmap; [i] counts the areas of the parent. *)
Fixpoint dup_areas (i : nat) (src : list area) (mm : aspace) (l : ledger) : Z * aspace * ledger :=
  match src with
  | [] => (arch_dup_mmap e, mm, l)
  | mpnt :: src =>
      match dup_area (on_area e i) mpnt l with
      | Skip => dup_areas (S i) src (account mpnt (- a_pages mpnt) mm) l
      | Out ret l => (ret, mm, l)
      | Link tmp ret l => if ztrue ret then (ret, add_area tmp mm, l) else dup_areas (S i) src (add_area tmp mm) l
      end
  end.

Definition with_exe (f : option Z) (s : vm_stats) (mm : aspace) : aspace :=
  Aspace (areas mm) (map_count mm) s f (binfmt mm) (user_ns mm)
    (mm_owner mm) (mm_users mm) (mm_count mm) (mm_flags mm) (def_flags mm) (ksm mm) (khugepaged mm) (hiwater_vm mm) (locked_vm mm).
Definition with_scanners (k h : bool) (mm : aspace) : aspace :=
  Aspace (areas mm) (map_count mm) (stats mm) (exe_file mm) (binfmt mm) (user_ns mm)
    (mm_owner mm) (mm_users mm) (mm_count mm) (mm_flags mm) (def_flags mm) k h (hiwater_vm mm) (locked_vm mm).

(** dup_mm_exe_file: a reference to the file, and write access denied once more. *)
Definition dup_mm_exe_file (oldmm : aspace) (l : ledger) : option Z * ledger :=
  match exe_file oldmm with
  | Some f => if exe_live e then (Some f, l ⊕ one (OFile f) ⊕ when (deny_ok e) (one (ODeny f))) else (None, l)
  | None => (None, l)
  end.

Definition dup_mmap (mm oldmm : aspace) (l : ledger) : Z * aspace * ledger :=
  let l := l ⊕ one OUprobe in
  if lock_killed e then (- EINTR, mm, l ⊖ one OUprobe)
  else
    let l := l ⊕ one OOldLock ⊕ one ONewLock in
    let '(f, l) := dup_mm_exe_file oldmm l in
    let mm := with_exe f (stats oldmm) mm in
    let '(ret, mm, l) :=
      let '(r, k) := ksm_fork e in
      if ztrue r then (r, mm, l)
      else
        let mm := with_scanners k false mm in
        let l := l ⊕ when k (one OKsm) in
        let '(r, h) := khugepaged_fork e in
        if ztrue r then (r, mm, l)
        else dup_areas 0 (areas oldmm) (with_scanners k h mm) (l ⊕ when h (one OKhuge)) in
    (ret, mm, l ⊖ one ONewLock ⊖ one OOldLock ⊖ one OUprobe).

Definition set_hiwater (mm : aspace) : aspace :=
  Aspace (areas mm) (map_count mm) (stats mm) (exe_file mm) (binfmt mm) (user_ns mm)
    (mm_owner mm) (mm_users mm) (mm_count mm) (mm_flags mm) (def_flags mm) (ksm mm) (khugepaged mm) (total_vm (stats mm)) (locked_vm mm).
Definition free_pt (mm : aspace) (l : ledger) : ledger :=
  mmput (Aspace (areas mm) (map_count mm) (stats mm) (exe_file mm) None (user_ns mm) None (mm_users mm) (mm_count mm)
           (mm_flags mm) (def_flags mm) (ksm mm) (khugepaged mm) (hiwater_vm mm) (locked_vm mm)) l.

(** dup_mm of the address space of the caller, for the new task [tsk]. *)
Definition dup_mm (tsk : Z) (oldmm : aspace) (l : ledger) : option aspace * ledger :=
  if negb (mm_alloc_ok e) then (None, l)
  else
    match mm_init oldmm (Some tsk) (user_ns oldmm) (Some oldmm) (l ⊕ one OMm) with
    | (None, l) => (None, l)
    | (Some mm, l) =>
        let '(err, mm, l) := dup_mmap mm oldmm l in
        if ztrue err then (None, free_pt mm l)
        else
          let mm := set_hiwater mm in
          match binfmt mm with
          | Some b => if module_ok e then (Some mm, l ⊕ one (OModule b)) else (None, free_pt mm l)
          | None => (Some mm, l)
          end
    end.

(** ** What duplication does *)

Lemma flag_clear x m b : Z.land b m = 0 -> flag (Z.land x (Z.lnot m)) b = flag x b.
Proof.
  intros H. unfold flag. rewrite <- Z.land_assoc, (Z.land_comm _ b), <- Z.ldiff_land. f_equal. f_equal.
  apply Z.bits_inj'. intros n Hn. rewrite Z.ldiff_spec. assert (Z.testbit (Z.land b m) n = false) as T by by rewrite H, Z.bits_0.
  rewrite Z.land_spec in T. destruct (Z.testbit b n), (Z.testbit m n); done.
Qed.

(** An area of the child: the parent's, with the locks of pages cleared, its own policy, and
    no anonymous memory if it is wiped. *)
Definition copied (v tmp : area) : Prop :=
  a_start tmp = a_start v /\ a_pages tmp = a_pages v /\ a_file tmp = a_file v /\
  a_flags tmp = Z.land (a_flags v) (Z.lnot (Z.lor VM_LOCKED VM_LOCKONFAULT)) /\
  (flag (a_flags v) VM_WIPEONFORK = true -> a_anon tmp = None).
Definition kept (v : area) : Prop := flag (a_flags v) VM_DONTCOPY = false.

Lemma link_area_spec a tmp l : exists tmp' ret l', link_area a tmp l = Link tmp' ret l' /\ tmp' = clear_locked tmp /\
  l' ≐ l ⊕ opt (fun f => one (OFile f) ⊕ when (flag (a_flags tmp) VM_SHARED) (one (OWritable f))) (a_file tmp).
Proof.
  unfold link_area. eexists _, _, _. split; [reflexivity|]. split; [done|]. cbn [a_file clear_locked a_flags].
  rewrite flag_clear by done. destruct (a_file tmp) as [f|]; cbn [opt]; ledger_solve.
Qed.

Lemma dup_area_spec a v l :
  match dup_area a v l with
  | Skip => ~ kept v
  | Link tmp _ l' => kept v /\ copied v tmp /\ l' ≐ l ⊕ area_holds tmp
  | Out ret l' => kept v /\ ret <> 0 /\ l' ≐ l
  end.
Proof.
  unfold dup_area, kept. destruct (flag (a_flags v) VM_DONTCOPY); [done|].
  destruct (fatal_signal a); [done|].
  destruct (flag (a_flags v) VM_ACCOUNT && negb (enough_memory a)); [split_and!; [done|done|ledger_solve]|].
  destruct (area_alloc a); cbn [negb]; [|split_and!; [done|done|ledger_solve]].
  destruct (dup_policy a) as [r|p]; [split_and!; [done|done|ledger_solve]|].
  destruct (ztrue (dup_userfaultfd a)); [split_and!; [done|done|cbn [a_policy set_policy]; ledger_solve]|].
  set (l1 := _ ⊕ opt _ p).
  assert (forall an, let tmp := set_anon an (set_policy p v) in
    match link_area a tmp l1 with
    | Link tmp' _ l' => tmp' = clear_locked tmp /\ l' ≐ l ⊕ area_holds (clear_locked tmp)
    | _ => False
    end) as Hl.
  { intros an tmp. destruct (link_area_spec a tmp l1) as (t' & ret & l' & -> & -> & Hl'). split; [done|].
    unfold area_holds, l1 in *. cbn [clear_locked a_flags a_pages a_file a_policy tmp set_anon set_policy] in *.
    rewrite !flag_clear by done. ledger_solve. }
  cbn [a_flags set_policy]. destruct (flag (a_flags v) VM_WIPEONFORK) eqn:Ew.
  - specialize (Hl None). cbv zeta in Hl. destruct (link_area a _ l1); [done| |done]. destruct Hl as [-> Hl]. by split_and!.
  - destruct (anon_vma_fork a) as [an|]; [|split_and!; [done|done|unfold l1; cbn [a_policy set_policy]; ledger_solve]].
    specialize (Hl an). cbv zeta in Hl. destruct (link_area a _ l1); [done| |done]. destruct Hl as [-> Hl]. split_and!; try done.
    unfold copied. simpl. split_and!; try done. congruence.
Qed.

#[local] Instance kept_dec v : Decision (kept v).
Proof. unfold kept. apply _. Defined.

(** Two address spaces that differ in their areas and statistics. *)
Definition same_rest (m m' : aspace) : Prop :=
  exe_file m' = exe_file m /\ binfmt m' = binfmt m /\ user_ns m' = user_ns m /\ mm_owner m' = mm_owner m /\
  mm_users m' = mm_users m /\ mm_count m' = mm_count m /\ ksm m' = ksm m /\ khugepaged m' = khugepaged m.

Definition pages (l : list area) : Z := foldr (fun v n => a_pages v + n) 0 l.

Lemma areas_hold_app a b : areas_hold (a ++ b) ≐ areas_hold a ⊕ areas_hold b.
Proof.
  induction a as [|v a IH]; intros x; [done|]. specialize (IH x). unfold areas_hold, plus in *. simpl. lia.
Qed.

Lemma areas_hold_nil l : l ⊕ areas_hold [] ≐ l.
Proof. intros x. unfold plus. simpl. unfold none. lia. Qed.
Lemma areas_hold_cons l v a : l ⊕ areas_hold (v :: a) ≐ l ⊕ area_holds v ⊕ areas_hold a.
Proof. intros x. unfold plus. simpl. unfold plus. lia. Qed.

Context (Hstat : forall f n s, total_vm (vm_stat_account f n s) = total_vm s + n).
Context (Hexit : forall ars l, exit_mmap ars l ≐ l ⊖ areas_hold ars).

Lemma dup_areas_spec src : forall i mm l ret mm' l', dup_areas i src mm l = (ret, mm', l') ->
  same_rest mm mm' /\ exists new, areas mm' = areas mm ++ new /\ l' ≐ l ⊕ areas_hold new /\
  map_count mm' = map_count mm + Z.of_nat (length new) /\
  (ret = 0 -> Forall2 copied (filter kept src) new /\
     total_vm (stats mm') = total_vm (stats mm) - pages (filter (fun v => ~ kept v) src)).
Proof.
  induction src as [|v src IH]; intros i mm l ret mm' l' E; cbn [dup_areas] in E.
  { injection E as _ <- <-. split; [by split_and!|]. exists []. rewrite app_nil_r. split_and!; [done|by rewrite areas_hold_nil|simpl; lia|].
    intros _. simpl. split; [constructor|lia]. }
  pose proof (dup_area_spec (on_area e i) v l) as Hd. destruct (dup_area (on_area e i) v l) as [|tmp r l1|r l1].
  - apply IH in E as (Hr & new & Ea & El & Em & Hs). split; [exact Hr|]. exists new. split_and!; try done.
    intros H0. destruct (Hs H0) as [Hc Ht]. rewrite !filter_cons, decide_False, decide_True by done. split; [done|].
    rewrite Ht. cbn [stats account pages foldr]. rewrite Hstat. fold (pages (filter (fun v => ~ kept v) src)). lia.
  - destruct Hd as (Hk & Hc & Hl). unfold ztrue in E. destruct (Z.eqb_spec r 0) as [->|Hr]; cbn [negb] in E.
    + apply IH in E as (Hrest & new & Ea & El & Em & Hs). split; [exact Hrest|]. exists (tmp :: new).
      split_and!; [by rewrite Ea; cbn [areas add_area]; rewrite <- app_assoc| |rewrite Em; cbn [map_count add_area length]; lia|].
      { by rewrite El, Hl, areas_hold_cons. }
      intros H0. destruct (Hs H0) as [Hf Ht]. rewrite !filter_cons, decide_True, decide_False by tauto. split; [by constructor|].
      by rewrite Ht.
    + injection E as <- <- <-. split; [by split_and!|]. exists [tmp]. split_and!; [done| |simpl; lia|done].
      by rewrite Hl, areas_hold_cons, areas_hold_nil.
  - destruct Hd as (Hk & Hr & Hl). injection E as <- <- <-. split; [by split_and!|]. exists []. rewrite app_nil_r.
    split_and!; [done|by rewrite Hl, areas_hold_nil|simpl; lia|done].
Qed.

(** The last user gives back all that the address space holds. *)
Lemma mmput_last mm l : mm_users mm = 1 -> mm_count mm = 1 -> mmput mm l ≐ l ⊖ space_holds mm.
Proof.
  intros Hu Hc. unfold mmput, __mmput, mmdrop, clear_exe_file, __mmdrop. rewrite Hu, Hc.
  change (1 - 1 =? 0) with true. cbv iota. unfold space_holds, base_holds, map_holds.
  intros x. destruct (ksm mm), (khugepaged mm), (exe_file mm), (binfmt mm); cbn [opt when]; unfold minus, plus, none in *;
    match goal with |- context [exit_mmap ?a ?b x] => rewrite (Hexit a b x) end; unfold minus; lia.
Qed.

Lemma free_pt_last mm l : mm_users mm = 1 -> mm_count mm = 1 -> free_pt mm l ≐ l ⊖ base_holds mm.
Proof.
  intros Hu Hc. unfold free_pt. rewrite mmput_last by done. unfold space_holds. cbn [binfmt opt].
  unfold base_holds, map_holds. cbn [areas exe_file ksm khugepaged user_ns]. intros x. unfold minus, plus, none. lia.
Qed.

Lemma dup_mmap_spec mm oldmm l ret mm' l' : areas mm = [] -> map_count mm = 0 -> exe_file mm = None ->
  ksm mm = false -> khugepaged mm = false -> (forall f, exe_file oldmm = Some f -> deny_ok e = true) ->
  dup_mmap mm oldmm l = (ret, mm', l') ->
  l' ≐ l ⊕ map_holds mm' /\ binfmt mm' = binfmt mm /\ user_ns mm' = user_ns mm /\ mm_owner mm' = mm_owner mm /\
  mm_users mm' = mm_users mm /\ mm_count mm' = mm_count mm /\
  (ret = 0 -> Forall2 copied (filter kept (areas oldmm)) (areas mm') /\
     map_count mm' = Z.of_nat (length (areas mm')) /\ exe_file mm' = (if exe_live e then exe_file oldmm else None) /\
     total_vm (stats mm') = total_vm (stats oldmm) - pages (filter (fun v => ~ kept v) (areas oldmm))).
Proof.
  intros Ha Hm Hx Hk Hh Hdeny E. unfold dup_mmap in E. cbv zeta in E. destruct (lock_killed e).
  { injection E as <- <- <-. unfold map_holds. rewrite Ha, Hx, Hk, Hh. split_and!; try done.
    intros x. cbn [opt when areas_hold foldr]. unfold plus, minus, none. lia. }
  assert (exists f l1, dup_mm_exe_file oldmm (l ⊕ one OUprobe ⊕ one OOldLock ⊕ one ONewLock) = (f, l1) /\
    f = (if exe_live e then exe_file oldmm else None) /\
    l1 ≐ l ⊕ one OUprobe ⊕ one OOldLock ⊕ one ONewLock ⊕ opt (fun f => one (OFile f) ⊕ one (ODeny f)) f)
    as (f & l1 & Ef & Hf & Hl1).
  { unfold dup_mm_exe_file. destruct (exe_file oldmm) as [f|]; [|eexists _, _; split_and!; [done|by destruct (exe_live e)|ledger_solve]].
    rewrite (Hdeny f eq_refl). destruct (exe_live e); eexists _, _; (split_and!; [done|done|]); cbn [opt when]; ledger_solve. }
  rewrite Ef in E. destruct (ksm_fork e) as [rk k]. unfold ztrue in E. destruct (Z.eqb_spec rk 0) as [->|Hrk]; cbn [negb] in E.
  2: { injection E as <- <- <-. unfold map_holds. cbn [areas exe_file ksm khugepaged with_exe]. rewrite Ha, Hk, Hh.
       split_and!; try done. intros x. specialize (Hl1 x). cbn [when areas_hold foldr]. unfold plus, minus, none in *. lia. }
  destruct (khugepaged_fork e) as [rh h]. destruct (Z.eqb_spec rh 0) as [->|Hrh]; cbn [negb] in E.
  2: { injection E as <- <- <-. unfold map_holds. cbn [areas exe_file ksm khugepaged with_exe with_scanners]. rewrite Ha.
       split_and!; try done. intros x. specialize (Hl1 x). cbn [when areas_hold foldr]. unfold plus, minus, none in *. lia. }
  destruct (dup_areas _ _ _ _) as [[r m2] l2] eqn:Ed. injection E as <- <- <-.
  apply dup_areas_spec in Ed as (Hr & new & Ea & El & Em & Hs). unfold same_rest in Hr.
  cbn [areas exe_file ksm khugepaged with_exe with_scanners map_count stats binfmt user_ns mm_owner mm_users mm_count] in *.
  destruct Hr as (R1 & R2 & R3 & R4 & R5 & R6 & R7 & R8). rewrite Ha in Ea. simpl in Ea. split_and!; try done.
  - unfold map_holds. rewrite Ea, R1, R7, R8. intros x. specialize (El x). specialize (Hl1 x). unfold plus, minus in *. lia.
  - intros H0. destruct (Hs H0). rewrite Ea, R1, Em, Hm. by split_and!.
Qed.

(** (C6) dup_mm gives the child every area of the parent that is not marked as not to be
    copied, in order, unlocked and wiped where asked, with its size accounted, and takes
    exactly what the new address space holds, so that its last mmput gives it all back; when
    anything fails, at any area, everything taken until then is given back and no lock stays
    held. *)
Theorem dup_mm_spec tsk oldmm l :
  (forall f, exe_file oldmm = Some f -> deny_ok e = true) ->
  match dup_mm tsk oldmm l with
  | (None, l') => l' ≐ l
  | (Some mm, l') =>
      l' ≐ l ⊕ space_holds mm /\ mmput mm l' ≐ l /\
      Forall2 copied (filter kept (areas oldmm)) (areas mm) /\ map_count mm = Z.of_nat (length (areas mm)) /\
      total_vm (stats mm) = total_vm (stats oldmm) - pages (filter (fun v => ~ kept v) (areas oldmm)) /\
      exe_file mm = (if exe_live e then exe_file oldmm else None) /\ binfmt mm = binfmt oldmm /\
      user_ns mm = user_ns oldmm /\ mm_owner mm = Some tsk /\ mm_users mm = 1 /\ mm_count mm = 1
  end.
Proof.
  intros Hdeny. unfold dup_mm, mm_init. destruct (mm_alloc_ok e); cbn [negb]; [|done].
  destruct (pgd_ok e); cbn [negb]; [|ledger_solve]. destruct (context_ok e); cbn [negb]; [|ledger_solve].
  set (mm0 := Aspace [] _ _ _ _ _ _ _ _ _ _ _ _ _ _). set (l0 := l ⊕ one OMm ⊕ one OPgd ⊕ one OCtx ⊕ one (ONs (user_ns oldmm))).
  destruct (dup_mmap mm0 oldmm l0) as [[err mm] l1] eqn:Ed.
  apply dup_mmap_spec in Ed as (El & Eb & En & Eo & Eu & Ec & Hs); try done.
  subst mm0. cbn [binfmt user_ns mm_owner mm_users mm_count] in Eb, En, Eo, Eu, Ec.
  assert (l1 ≐ l ⊕ base_holds mm) as Hb.
  { rewrite El. unfold l0, base_holds. rewrite En. intros x. unfold plus. simpl. lia. }
  assert (free_pt mm l1 ≐ l) as Hfree.
  { rewrite free_pt_last, Hb by done. intros x. unfold plus, minus. lia. }
  unfold ztrue. destruct (Z.eqb_spec err 0) as [->|Herr]; cbn [negb]; [|done].
  destruct (Hs eq_refl) as (H1 & H2 & H3 & H4). cbn [binfmt set_hiwater].
  assert (forall l2, l2 ≐ l ⊕ space_holds (set_hiwater mm) -> mmput (set_hiwater mm) l2 ≐ l) as Hput.
  { intros l2 Hl2. rewrite mmput_last, Hl2 by done. intros x. unfold plus, minus. lia. }
  assert (base_holds (set_hiwater mm) = base_holds mm) as Esame by done.
  destruct (binfmt mm) as [b|] eqn:Ebf.
  - destruct (module_ok e); [|exact Hfree].
    assert (l1 ⊕ one (OModule b) ≐ l ⊕ space_holds (set_hiwater mm)) as Hsp.
    { rewrite Hb. unfold space_holds. rewrite Esame. cbn [binfmt set_hiwater]. rewrite Ebf. intros x. unfold plus. simpl. lia. }
    split; [exact Hsp|]. split; [by apply Hput|]. cbn [set_hiwater areas map_count stats exe_file binfmt user_ns mm_owner mm_users mm_count].
    by split_and!; try congruence.
  - assert (l1 ≐ l ⊕ space_holds (set_hiwater mm)) as Hsp.
    { rewrite Hb. unfold space_holds. rewrite Esame. cbn [binfmt set_hiwater]. rewrite Ebf. intros x. unfold plus. simpl. unfold none. lia. }
    split; [exact Hsp|]. split; [by apply Hput|]. cbn [set_hiwater areas map_count stats exe_file binfmt user_ns mm_owner mm_users mm_count].
    by split_and!; try congruence.
Qed.
End Dup.

(** A parent with a shared file area, an area not to be copied and a wiped area; the third
    area's pages are committed. *)
Definition stat0 (f n : Z) (s : vm_stats) : vm_stats := Stats (total_vm s + n) (data_vm s) (exec_vm s) (stack_vm s).
Definition exit0 (ars : list area) (l : ledger) : ledger := l ⊖ areas_hold ars.
Definition old0 : aspace :=
  Aspace [Area 0x400000 4 VM_SHARED (Some 5) None None; Area 0x500000 2 VM_DONTCOPY None None None;
          Area 0x600000 8 (Z.lor VM_ACCOUNT (Z.lor VM_WIPEONFORK VM_LOCKED)) None (Some 3) (Some 9)]
    3 (Stats 14 0 0 0) (Some 5) (Some 1) 0 (Some 10) 1 1 0 0 false false 14 8.
Definition env0 (copy : Z) : denv :=
  DEnv true true true false true true (0, true) (0, false)
    (fun i => VEnv false true true (inr (if decide (i = 2%nat) then Some 3 else None)) 0 (Some None) copy)
    0 true 0 0 0.

Lemma dup_mm_spec_witness :
  option_map (fun m => (map a_start (areas m), map_count m, total_vm (stats m), map a_anon (areas m)))
    (dup_mm stat0 exit0 (env0 0) 77 old0 none).1 = Some ([0x400000; 0x600000], 2, 12, [None; None]) /\
  (dup_mm stat0 exit0 (env0 (- ENOMEM)) 77 old0 none).1 = None /\
  (dup_mm stat0 exit0 (env0 (- ENOMEM)) 77 old0 none).2 ≐ none.
Proof.
  split; [vm_compute; reflexivity|]. split; [vm_compute; reflexivity|].
  pose proof (dup_mm_spec stat0 exit0 (env0 (- ENOMEM)) ltac:(done) ltac:(done) 77 old0 none ltac:(done)) as H.
  rewrite (surjective_pairing (dup_mm _ _ _ _ _ _)) in H.
  assert ((dup_mm stat0 exit0 (env0 (- ENOMEM)) 77 old0 none).1 = None) as E by (vm_compute; reflexivity).
  rewrite E in H. exact H.
Defined.
End Dup.

(** ** Users and references of an address space *)
Module MmLife.

(** mm_users and mm_count; how often the address space was torn down and freed; whether the
    one work item async_put_work is scheduled, and for which function. *)
Inductive work := NoWork | PutWork | DropWork.
Record mst := MSt { users : Z; count : Z; torn : Z; freed : Z; pending : work; clashed : bool }.

(** __mmdrop: the structure is freed. *)
Definition drop_last (s : mst) : mst := MSt (users s) (count s) (torn s) (freed s + 1) (pending s) (clashed s).
Definition life_mmdrop (s : mst) : mst :=
  let s := MSt (users s) (count s - 1) (torn s) (freed s) (pending s) (clashed s) in
  if count s =? 0 then drop_last s else s.
(** __mmput: torn down, then the reference of the users is dropped. *)
Definition life___mmput (s : mst) : mst :=
  life_mmdrop (MSt (users s) (count s) (torn s + 1) (freed s) (pending s) (clashed s)).
Definition life_mmput (s : mst) : mst :=
  let s := MSt (users s - 1) (count s) (torn s) (freed s) (pending s) (clashed s) in
  if users s =? 0 then life___mmput s else s.

(** Scheduling the work item while it is scheduled would lose one of the two. *)
Definition schedule (w : work) (s : mst) : mst :=
  MSt (users s) (count s) (torn s) (freed s) w (clashed s || match pending s with NoWork => false | _ => true end).
Definition unschedule (s : mst) : mst := MSt (users s) (count s) (torn s) (freed s) NoWork (clashed s).
Definition mmput_async (s : mst) : mst :=
  let s := MSt (users s - 1) (count s) (torn s) (freed s) (pending s) (clashed s) in
  if users s =? 0 then schedule PutWork s else s.
Definition mmput_async_fn (s : mst) : mst := life___mmput (unschedule s).
Definition mmdrop_async (s : mst) : mst :=
  let s := MSt (users s) (count s - 1) (torn s) (freed s) (pending s) (clashed s) in
  if count s =? 0 then schedule DropWork s else s.
Definition mmdrop_async_fn (s : mst) : mst := drop_last (unschedule s).

Definition mmget (s : mst) : mst := MSt (users s + 1) (count s) (torn s) (freed s) (pending s) (clashed s).
Definition mmgrab (s : mst) : mst := MSt (users s) (count s + 1) (torn s) (freed s) (pending s) (clashed s).

(** get_task_mm on a task: its address space, if it has one of its own. *)
Definition get_task_mm (has_mm kthread : bool) (s : mst) : bool * mst :=
  if has_mm then if kthread then (false, s) else (true, mmget s) else (false, s).
(** mm_access: the address space of another task, if the caller may; an error otherwise. *)
Definition mm_access (lock_err : Z) (has_mm kthread own may_access : bool) (s : mst) : (Z + bool) * mst :=
  if ztrue lock_err then (inl lock_err, s)
  else
    let '(got, s) := get_task_mm has_mm kthread s in
    if got && negb own && negb may_access then (inl (- EACCES), life_mmput s) else (inr got, s).

(** The holders: user references out and plain references out. *)
Record world := World { mm : mst; nusers : Z; ngrabs : Z }.
Inductive mstep : world -> world -> Prop :=
| m_get_task s u g kthread got s' : 0 < u -> get_task_mm true kthread s = (got, s') ->
    mstep (World s u g) (World s' (if got then u + 1 else u) g)
| m_access s u g err kthread own may r s' : 0 < u -> mm_access err true kthread own may s = (r, s') ->
    mstep (World s u g) (World s' (match r with inr true => u + 1 | _ => u end) g)
| m_grab s u g : 0 < u \/ 0 < g -> mstep (World s u g) (World (mmgrab s) u (g + 1))
| m_put s u g : 0 < u -> mstep (World s u g) (World (life_mmput s) (u - 1) g)
| m_put_async s u g : 0 < u -> mstep (World s u g) (World (mmput_async s) (u - 1) g)
| m_drop s u g : 0 < g -> mstep (World s u g) (World (life_mmdrop s) u (g - 1))
| m_drop_async s u g : 0 < g -> mstep (World s u g) (World (mmdrop_async s) u (g - 1))
| m_put_work s u g : pending s = PutWork -> mstep (World s u g) (World (mmput_async_fn s) u g)
| m_drop_work s u g : pending s = DropWork -> mstep (World s u g) (World (mmdrop_async_fn s) u g).

(** Fresh from mm_init, with its one user. *)
Definition born : world := World (MSt 1 1 0 0 NoWork false) 1 0.

(** The users share one reference until the address space is torn down. *)
Definition shared (s : mst) : Z := 1 - torn s.
Definition put_pending (s : mst) : Z := match pending s with PutWork => 1 | _ => 0 end.
Definition drop_pending (s : mst) : Z := match pending s with DropWork => 1 | _ => 0 end.
Definition minv (w : world) : Prop :=
  let s := mm w in
  clashed s = false /\ 0 <= nusers w /\ 0 <= ngrabs w /\ users s = nusers w /\ (torn s = 0 \/ torn s = 1) /\
  count s = ngrabs w + shared s /\
  (torn s = 0 <-> (0 < nusers w \/ put_pending s = 1)) /\ (0 < nusers w -> put_pending s = 0) /\
  (freed s = 0 \/ freed s = 1) /\ (freed s = 1 <-> (count s = 0 /\ drop_pending s = 0)) /\ (drop_pending s = 1 -> count s = 0).

Lemma mstep_minv w w' : minv w -> mstep w w' -> minv w'.
Proof.
  intros HI Hst. destruct Hst as [s u g kt got s' Hu E|s u g err kt own may r s' Hu E|s u g H|s u g H|s u g H|s u g H|s u g H|s u g H|s u g H];
    unfold minv, get_task_mm, mm_access, life_mmput, mmput_async, mmput_async_fn, mmdrop_async, mmdrop_async_fn,
      life___mmput, life_mmdrop, mmget, mmgrab, schedule, unschedule, drop_last, shared, put_pending, drop_pending in *;
    destruct s as [us co to fr pe cl]; cbn [mm nusers ngrabs users count torn freed pending clashed] in *;
    destruct HI as (-> & HI).
  all: try (destruct (ztrue err); [injection E as <- <-; by split|]).
  all: try destruct kt; try destruct own; try destruct may; cbn [andb negb] in *; simplify_eq/=; try (by split); try destruct pe; simplify_eq/=.
  all: repeat match goal with |- context [?a =? ?b] => destruct (Z.eqb_spec a b); simpl end; (split; [try done; exfalso; lia|lia]).
Qed.

(** (C27) An address space is torn down exactly once, when its last user leaves, and freed
    exactly once, after that and after the last reference; while it is not, it can be used;
    and its one work item is never scheduled a second time before it has run, whichever of
    the synchronous and asynchronous forms its users and holders use, in any order. *)
Theorem mm_life w : rtc mstep born w ->
  clashed (mm w) = false /\ users (mm w) = nusers w /\
  (0 < nusers w -> torn (mm w) = 0) /\ (0 < nusers w \/ 0 < ngrabs w -> freed (mm w) = 0) /\
  torn (mm w) <= 1 /\ freed (mm w) <= torn (mm w) /\
  (nusers w = 0 -> pending (mm w) = NoWork -> torn (mm w) = 1 /\ (ngrabs w = 0 -> freed (mm w) = 1)).
Proof.
  intros Hr. assert (minv w) as HI.
  { revert w Hr. apply (rtc_ind_r minv); [|intros ? ? _ Hst IH; by eapply mstep_minv].
    unfold minv, shared, put_pending, drop_pending. simpl. split; [done|lia]. }
  unfold minv, shared, put_pending, drop_pending in HI. destruct HI as (Hc & HI). split; [done|].
  destruct (pending (mm w)); split_and!; try lia; intros; try discriminate; lia.
Qed.

(** Two users, one leaves; the other leaves asynchronously and the work runs. *)
Lemma mm_life_witness : exists w, rtc mstep born w /\ torn (mm w) = 1 /\ freed (mm w) = 1 /\ freed (mm w) <= torn (mm w).
Proof.
  exists (World (MSt 0 0 1 1 NoWork false) 0 0). assert (rtc mstep born (World (MSt 0 0 1 1 NoWork false) 0 0)) as H.
  { eapply rtc_l; [apply (m_get_task _ 1 0 false); [lia|reflexivity]|].
    eapply rtc_l; [apply (m_put _ 2 0); lia|].
    eapply rtc_l; [apply (m_put_async _ 1 0); lia|].
    eapply rtc_l; [apply m_put_work; reflexivity|]. apply rtc_refl. }
  split; [exact H|]. split; [done|]. split; [done|]. apply (mm_life _ H).
Defined.
End MmLife.

(** ** The executable file of an address space *)
Module Exe.

(** An address space with its file, the lock its duplicators hold, what a duplicator has read,
    the files of the children made, and the replacements under way: files denied and not yet
    installed, and files taken out and not yet allowed again. *)
Record xst := XSt {
  exe : option Z; wcount : Z -> Z; dup_locked : bool; got : option Z; warned : bool;
  children : list Z; denied : list Z; swapped : list Z
}.

Definition upd_w (f : Z) (d : Z) (w : Z -> Z) : Z -> Z := fun x => if x =? f then w x + d else w x.
Definition add_w (f d : Z) (s : xst) : xst :=
  XSt (exe s) (upd_w f d (wcount s)) (dup_locked s) (got s) (warned s) (children s) (denied s) (swapped s).

Section Exe.
(** i_writecount is positive while a file is open for writing and negative while write access
    is denied; deny_write_access tells from it whether it can deny, and counts one down,
    allow_write_access counts one up. *)
Context (deny_write_access : Z -> bool).

(** set_mm_exe_file, for an address space that nobody else uses: its result and the file. *)
Definition set_mm_exe_file (new : option Z) (exe : option Z) (w : Z -> Z) : Z * option Z * (Z -> Z) :=
  match new with
  | Some f =>
      if negb (deny_write_access (w f)) then (- EACCES, exe, w)
      else
        let w := upd_w f (-1) w in
        (0, new, match exe with Some o => upd_w o 1 w | None => w end)
  | None => (0, None, match exe with Some o => upd_w o 1 w | None => w end)
  end.

(** replace_mm_exe_file in its steps: the check that the old file is not mapped ([mapped] says
    whether a file of an area has the path of the old one), the denial of the new file, the
    exchange, and the end under the read lock. *)
Definition replace_check (mapped : bool) (s : xst) : Z :=
  match exe s with Some _ => if mapped then - EBUSY else 0 | None => 0 end.
Definition replace_deny (new : Z) (s : xst) : Z * xst :=
  if negb (deny_write_access (wcount s new)) then (- EACCES, s)
  else (0, let s := add_w new (-1) s in
           XSt (exe s) (wcount s) (dup_locked s) (got s) (warned s) (children s) (new :: denied s) (swapped s)).
Definition replace_xchg (new : Z) (rest : list Z) (s : xst) : xst :=
  XSt (Some new) (wcount s) (dup_locked s) (got s) (warned s) (children s) rest
    (match exe s with Some o => o :: swapped s | None => swapped s end).
Definition replace_allow (old : Z) (rest : list Z) (s : xst) : option xst :=
  if dup_locked s then None
  else let s := add_w old 1 s in
       Some (XSt (exe s) (wcount s) (dup_locked s) (got s) (warned s) (children s) (denied s) rest).

(** dup_mm_exe_file in its two steps, under the write lock of the parent. *)
Definition get_mm_exe_file (s : xst) : xst :=
  XSt (exe s) (wcount s) (dup_locked s) (exe s) (warned s) (children s) (denied s) (swapped s).
Definition dup_deny (s : xst) : xst :=
  match got s with
  | None => s
  | Some f =>
      if negb (deny_write_access (wcount s f))
      then XSt (exe s) (wcount s) (dup_locked s) None true (children s) (denied s) (swapped s)
      else let s := add_w f (-1) s in
           XSt (exe s) (wcount s) (dup_locked s) None (warned s) (f :: children s) (denied s) (swapped s)
  end.
Definition set_lock (b : bool) (s : xst) : xst :=
  XSt (exe s) (wcount s) b None (warned s) (children s) (denied s) (swapped s).

(** Any processes: they open files for writing, replace the file, and duplicate the address
    space, in any order. *)
Inductive xstep : xst -> xst -> Prop :=
| x_open f s : 0 <= wcount s f -> xstep s (add_w f 1 s)
| x_close f s : 0 < wcount s f -> xstep s (add_w f (-1) s)
| x_deny new s s' : replace_check false s = 0 -> replace_deny new s = (0, s') -> xstep s s'
| x_xchg new l1 l2 s : denied s = l1 ++ new :: l2 -> xstep s (replace_xchg new (l1 ++ l2) s)
| x_allow old l1 l2 s s' : swapped s = l1 ++ old :: l2 -> replace_allow old (l1 ++ l2) s = Some s' -> xstep s s'
| x_lock s : dup_locked s = false -> xstep s (set_lock true s)
| x_get s : dup_locked s = true -> got s = None -> xstep s (get_mm_exe_file s)
| x_dup s : dup_locked s = true -> xstep s (dup_deny s)
| x_unlock s : dup_locked s = true -> got s = None -> xstep s (set_lock false s).

(** Every file is denied as often as it is held; what a duplicator has read is still held. *)
Definition holders (s : xst) : list Z := option_list (exe s) ++ children s ++ denied s ++ swapped s.
Definition occ (f : Z) (l : list Z) : Z := foldr (fun x n => (if f =? x then 1 else 0) + n) 0 l.
Definition denied_right (s : xst) : Prop := forall f,
  (0 < occ f (holders s) -> wcount s f = - occ f (holders s)) /\ (occ f (holders s) = 0 -> 0 <= wcount s f).
Definition xinv (s : xst) : Prop :=
  warned s = false /\ denied_right s /\ (is_Some (got s) -> dup_locked s = true) /\
  (forall f, got s = Some f -> exe s = Some f \/ f ∈ swapped s).

Lemma occ_app f a b : occ f (a ++ b) = occ f a + occ f b.
Proof. induction a as [|x a IH]; simpl; [done|]. unfold occ in *. lia. Qed.
Lemma occ_nonneg f l : 0 <= occ f l.
Proof. induction l as [|x l IH]; simpl; [done|]. unfold occ in *. destruct (f =? x); lia. Qed.
Lemma occ_elem f l : f ∈ l -> 0 < occ f l.
Proof.
  induction l as [|x l IH]; [by rewrite elem_of_nil|]. rewrite elem_of_cons. simpl. fold (occ f l).
  pose proof (occ_nonneg f l). intros [->|H']; [rewrite Z.eqb_refl; lia|]. apply IH in H'. destruct (f =? x); lia.
Qed.
Lemma occ_holders f s : occ f (holders s) =
  match exe s with Some x => if f =? x then 1 else 0 | None => 0 end + occ f (children s) + occ f (denied s) + occ f (swapped s).
Proof. unfold holders. rewrite !occ_app. destruct (exe s); simpl; lia. Qed.

(** Turns the claim about one file into arithmetic. *)
Ltac occ_solve :=
  rewrite ?occ_holders in *; unfold add_w, replace_xchg, set_lock, get_mm_exe_file, upd_w in *; cbn [wcount exe children denied swapped] in *;
  repeat match goal with H : denied _ = _ |- _ => rewrite H in *; clear H | H : swapped _ = _ |- _ => rewrite H in *; clear H end;
  try (let E := fresh in match goal with |- context [match exe ?s with _ => _ end] => destruct (exe s) eqn:E end);
  rewrite ?occ_app in *; cbn [occ foldr] in *;
  repeat match goal with
  | |- context [foldr (fun x n => (if ?f =? x then 1 else 0) + n) 0 ?l] => change (foldr (fun x n => (if f =? x then 1 else 0) + n) 0 l) with (occ f l)
  | H : context [foldr (fun x n => (if ?f =? x then 1 else 0) + n) 0 ?l] |- _ => change (foldr (fun x n => (if f =? x then 1 else 0) + n) 0 l) with (occ f l) in H
  | |- context [?a =? ?b] => destruct (Z.eqb_spec a b)
  | H : context [?a =? ?b] |- _ => destruct (Z.eqb_spec a b)
  end; subst;
  repeat match goal with |- context [occ ?f ?l] => lazymatch goal with _ : 0 <= occ f l |- _ => fail | _ => pose proof (occ_nonneg f l) end end;
  try lia.

Context (Hdeny : forall w, deny_write_access w = true <-> w <= 0).

Lemma xstep_xinv s s' : xinv s -> xstep s s' -> xinv s'.
Proof.
  intros (HW & HD & HL & HG) Hst. destruct Hst as [f s Hf|f s Hf|new s s' _ E|new l1 l2 s E|old l1 l2 s s' E1 E2|s Hl|s Hl Hg|s Hl|s Hl Hg].
  - split_and!; try done. intros x. specialize (HD x). occ_solve.
  - split_and!; try done. intros x. specialize (HD x). occ_solve.
  - unfold replace_deny in E. destruct (deny_write_access (wcount s new)) eqn:Ed; [|done]. apply Hdeny in Ed.
    injection E as <-. split_and!; try done. intros x. specialize (HD x). pose proof (HD) as HD2. occ_solve.
  - split_and!; try done.
    + intros x. specialize (HD x). occ_solve.
    + intros f Hf. simpl in *. destruct (HG f Hf) as [He|He]; right; [rewrite He; by left|].
      destruct (exe s); [by right|done].
  - unfold replace_allow in E2. destruct (dup_locked s) eqn:El; [done|]. injection E2 as <-.
    assert (got s = None) as Hn by (destruct (got s); [assert (false = true) by (apply HL; by eexists)|]; done).
    unfold xinv. cbn [got]. rewrite Hn. split_and!; [done| |by intros [? ?]|done]. intros x. specialize (HD x). occ_solve.
  - by split_and!.
  - split_and!; try done. simpl. intros f Hf. by left.
  - unfold dup_deny. destruct (got s) as [f|] eqn:Eg; [|by split_and!; rewrite ?Eg].
    assert (0 < occ f (holders s)) as Hocc.
    { rewrite occ_holders. pose proof (occ_nonneg f (children s)). pose proof (occ_nonneg f (denied s)). pose proof (occ_nonneg f (swapped s)).
      destruct (HG f eq_refl) as [->|Hin]; [rewrite Z.eqb_refl; lia|]. apply occ_elem in Hin. destruct (exe s); [destruct (f =? z)|]; lia. }
    assert (deny_write_access (wcount s f) = true) as Ed by (apply Hdeny; destruct (HD f) as [H1 _]; specialize (H1 Hocc); lia).
    rewrite Ed. cbn [negb]. split_and!; try done.
    intros x. specialize (HD x). destruct (decide (x = f)) as [->|]; occ_solve.
  - split_and!; try done. by intros [? ?].
Qed.

Lemma set_exe_right new s r x' w' : denied_right s -> set_mm_exe_file new (exe s) (wcount s) = (r, x', w') ->
  denied_right (XSt x' w' (dup_locked s) (got s) (warned s) (children s) (denied s) (swapped s)).
Proof.
  unfold set_mm_exe_file. intros HD E. destruct new as [f|].
  - destruct (deny_write_access (wcount s f)) eqn:Ed; cbn [negb] in E.
    + apply Hdeny in Ed. destruct (exe s) as [o|] eqn:Ee; injection E as <- <- <-; intros x; pose proof (HD x) as HDx;
        rewrite ?occ_holders in *; rewrite Ee in *; occ_solve.
    + injection E as <- <- <-. intros x. by apply HD.
  - destruct (exe s) as [o|] eqn:Ee; injection E as <- <- <-; intros x; pose proof (HD x) as HDx;
      rewrite ?occ_holders in *; rewrite Ee in *; occ_solve.
Qed.

(** While a file is the executable of an address space, write access to it is denied:
    however address spaces are duplicated and files are replaced and opened for writing, on
    any processors, a file has exactly one denial for each address space that runs it or is
    about to, so nobody has it open for writing, and the denial that duplication makes never
    fails; set_mm_exe_file keeps this, and changes nothing when it fails. *)
Theorem exe_file_denied f w s :
  w f = -1 -> (forall x, x <> f -> 0 <= w x) -> rtc xstep (XSt (Some f) w false None false [] [] []) s ->
  warned s = false /\ (forall x, exe s = Some x \/ x ∈ children s -> wcount s x < 0) /\
  (forall x, 0 < occ x (holders s) -> wcount s x = - occ x (holders s)) /\
  (forall new r x' w', set_mm_exe_file new (exe s) (wcount s) = (r, x', w') ->
     denied_right (XSt x' w' (dup_locked s) (got s) (warned s) (children s) (denied s) (swapped s)) /\
     (r <> 0 -> x' = exe s /\ w' = wcount s)).
Proof.
  intros Hf Hw Hr. assert (xinv s) as (HW & HD & _ & _).
  { revert s Hr. apply (rtc_ind_r xinv); [|intros ? ? _ Hst IH; by eapply xstep_xinv].
    split_and!; try done; [|by intros [? ?]]. intros x. unfold holders. simpl.
    destruct (Z.eqb_spec x f) as [->|Hn]; [lia|]. specialize (Hw x Hn). lia. }
  split; [done|]. split; [|split; [by intros x Hx; apply HD|]].
  - intros x Hx. destruct (HD x) as [H1 _]. assert (0 < occ x (holders s)) as Ho; [|specialize (H1 Ho); lia].
    apply occ_elem. unfold holders. rewrite !elem_of_app. destruct Hx as [->|Hx]; [left; simpl; by left|by right; left].
  - intros new r x' w' E. split; [by eapply set_exe_right|]. intros Hne. unfold set_mm_exe_file in E.
    repeat case_match; simplify_eq; done.
Qed.
End Exe.

(** A replacement overtakes a duplication between its two steps. *)
Lemma exe_file_denied_witness :
  exists s, rtc (xstep (fun w => w <=? 0)) (XSt (Some 5) (fun x => if x =? 5 then -1 else 0) false None false [] [] []) s /\
    children s = [5] /\ exe s = Some 6 /\ warned s = false.
Proof.
  eexists. split.
  { eapply rtc_l; [apply x_lock; done|]. eapply rtc_l; [apply x_get; done|].
    eapply rtc_l; [eapply (x_deny _ 6); reflexivity|]. eapply rtc_l; [apply (x_xchg _ 6 [] []); reflexivity|].
    eapply rtc_l; [apply x_dup; done|]. apply rtc_refl. }
  split; [reflexivity|]. split; [reflexivity|].
  eapply (exe_file_denied (fun w => w <=? 0) ltac:(intros w; apply Z.leb_le) 5 (fun x => if x =? 5 then -1 else 0)).
  - done.
  - intros x Hx. simpl. by destruct (Z.eqb_spec x 5).
  - eapply rtc_l; [apply x_lock; done|]. eapply rtc_l; [apply x_get; done|].
    eapply rtc_l; [eapply (x_deny _ 6); reflexivity|]. eapply rtc_l; [apply (x_xchg _ 6 [] []); reflexivity|].
    eapply rtc_l; [apply x_dup; done|]. apply rtc_refl.
Defined.
End Exe.

(** ** The end of a vfork *)
Module Vfork.

(** The completion lives on the stack of the parent while it waits ([alive]); [bad] is a use
    of it after that.  The child's pointers, and what it did for user space. *)
Inductive effect := PutUserZero (addr : Z) | FutexWake (addr : Z).
Inductive pwait := Waiting | Killed | Returned (killed : bool).
Record vst := VSt {
  vfork_done : bool; clear_child_tid : option Z; completed : Z; alive : bool; bad : bool;
  parent : pwait; child_refs : Z; effects : list effect
}.

(** complete_vfork_done, under task_lock of the child. *)
Definition complete_vfork_done (s : vst) : vst :=
  if vfork_done s
  then VSt false (clear_child_tid s) (completed s + 1) (alive s) (bad s || negb (alive s)) (parent s) (child_refs s) (effects s)
  else s.
(** mm_release: the thread id in user memory is cleared, with a wake-up, if others use the
    address space and no core is dumped. *)
Definition mm_release (coredump : bool) (mm_users : Z) (s : vst) : vst :=
  let s := match clear_child_tid s with
           | Some a =>
               VSt (vfork_done s) None (completed s) (alive s) (bad s) (parent s) (child_refs s)
                 (if negb coredump && (1 <? mm_users) then effects s ++ [PutUserZero a; FutexWake a] else effects s)
           | None => s
           end in
  if vfork_done s then complete_vfork_done s else s.

(** wait_for_vfork_done: woken by the completion, or killed; a killed parent takes the pointer
    away from the child first; then it drops its reference to the child and returns. *)
Definition return_ (killed : bool) (s : vst) : vst :=
  VSt (vfork_done s) (clear_child_tid s) (completed s) false (bad s) (Returned killed) (child_refs s - 1) (effects s).
Definition wait_killed (s : vst) : vst :=
  VSt (vfork_done s) (clear_child_tid s) (completed s) (alive s) (bad s) Killed (child_refs s) (effects s).
Definition forget_vfork (s : vst) : vst :=
  VSt false (clear_child_tid s) (completed s) (alive s) (bad s) (parent s) (child_refs s) (effects s).

Inductive vstep : vst -> vst -> Prop :=
| v_release coredump users s : vstep s (mm_release coredump users s)
| v_done s : parent s = Waiting -> 0 < completed s -> vstep s (return_ false s)
| v_kill s : parent s = Waiting -> vstep s (wait_killed s)
| v_killed s : parent s = Killed -> vstep s (return_ true (forget_vfork s)).

Definition vforked (tid : option Z) (refs : Z) : vst := VSt true tid 0 true false Waiting refs [].

Definition vinv (refs : Z) (tid : option Z) (s : vst) : Prop :=
  bad s = false /\ 0 <= completed s <= 1 /\ (vfork_done s = true -> completed s = 0) /\
  (vfork_done s = true -> alive s = true) /\
  match parent s with
  | Returned k => alive s = false /\ vfork_done s = false /\ child_refs s = refs - 1 /\ (k = false -> completed s = 1)
  | _ => alive s = true /\ child_refs s = refs /\ (vfork_done s = false -> completed s = 1)
  end /\
  (clear_child_tid s = tid /\ effects s = [] \/
   clear_child_tid s = None /\ (effects s = [] \/ exists a, tid = Some a /\ effects s = [PutUserZero a; FutexWake a])).

Lemma complete_vinv refs tid s : vinv refs tid s -> vinv refs tid (complete_vfork_done s).
Proof.
  intros HI. unfold complete_vfork_done. destruct (vfork_done s) eqn:Ev; [|done].
  destruct HI as (B & C & D & A & P & T). rewrite Ev in *. rewrite (A eq_refl), B. specialize (D eq_refl). unfold vinv.
  cbn [vfork_done clear_child_tid completed alive bad parent child_refs effects]. split_and!; try done; try lia.
  destruct (parent s); [| |by destruct P as (_ & ? & _)]; destruct P as (P1 & P2 & P3); split_and!; try done; lia.
Qed.

Lemma release_vinv refs tid cd users s : vinv refs tid s -> vinv refs tid (mm_release cd users s).
Proof.
  intros HI. unfold mm_release. set (s1 := match clear_child_tid s with Some a => _ | None => s end).
  assert (vinv refs tid s1) as H1; [|destruct (vfork_done s1); [by apply complete_vinv|done]].
  subst s1. destruct (clear_child_tid s) as [a|] eqn:Ec; [|done]. destruct HI as (B & C & D & A & P & T).
  refine (conj B (conj C (conj D (conj A (conj P _))))). cbn [clear_child_tid effects]. right. split; [done|].
  destruct T as [[T1 T2]|[T1 T2]]; [|congruence]. rewrite T2.
  destruct (negb cd && (1 <? users)); [right; exists a; split; [congruence|done]|by left].
Qed.

(** The completion of a vfork is only used while its parent still waits on it, though it
    lives on the parent's stack: by a child that releases its address space, by exec or exit,
    any number of times, against a parent that is killed at any time; it is completed at most
    once, a parent that returns normally was completed and gives its reference to the child
    back once, and the thread id is cleared in user memory at most once. *)
Theorem vfork_completion_live tid refs s : rtc vstep (vforked tid refs) s ->
  bad s = false /\ completed s <= 1 /\
  match parent s with
  | Returned killed => vfork_done s = false /\ child_refs s = refs - 1 /\ (killed = false -> completed s = 1)
  | _ => alive s = true /\ child_refs s = refs
  end /\
  (effects s = [] \/ exists a, tid = Some a /\ effects s = [PutUserZero a; FutexWake a]).
Proof.
  intros Hr. assert (vinv refs tid s) as (B & C & D & A & P & T).
  { revert s Hr. apply (rtc_ind_r (vinv refs tid)).
    - unfold vinv. simpl. split_and!; try done; try lia. by left.
    - intros s s' _ Hst HI. destruct Hst as [cd users s|s Hp Hc|s Hp|s Hp]; [by apply release_vinv| | |];
        destruct HI as (B & C & D & A & P & T); rewrite Hp in P; destruct P as (P1 & P2 & P3); unfold vinv;
        cbn [vfork_done clear_child_tid completed alive bad parent child_refs effects wait_killed return_ forget_vfork].
      + assert (vfork_done s = false) as Hv by (destruct (vfork_done s); [specialize (D eq_refl); lia|done]).
        rewrite Hv. split_and!; try done; [lia|lia|by rewrite P2|by intros _; apply P3].
      + split_and!; try done; lia.
      + split_and!; try done; [lia|lia|by rewrite P2]. }
  split; [done|]. split; [lia|]. split; [destruct (parent s); tauto|]. tauto.
Qed.

Lemma vfork_completion_live_witness : exists s, rtc vstep (vforked (Some 64) 2) s /\ parent s = Returned true /\
  completed s = 0 /\ bad s = false.
Proof.
  eexists. assert (rtc vstep (vforked (Some 64) 2) (mm_release false 1 (return_ true (forget_vfork (wait_killed (vforked (Some 64) 2)))))) as H.
  { eapply rtc_l; [apply v_kill; done|]. eapply rtc_l; [apply v_killed; done|]. eapply rtc_l; [apply (v_release false 1)|]. apply rtc_refl. }
  split; [exact H|]. split; [done|]. split; [done|]. apply (vfork_completion_live _ _ _ H).
Defined.
End Vfork.
