(* ===== verification/ForkTask.v ===== *)
(** * Task structures (src/kvm/linux-5.15.178/kernel/fork.c)

    [Stacks]: kernel stacks with their per-processor cache, charges and dup_task_struct, for
    kernels with CONFIG_VMAP_STACK and CONFIG_THREAD_INFO_IN_TASK.  [Limits]: the limit of
    threads.  [Walk]: walk_process_tree.  [Release]: the release of task and signal structures.
    [Pidfd]: what a pidfd shows. *)

From S2P Require Import Prelude.

Module Stacks.

Definition NR_CACHED_STACKS : nat := 2.

(** The cache by processor and slot, the stacks that exist, the pages of a stack that are
    charged to a control group, whether a stack is all zero, the kernel stack statistics in
    stacks, and the task structures that exist. *)
Record kst := KSt {
  cache : gmap (Z * nat) Z; live : gset Z; charged : Z -> Z; clean : Z -> bool;
  accounted : Z; structs : Z
}.
Definition fset {A} (k : Z) (v : A) (f : Z -> A) : Z -> A := fun x => if x =? k then v else f x.

Section Stacks.
(** Pages of a stack, THREAD_SIZE / PAGE_SIZE. *)
Context (npages : Z).

(** The cached stacks, slot by slot; the thread may run on another processor at every slot. *)
Fixpoint take_cached (cpu : nat -> Z) (n i : nat) (c : gmap (Z * nat) Z) : option (Z * gmap (Z * nat) Z) :=
  match n with
  | O => None
  | S n => match c !! (cpu i, i) with
           | Some s => Some (s, delete (cpu i, i) c)
           | None => take_cached cpu n (S i) c
           end
  end.
Fixpoint put_cached (cpu : nat -> Z) (n i : nat) (s : Z) (c : gmap (Z * nat) Z) : option (gmap (Z * nat) Z) :=
  match n with
  | O => None
  | S n => match c !! (cpu i, i) with
           | None => Some (<[(cpu i, i) := s]> c)
           | Some _ => put_cached cpu n (S i) s c
           end
  end.

(** [vmalloc]: the stack that __vmalloc_node_range makes, all zero, if there is memory. *)
Definition alloc_thread_stack_node (cpu : nat -> Z) (vmalloc : option Z) (k : kst) : option Z * kst :=
  match take_cached cpu NR_CACHED_STACKS 0 (cache k) with
  | Some (s, c) => (Some s, KSt c (live k) (charged k) (fset s true (clean k)) (accounted k) (structs k))
  | None =>
      match vmalloc with
      | Some s => (Some s, KSt (cache k) ({[s]} ∪ live k) (charged k) (fset s true (clean k)) (accounted k) (structs k))
      | None => (None, k)
      end
  end.

(** memcg_charge_kernel_stack: [ok] pages can be charged. *)
Definition memcg_charge_kernel_stack (ok : Z) (err : Z) (s : Z) (k : kst) : Z * kst :=
  if npages <=? ok
  then (0, KSt (cache k) (live k) (fset s npages (charged k)) (clean k) (accounted k) (structs k))
  else (err, KSt (cache k) (live k) (fset s (Z.max 0 ok) (charged k)) (clean k) (accounted k) (structs k)).

Definition free_thread_stack (cpu : nat -> Z) (s : Z) (k : kst) : kst :=
  let k := KSt (cache k) (live k) (fset s 0 (charged k)) (clean k) (accounted k) (structs k) in
  match put_cached cpu NR_CACHED_STACKS 0 s (cache k) with
  | Some c => KSt c (live k) (charged k) (clean k) (accounted k) (structs k)
  | None => KSt (cache k) (live k ∖ {[s]}) (charged k) (clean k) (accounted k) (structs k)
  end.
(** free_vm_stack_cache: the stacks cached for a processor that goes away. *)
Fixpoint free_vm_stack_cache (cpu : Z) (n i : nat) (k : kst) : kst :=
  match n with
  | O => k
  | S n =>
      let k := match cache k !! (cpu, i) with
               | Some s => KSt (delete (cpu, i) (cache k)) (live k ∖ {[s]}) (charged k) (clean k) (accounted k) (structs k)
               | None => k
               end in
      free_vm_stack_cache cpu n (S i) k
  end.

Definition account_kernel_stack (d : Z) (k : kst) : kst :=
  KSt (cache k) (live k) (charged k) (clean k) (accounted k + d) (structs k).
Definition add_struct (d : Z) (k : kst) : kst :=
  KSt (cache k) (live k) (charged k) (clean k) (accounted k) (structs k + d).
(** A task that runs writes to its stack. *)
Definition dirty (s : Z) (k : kst) : kst :=
  KSt (cache k) (live k) (charged k) (fset s false (clean k)) (accounted k) (structs k).

(** Answers for one dup_task_struct. *)
Record tenv := TEnv {
  struct_ok : bool; vmalloc : option Z; charge_pages : Z; charge_err : Z; arch_err : Z; scs_err : Z; cpu_at : nat -> Z
}.
(** dup_task_struct: the stack of the new task. *)
Definition dup_task_struct (e : tenv) (k : kst) : option Z * kst :=
  if negb (struct_ok e) then (None, k)
  else
    let k := add_struct 1 k in
    match alloc_thread_stack_node (cpu_at e) (vmalloc e) k with
    | (None, k) => (None, add_struct (-1) k)
    | (Some s, k) =>
        let free_stack k := (None, add_struct (-1) (free_thread_stack (cpu_at e) s k)) in
        let '(err, k) := memcg_charge_kernel_stack (charge_pages e) (charge_err e) s k in
        if ztrue err then free_stack k
        else if ztrue (arch_err e) then free_stack k
        else if ztrue (scs_err e) then free_stack k
        else (Some s, account_kernel_stack 1 k)
    end.

(** A task's stack with its references (0 once released), and whether the task is dead. *)
Record tsk := Tsk { stack : option Z; stack_refs : Z; is_dead : bool }.
(** release_task_stack: a stack in use is leaked with a warning rather than freed. *)
Definition release_task_stack (cpu : nat -> Z) (t : tsk) (k : kst) : tsk * kst :=
  if negb (is_dead t) then (t, k)
  else match stack t with
       | Some s => (Tsk None (stack_refs t) (is_dead t), free_thread_stack cpu s (account_kernel_stack (-1) k))
       | None => (t, k)
       end.
Definition put_task_stack (cpu : nat -> Z) (t : tsk) (k : kst) : tsk * kst :=
  let t := Tsk (stack t) (stack_refs t - 1) (is_dead t) in
  if stack_refs t =? 0 then release_task_stack cpu t k else (t, k).

(** ** Tasks come and go *)

Record world := World { ks : kst; tasks : gmap Z tsk }.
Inductive sstep : world -> world -> Prop :=
| s_fork e t k ts s k' : ts !! t = None -> (forall v, vmalloc e = Some v -> v ∉ live k) ->
    (charge_pages e < npages -> charge_err e <> 0) ->
    dup_task_struct e k = (Some s, k') -> sstep (World k ts) (World k' (<[t := Tsk (Some s) 1 false]> ts))
| s_fork_fails e k ts k' : (forall v, vmalloc e = Some v -> v ∉ live k) ->
    (charge_pages e < npages -> charge_err e <> 0) ->
    dup_task_struct e k = (None, k') -> sstep (World k ts) (World k' ts)
| s_run t x s k ts : ts !! t = Some x -> stack x = Some s -> sstep (World k ts) (World (dirty s k) ts)
| s_get t x k ts : ts !! t = Some x -> 0 < stack_refs x ->
    sstep (World k ts) (World k (<[t := Tsk (stack x) (stack_refs x + 1) (is_dead x)]> ts))
| s_exit t x k ts : ts !! t = Some x ->
    sstep (World k ts) (World k (<[t := Tsk (stack x) (stack_refs x) true]> ts))
| s_put t x cpu k ts x' k' : ts !! t = Some x -> 0 < stack_refs x -> (stack_refs x = 1 -> is_dead x = true) ->
    put_task_stack cpu x k = (x', k') -> sstep (World k ts) (World k' (<[t := x']> ts))
| s_reap t x k ts : ts !! t = Some x -> stack_refs x = 0 -> sstep (World k ts) (World (add_struct (-1) k) (delete t ts))
| s_unplug cpu k ts : sstep (World k ts) (World (free_vm_stack_cache cpu NR_CACHED_STACKS 0 k) ts).

(** ** Every stack is in one place *)

Inductive loc := InCache (c : Z * nat) | InTask (t : Z) | InHand.
#[local] Instance loc_eq : EqDecision loc.
Proof. solve_decision. Defined.
(** The stack at a place; [hand] is the one that a function in the middle of its work has. *)
Definition at_ (c : gmap (Z * nat) Z) (ts : gmap Z tsk) (hand : option Z) (l : loc) : option Z :=
  match l with InCache q => c !! q | InTask t => x ← ts !! t; stack x | InHand => hand end.
Definition placed (c : gmap (Z * nat) Z) (lv : gset Z) (ts : gmap Z tsk) (hand : option Z) : Prop :=
  (forall s, s ∈ lv <-> exists l, at_ c ts hand l = Some s) /\
  (forall l l' s, at_ c ts hand l = Some s -> at_ c ts hand l' = Some s -> l = l').

(** One place changes hands: [l1] loses its stack to the empty place [l2]. *)
Lemma placed_move c lv ts hand c' ts' hand' l1 l2 s : placed c lv ts hand ->
  at_ c ts hand l1 = Some s -> at_ c ts hand l2 = None -> at_ c' ts' hand' l1 = None -> at_ c' ts' hand' l2 = Some s ->
  (forall l, l <> l1 -> l <> l2 -> at_ c' ts' hand' l = at_ c ts hand l) -> placed c' lv ts' hand'.
Proof.
  intros [HL H1] A1 A2 B1 B2 Hrest. assert (forall l v, at_ c' ts' hand' l = Some v -> (l = l2 /\ v = s) \/ (l <> l1 /\ l <> l2 /\ at_ c ts hand l = Some v)) as Hc.
  { intros l v E. destruct (decide (l = l2)) as [->|Hn2]; [left; split; congruence|].
    destruct (decide (l = l1)) as [->|Hn1]; [congruence|]. right. rewrite <- Hrest by done. done. }
  split.
  - intros v. rewrite HL. split; intros [l E].
    + destruct (decide (l = l1)) as [->|Hn1]; [exists l2; congruence|].
      destruct (decide (l = l2)) as [->|Hn2]; [congruence|]. exists l. by rewrite Hrest.
    + destruct (Hc l v E) as [[-> ->]|(? & ? & ?)]; eauto.
  - intros l l' v E E'. destruct (Hc l v E) as [[-> ->]|(N1 & N2 & E2)], (Hc l' _ E') as [[-> ?]|(N1' & N2' & E2')]; subst; try done.
    + destruct N1'. by eapply H1.
    + destruct N1. by eapply H1.
    + by eapply H1.
Qed.

(** A place gains a new stack, or loses one that is freed. *)
Lemma placed_add c lv ts hand c' ts' hand' l1 s : placed c lv ts hand -> s ∉ lv ->
  at_ c ts hand l1 = None -> at_ c' ts' hand' l1 = Some s ->
  (forall l, l <> l1 -> at_ c' ts' hand' l = at_ c ts hand l) -> placed c' ({[s]} ∪ lv) ts' hand'.
Proof.
  intros [HL H1] Hs A B Hrest. assert (forall l v, at_ c' ts' hand' l = Some v -> (l = l1 /\ v = s) \/ (l <> l1 /\ at_ c ts hand l = Some v)) as Hc.
  { intros l v E. destruct (decide (l = l1)) as [->|Hn1]; [left; split; congruence|]. right. rewrite <- Hrest by done. done. }
  assert (forall l, at_ c ts hand l <> Some s) as Hno by (intros l E; apply Hs, HL; eauto).
  split.
  - intros v. rewrite elem_of_union, elem_of_singleton, HL. split.
    + intros [->|[l E]]; [by exists l1|]. exists l. rewrite Hrest; [done|]. intros ->. congruence.
    + intros [l E]. destruct (Hc l v E) as [[-> ->]|[? ?]]; eauto.
  - intros l l' v E E'. destruct (Hc l v E) as [[-> ->]|[N1 E2]], (Hc l' _ E') as [[-> ?]|[N1' E2']]; subst; try done.
    + by destruct (Hno l').
    + by destruct (Hno l).
    + by eapply H1.
Qed.

Lemma placed_drop c lv ts hand c' ts' hand' l1 s : placed c lv ts hand -> at_ c ts hand l1 = Some s ->
  at_ c' ts' hand' l1 = None -> (forall l, l <> l1 -> at_ c' ts' hand' l = at_ c ts hand l) -> placed c' (lv ∖ {[s]}) ts' hand'.
Proof.
  intros [HL H1] A B Hrest. split.
  - intros v. rewrite elem_of_difference, elem_of_singleton, HL. split.
    + intros [[l E] Hn]. exists l. rewrite Hrest; [done|]. intros ->. congruence.
    + intros [l E]. assert (l <> l1) as Hl by congruence. rewrite Hrest in E by done. split; [by exists l|].
      intros ->. destruct Hl. by eapply H1.
  - intros l l' v E E'. assert (l <> l1) by congruence. assert (l' <> l1) by congruence. rewrite Hrest in E, E' by done. by eapply H1.
Qed.

Lemma placed_ext c lv ts hand c' ts' hand' : placed c lv ts hand -> (forall l, at_ c' ts' hand' l = at_ c ts hand l) ->
  placed c' lv ts' hand'.
Proof.
  intros [HL H1] Hx. split; [intros v; rewrite HL; split; intros [l E]; exists l; rewrite ?Hx in *; done|].
  intros l l' v E E'. rewrite Hx in E, E'. by eapply H1.
Qed.

(** ** Counting *)

Definition has_stack (x : tsk) : Z := match stack x with Some _ => 1 | None => 0 end.
Definition stacks_out (ts : gmap Z tsk) : Z := map_fold (fun _ x n => has_stack x + n) 0 ts.

Lemma out_new t x ts : ts !! t = None -> stacks_out (<[t := x]> ts) = has_stack x + stacks_out ts.
Proof. intros H. unfold stacks_out. rewrite map_fold_insert_L; [done|intros; lia|done]. Qed.
Lemma out_delete t x ts : ts !! t = Some x -> stacks_out (delete t ts) = stacks_out ts - has_stack x.
Proof.
  intros H. pose proof (out_new t x (delete t ts) (lookup_delete_eq _ _)) as E.
  rewrite insert_delete_id in E by done. lia.
Qed.
Lemma out_update t x x' ts : ts !! t = Some x -> stacks_out (<[t := x']> ts) = stacks_out ts - has_stack x + has_stack x'.
Proof.
  intros H. rewrite <- insert_delete_eq. rewrite out_new by apply lookup_delete_eq. rewrite (out_delete _ x) by done. lia.
Qed.

(** The invariant, with a stack in hand: every stack is in one place, the stacks of tasks are
    fully charged and no others but the one in hand, and the statistics are right. *)
Record stinv (k : kst) (ts : gmap Z tsk) (hand : option Z) : Prop := StInv {
  i_placed : placed (cache k) (live k) ts hand;
  i_charged : forall t x s, ts !! t = Some x -> stack x = Some s -> charged k s = npages;
  i_uncharged : forall s, (forall t x, ts !! t = Some x -> stack x <> Some s) -> hand <> Some s -> charged k s = 0;
  i_accounted : accounted k = stacks_out ts;
  i_refs : forall t x, ts !! t = Some x -> (0 <= stack_refs x /\ (0 < stack_refs x <-> is_Some (stack x)))
}.

(** The stack in hand is no task's. *)
Lemma hand_not_task k ts s t x : stinv k ts (Some s) -> ts !! t = Some x -> stack x <> Some s.
Proof.
  intros H E Hs. assert (InTask t = InHand) as [=]. apply (proj2 (i_placed _ _ _ H) _ _ s); [|done].
  simpl. by rewrite E.
Qed.

Lemma take_cached_spec cpu n i c s c' : take_cached cpu n i c = Some (s, c') -> exists q, c !! q = Some s /\ c' = delete q c.
Proof. revert i; induction n as [|n IH]; intros i E; simpl in E; [done|]. repeat case_match; simplify_eq; eauto. Qed.
Lemma put_cached_spec cpu n i s c c' : put_cached cpu n i s c = Some c' -> exists q, c !! q = None /\ c' = <[q := s]> c.
Proof. revert i; induction n as [|n IH]; intros i E; simpl in E; [done|]. repeat case_match; simplify_eq; eauto. Qed.

(** Places other than a cache slot do not see the cache, and so on. *)
Lemma at_delete_cache c ts h h' q l : l <> InCache q -> l <> InHand -> at_ (delete q c) ts h l = at_ c ts h' l.
Proof. intros. destruct l; simpl; try done. rewrite lookup_delete_ne; congruence. Qed.
Lemma at_insert_cache c ts h h' q s l : l <> InCache q -> l <> InHand -> at_ (<[q := s]> c) ts h l = at_ c ts h' l.
Proof. intros. destruct l; simpl; try done. rewrite lookup_insert_ne; congruence. Qed.
Lemma at_insert_task c ts h h' t x l : l <> InTask t -> l <> InHand -> at_ c (<[t := x]> ts) h l = at_ c ts h' l.
Proof. intros. destruct l; simpl; try done. rewrite lookup_insert_ne; congruence. Qed.

Lemma alloc_stinv cpu v k ts o k' : stinv k ts None -> (forall s, v = Some s -> s ∉ live k) ->
  alloc_thread_stack_node cpu v k = (o, k') ->
  match o with
  | Some s => stinv k' ts (Some s) /\ clean k' s = true
  | None => k' = k
  end.
Proof.
  intros [P C U A R] Hv E. unfold alloc_thread_stack_node in E.
  assert (forall s c lv, placed c lv ts (Some s) -> charged k s = 0 ->
    stinv (KSt c lv (charged k) (fset s true (clean k)) (accounted k) (structs k)) ts (Some s)) as Hi.
  { intros s c lv HP H0. split; try done. intros s' H1 H2. simpl. by apply U. }
  assert (forall s, fset s true (clean k) s = true) as Hcl by (intros s; unfold fset; by rewrite Z.eqb_refl).
  destruct (take_cached cpu NR_CACHED_STACKS 0 (cache k)) as [[s c]|] eqn:Et.
  - injection E as <- <-. apply take_cached_spec in Et as (q & Eq & ->). split; [|apply Hcl].
    apply Hi.
    + apply (placed_move _ _ _ _ _ _ _ (InCache q) InHand s P); try done; [simpl; by rewrite lookup_delete_eq|].
      intros l H1 H2. by apply at_delete_cache.
    + apply U; [|done]. intros t x H1 H2. assert (InCache q = InTask t) as [=]. apply (proj2 P _ _ s); simpl; [done|by rewrite H1].
  - destruct v as [s|]; injection E as <- <-; [|done]. split; [|apply Hcl]. specialize (Hv s eq_refl). apply Hi.
    + apply (placed_add _ _ _ None _ _ _ InHand s P Hv); try done. intros l Hl. by destruct l.
    + apply U; [|done]. intros t x H1 H2. destruct Hv. apply (proj1 P). exists (InTask t). simpl. by rewrite H1.
Qed.

Lemma charge_stinv ok err s k ts r k' : stinv k ts (Some s) -> (ok < npages -> err <> 0) ->
  memcg_charge_kernel_stack ok err s k = (r, k') ->
  stinv k' ts (Some s) /\ clean k' s = clean k s /\ structs k' = structs k /\ (r = 0 -> charged k' s = npages).
Proof.
  intros Hi He E. pose proof Hi as [P C U A R]. unfold memcg_charge_kernel_stack in E.
  assert (forall v, stinv (KSt (cache k) (live k) (fset s v (charged k)) (clean k) (accounted k) (structs k)) ts (Some s)) as Hv.
  { intros v. split; try done; simpl; unfold fset.
    - intros t x s' H1 H2. destruct (Z.eqb_spec s' s) as [->|]; [by destruct (hand_not_task _ _ _ _ _ Hi H1)|by eapply C].
    - intros s' H1 H2. destruct (Z.eqb_spec s' s) as [->|]; [done|by apply U]. }
  destruct (Z.leb_spec npages ok); injection E as <- <-; split_and!; try done.
  - intros _. simpl. unfold fset. by rewrite Z.eqb_refl.
  - intros ->. by destruct He.
Qed.

Lemma free_stinv cpu s k ts : stinv k ts (Some s) -> stinv (free_thread_stack cpu s k) ts None.
Proof.
  intros Hi. pose proof Hi as [P C U A R]. unfold free_thread_stack. cbn [cache].
  assert (forall c lv, placed c lv ts None -> stinv (KSt c lv (fset s 0 (charged k)) (clean k) (accounted k) (structs k)) ts None) as Hx.
  { intros c lv HP. split; try done; simpl; unfold fset.
    - intros t x s' H1 H2. destruct (Z.eqb_spec s' s) as [->|]; [by destruct (hand_not_task _ _ _ _ _ Hi H1)|by eapply C].
    - intros s' H1 H2. destruct (Z.eqb_spec s' s) as [->|]; [done|]. apply U; [done|congruence]. }
  destruct (put_cached cpu NR_CACHED_STACKS 0 s (cache k)) as [c|] eqn:Ep; apply Hx.
  - apply put_cached_spec in Ep as (q & Eq & ->).
    apply (placed_move _ _ _ _ _ _ _ InHand (InCache q) s P); try done; [simpl; by rewrite lookup_insert_eq|].
    intros l H1 H2. by apply at_insert_cache.
  - apply (placed_drop _ _ _ _ _ _ _ InHand s P); try done. intros l Hl. by destruct l.
Qed.

Lemma struct_stinv d k ts h : stinv k ts h -> stinv (add_struct d k) ts h.
Proof. intros [P C U A R]. by split. Qed.

Lemma free_structs cpu s k : structs (free_thread_stack cpu s k) = structs k.
Proof. unfold free_thread_stack. by destruct (put_cached _ _ _ _ _). Qed.

(** A new task gets a zeroed, charged stack; a failure leaves everything as it was. *)
Lemma dup_stinv e k ts o k' : stinv k ts None -> (forall v, vmalloc e = Some v -> v ∉ live k) ->
  (charge_pages e < npages -> charge_err e <> 0) -> dup_task_struct e k = (o, k') ->
  match o with
  | Some s => exists k1, k' = account_kernel_stack 1 k1 /\ stinv k1 ts (Some s) /\ clean k1 s = true /\ charged k1 s = npages /\
              structs k1 = structs k + 1
  | None => stinv k' ts None /\ structs k' = structs k
  end.
Proof.
  intros Hi Hv He E. unfold dup_task_struct in E. destruct (struct_ok e); cbn [negb] in E; [|by injection E as <- <-].
  destruct (alloc_thread_stack_node (cpu_at e) (vmalloc e) (add_struct 1 k)) as [[s|] k1] eqn:Ea.
  2: { apply (alloc_stinv _ _ _ ts) in Ea; [|by apply struct_stinv|done]. subst k1. injection E as <- <-.
       split; [by apply struct_stinv, struct_stinv|simpl; lia]. }
  assert (structs k1 = structs k + 1) as Hs1.
  { unfold alloc_thread_stack_node in Ea. repeat case_match; simplify_eq; done. }
  apply (alloc_stinv _ _ _ ts) in Ea as [H1 Hc]; [|by apply struct_stinv|done].
  destruct (memcg_charge_kernel_stack (charge_pages e) (charge_err e) s k1) as [err k2] eqn:Em.
  apply (charge_stinv _ _ _ _ ts) in Em as (H2 & Hc2 & Hs2 & Hch); [|done|done].
  assert (forall x, (None, add_struct (-1) (free_thread_stack (cpu_at e) s k2)) = (o, x) -> x = k' ->
    match o with Some s => False | None => stinv k' ts None /\ structs k' = structs k end) as Hf.
  { intros x Ex ->. injection Ex as <- <-. split; [by apply struct_stinv, free_stinv|]. simpl. rewrite free_structs. lia. }
  unfold ztrue in E. destruct (Z.eqb_spec err 0) as [->|]; cbn [negb] in E; [|specialize (Hf _ E eq_refl); by destruct o].
  destruct (Z.eqb_spec (arch_err e) 0); cbn [negb] in E; [|specialize (Hf _ E eq_refl); by destruct o].
  destruct (Z.eqb_spec (scs_err e) 0); cbn [negb] in E; [|specialize (Hf _ E eq_refl); by destruct o].
  injection E as <- <-. exists k2. split_and!; try done; [congruence|by apply Hch|lia].
Qed.

Lemma install_stinv k ts s t : stinv k ts (Some s) -> ts !! t = None -> charged k s = npages ->
  stinv (account_kernel_stack 1 k) (<[t := Tsk (Some s) 1 false]> ts) None.
Proof.
  intros Hi Ht Hc. pose proof Hi as [P C U A R]. split; simpl.
  - apply (placed_move _ _ _ _ _ _ _ InHand (InTask t) s P); try done; simpl; [by rewrite Ht|by rewrite lookup_insert_eq|].
    intros l H1 H2. by apply at_insert_task.
  - intros u x s' E1 E2. apply lookup_insert_Some in E1 as [[<- <-]|[_ E1]]; [by simplify_eq/=|by eapply C].
  - intros s' H1 _. apply U; [|intros [= <-]; by apply (H1 t _ (lookup_insert_eq _ _ _))].
    intros u x E. destruct (decide (u = t)) as [->|]; [congruence|]. apply (H1 u). by rewrite lookup_insert_ne.
  - rewrite out_new by done. unfold has_stack. cbn [stack]. lia.
  - intros u x E. apply lookup_insert_Some in E as [[<- <-]|[_ E]]; [simpl; split; [lia|split; [intros _; by eexists|intros _; lia]]|by apply (R u)].
Qed.

(** Only the references and the state of a task change. *)
Lemma same_stack_stinv k ts t x x' : stinv k ts None -> ts !! t = Some x -> stack x' = stack x -> 0 <= stack_refs x' ->
  (0 < stack_refs x' <-> is_Some (stack x)) -> stinv k (<[t := x']> ts) None.
Proof.
  intros [P C U A R] Ht Hs H0 Hr. split; simpl.
  - apply (placed_ext _ _ _ _ _ _ _ P). intros [q|u|]; simpl; try done.
    destruct (decide (u = t)) as [->|]; [by rewrite lookup_insert_eq, Ht|by rewrite lookup_insert_ne].
  - intros u y s' E1 E2. apply lookup_insert_Some in E1 as [[<- <-]|[_ E1]]; [|by eapply C]. rewrite Hs in E2. by eapply C.
  - intros s' H1 H2. apply U; [|done]. intros u y E. destruct (decide (u = t)) as [->|].
    + simplify_eq. rewrite <- Hs. apply (H1 t). by rewrite lookup_insert_eq.
    + apply (H1 u). by rewrite lookup_insert_ne.
  - rewrite (out_update _ x) by done. unfold has_stack. rewrite Hs. lia.
  - intros u y E. apply lookup_insert_Some in E as [[<- <-]|[_ E]]; [by rewrite Hs|by apply (R u)].
Qed.

Lemma release_stinv cpu k ts t x s : stinv k ts None -> ts !! t = Some x -> stack x = Some s ->
  stinv (free_thread_stack cpu s (account_kernel_stack (-1) k)) (<[t := Tsk None 0 true]> ts) None.
Proof.
  intros [P C U A R] Ht Hs. apply free_stinv. split; simpl.
  - apply (placed_move _ _ _ _ _ _ _ (InTask t) InHand s P); try done; simpl; [by rewrite Ht|by rewrite lookup_insert_eq|].
    intros l H1 H2. by apply at_insert_task.
  - intros u y s' E1 E2. apply lookup_insert_Some in E1 as [[<- <-]|[_ E1]]; [done|by eapply C].
  - intros s' H1 H2. apply U; [|done]. intros u y E. destruct (decide (u = t)) as [->|].
    + simplify_eq. rewrite Hs. congruence.
    + apply (H1 u). by rewrite lookup_insert_ne.
  - rewrite (out_update _ x) by done. unfold has_stack. rewrite Hs. cbn [stack]. lia.
  - intros u y E. apply lookup_insert_Some in E as [[<- <-]|[_ E]]; [|by apply (R u)]. simpl. split; [lia|]. split; [lia|by intros [? ?]].
Qed.

Lemma unplug_stinv cpu n : forall i k ts, stinv k ts None -> stinv (free_vm_stack_cache cpu n i k) ts None /\
  structs (free_vm_stack_cache cpu n i k) = structs k.
Proof.
  induction n as [|n IH]; intros i k ts Hi; simpl; [done|]. destruct (cache k !! (cpu, i)) as [s|] eqn:Ec; [|by apply IH].
  match goal with |- stinv (free_vm_stack_cache _ _ _ ?k1) _ _ /\ _ => apply (IH (S i) k1 ts) end.
  pose proof Hi as [P C U A R]. split; try done; simpl.
  apply (placed_drop _ _ _ _ _ _ _ (InCache (cpu, i)) s P); try done; simpl; [by rewrite lookup_delete_eq|].
  intros l Hl. destruct l; simpl; try done. rewrite lookup_delete_ne; congruence.
Qed.

Lemma reap_stinv k ts t x : stinv k ts None -> ts !! t = Some x -> stack_refs x = 0 -> stinv (add_struct (-1) k) (delete t ts) None.
Proof.
  intros [P C U A R] Ht Hr. assert (stack x = None) as Hn.
  { destruct (R t x Ht) as [_ [_ H2]]. destruct (stack x); [|done]. assert (0 < stack_refs x) by (apply H2; by eexists). lia. }
  split; simpl.
  - apply (placed_ext _ _ _ _ _ _ _ P). intros [q|u|]; simpl; try done.
    destruct (decide (u = t)) as [->|]; [by rewrite lookup_delete_eq, Ht; simpl|by rewrite lookup_delete_ne].
  - intros u y s' E1 E2. apply lookup_delete_Some in E1 as [_ E1]. by eapply C.
  - intros s' H1 H2. apply U; [|done]. intros u y E. destruct (decide (u = t)) as [->|]; [simplify_eq; by rewrite Hn|].
    apply (H1 u). by rewrite lookup_delete_ne.
  - rewrite (out_delete _ x) by done. unfold has_stack. rewrite Hn. lia.
  - intros u y E. apply lookup_delete_Some in E as [_ E]. by apply (R u).
Qed.

Definition winv (w : world) : Prop := stinv (ks w) (tasks w) None /\ structs (ks w) = Z.of_nat (size (tasks w)).

Lemma put_stack_winv cpu k ts t x x' k' : winv (World k ts) -> ts !! t = Some x -> 0 < stack_refs x ->
  (stack_refs x = 1 -> is_dead x = true) -> put_task_stack cpu x k = (x', k') -> winv (World k' (<[t := x']> ts)).
Proof.
  intros [Hi Hs] Ht Hr Hd E. unfold winv. cbn [ks tasks] in *. rewrite map_size_insert_Some by by eexists.
  unfold put_task_stack in E. cbn [stack_refs] in E. destruct (i_refs _ _ _ Hi t x Ht) as [_ Hst].
  destruct (proj1 Hst Hr) as [s Es]. destruct (Z.eqb_spec (stack_refs x - 1) 0) as [H0|Hn].
  - unfold release_task_stack in E. cbn [is_dead stack stack_refs] in E. rewrite Hd, Es in E by lia. cbn [negb] in E.
    rewrite H0 in E. injection E as <- <-. split; [by eapply release_stinv|]. by rewrite free_structs.
  - injection E as <- <-. split; [|done]. eapply same_stack_stinv; [done|done|done|simpl; lia|]. simpl. rewrite Es.
    split; [by eexists|lia].
Qed.

Lemma sstep_winv w w' : winv w -> sstep w w' -> winv w'.
Proof.
  intros HI Hst. destruct Hst as [e t k ts s k' Ht Hv He E|e k ts k' Hv He E|t x s k ts Ht Hs|t x k ts Ht Hr|t x k ts Ht|t x cpu k ts x' k' Ht Hr Hd E
    |t x k ts Ht Hr|cpu k ts]; try (by eapply put_stack_winv); destruct HI as [Hi Hs0]; unfold winv; cbn [ks tasks] in *.
  - apply (dup_stinv _ _ ts) in E as (k1 & -> & H1 & _ & Hc & Hk); [|done|done|done]. split; [by apply install_stinv|].
    rewrite map_size_insert_None by done. simpl. lia.
  - apply (dup_stinv _ _ ts) in E as [H1 Hk]; [|done|done|done]. split; [done|congruence].
  - destruct Hi as [P C U A R]. by split.
  - rewrite map_size_insert_Some by by eexists. split; [|done]. destruct (i_refs _ _ _ Hi t x Ht) as [_ H1].
    eapply same_stack_stinv; [done|done|done|simpl; lia|]. simpl. split; [intros _; by apply H1|intros Hx; apply H1 in Hx; lia].
  - rewrite map_size_insert_Some by by eexists. split; [|done]. destruct (i_refs _ _ _ Hi t x Ht) as [H0 H1].
    by eapply same_stack_stinv.
  - split; [by eapply reap_stinv|]. rewrite map_size_delete_Some by by eexists. simpl.
    assert (size ts <> 0%nat) by (intros Hz; apply map_size_empty_inv in Hz; by simplify_map_eq). lia.
  - destruct (unplug_stinv cpu NR_CACHED_STACKS 0 k ts Hi) as [H1 H2]. split; [done|congruence].
Qed.

(** (C28) Kernel stacks: however tasks are forked, fail to be forked, run, exit, have their
    stack pinned and are reaped, with processors coming and going, a stack is with one task
    or in one cache slot and nowhere else, none is lost, the pages of the stacks of tasks are
    all charged and no others, the statistics count them; and a task that is forked gets a
    stack of its own with nothing of an earlier task in it, and a failed fork changes none of
    this. *)
Theorem stacks_exclusive w :
  rtc sstep (World (KSt ∅ ∅ (fun _ => 0) (fun _ => false) 0 0) ∅) w ->
  placed (cache (ks w)) (live (ks w)) (tasks w) None /\
  (forall t x s, tasks w !! t = Some x -> stack x = Some s -> charged (ks w) s = npages) /\
  (forall s, (forall t x, tasks w !! t = Some x -> stack x <> Some s) -> charged (ks w) s = 0) /\
  accounted (ks w) = stacks_out (tasks w) /\ structs (ks w) = Z.of_nat (size (tasks w)) /\
  (forall e s k', (forall v, vmalloc e = Some v -> v ∉ live (ks w)) -> (charge_pages e < npages -> charge_err e <> 0) ->
     dup_task_struct e (ks w) = (Some s, k') ->
     clean k' s = true /\ forall t x, tasks w !! t = Some x -> stack x <> Some s).
Proof.
  intros Hr. assert (winv w) as [Hi Hs].
  { revert w Hr. apply (rtc_ind_r winv); [|intros ? ? _ Hst IH; by eapply sstep_winv]. split; [|done].
    split; try done. split; [|by intros [?|?|] l' s Hs; simpl in Hs; rewrite ?lookup_empty in Hs].
    intros s. split; [set_solver|]. intros [[?|?|] Hs]; simpl in Hs; by rewrite ?lookup_empty in Hs. }
  pose proof Hi as [P C U A R]. split_and!; try done.
  - intros s H. by apply U.
  - intros e s k' Hv He E. apply (dup_stinv _ _ (tasks w)) in E as (k1 & -> & H1 & H2 & _); [|done|done|done].
    split; [done|]. intros t x Ht. by eapply hand_not_task.
Qed.
End Stacks.

(** A task takes a new stack, exits, and the next task gets it back from the cache. *)
Definition e1 (v : option Z) : tenv := TEnv true v 4 0 0 0 (fun _ => 0).
Definition w0 : world := World (KSt ∅ ∅ (fun _ => 0) (fun _ => false) 0 0) ∅.
Lemma stacks_exclusive_witness : exists w, rtc (sstep 4) w0 w /\ accounted (ks w) = 0 /\
  (dup_task_struct 4 (e1 None) (ks w)).1 = Some 7 /\ accounted (ks w) = stacks_out (tasks w).
Proof.
  assert (exists w, rtc (sstep 4) w0 w /\ accounted (ks w) = 0 /\ (dup_task_struct 4 (e1 None) (ks w)).1 = Some 7) as (w & H & H1 & H2).
  { eexists. split.
    { eapply rtc_l; [eapply (s_fork 4 (e1 (Some 7)) 1 _ _ 7); [done|set_solver|simpl; lia|reflexivity]|].
      eapply rtc_l; [eapply (s_run 4 1 _ 7); [by rewrite lookup_insert_eq|done]|].
      eapply rtc_l; [eapply (s_exit 4 1); by rewrite lookup_insert_eq|].
      eapply rtc_l; [eapply (s_put 4 1 _ (fun _ => 0)); [by rewrite lookup_insert_eq|simpl; lia|done|reflexivity]|]. apply rtc_refl. }
    split; [done|vm_compute; reflexivity]. }
  exists w. split; [exact H|]. split; [exact H1|]. split; [exact H2|]. apply (stacks_exclusive 4 w H).
Defined.
End Stacks.

(** ** The limit of threads *)
Module Limits.

Definition MIN_THREADS : Z := 20.
Definition MAX_THREADS : Z := 0x3fffffff.

Section Limits.
(** The sizes of a page and of a stack, and the position of the highest bit. *)
Context (PAGE_SIZE THREAD_SIZE : Z) (fls64 : Z -> Z).

Definition set_max_threads (nr_pages max_threads_suggested : Z) : Z :=
  let threads :=
    if 64 <? fls64 nr_pages + fls64 PAGE_SIZE then MAX_THREADS
    else wrapu 64 (nr_pages * PAGE_SIZE) / wrapu 64 (THREAD_SIZE * 8) in
  let threads := if max_threads_suggested <? threads then max_threads_suggested else threads in
  Z.min (Z.max threads MIN_THREADS) MAX_THREADS.

(** sysctl_max_threads: [parsed] is the result of proc_dointvec_minmax with the bounds 1 and
    MAX_THREADS, and the number it stored. *)
Definition sysctl_max_threads (write : bool) (parsed : Z * Z) (max_threads : Z) : Z * Z :=
  let '(ret, threads) := parsed in
  if ztrue ret || negb write then (ret, max_threads) else (0, threads).

Context (Hfls : forall x, 0 <= x < 2 ^ 64 -> 0 <= fls64 x /\ x < 2 ^ fls64 x).
Context (Hpage : 0 < PAGE_SIZE < 2 ^ 64) (Hthread : 0 < THREAD_SIZE < 2 ^ 60).

(** The limit of threads is between its two constants and at most what was asked for
    (unless that is below the minimum); the product of pages and page size it computes does
    not overflow, for any memory size; the stacks of so many threads take at most an eighth
    of the memory, unless that is below the minimum; and the sysctl keeps it in its range. *)
Theorem max_threads_bounded nr_pages suggested :
  0 <= nr_pages < 2 ^ 64 -> 0 <= suggested < 2 ^ 32 ->
  let m := set_max_threads nr_pages suggested in
  MIN_THREADS <= m <= MAX_THREADS /\ m <= Z.max MIN_THREADS suggested /\
  (fls64 nr_pages + fls64 PAGE_SIZE <= 64 -> m = MIN_THREADS \/ m * THREAD_SIZE * 8 <= nr_pages * PAGE_SIZE) /\
  forall write ret threads, (ret = 0 -> write = true -> 1 <= threads <= MAX_THREADS) ->
    1 <= (sysctl_max_threads write (ret, threads) m).2 <= MAX_THREADS.
Proof.
  intros Hn Hs m. unfold m, set_max_threads.
  assert (forall w r t x, MIN_THREADS <= x <= MAX_THREADS -> (r = 0 -> w = true -> 1 <= t <= MAX_THREADS) ->
    1 <= (sysctl_max_threads w (r, t) x).2 <= MAX_THREADS) as Hsys.
  { intros w r t x Hx Ht. unfold sysctl_max_threads, ztrue. destruct (Z.eqb_spec r 0), w; simpl; try (by apply Ht);
      unfold MIN_THREADS, MAX_THREADS in *; lia. }
  set (th := if 64 <? _ then _ else _).
  assert (0 <= th) as H0.
  { unfold th. destruct (64 <? _); [unfold MAX_THREADS; lia|].
    apply Z.div_pos; [apply Z.mod_pos_bound; lia|]. unfold wrapu. rewrite Z.mod_small by lia. lia. }
  split_and!; try (unfold MIN_THREADS, MAX_THREADS in *; destruct (suggested <? th) eqn:E; bool_prop; lia).
  - intros Hf. assert (th * (THREAD_SIZE * 8) <= nr_pages * PAGE_SIZE) as Hm.
    { unfold th. destruct (Z.ltb_spec 64 (fls64 nr_pages + fls64 PAGE_SIZE)); [lia|].
      destruct (Hfls nr_pages Hn) as [F1 F2], (Hfls PAGE_SIZE ltac:(lia)) as [F3 F4].
      assert (nr_pages * PAGE_SIZE < 2 ^ 64) as Hlt.
      { apply Z.lt_le_trans with (2 ^ (fls64 nr_pages + fls64 PAGE_SIZE)); [rewrite Z.pow_add_r by done; nia|].
        apply Z.pow_le_mono_r; lia. }
      unfold wrapu. rewrite (Z.mod_small (THREAD_SIZE * 8)) by lia. rewrite Z.mod_small by nia.
      rewrite Z.mul_comm. apply Z.mul_div_le. lia. }
    set (t := if suggested <? th then suggested else th).
    assert (t * (THREAD_SIZE * 8) <= nr_pages * PAGE_SIZE) as Ht
      by (unfold t; destruct (Z.ltb_spec suggested th); [nia|done]).
    destruct (Z.le_gt_cases t MIN_THREADS); [left; unfold MIN_THREADS, MAX_THREADS in *; lia|right].
    assert (Z.min (Z.max t MIN_THREADS) MAX_THREADS <= t) by lia. nia.
  - intros w r t Ht. apply Hsys; [|done]. unfold MIN_THREADS, MAX_THREADS. lia.
Qed.
End Limits.

Definition fls0 (x : Z) : Z := if x =? 0 then 0 else Z.log2 x + 1.
Lemma fls0_bound x : 0 <= x < 2 ^ 64 -> 0 <= fls0 x /\ x < 2 ^ fls0 x.
Proof.
  intros Hx. unfold fls0. destruct (Z.eqb_spec x 0) as [->|]; [done|]. split; [pose proof (Z.log2_nonneg x); lia|].
  rewrite Z.add_1_r. apply Z.log2_spec. lia.
Qed.
Lemma max_threads_bounded_witness :
  set_max_threads 4096 16384 fls0 262144 0x3fffffff = 8192 /\
  MIN_THREADS <= set_max_threads 4096 16384 fls0 262144 0x3fffffff <= MAX_THREADS.
Proof.
  split; [vm_compute; reflexivity|].
  apply (max_threads_bounded 4096 16384 fls0 fls0_bound ltac:(lia) ltac:(lia) 262144 0x3fffffff); lia.
Defined.
End Limits.

(** ** walk_process_tree *)
Module Walk.
Section Walk.
(** The process tree: the threads of a group leader, the children of a thread; and the
    visitor, which may stop the walk (a negative result), descend (positive) or go on. *)
Context {D : Type} (threads children : Z -> list Z) (real_parent group_leader : Z -> Z).
Context (visitor : Z -> D -> Z * D).

(** The rest of a list after an element: where an iteration over it goes on. *)
Fixpoint after (x : Z) (l : list Z) : list Z :=
  match l with [] => [] | y :: l => if y =? x then l else after x l end.

(** A point of the walk: the leader, the threads of it and the children of the current thread
    that are still to come. *)
Definition point : Type := Z * list Z * list Z * D.

(** One step: a child visited, the next thread, or (after the last thread, at [up]) back to
    the place after the leader in the lists of its parent; the data at the end. *)
Definition step (top : Z) (s : point) : point + D :=
  let '(leader, ths, cs, d) := s in
  match cs with
  | child :: cs =>
      let '(res, d) := visitor child d in
      if res =? 0 then inl (leader, ths, cs, d)
      else if res <? 0 then inr d
      else inl (child, threads child, [], d)
  | [] =>
      match ths with
      | parent :: ths => inl (leader, ths, children parent, d)
      | [] =>
          if leader =? top then inr d
          else
            let child := leader in
            let parent := real_parent child in
            let leader := group_leader parent in
            inl (leader, after parent (threads leader), after child (children parent), d)
      end
  end.
Fixpoint walk (fuel : nat) (top : Z) (s : point) : option D :=
  match fuel with
  | O => None
  | S fuel => match step top s with inl s => walk fuel top s | inr d => Some d end
  end.
Definition walk_process_tree (fuel : nat) (top : Z) (d : D) : option D :=
  let top := group_leader top in walk fuel top (top, threads top, [], d).

(** The walk as a recursion: the children of all threads in order, each visited before its own
    children; [true] stops everything. *)
Fixpoint scan (rec : Z -> D -> bool * D) (l : list Z) (d : D) : bool * D :=
  match l with
  | [] => (false, d)
  | c :: l =>
      let '(res, d) := visitor c d in
      if res =? 0 then scan rec l d
      else if res <? 0 then (true, d)
      else let '(stop, d) := rec c d in if stop then (true, d) else scan rec l d
  end.
Fixpoint scan_threads (rec : Z -> D -> bool * D) (l : list Z) (d : D) : bool * D :=
  match l with
  | [] => (false, d)
  | p :: l => let '(stop, d) := scan rec (children p) d in if stop then (true, d) else scan_threads rec l d
  end.
Fixpoint preorder (n : nat) (leader : Z) (d : D) : bool * D :=
  match n with O => (false, d) | S n => scan_threads (preorder n) (threads leader) d end.

(** ** The two agree *)

(** A process tree: threads know their leader, children their parent and are leaders, no list
    has an element twice, and the tree is finite. *)
Context (rank : Z -> nat).
Context (Hleader : forall t, group_leader (group_leader t) = group_leader t).
Context (Hthread : forall l p, group_leader l = l -> p ∈ threads l -> group_leader p = l).
Context (Hchild : forall p c, c ∈ children p -> real_parent c = p /\ group_leader c = c).
Context (Hthreads : forall l, NoDup (threads l)) (Hchildren : forall p, NoDup (children p)).
Context (Hrank : forall l p c, group_leader l = l -> p ∈ threads l -> c ∈ children p -> (rank c < rank l)%nat).

Context (top : Z).

(** The walk from one point takes the steps to another, or ends. *)
Definition leads (s s' : point) : Prop := exists k, forall f, walk (k + f) top s = walk f top s'.
Definition ends (s : point) (d : D) : Prop := exists k, forall f, walk (k + f) top s = Some d.
Definition goes (s : point) (r : bool * D) (s' : D -> point) : Prop :=
  if r.1 then ends s r.2 else leads s (s' r.2).

Lemma leads_refl s : leads s s.
Proof. by exists O. Qed.
Lemma leads_step s s' : step top s = inl s' -> leads s s'.
Proof. intros E. exists 1%nat. intros f. simpl. by rewrite E. Qed.
Lemma leads_trans s1 s2 s3 : leads s1 s2 -> leads s2 s3 -> leads s1 s3.
Proof. intros [k1 H1] [k2 H2]. exists (k1 + k2)%nat. intros f. by rewrite <- Nat.add_assoc, H1, H2. Qed.
Lemma leads_ends s1 s2 d : leads s1 s2 -> ends s2 d -> ends s1 d.
Proof. intros [k1 H1] [k2 H2]. exists (k1 + k2)%nat. intros f. by rewrite <- Nat.add_assoc, H1, H2. Qed.
Lemma leads_goes s1 s2 r f : leads s1 s2 -> goes s2 r f -> goes s1 r f.
Proof. unfold goes. destruct r as [[] d]; simpl; [apply leads_ends|apply leads_trans]. Qed.

Lemma after_at x l1 l2 : NoDup (l1 ++ x :: l2) -> after x (l1 ++ x :: l2) = l2.
Proof.
  induction l1 as [|y l1 IH]; simpl; [by rewrite Z.eqb_refl|]. rewrite NoDup_cons. intros [Hn Hd].
  destruct (Z.eqb_spec y x) as [->|]; [|by apply IH]. destruct Hn. rewrite elem_of_app, elem_of_cons. tauto.
Qed.

(** A visited child is walked as the recursion does, and the walk comes back behind it. *)
Definition sub_ok (n : nat) : Prop := forall l d, group_leader l = l -> (rank l < n)%nat -> (rank l <= rank top)%nat ->
  goes (l, threads l, [], d) (preorder n l d) (fun d => (l, [], [], d)).

Lemma scan_goes n l p ths tpre : sub_ok n -> group_leader l = l -> (rank l < S n)%nat -> (rank l <= rank top)%nat ->
  threads l = tpre ++ p :: ths -> forall cs cpre d, children p = cpre ++ cs ->
  goes (l, ths, cs, d) (scan (preorder n) cs d) (fun d => (l, ths, [], d)).
Proof.
  intros Hsub Hl Hr Htop Et cs. induction cs as [|c cs IH]; intros cpre d Ec; [apply leads_refl|].
  assert (c ∈ children p) as Hc by (rewrite Ec; apply elem_of_app; right; by left).
  assert (p ∈ threads l) as Hp by (rewrite Et; apply elem_of_app; right; by left).
  destruct (Hchild p c Hc) as [Hpar Hcl]. pose proof (Hrank l p c Hl Hp Hc) as Hrc.
  assert (children p = (cpre ++ [c]) ++ cs) as Ec2 by by rewrite <- app_assoc.
  cbn [scan]. destruct (visitor c d) as [res d1] eqn:Ev.
  destruct (Z.eqb_spec res 0) as [->|Hres].
  { eapply leads_goes; [|by eapply IH]. apply leads_step. simpl. by rewrite Ev. }
  destruct (Z.ltb_spec res 0) as [Hneg|Hpos].
  { exists 1%nat. intros f. simpl. rewrite Ev. destruct (Z.eqb_spec res 0); [done|]. by destruct (Z.ltb_spec res 0); [|lia]. }
  assert (leads (l, ths, c :: cs, d) (c, threads c, [], d1)) as Hdown.
  { apply leads_step. simpl. rewrite Ev. destruct (Z.eqb_spec res 0); [done|]. by destruct (Z.ltb_spec res 0); [lia|]. }
  pose proof (Hsub c d1 Hcl ltac:(lia) ltac:(lia)) as Hgo. destruct (preorder n c d1) as [[] d2]; unfold goes in Hgo; simpl in Hgo.
  { by eapply leads_ends. }
  eapply leads_goes; [|by eapply IH]. eapply leads_trans; [exact Hdown|]. eapply leads_trans; [exact Hgo|].
  apply leads_step. simpl. destruct (Z.eqb_spec c top) as [->|]; [lia|].
  rewrite Hpar, (Hthread l p Hl Hp), Et, Ec, !after_at; [done| |]; [rewrite <- Ec; apply Hchildren|rewrite <- Et; apply Hthreads].
Qed.

Lemma threads_goes n l : sub_ok n -> group_leader l = l -> (rank l < S n)%nat -> (rank l <= rank top)%nat ->
  forall ths tpre d, threads l = tpre ++ ths -> goes (l, ths, [], d) (scan_threads (preorder n) ths d) (fun d => (l, [], [], d)).
Proof.
  intros Hsub Hl Hr Htop ths. induction ths as [|p ths IH]; intros tpre d Et; [apply leads_refl|].
  eapply leads_goes; [by apply leads_step|]. cbn [scan_threads].
  pose proof (scan_goes n l p ths tpre Hsub Hl Hr Htop Et (children p) [] d eq_refl) as Hs.
  destruct (scan (preorder n) (children p) d) as [[] d1]; unfold goes in Hs; simpl in Hs; [done|].
  eapply leads_goes; [exact Hs|]. apply (IH (tpre ++ [p])). by rewrite <- app_assoc.
Qed.

Lemma sub_ok_all n : sub_ok n.
Proof.
  induction n as [|n IH]; intros l d Hl Hr Htop; [lia|]. cbn [preorder]. by apply (threads_goes n l IH Hl Hr Htop _ []).
Qed.

Lemma walk_agrees d : group_leader top = top ->
  ends (top, threads top, [], d) (preorder (S (rank top)) top d).2.
Proof.
  intros Ht. pose proof (sub_ok_all (S (rank top)) top d Ht ltac:(lia) ltac:(lia)) as Hg.
  destruct (preorder (S (rank top)) top d) as [[] d1]; unfold goes in Hg; simpl in Hg; [done|].
  eapply leads_ends; [exact Hg|]. exists 1%nat. intros f. simpl. by rewrite Z.eqb_refl.
Qed.
End Walk.

(** (C32) walk_process_tree, which goes through the process tree by its pointers alone, without
    a stack, ends, and visits exactly what the recursion visits, in its order and with its
    data: every child of every thread of the group before its descendants, descending only
    where the visitor says so and stopping where it says so. *)
Theorem walk_process_tree_agrees {D} threads children real_parent group_leader (visitor : Z -> D -> Z * D) rank t d :
  (forall t, group_leader (group_leader t) = group_leader t) ->
  (forall l p, group_leader l = l -> p ∈ threads l -> group_leader p = l) ->
  (forall p c, c ∈ children p -> real_parent c = p /\ group_leader c = c) ->
  (forall l, NoDup (threads l)) -> (forall p, NoDup (children p)) ->
  (forall l p c, group_leader l = l -> p ∈ threads l -> c ∈ children p -> (rank c < rank l)%nat) ->
  exists fuel, forall more, walk_process_tree threads children real_parent group_leader visitor (fuel + more) t d =
    Some (preorder threads children visitor (S (rank (group_leader t))) (group_leader t) d).2.
Proof.
  intros H1 H2 H3 H4 H5 H6. unfold walk_process_tree.
  by apply (walk_agrees threads children real_parent group_leader visitor rank H2 H3 H4 H5 H6).
Qed.

(** Process 1 with threads 1 and 2; 3 is a child of 1, 4 of 2, and 5 of 3. *)
Definition threads0 (l : Z) : list Z := if l =? 1 then [1; 2] else if (3 <=? l) && (l <=? 5) then [l] else [].
Definition children0 (p : Z) : list Z := if p =? 1 then [3] else if p =? 2 then [4] else if p =? 3 then [5] else [].
Definition parent0 (c : Z) : Z := if c =? 3 then 1 else if c =? 4 then 2 else if c =? 5 then 3 else 0.
Definition leader0 (t : Z) : Z := if t =? 2 then 1 else t.
Definition rank0 (t : Z) : nat := if t =? 1 then 3 else if t =? 3 then 2 else 1.
Definition record_all (c : Z) (d : list Z) : Z * list Z := (1, d ++ [c]).
Lemma walk_process_tree_agrees_witness :
  walk_process_tree threads0 children0 parent0 leader0 record_all 20 2 [] = Some [3; 5; 4] /\
  exists fuel, forall more, walk_process_tree threads0 children0 parent0 leader0 record_all (fuel + more) 2 [] =
    Some (preorder threads0 children0 record_all (S (rank0 (leader0 2))) (leader0 2) []).2.
Proof.
  split; [vm_compute; reflexivity|]. apply walk_process_tree_agrees.
  - intros t. unfold leader0. destruct (Z.eqb_spec t 2); [done|]. by destruct (Z.eqb_spec t 2).
  - intros l p. unfold leader0, threads0. intros Hl. repeat case_match; bool_prop; subst; set_solver by lia.
  - intros p c. unfold children0, parent0, leader0. repeat case_match; bool_prop; subst; rewrite ?elem_of_cons, ?elem_of_nil; intros; naive_solver lia.
  - intros l. unfold threads0. repeat case_match; repeat constructor; set_solver by lia.
  - intros p. unfold children0. repeat case_match; repeat constructor; set_solver by lia.
  - intros l p c. unfold leader0, threads0, children0, rank0. intros Hl Hp Hc.
    repeat case_match; bool_prop; subst; rewrite ?elem_of_cons, ?elem_of_nil in *; naive_solver lia.
Defined.
End Walk.

Module Release.

(** A task structure: its references, its signal structure until that is put, PF_KTHREAD.  A
    signal structure: its tasks, and the address space noted for the out-of-memory killer. *)
Record ptask := PTask { usage : Z; sig : option Z; is_kthread : bool }.
Record psig := PSig { sigcnt : Z; oom_mm : option Z }.
(** [mm_grabs] and [mm_drops] count the references to an address space that the killer took
    and that were dropped; [kthreads] the kthread structures in use. *)
Record pworld := PWorld {
  ptasks : gmap Z ptask; psigs : gmap Z psig; mm_grabs : Z -> Z; mm_drops : Z -> Z; kthreads : Z
}.
Definition bump (m : option Z) (f : Z -> Z) : Z -> Z :=
  fun x => f x + (if decide (m = Some x) then 1 else 0).
Definition set_sigs (s : gmap Z psig) (w : pworld) : pworld := PWorld (ptasks w) s (mm_grabs w) (mm_drops w) (kthreads w).
Definition set_tasks (t : gmap Z ptask) (w : pworld) : pworld := PWorld t (psigs w) (mm_grabs w) (mm_drops w) (kthreads w).

(** free_signal_struct; mmdrop_async drops the reference. *)
Definition free_signal_struct (s : Z) (x : psig) (w : pworld) : pworld :=
  PWorld (ptasks w) (delete s (psigs w)) (mm_grabs w) (bump (oom_mm x) (mm_drops w)) (kthreads w).
(** [None]: a structure that does not exist. *)
Definition put_signal_struct (s : Z) (w : pworld) : option pworld :=
  x ← psigs w !! s;
  let x := PSig (sigcnt x - 1) (oom_mm x) in
  Some (if sigcnt x =? 0 then free_signal_struct s x w else set_sigs (<[s := x]> (psigs w)) w).
Definition free_task (t : Z) (w : pworld) : option pworld :=
  x ← ptasks w !! t;
  Some (PWorld (delete t (ptasks w)) (psigs w) (mm_grabs w) (mm_drops w) (if is_kthread x then kthreads w - 1 else kthreads w)).
(** [handoff]: profile_handoff_task takes the task and frees it later. *)
Definition __put_task_struct (handoff : bool) (t : Z) (w : pworld) : option pworld :=
  x ← ptasks w !! t;
  s ← sig x;
  w ← put_signal_struct s w;
  let w := set_tasks (<[t := PTask (usage x) None (is_kthread x)]> (ptasks w)) w in
  if handoff then Some w else free_task t w.
(** put_task_struct: drop one reference; the last one leads to __put_task_struct. *)
Definition put_task (handoff : bool) (t : Z) (w : pworld) : option pworld :=
  x ← ptasks w !! t;
  let w := set_tasks (<[t := PTask (usage x - 1) (sig x) (is_kthread x)]> (ptasks w)) w in
  if usage x - 1 =? 0 then __put_task_struct handoff t w else Some w.

(** New processes and threads (copy_signal makes the structure, the publication of a thread
    takes a reference to it), references, the out-of-memory killer noting an address space. *)
Inductive pstep : pworld -> pworld -> Prop :=
| p_process t s k w : ptasks w !! t = None -> psigs w !! s = None ->
    pstep w (PWorld (<[t := PTask 1 (Some s) k]> (ptasks w)) (<[s := PSig 1 None]> (psigs w)) (mm_grabs w) (mm_drops w)
               (if k then kthreads w + 1 else kthreads w))
| p_thread t p s x y w : ptasks w !! t = None -> ptasks w !! p = Some x -> sig x = Some s -> psigs w !! s = Some y ->
    pstep w (set_sigs (<[s := PSig (sigcnt y + 1) (oom_mm y)]> (psigs w)) (set_tasks (<[t := PTask 1 (Some s) false]> (ptasks w)) w))
| p_get t x w : ptasks w !! t = Some x -> 0 < usage x ->
    pstep w (set_tasks (<[t := PTask (usage x + 1) (sig x) (is_kthread x)]> (ptasks w)) w)
| p_put handoff t x w w' : ptasks w !! t = Some x -> 0 < usage x -> put_task handoff t w = Some w' -> pstep w w'
| p_profiled t x w w' : ptasks w !! t = Some x -> usage x = 0 -> free_task t w = Some w' -> pstep w w'
| p_oom t s x y m w : ptasks w !! t = Some x -> sig x = Some s -> psigs w !! s = Some y -> oom_mm y = None ->
    pstep w (PWorld (ptasks w) (<[s := PSig (sigcnt y) (Some m)]> (psigs w)) (bump (Some m) (mm_grabs w)) (mm_drops w) (kthreads w)).

(** The tasks of a signal structure, and the structures that note an address space. *)
Definition members (s : Z) (m : gmap Z ptask) : Z := countm (fun x => sig x = Some s) m.
Definition noting (v : Z) (m : gmap Z psig) : Z := countm (fun y => oom_mm y = Some v) m.
Record pinv (w : pworld) : Prop := PInv {
  pi_usage : forall t x, ptasks w !! t = Some x -> 0 <= usage x /\ (usage x = 0 <-> sig x = None);
  pi_sig : forall t x s, ptasks w !! t = Some x -> sig x = Some s -> is_Some (psigs w !! s);
  pi_cnt : forall s y, psigs w !! s = Some y -> sigcnt y = members s (ptasks w) /\ 0 < sigcnt y;
  pi_mm : forall v, mm_grabs w v = mm_drops w v + noting v (psigs w);
  pi_kthr : kthreads w = countm (fun x => is_kthread x = true) (ptasks w)
}.

Ltac count_solve := unfold members, noting in *;
  repeat first [rewrite countm_insert by done | erewrite countm_update by done | erewrite countm_delete by done];
  repeat case_decide; simpl in *; try congruence; try lia.

Lemma pinv_process t s k w : ptasks w !! t = None -> psigs w !! s = None -> pinv w ->
  pinv (PWorld (<[t := PTask 1 (Some s) k]> (ptasks w)) (<[s := PSig 1 None]> (psigs w)) (mm_grabs w) (mm_drops w)
          (if k then kthreads w + 1 else kthreads w)).
Proof.
  intros Ht Hs [I1 I2 I3 I4 I5].
  assert (members s (ptasks w) = 0) as Hz.
  { pose proof (countm_nonneg (fun x => sig x = Some s) (ptasks w)). unfold members.
    destruct (decide (filter (fun kx => sig kx.2 = Some s) (ptasks w) = ∅)) as [E|E]; [unfold countm; by rewrite E|].
    apply map_choose in E as (i & x & Hx). apply map_lookup_filter_Some in Hx as [Hx Hp].
    destruct (I2 i x s Hx Hp) as [y Hy]. congruence. }
  split; cbn [ptasks psigs mm_grabs mm_drops kthreads].
  - intros i x [[<- <-]|[_ Hx]]%lookup_insert_Some; [simpl; lia || (split; [lia|]; split; [lia|done])|by eapply I1].
  - intros i x v [[<- <-]|[_ Hx]]%lookup_insert_Some Hv; simpl in Hv; apply lookup_insert_is_Some';
      [left; congruence|right; by eapply I2].
  - intros v y [[<- <-]|[Hne Hy]]%lookup_insert_Some; simpl.
    + rewrite <- (Z.add_0_l 1) at 1. rewrite <- Hz. count_solve.
    + destruct (I3 v y Hy) as [H1 H2]. rewrite H1. count_solve.
  - intros v. rewrite I4. count_solve.
  - rewrite I5. destruct k; count_solve.
Qed.

(** The last reference of a task of [s] goes: its entry is deleted, or has no signal left. *)
Lemma pinv_last t x s y w tasks k : pinv w -> ptasks w !! t = Some x -> sig x = Some s -> psigs w !! s = Some y ->
  (forall i z, tasks !! i = Some z -> (ptasks w !! i = Some z /\ i <> t) \/ (usage z = 0 /\ sig z = None)) ->
  (forall v, members v tasks = members v (ptasks w) - (if decide (v = s) then 1 else 0)) ->
  k = countm (fun x => is_kthread x = true) tasks ->
  pinv (let y := PSig (sigcnt y - 1) (oom_mm y) in
        if sigcnt y =? 0 then PWorld tasks (delete s (psigs w)) (mm_grabs w) (bump (oom_mm y) (mm_drops w)) k
        else PWorld tasks (<[s := y]> (psigs w)) (mm_grabs w) (mm_drops w) k).
Proof.
  intros [I1 I2 I3 I4 I5] Ht Hx Hs Hold Hmem Hk. cbn zeta. cbn [sigcnt oom_mm]. destruct (I3 s y Hs) as [H1 H2].
  assert (forall i z v, tasks !! i = Some z -> sig z = Some v -> 0 < members v tasks /\ is_Some (psigs w !! v)) as Hin.
  { intros i z v Hz Hv. split; [by apply (countm_pos _ i z)|].
    destruct (Hold i z Hz) as [[Hz' _]|[_ Hn]]; [by eapply I2|congruence]. }
  assert (forall i z, tasks !! i = Some z -> 0 <= usage z /\ (usage z = 0 <-> sig z = None)) as Hus.
  { intros i z Hz. destruct (Hold i z Hz) as [[Hz' _]|[Hu Hn]]; [by eapply I1|]. rewrite Hu. split; [lia|done]. }
  destruct (Z.eqb_spec (sigcnt y - 1) 0) as [Hz|Hz]; split; cbn [ptasks psigs mm_grabs mm_drops kthreads]; try done.
  - intros i z v Hi Hv. destruct (Hin i z v Hi Hv) as [Hp Hsv]. rewrite Hmem in Hp.
    destruct (decide (v = s)) as [->|]; [lia|]. by rewrite lookup_delete_ne.
  - intros v z [Hne Hv]%lookup_delete_Some. destruct (I3 v z Hv). rewrite Hmem, decide_False by done. lia.
  - intros v. unfold bump. rewrite I4. count_solve.
  - intros i z v Hi Hv. apply lookup_insert_is_Some'. right. by eapply Hin.
  - intros v z [[<- <-]|[Hne Hv]]%lookup_insert_Some; rewrite Hmem; simpl.
    + rewrite decide_True by done. lia.
    + destruct (I3 v z Hv). rewrite decide_False by done. lia.
  - intros v. rewrite I4. count_solve.
Qed.

Lemma pinv_put handoff t x w : pinv w -> ptasks w !! t = Some x -> 0 < usage x ->
  exists w', put_task handoff t w = Some w' /\ pinv w'.
Proof.
  intros I Ht Hu. pose proof I as [I1 I2 I3 I4 I5]. unfold put_task. rewrite Ht. cbn [mbind option_bind].
  destruct (Z.eqb_spec (usage x - 1) 0) as [Hz|Hz]; cycle 1.
  { eexists. split; [done|]. destruct (I1 t x Ht) as [_ Hiff]. split; cbn [set_tasks ptasks psigs mm_grabs mm_drops kthreads]; try done.
    - intros i z [[<- <-]|[_ Hi]]%lookup_insert_Some; [|by eapply I1]. simpl. split; [lia|]. rewrite <- Hiff. lia.
    - intros i z v [[<- <-]|[_ Hi]]%lookup_insert_Some; [simpl; by eapply I2|by eapply I2].
    - intros v y Hy. destruct (I3 v y Hy) as [H1 H2]. split; [|done]. rewrite H1. count_solve.
    - rewrite I5. count_solve. }
  destruct (I1 t x Ht) as [_ Hiff]. destruct (sig x) as [s|] eqn:Es; [|destruct Hiff as [_ Hn]; specialize (Hn eq_refl); lia].
  destruct (I2 t x s Ht Es) as [y Hy]. unfold __put_task_struct. cbn [set_tasks ptasks]. rewrite lookup_insert_eq. cbn [mbind option_bind sig].
  unfold put_signal_struct. cbn [set_tasks psigs]. rewrite Hy. cbn [mbind option_bind].
  set (z := PTask (usage x - 1) None (is_kthread x)).
  assert (forall T k, (T = <[t := z]> (ptasks w) /\ k = kthreads w) \/ (T = delete t (ptasks w) /\ k = if is_kthread x then kthreads w - 1 else kthreads w) ->
    pinv (let y := PSig (sigcnt y - 1) (oom_mm y) in
        if sigcnt y =? 0 then PWorld T (delete s (psigs w)) (mm_grabs w) (bump (oom_mm y) (mm_drops w)) k
        else PWorld T (<[s := y]> (psigs w)) (mm_grabs w) (mm_drops w) k)) as Hfin.
  { intros T k HT. apply (pinv_last t x); try done; destruct HT as [[-> ->]|[-> ->]].
    - intros i c [[<- <-]|[Hne Hi]]%lookup_insert_Some; [by right|by left].
    - intros i c [Hne Hi]%lookup_delete_Some. by left.
    - intros v. count_solve.
    - intros v. count_solve.
    - rewrite I5. subst z. count_solve.
    - rewrite I5. destruct (is_kthread x) eqn:?; count_solve. }
  destruct handoff; [|unfold free_task]; cbn zeta in *; cbn [sigcnt oom_mm] in *.
  - eexists. split; [done|]. specialize (Hfin _ _ (or_introl (conj eq_refl eq_refl))).
    destruct (sigcnt y - 1 =? 0); cbn [free_signal_struct set_sigs set_tasks ptasks psigs mm_grabs mm_drops kthreads oom_mm]; by rewrite insert_insert_eq.
  - specialize (Hfin _ _ (or_intror (conj eq_refl eq_refl))).
    destruct (sigcnt y - 1 =? 0); cbn [free_signal_struct set_sigs set_tasks ptasks psigs mm_grabs mm_drops kthreads oom_mm];
      rewrite lookup_insert_eq; cbn [mbind option_bind is_kthread]; eexists; (split; [done|]); cbn [ptasks psigs mm_grabs mm_drops kthreads];
      by rewrite !delete_insert_eq.
Qed.

Lemma pinv_step w w' : pstep w w' -> pinv w -> pinv w'.
Proof.
  intros Hst I. destruct Hst as [t s k w Ht Hs|t p s x y w Ht Hp Hx Hy|t x w Ht Hu|handoff t x w w' Ht Hu E|t x w w' Ht Hu E|t s x y m w Ht Hx Hy Hm].
  - by apply pinv_process.
  - destruct I as [I1 I2 I3 I4 I5]. split; cbn [set_sigs set_tasks ptasks psigs mm_grabs mm_drops kthreads].
    + intros i z [[<- <-]|[_ Hi]]%lookup_insert_Some; [simpl; split; [lia|]; split; [lia|done]|by eapply I1].
    + intros i z v [[<- <-]|[_ Hi]]%lookup_insert_Some Hv; simpl in Hv; apply lookup_insert_is_Some'; [left; congruence|right; by eapply I2].
    + intros v z [[<- <-]|[Hne Hv]]%lookup_insert_Some; simpl; [destruct (I3 s y Hy)|destruct (I3 v z Hv)]; count_solve.
    + intros v. rewrite I4. count_solve.
    + rewrite I5. count_solve.
  - destruct I as [I1 I2 I3 I4 I5]. destruct (I1 t x Ht) as [_ Hiff]. split; cbn [set_tasks ptasks psigs mm_grabs mm_drops kthreads]; try done.
    + intros i z [[<- <-]|[_ Hi]]%lookup_insert_Some; [|by eapply I1]. simpl. split; [lia|]. rewrite <- Hiff. lia.
    + intros i z v [[<- <-]|[_ Hi]]%lookup_insert_Some; [simpl; by eapply I2|by eapply I2].
    + intros v y Hy. destruct (I3 v y Hy) as [H1 H2]. split; [|done]. rewrite H1. count_solve.
    + rewrite I5. count_solve.
  - destruct (pinv_put handoff t x w I Ht Hu) as (w'' & E' & I'). rewrite E in E'. by injection E' as <-.
  - unfold free_task in E. rewrite Ht in E. cbn [mbind option_bind] in E. injection E as <-. destruct I as [I1 I2 I3 I4 I5].
    destruct (I1 t x Ht) as [_ Hiff]. apply Hiff in Hu. split; cbn [ptasks psigs mm_grabs mm_drops kthreads]; try done.
    + intros i z [_ Hi]%lookup_delete_Some. by eapply I1.
    + intros i z v [_ Hi]%lookup_delete_Some. by eapply I2.
    + intros v y Hy. destruct (I3 v y Hy) as [H1 H2]. split; [|done]. rewrite H1. count_solve.
    + rewrite I5. destruct (is_kthread x) eqn:?; count_solve.
  - destruct I as [I1 I2 I3 I4 I5]. split; cbn [ptasks psigs mm_grabs mm_drops kthreads]; try done.
    + intros i z v Hi Hv. apply lookup_insert_is_Some'. right. by eapply I2.
    + intros v z [[<- <-]|[Hne Hv]]%lookup_insert_Some; [by apply (I3 s y)|by eapply I3].
    + intros v. unfold bump. rewrite I4. count_solve.
Qed.

(** (C29) Task and signal structures: however processes and threads come and go and references
    to them are taken and dropped, a signal structure exists as long as a task of its group does
    and counts exactly these, so that it is freed once, with the last of them; putting a
    reference never reaches a structure that is gone; the references to address spaces that the
    out-of-memory killer noted are dropped once each, with the structure that notes them; and a
    task structure that is freed takes its kthread structure with it. *)
Theorem task_structures_released w : rtc pstep (PWorld ∅ ∅ (fun _ => 0) (fun _ => 0) 0) w ->
  (forall s y, psigs w !! s = Some y -> sigcnt y = members s (ptasks w) /\ 0 < sigcnt y) /\
  (forall t x s, ptasks w !! t = Some x -> sig x = Some s -> is_Some (psigs w !! s)) /\
  (forall v, mm_grabs w v = mm_drops w v + noting v (psigs w)) /\ kthreads w = countm (fun x => is_kthread x = true) (ptasks w) /\
  (forall handoff t x, ptasks w !! t = Some x -> 0 < usage x -> exists w', put_task handoff t w = Some w') /\
  (ptasks w = ∅ -> psigs w = ∅ /\ forall v, mm_grabs w v = mm_drops w v).
Proof.
  intros Hr. assert (pinv w) as I.
  { revert w Hr. apply (rtc_ind_r pinv); [by split|]. intros w1 w2 _. apply pinv_step. }
  pose proof I as [I1 I2 I3 I4 I5]. split; [done|]. split; [done|]. split; [done|]. split; [done|]. split.
  - intros handoff t x Ht Hu. destruct (pinv_put handoff t x w I Ht Hu) as (w' & E & _). by exists w'.
  - intros He. assert (psigs w = ∅) as Hs.
    { apply map_empty. intros s. destruct (psigs w !! s) as [y|] eqn:Hy; [|done]. destruct (I3 s y Hy) as [H1 H2].
      rewrite H1, He in H2. done. }
    split; [done|]. intros v. rewrite I4, Hs. unfold noting, countm. rewrite map_filter_empty, map_size_empty. lia.
Qed.

Lemma task_structures_released_witness : exists w, rtc pstep (PWorld ∅ ∅ (fun _ => 0) (fun _ => 0) 0) w /\
  psigs w = ∅ /\ mm_grabs w 7 = 1 /\ mm_drops w 7 = 1.
Proof.
  assert (exists w, rtc pstep (PWorld ∅ ∅ (fun _ => 0) (fun _ => 0) 0) w /\ ptasks w = ∅ /\ mm_grabs w 7 = 1) as (w & Hw & He & Hg).
  { eexists. split.
    - eapply rtc_l; [apply (p_process 1 10 true); reflexivity|].
      eapply rtc_l; [eapply (p_thread 2 1 10); reflexivity|].
      eapply rtc_l; [eapply (p_oom 2 10 _ _ 7); reflexivity|].
      eapply rtc_l; [eapply (p_put false 1); [reflexivity|done|vm_compute; reflexivity]|].
      eapply rtc_l; [eapply (p_put false 2); [reflexivity|done|vm_compute; reflexivity]|]. apply rtc_refl.
    - split; vm_compute; reflexivity. }
  exists w. split; [done|]. destruct (task_structures_released w Hw) as (_ & _ & _ & _ & _ & H).
  destruct (H He) as [Hs Hm]. split; [done|]. split; [done|]. by rewrite <- Hm.
Defined.
End Release.

Module Pidfd.

Definition EPOLLIN : Z := 1.
Definition EPOLLRDNORM : Z := 0x40.

(** A struct pid: its number at every level of namespaces, outermost first, with the namespace
    of the level; whether a task has it, and whether the whole thread group exited. *)
Record pid := Pid { numbers : list (Z * Z); has_task : bool; group_exited : bool }.
(** A file: a pidfd with its pid until it is released, or another one. *)
Inductive file := PidFile (p : option pid) | OtherFile.

Definition pidfd_pid (f : file) : Z + option pid := match f with PidFile p => inr p | OtherFile => inl (- EBADF) end.
(** The pid put, if the file had one. *)
Definition pidfd_release (f : file) : option pid * file := match f with PidFile p => (p, PidFile None) | OtherFile => (None, OtherFile) end.
Definition pidfd_poll (p : pid) : Z := if group_exited p then Z.lor EPOLLIN EPOLLRDNORM else 0.

(** pid_nr_ns: the number in the namespace [ns] at [level], 0 if the pid is not visible there. *)
Definition pid_nr_ns (p : pid) (ns : Z) (level : nat) : Z :=
  match numbers p !! level with Some (n, nr) => if n =? ns then nr else 0 | None => 0 end.
(** The numbers that pidfd_show_fdinfo prints: Pid, then the list of NSpid. *)
Definition pidfd_numbers (p : pid) (ns : Z) (level : nat) : Z * list Z :=
  let nr := if has_task p then pid_nr_ns p ns level else -1 in
  (nr, nr :: (if 0 <? nr then snd <$> drop (S level) (numbers p) else [])).
Definition pidfd_show_fdinfo (p : pid) (ns : Z) (level : nat) : list Z :=
  let '(nr, l) := pidfd_numbers p ns level in
  bytes_of_string "Pid:" ++ 9 :: fmt_d nr ++ 10 :: bytes_of_string "NSpid:" ++ concat (map (fun n => 9 :: fmt_d n) l) ++ [10].

(** What a pidfd shows: in a namespace the pid is visible in, its numbers there and in every
    namespace below, in order and none above; in any other namespace, 0 and nothing else; once
    the task is reaped, -1 and nothing else; the first number of NSpid is always Pid.  Polling
    answers exactly when the whole group exited, and a released pidfd gives its pid back once. *)
Theorem pidfd_shows p ns level :
  Forall (fun x => 0 < x.2) (numbers p) ->
  let '(nr, l) := pidfd_numbers p ns level in
  head l = Some nr /\
  (has_task p = false -> l = [-1]) /\
  (has_task p = true -> (exists nr0, numbers p !! level = Some (ns, nr0)) -> l = snd <$> drop level (numbers p)) /\
  (has_task p = true -> ~ (exists nr0, numbers p !! level = Some (ns, nr0)) -> l = [0]) /\
  (pidfd_poll p <> 0 <-> group_exited p = true) /\
  (pidfd_release (pidfd_release (PidFile (Some p))).2).1 = None.
Proof.
  intros Hpos. unfold pidfd_numbers, pid_nr_ns. split; [done|]. split; [by intros ->|]. split; [|split; [|split]].
  - intros -> [nr0 H]. rewrite H, Z.eqb_refl. rewrite Forall_lookup in Hpos. specialize (Hpos _ _ H). simpl in Hpos.
    destruct (Z.ltb_spec 0 nr0); [|lia]. by rewrite (drop_S _ _ _ H).
  - intros -> Hn. destruct (numbers p !! level) as [[n nr]|]; [|done]. destruct (Z.eqb_spec n ns) as [->|]; [|done]. destruct Hn. by exists nr.
  - unfold pidfd_poll. by destruct (group_exited p).
  - done.
Qed.
Lemma pidfd_shows_witness : pidfd_numbers (Pid [(1, 500); (2, 30); (3, 4)] true false) 2 1 = (30, [30; 4]).
Proof.
  assert (Forall (fun x => 0 < x.2) (numbers (Pid [(1, 500); (2, 30); (3, 4)] true false))) as H by (simpl; repeat constructor).
  destruct (pidfd_shows (Pid [(1, 500); (2, 30); (3, 4)] true false) 2 1 H) as (H1 & _ & H2 & _).
  pose proof (H2 eq_refl (ex_intro _ 30 eq_refl)) as H3. reflexivity.
Defined.
End Pidfd.
