(* ===== verification/ProcStatus.v ===== *)
(** * Task information in /proc (src/kvm/linux-5.15.178/fs/proc/array.c, include/linux/sched.h)

    [Status]: the state of a task, signal sets and capabilities as text, and
    /proc/<pid>/status as a whole, which ends in the socket attributes.  [Stat]:
    /proc/<pid>/stat and statm.  [Children]: the list of the children of a task.
    Process numbers in a namespace, user ids and times, which other parts of the kernel
    compute, are fields of the views that the functions print; lines printed by other files
    are text. *)

From S2P Require Import Prelude SocketAttrs.

Definition str : string -> list Z := bytes_of_string.
Definition nl : Z := 10.
Definition tab : Z := 9.
Definition sp : Z := 32.
(** seq_put_decimal_ull, seq_put_decimal_ll and seq_put_hex_ll without their delimiters. *)
Definition ull (x : Z) : list Z := digits 10 64 (wrapu 64 x) [].
Definition ll (x : Z) : list Z := fmt_d (wraps 64 x).
Definition pad (n : nat) (l : list Z) : list Z := replicate (n - length l) 48 ++ l.
Definition hexn (n : nat) (x : Z) : list Z := pad n (fmt_lx x).

Module Status.

(** ** The state of a task *)

Definition TASK_INTERRUPTIBLE : Z := 0x1.
Definition TASK_UNINTERRUPTIBLE : Z := 0x2.
Definition TASK_NOLOAD : Z := 0x400.
Definition TASK_RTLOCK_WAIT : Z := 0x1000.
Definition TASK_IDLE : Z := Z.lor TASK_UNINTERRUPTIBLE TASK_NOLOAD.
(** Running, the two sleeps, stopped, traced, dead, zombie and parked. *)
Definition TASK_REPORT : Z := 0x7f.
Definition TASK_REPORT_IDLE : Z := TASK_REPORT + 1.

(** fls: one more than the position of the highest bit, 0 for 0. *)
Definition fls (x : Z) : Z := if x =? 0 then 0 else Z.log2 x + 1.
Definition task_state_index (state exit_state : Z) : Z :=
  let s := Z.land (Z.lor state exit_state) TASK_REPORT in
  let s := if state =? TASK_IDLE then TASK_REPORT_IDLE else s in
  let s := if state =? TASK_RTLOCK_WAIT then TASK_UNINTERRUPTIBLE else s in
  fls s.

Definition state_char : list Z := str "RSDTtXZPI".
Definition task_index_to_char (i : Z) : option Z := state_char !! Z.to_nat i.
Definition task_state_array : list (list Z) :=
  [str "R (running)"; str "S (sleeping)"; str "D (disk sleep)"; str "T (stopped)"; str "t (tracing stop)";
   str "X (dead)"; str "Z (zombie)"; str "P (parked)"; str "I (idle)"].
(** [None] would be a read outside the array. *)
Definition get_task_state (state exit_state : Z) : option (list Z) :=
  task_state_array !! Z.to_nat (task_state_index state exit_state).

(** The state shown for a task is read inside its array for every value of the two state
    words, and its letter is the one that task_state_to_char gives. *)
Theorem task_state_in_range state exit_state :
  exists s, get_task_state state exit_state = Some s /\
    exists c, task_index_to_char (task_state_index state exit_state) = Some c /\ head s = Some c.
Proof.
  assert (forall i, 0 <= i <= 8 -> exists s, task_state_array !! Z.to_nat i = Some s /\
    exists c, task_index_to_char i = Some c /\ head s = Some c) as H.
  { intros i Hi. assert (i = 0 \/ i = 1 \/ i = 2 \/ i = 3 \/ i = 4 \/ i = 5 \/ i = 6 \/ i = 7 \/ i = 8) as Hc by lia.
    repeat destruct Hc as [->|Hc]; [by repeat eexists..|subst; by repeat eexists]. }
  apply H. unfold task_state_index.
  set (s := if state =? TASK_RTLOCK_WAIT then _ else _).
  assert (0 <= s < 256) as Hs.
  { unfold s. destruct (state =? TASK_RTLOCK_WAIT); [done|]. destruct (state =? TASK_IDLE); [done|].
    unfold TASK_REPORT. change 0x7f with (Z.ones 7). rewrite Z.land_ones by lia.
    pose proof (Z.mod_pos_bound (Z.lor state exit_state) (2 ^ 7)). lia. }
  unfold fls. destruct (Z.eqb_spec s 0); [lia|]. pose proof (Z.log2_nonneg s).
  assert (Z.log2 s < 8) by (apply Z.log2_lt_pow2; lia). lia.
Qed.

(** ** Signal sets *)

Definition _NSIG : nat := 64.
Definition SIG_DFL : Z := 0.
Definition SIG_IGN : Z := 1.
Definition sigismember (set : Z) (sig : Z) : bool := Z.testbit set (sig - 1).
Definition sigaddset (set : Z) (sig : Z) : Z := Z.lor set (Z.shiftl 1 (sig - 1)).

(** One digit of render_sigset_t, with the loop variable at [i]. *)
Definition sig_nibble (set i : Z) : Z :=
  let x := 0 in
  let x := if sigismember set (i + 1) then Z.lor x 1 else x in
  let x := if sigismember set (i + 2) then Z.lor x 2 else x in
  let x := if sigismember set (i + 3) then Z.lor x 4 else x in
  if sigismember set (i + 4) then Z.lor x 8 else x.
(** The loop, with [4 * n] signals to come. *)
Fixpoint sig_digits (n : nat) (set : Z) : list Z :=
  match n with
  | O => []
  | S n => digit (sig_nibble set (4 * Z.of_nat n)) :: sig_digits n set
  end.
Definition render_sigset_t (header : list Z) (set : Z) : list Z := header ++ sig_digits (_NSIG / 4) set ++ [nl].

(** collect_sigign_sigcatch: the handlers of the signals from [i] on. *)
Fixpoint collect_sigign_sigcatch (i : Z) (action : list Z) (acc : Z * Z) : Z * Z :=
  match action with
  | [] => acc
  | h :: action =>
      let '(ign, catch) := acc in
      collect_sigign_sigcatch (i + 1) action
        (if h =? SIG_IGN then (sigaddset ign i, catch)
         else if h =? SIG_DFL then (ign, catch) else (ign, sigaddset catch i))
  end.

(** The number that hexadecimal text denotes. *)
Definition unhex (c : Z) : Z := if c <? 58 then c - 48 else c - 87.
Definition hex_value (l : list Z) : Z := foldl (fun a c => 16 * a + unhex c) 0 l.

Lemma hex_value_cons c l : hex_value (c :: l) = unhex c * 16 ^ Z.of_nat (length l) + hex_value l.
Proof.
  assert (forall l a, foldl (fun a c => 16 * a + unhex c) a l = a * 16 ^ Z.of_nat (length l) + hex_value l) as H.
  { clear. induction l as [|c l IH]; intros a; unfold hex_value; cbn [foldl length]; [lia|].
    rewrite (IH (16 * a + unhex c)), (IH (16 * 0 + unhex c)), Nat2Z.inj_succ, Z.pow_succ_r by lia. lia. }
  unfold hex_value at 1. cbn [foldl]. rewrite H. lia.
Qed.

Lemma unhex_digit x : 0 <= x < 16 -> unhex (digit x) = x.
Proof. intros Hx. unfold unhex, digit. destruct (Z.ltb_spec x 10); case_match; bool_prop; lia. Qed.

Lemma nibble_small w : 0 <= w < 16 ->
  (let x := if Z.testbit w 0 then 1 else 0 in let x := if Z.testbit w 1 then Z.lor x 2 else x in
   let x := if Z.testbit w 2 then Z.lor x 4 else x in if Z.testbit w 3 then Z.lor x 8 else x) = w.
Proof.
  intros Hw. assert (w ∈ seqZ 0 16) as Hin by (apply elem_of_seqZ; lia). revert w Hin Hw.
  assert (Forall (fun w => (let x := if Z.testbit w 0 then 1 else 0 in let x := if Z.testbit w 1 then Z.lor x 2 else x in
    let x := if Z.testbit w 2 then Z.lor x 4 else x in if Z.testbit w 3 then Z.lor x 8 else x) = w) (seqZ 0 16)) as H
    by (repeat constructor).
  rewrite Forall_forall in H. intros w Hin _. by apply H.
Qed.

Lemma sig_nibble_value set i : 0 <= i -> sig_nibble set i = Z.shiftr set i mod 16.
Proof.
  intros Hi. set (w := Z.shiftr set i mod 16). assert (0 <= w < 16) as Hw by (apply Z.mod_pos_bound; lia).
  assert (forall k, 0 <= k < 4 -> sigismember set (i + (k + 1)) = Z.testbit w k) as Hb.
  { intros k Hk. unfold sigismember, w. change 16 with (2 ^ 4). rewrite Z.mod_pow2_bits_low by lia.
    rewrite Z.shiftr_spec by lia. f_equal. lia. }
  unfold sig_nibble.
  assert (sigismember set (i + 1) = Z.testbit w 0) as -> by (apply (Hb 0); lia).
  assert (sigismember set (i + 2) = Z.testbit w 1) as -> by (apply (Hb 1); lia).
  assert (sigismember set (i + 3) = Z.testbit w 2) as -> by (apply (Hb 2); lia).
  assert (sigismember set (i + 4) = Z.testbit w 3) as -> by (apply (Hb 3); lia). cbv zeta. change (Z.lor 0 1) with 1. by apply nibble_small.
Qed.

Lemma length_sig_digits n set : length (sig_digits n set) = n.
Proof. induction n; simpl; congruence. Qed.

Lemma sig_digits_value n set : hex_value (sig_digits n set) = set mod 2 ^ (4 * Z.of_nat n).
Proof.
  induction n as [|n IH]; [by rewrite Z.mod_1_r|]. cbn [sig_digits].
  rewrite hex_value_cons, length_sig_digits, IH, sig_nibble_value by lia.
  rewrite unhex_digit by (apply Z.mod_pos_bound; lia). rewrite Z.shiftr_div_pow2 by lia.
  replace (4 * Z.of_nat (S n)) with (4 * Z.of_nat n + 4) by lia. rewrite Z.pow_add_r by lia.
  change 16 with (2 ^ 4). rewrite <- Z.pow_mul_r by lia. rewrite Z.rem_mul_r by (try lia; apply Z.pow_nonzero; lia). lia.
Qed.

Lemma sigaddset_spec set i k : 1 <= i -> 1 <= k -> sigismember (sigaddset set i) k = (sigismember set k || (k =? i)).
Proof.
  intros Hi Hk. unfold sigismember, sigaddset. rewrite Z.lor_spec, Z.shiftl_spec by lia. f_equal.
  destruct (Z.eqb_spec k i) as [->|]; [by rewrite Z.sub_diag|].
  destruct (Z.lt_total (k - 1) (i - 1)) as [H|[H|H]]; [by apply Z.testbit_neg_r; lia|lia|].
  rewrite Z.testbit_odd, Z.shiftr_div_pow2 by lia. rewrite Z.div_small; [done|]. split; [lia|]. apply Z.pow_gt_1; lia.
Qed.

(** Which signals [i], [i + 1], ... a list of handlers ignores or catches. *)
Lemma collect_spec action : forall i ign catch k, 1 <= i -> 1 <= k ->
  let '(ign', catch') := collect_sigign_sigcatch i action (ign, catch) in
  (sigismember ign' k = true <-> sigismember ign k = true \/ (i <= k /\ action !! Z.to_nat (k - i) = Some SIG_IGN)) /\
  (sigismember catch' k = true <-> sigismember catch k = true \/
     (i <= k /\ exists h, action !! Z.to_nat (k - i) = Some h /\ h <> SIG_IGN /\ h <> SIG_DFL)).
Proof.
  induction action as [|h action IH]; intros i ign catch k Hi Hk; cbn [collect_sigign_sigcatch].
  { setoid_rewrite lookup_nil. naive_solver. }
  assert (forall P : Z -> Prop, (i <= k /\ exists x, (h :: action) !! Z.to_nat (k - i) = Some x /\ P x) <->
    ((k = i /\ P h) \/ (i + 1 <= k /\ exists x, action !! Z.to_nat (k - (i + 1)) = Some x /\ P x))) as Hcons.
  { intros P. destruct (Z.eq_dec k i) as [->|Hne].
    - rewrite Z.sub_diag. simpl. split; [intros (_ & x & [= <-] & H); by left|intros [[_ H]|[H _]]; [|lia]]. split; [lia|eauto].
    - destruct (Z.lt_ge_cases k i); [split; [lia|intros [[? _]|[? _]]; lia]|].
      replace (Z.to_nat (k - i)) with (S (Z.to_nat (k - (i + 1)))) by lia. simpl.
      split; [intros [_ H']; right; split; [lia|done]|intros [[? _]|[_ H']]; [lia|]]. split; [lia|done]. }
  assert (forall n (l : list Z), l !! n = Some SIG_IGN <-> exists x, l !! n = Some x /\ x = SIG_IGN) as Hign by naive_solver.
  pose proof (Hcons (fun x => x = SIG_IGN)) as HA. pose proof (Hcons (fun x => x <> SIG_IGN /\ x <> SIG_DFL)) as HB. cbv beta in HA, HB.
  specialize (IH (i + 1)).
  destruct (Z.eqb_spec h SIG_IGN) as [->|H1]; [|destruct (Z.eqb_spec h SIG_DFL) as [->|H2]].
  - specialize (IH (sigaddset ign i) catch k ltac:(lia) Hk). destruct (collect_sigign_sigcatch _ _ _) as [ign' catch'].
    rewrite sigaddset_spec, orb_true_iff, Z.eqb_eq in IH by lia. rewrite Hign in *. rewrite HA, HB. unfold SIG_IGN, SIG_DFL in *. intuition.
  - specialize (IH ign catch k ltac:(lia) Hk). destruct (collect_sigign_sigcatch _ _ _) as [ign' catch'].
    rewrite Hign in *. rewrite HA, HB. unfold SIG_IGN, SIG_DFL in *. intuition.
  - specialize (IH ign (sigaddset catch i) k ltac:(lia) Hk). destruct (collect_sigign_sigcatch _ _ _) as [ign' catch'].
    rewrite sigaddset_spec, orb_true_iff, Z.eqb_eq in IH by lia. rewrite Hign in *. rewrite HA, HB. intuition.
Qed.

(** The signal sets of the status file read back: sixteen hexadecimal digits that denote
    exactly the set printed; and the sets of ignored and caught signals hold a signal exactly
    when its handler says so, and none twice. *)
Theorem sigset_roundtrip header set action k :
  in_u 64 set -> length action = _NSIG -> 1 <= k <= 64 ->
  let text := render_sigset_t header set in
  length text = (length header + 17)%nat /\ hex_value (take 16 (drop (length header) text)) = set /\
  let '(ign, catch) := collect_sigign_sigcatch 1 action (0, 0) in
  exists h, action !! Z.to_nat (k - 1) = Some h /\ (sigismember ign k = true <-> h = SIG_IGN) /\
    (sigismember catch k = true <-> h <> SIG_IGN /\ h <> SIG_DFL).
Proof.
  intros Hset Hlen Hk text. split_and!.
  - unfold text, render_sigset_t. rewrite !length_app, length_sig_digits. done.
  - unfold text, render_sigset_t. rewrite drop_app_length, take_app_length' by by rewrite length_sig_digits.
    change (sig_digits (_NSIG / 4) set) with (sig_digits 16 set). rewrite sig_digits_value. by apply Z.mod_small.
  - pose proof (collect_spec action 1 0 0 k ltac:(lia) ltac:(lia)) as H.
    destruct (collect_sigign_sigcatch 1 action (0, 0)) as [ign catch].
    destruct (action !! Z.to_nat (k - 1)) as [h|] eqn:E.
    + exists h. split; [done|]. assert (sigismember 0 k = false) as E0 by apply Z.bits_0. rewrite E0 in H. naive_solver lia.
    + apply lookup_ge_None in E. unfold _NSIG in Hlen. lia.
Qed.

Lemma sigset_roundtrip_witness :
  render_sigset_t [] 0x8001 = str "0000000000008001" ++ [nl] /\
  hex_value (take 16 (drop 0 (render_sigset_t [] 0x8001))) = 0x8001.
Proof.
  split; [vm_compute; reflexivity|].
  apply (sigset_roundtrip [] 0x8001 (replicate 64 SIG_DFL) 9); [unfold in_u; lia|by rewrite length_replicate|lia].
Defined.

(** ** /proc/<pid>/status *)

(** What lock_task_sighand gives access to. *)
Record sigs := Sigs {
  pending : Z; shpending : Z; blocked : Z; action : list Z; nthreads : Z; qsize : Z; qlim : Z
}.
(** An address space: the lines of task_mem, whether it dumps a core and has huge pages. *)
Record mview := MView { mem_lines : list (list Z); core_dumping : bool; thp_enabled : bool }.
Record pview := PView {
  comm : list Z; p_state : Z; p_exit_state : Z; umask : option Z; tgid : Z; ngid : Z; pid_nr : Z;
  pid_alive : bool; parent_tgid : Z; tracer : option Z;
  uid : Z; euid : Z; suid : Z; fsuid : Z; gid : Z; egid : Z; sgid : Z; fsgid : Z;
  max_fds : option Z; groups : list Z; ns_tgid : list Z; ns_pid : list Z; ns_pgid : list Z; ns_sid : list Z;
  sighand : option sigs; caps : list (Z * Z); no_new_privs : Z; seccomp_mode : Z; seccomp_filters : Z;
  spec_store_bypass : Z; spec_indirect_branch : Z; cpus_text : list Z; cpus_list : list Z; cpuset_lines : list (list Z);
  nvcsw : Z; nivcsw : Z; p_mm : option mview; attrs : Attrs.task
}.

Section Status.
(** seq_escape_str with the newline and the backslash. *)
Context (escape_str : list Z -> list Z).

Definition proc_task_name (v : pview) (escape : bool) : list Z := if escape then escape_str (comm v) else take 64 (comm v).

(** "%#04o". *)
Definition oct04 (x : Z) : list Z :=
  let d := digits 8 64 x [] in pad 4 (match d with c :: _ => if c =? 48 then d else 48 :: d | [] => d end).
Definition tabbed (l : list Z) : list Z := concat (map (fun x => tab :: ull x) l).
Fixpoint spaced (first : bool) (l : list Z) : list Z :=
  match l with [] => [] | x :: l => (if first then [] else [sp]) ++ ull x ++ spaced false l end.

Definition task_state (v : pview) : list Z :=
  match umask v with
  | Some u => if 0 <=? u then str "Umask:" ++ tab :: oct04 u ++ [nl] else []
  | None => []
  end
  ++ str "State:" ++ tab :: default [] (get_task_state (p_state v) (p_exit_state v))
  ++ nl :: str "Tgid:" ++ tab :: ull (tgid v)
  ++ nl :: str "Ngid:" ++ tab :: ull (ngid v)
  ++ nl :: str "Pid:" ++ tab :: ull (pid_nr v)
  ++ nl :: str "PPid:" ++ tab :: ull (if pid_alive v then parent_tgid v else 0)
  ++ nl :: str "TracerPid:" ++ tab :: ull (default 0 (tracer v))
  ++ nl :: str "Uid:" ++ tab :: ull (uid v) ++ tab :: ull (euid v) ++ tab :: ull (suid v) ++ tab :: ull (fsuid v)
  ++ nl :: str "Gid:" ++ tab :: ull (gid v) ++ tab :: ull (egid v) ++ tab :: ull (sgid v) ++ tab :: ull (fsgid v)
  ++ nl :: str "FDSize:" ++ tab :: ull (default 0 (max_fds v))
  ++ nl :: str "Groups:" ++ tab :: spaced true (groups v) ++ [sp]
  ++ nl :: str "NStgid:" ++ tabbed (ns_tgid v)
  ++ nl :: str "NSpid:" ++ tabbed (ns_pid v)
  ++ nl :: str "NSpgid:" ++ tabbed (ns_pgid v)
  ++ nl :: str "NSsid:" ++ tabbed (ns_sid v)
  ++ [nl].

Definition no_sigs : sigs := Sigs 0 0 0 [] 0 0 0.
Definition task_sig (v : pview) : list Z :=
  let g := default no_sigs (sighand v) in
  let '(ignored, caught) := collect_sigign_sigcatch 1 (action g) (0, 0) in
  str "Threads:" ++ tab :: ull (nthreads g)
  ++ nl :: str "SigQ:" ++ tab :: ull (qsize g) ++ str "/" ++ ull (qlim g)
  ++ render_sigset_t (nl :: str "SigPnd:" ++ [tab]) (pending g)
  ++ render_sigset_t (str "ShdPnd:" ++ [tab]) (shpending g)
  ++ render_sigset_t (str "SigBlk:" ++ [tab]) (blocked g)
  ++ render_sigset_t (str "SigIgn:" ++ [tab]) ignored
  ++ render_sigset_t (str "SigCgt:" ++ [tab]) caught.

(** The low and the high word of a capability set. *)
Definition render_cap_t (header : list Z) (a : Z * Z) : list Z := header ++ hexn 8 a.2 ++ hexn 8 a.1 ++ [nl].
Definition cap_headers : list (list Z) :=
  [str "CapInh:"; str "CapPrm:"; str "CapEff:"; str "CapBnd:"; str "CapAmb:"].
Definition task_cap (v : pview) : list Z := concat (zip_with (fun h a => render_cap_t (h ++ [tab]) a) cap_headers (caps v)).

Definition PR_SPEC_NOT_AFFECTED : Z := 0.
Definition PR_SPEC_PRCTL : Z := 1.
Definition PR_SPEC_ENABLE : Z := 2.
Definition PR_SPEC_DISABLE : Z := 4.
Definition PR_SPEC_FORCE_DISABLE : Z := 8.
Definition ssb_text (r : Z) : list Z :=
  if r =? - EINVAL then str "unknown"
  else if r =? PR_SPEC_NOT_AFFECTED then str "not vulnerable"
  else if r =? Z.lor PR_SPEC_PRCTL PR_SPEC_FORCE_DISABLE then str "thread force mitigated"
  else if r =? Z.lor PR_SPEC_PRCTL PR_SPEC_DISABLE then str "thread mitigated"
  else if r =? Z.lor PR_SPEC_PRCTL PR_SPEC_ENABLE then str "thread vulnerable"
  else if r =? PR_SPEC_DISABLE then str "globally mitigated"
  else str "vulnerable".
Definition sib_text (r : Z) : list Z :=
  if r =? - EINVAL then str "unsupported"
  else if r =? PR_SPEC_NOT_AFFECTED then str "not affected"
  else if r =? Z.lor PR_SPEC_PRCTL PR_SPEC_FORCE_DISABLE then str "conditional force disabled"
  else if r =? Z.lor PR_SPEC_PRCTL PR_SPEC_DISABLE then str "conditional disabled"
  else if r =? Z.lor PR_SPEC_PRCTL PR_SPEC_ENABLE then str "conditional enabled"
  else if r =? PR_SPEC_ENABLE then str "always enabled"
  else if r =? PR_SPEC_DISABLE then str "always disabled"
  else str "unknown".
Definition task_seccomp (v : pview) : list Z :=
  str "NoNewPrivs:" ++ tab :: ull (no_new_privs v)
  ++ nl :: str "Seccomp:" ++ tab :: ull (seccomp_mode v)
  ++ nl :: str "Seccomp_filters:" ++ tab :: ull (seccomp_filters v)
  ++ nl :: str "Speculation_Store_Bypass:" ++ tab :: ssb_text (spec_store_bypass v)
  ++ nl :: str "SpeculationIndirectBranch:" ++ tab :: sib_text (spec_indirect_branch v)
  ++ [nl].

Definition task_cpus_allowed (v : pview) : list Z :=
  str "Cpus_allowed:" ++ tab :: cpus_text v ++ [nl] ++ str "Cpus_allowed_list:" ++ tab :: cpus_list v ++ [nl].
Definition task_context_switch_counts (v : pview) : list Z :=
  str "voluntary_ctxt_switches:" ++ tab :: ull (nvcsw v)
  ++ nl :: str "nonvoluntary_ctxt_switches:" ++ tab :: ull (nivcsw v) ++ [nl].
Definition task_core_dumping (m : mview) : list Z := str "CoreDumping:" ++ tab :: ull (if core_dumping m then 1 else 0) ++ [nl].
Definition task_thp_status (m : mview) : list Z := str "THP_enabled:" ++ tab :: fmt_d (if thp_enabled m then 1 else 0) ++ [nl].

Definition proc_pid_status (v : pview) : list Z :=
  str "Name:" ++ tab :: proc_task_name v true ++ [nl]
  ++ task_state v
  ++ match p_mm v with
     | Some m => concat (map (fun l => l ++ [nl]) (mem_lines m)) ++ task_core_dumping m ++ task_thp_status m
     | None => []
     end
  ++ task_sig v ++ task_cap v ++ task_seccomp v ++ task_cpus_allowed v
  ++ concat (map (fun l => l ++ [nl]) (cpuset_lines v))
  ++ task_context_switch_counts v
  ++ concat (Attrs.socket_status (attrs v)).

(** *** The file as lines *)

Definition state_lines (v : pview) : list (list Z) :=
  match umask v with Some u => if 0 <=? u then [str "Umask:" ++ tab :: oct04 u] else [] | None => [] end ++
  [str "State:" ++ tab :: default [] (get_task_state (p_state v) (p_exit_state v));
   str "Tgid:" ++ tab :: ull (tgid v); str "Ngid:" ++ tab :: ull (ngid v); str "Pid:" ++ tab :: ull (pid_nr v);
   str "PPid:" ++ tab :: ull (if pid_alive v then parent_tgid v else 0);
   str "TracerPid:" ++ tab :: ull (default 0 (tracer v));
   str "Uid:" ++ tabbed [uid v; euid v; suid v; fsuid v]; str "Gid:" ++ tabbed [gid v; egid v; sgid v; fsgid v];
   str "FDSize:" ++ tab :: ull (default 0 (max_fds v)); str "Groups:" ++ tab :: spaced true (groups v) ++ [sp];
   str "NStgid:" ++ tabbed (ns_tgid v); str "NSpid:" ++ tabbed (ns_pid v); str "NSpgid:" ++ tabbed (ns_pgid v);
   str "NSsid:" ++ tabbed (ns_sid v)].
Definition sig_lines (v : pview) : list (list Z) :=
  let g := default no_sigs (sighand v) in
  let '(ignored, caught) := collect_sigign_sigcatch 1 (action g) (0, 0) in
  [str "Threads:" ++ tab :: ull (nthreads g); str "SigQ:" ++ tab :: ull (qsize g) ++ str "/" ++ ull (qlim g);
   str "SigPnd:" ++ tab :: sig_digits 16 (pending g); str "ShdPnd:" ++ tab :: sig_digits 16 (shpending g);
   str "SigBlk:" ++ tab :: sig_digits 16 (blocked g); str "SigIgn:" ++ tab :: sig_digits 16 ignored;
   str "SigCgt:" ++ tab :: sig_digits 16 caught].
Definition cap_lines (v : pview) : list (list Z) := zip_with (fun h a => h ++ tab :: hexn 8 a.2 ++ hexn 8 a.1) cap_headers (caps v).
Definition seccomp_lines (v : pview) : list (list Z) :=
  [str "NoNewPrivs:" ++ tab :: ull (no_new_privs v); str "Seccomp:" ++ tab :: ull (seccomp_mode v);
   str "Seccomp_filters:" ++ tab :: ull (seccomp_filters v);
   str "Speculation_Store_Bypass:" ++ tab :: ssb_text (spec_store_bypass v);
   str "SpeculationIndirectBranch:" ++ tab :: sib_text (spec_indirect_branch v)].
Definition body_lines (v : pview) : list (list Z) :=
  state_lines v ++
  match p_mm v with
  | Some m => mem_lines m ++ [str "CoreDumping:" ++ tab :: ull (if core_dumping m then 1 else 0);
                              str "THP_enabled:" ++ tab :: fmt_d (if thp_enabled m then 1 else 0)]
  | None => []
  end ++ sig_lines v ++ cap_lines v ++ seccomp_lines v ++
  [str "Cpus_allowed:" ++ tab :: cpus_text v; str "Cpus_allowed_list:" ++ tab :: cpus_list v] ++ cpuset_lines v ++
  [str "voluntary_ctxt_switches:" ++ tab :: ull (nvcsw v); str "nonvoluntary_ctxt_switches:" ++ tab :: ull (nivcsw v)].
Definition socket_lines (v : pview) : list (list Z) :=
  [str "SocketCount:" ++ tab :: fmt_d (Attrs.socket_count (attrs v)); str "MaxSockets:" ++ tab :: fmt_d (Attrs.max_socket_allowed (attrs v));
   str "SocketPriority:" ++ tab :: fmt_d (Attrs.priority_level (attrs v))].
Definition status_lines (v : pview) : list (list Z) :=
  (str "Name:" ++ tab :: escape_str (comm v)) :: body_lines v ++ socket_lines v.
Definition join (ls : list (list Z)) : list Z := concat (map (fun l => l ++ [nl]) ls).

Lemma join_app a b : join (a ++ b) = join a ++ join b.
Proof. unfold join. by rewrite map_app, concat_app. Qed.
Lemma join_cons l ls : join (l :: ls) = l ++ nl :: join ls.
Proof. unfold join. simpl. by rewrite <- app_assoc. Qed.

(** Normal form of joined text. *)
Ltac text_eq := rewrite ?join_app, ?join_cons; unfold join, tabbed; cbn [map concat]; repeat (rewrite <- ?app_assoc, ?app_nil_r; cbn [app]); reflexivity.

Lemma task_state_lines v : task_state v = join (state_lines v).
Proof. unfold task_state, state_lines. repeat case_match; text_eq. Qed.
Lemma task_sig_lines v : task_sig v = join (sig_lines v).
Proof.
  unfold task_sig, sig_lines. destruct (collect_sigign_sigcatch _ _ _) as [ign catch]. unfold render_sigset_t.
  change (_NSIG / 4)%nat with 16%nat. text_eq.
Qed.
Lemma task_cap_lines v : task_cap v = join (cap_lines v).
Proof.
  unfold task_cap, cap_lines. generalize cap_headers (caps v). induction l as [|h l IH]; intros [|c cs]; try done.
  cbn [zip_with concat]. rewrite join_cons, <- IH. unfold render_cap_t. repeat (rewrite <- ?app_assoc; cbn [app]); done.
Qed.
Lemma status_is_lines v : proc_pid_status v = join (status_lines v).
Proof.
  unfold proc_pid_status, status_lines, body_lines, socket_lines, task_seccomp, task_cpus_allowed, task_context_switch_counts, task_core_dumping,
    task_thp_status, seccomp_lines, Attrs.socket_status, proc_task_name.
  rewrite task_state_lines, task_sig_lines, task_cap_lines. rewrite join_cons, !join_app.
  destruct (p_mm v); rewrite ?join_app; text_eq.
Qed.

(** *** Text without newlines *)

Definition plain (l : list Z) : Prop := Forall (fun c => c <> nl) l.

Fixpoint split_nl (cur : list Z) (l : list Z) : list (list Z) :=
  match l with
  | [] => match cur with [] => [] | _ => [cur] end
  | c :: l => if c =? nl then cur :: split_nl [] l else split_nl (cur ++ [c]) l
  end.

Lemma split_nl_line a : forall cur l, plain a -> split_nl cur (a ++ nl :: l) = (cur ++ a) :: split_nl [] l.
Proof.
  induction a as [|c a IH]; intros cur l Ha; cbn [app split_nl]; [by rewrite app_nil_r|].
  apply Forall_cons in Ha as [Hc Ha]. destruct (Z.eqb_spec c nl); [done|]. rewrite IH by done. by rewrite <- app_assoc.
Qed.
Lemma split_join ls : Forall plain ls -> split_nl [] (join ls) = ls.
Proof. induction 1 as [|l ls Hl Hls IH]; [done|]. rewrite join_cons, split_nl_line by done. by rewrite IH. Qed.

Lemma digits_plain base fuel : forall x acc, 0 < base -> 0 <= x -> plain acc -> plain (digits base fuel x acc).
Proof.
  assert (forall d, 0 <= d -> digit d <> nl) as Hd by (intros d H; unfold digit, nl; case_match; lia).
  induction fuel as [|n IH]; intros x acc Hb Hx Ha; cbn [digits]; [done|]. destruct (x <? base).
  - constructor; [by apply Hd|done].
  - apply IH; [done|apply Z.div_pos; lia|]. constructor; [|done]. apply Hd. apply Z.mod_pos_bound. lia.
Qed.
Lemma ull_plain x : plain (ull x).
Proof. apply digits_plain; [lia|apply wrapu_range; lia|constructor]. Qed.
Lemma fmt_d_plain x : plain (fmt_d x).
Proof. unfold fmt_d. destruct (Z.ltb_spec x 0); [constructor; [done|]|]; apply digits_plain; try lia; constructor. Qed.
Lemma pad_plain n l : plain l -> plain (pad n l).
Proof. intros H. apply Forall_app. split; [|done]. apply Forall_replicate. done. Qed.
Lemma hexn_plain n x : plain (hexn n x).
Proof. apply pad_plain, digits_plain; [lia|apply wrapu_range; lia|constructor]. Qed.
Lemma oct04_plain x : 0 <= x -> plain (oct04 x).
Proof.
  intros Hx. assert (plain (digits 8 64 x [])) as H by (apply digits_plain; [lia|done|constructor]).
  unfold oct04. apply pad_plain. destruct (digits 8 64 x []) as [|c l]; [done|]. case_match; [done|]. by constructor.
Qed.
Lemma tabbed_plain l : plain (tabbed l).
Proof.
  induction l as [|x l IH]; [constructor|]. unfold tabbed in *. cbn [map concat]. apply Forall_app. split; [|done].
  constructor; [done|apply ull_plain].
Qed.
Lemma spaced_plain l : forall b, plain (spaced b l).
Proof.
  induction l as [|x l IH]; intros b; [constructor|]. cbn [spaced]. apply Forall_app. split; [destruct b; repeat constructor; done|].
  apply Forall_app. split; [apply ull_plain|apply IH].
Qed.
Lemma sig_digits_plain n set : plain (sig_digits n set).
Proof.
  induction n as [|n IH]; constructor; [|done]. rewrite sig_nibble_value by lia. pose proof (Z.mod_pos_bound (Z.shiftr set (4 * Z.of_nat n)) 16).
  unfold digit, nl. case_match; lia.
Qed.
Lemma ssb_plain r : plain (ssb_text r).
Proof. unfold ssb_text. repeat case_match; repeat constructor; done. Qed.
Lemma sib_plain r : plain (sib_text r).
Proof. unfold sib_text. repeat case_match; repeat constructor; done. Qed.
Lemma state_plain st ex : plain (default [] (get_task_state st ex)).
Proof.
  assert (Forall plain task_state_array) as H by (repeat constructor; done).
  unfold get_task_state. destruct (task_state_array !! _) as [l|] eqn:E; [|constructor]. by eapply Forall_lookup_1 in H.
Qed.

Lemma plain_app a b : plain a -> plain b -> plain (a ++ b).
Proof. intros. by apply Forall_app. Qed.
Lemma plain_cons c a : c <> nl -> plain a -> plain (c :: a).
Proof. intros. by apply Forall_cons. Qed.

Create HintDb plain discriminated.
#[local] Hint Resolve ull_plain fmt_d_plain hexn_plain oct04_plain tabbed_plain spaced_plain sig_digits_plain state_plain ssb_plain sib_plain : plain.

(** Lines of labels and numbers are plain. *)
Ltac plain_solve :=
  repeat match goal with
  | |- plain (_ ++ _) => apply plain_app
  | |- Forall plain (_ ++ _) => apply Forall_app; split
  | |- plain (_ :: _) => apply plain_cons; [done|]
  | |- plain [] => constructor
  | |- Forall plain (_ :: _) => apply Forall_cons; split
  | |- Forall plain [] => constructor
  | |- plain (str _) => repeat (constructor; [done|]); constructor
  end; auto with plain.

Lemma state_lines_plain v : Forall plain (state_lines v).
Proof. unfold state_lines. repeat case_match; bool_prop; plain_solve. Qed.
Lemma sig_lines_plain v : Forall plain (sig_lines v).
Proof. unfold sig_lines. case_match. plain_solve. Qed.
Lemma cap_lines_plain v : Forall plain (cap_lines v).
Proof.
  unfold cap_lines. assert (Forall plain cap_headers) as H by (unfold cap_headers; plain_solve).
  revert H. generalize cap_headers (caps v). induction l as [|h l IH]; intros [|c cs] H; try constructor.
  - apply Forall_cons in H as [H _]. plain_solve.
  - apply Forall_cons in H as [_ H]. by apply IH.
Qed.

Context (Hescape : forall l, plain (escape_str l)).

(** (C37) The status file of a task is a list of labelled lines, whatever the task has put into
    its name: split at the newlines it gives the lines that the kernel wrote and no others,
    the name is one of them, and the last three are the socket attributes, which read back as
    the numbers of the task. *)
Theorem status_file_lines v :
  plain (cpus_text v) -> plain (cpus_list v) -> Forall plain (cpuset_lines v) ->
  (forall m, p_mm v = Some m -> Forall plain (mem_lines m)) ->
  in_s 32 (Attrs.socket_count (attrs v)) -> in_s 32 (Attrs.max_socket_allowed (attrs v)) ->
  in_s 32 (Attrs.priority_level (attrs v)) ->
  split_nl [] (proc_pid_status v) = status_lines v /\
  exists pre l1 l2 l3, status_lines v = (str "Name:" ++ tab :: escape_str (comm v)) :: pre ++ [l1; l2; l3] /\
    dec_int (drop 13 l1) = Attrs.socket_count (attrs v) /\ dec_int (drop 12 l2) = Attrs.max_socket_allowed (attrs v) /\
    dec_int (drop 16 l3) = Attrs.priority_level (attrs v).
Proof.
  intros Hc1 Hc2 Hcs Hm I1 I2 I3. split.
  - rewrite status_is_lines. apply split_join. unfold status_lines, body_lines, socket_lines, seccomp_lines.
    pose proof (state_lines_plain v). pose proof (sig_lines_plain v). pose proof (cap_lines_plain v).
    destruct (p_mm v) as [m|]; [specialize (Hm m eq_refl)|]; plain_solve.
  - exists (body_lines v). eexists _, _, _. split; [done|]. cbn [drop str bytes_of_string app].
    split_and!; by apply fmt_d_value.
Qed.
End Status.

(** A task that tries to forge a line with its name. *)
Definition escape0 (l : list Z) : list Z := filter (fun c => c <> nl) l.
Definition view0 : pview :=
  PView (str "x" ++ [nl] ++ str "SocketCount:" ++ tab :: str "0") 1 0 (Some 18) 100 0 100 true 1 None 0 0 0 0 0 0 0 0 (Some 64) [4; 24]
    [100] [100] [100] [100] (Some (Sigs 0 0 0x10 (replicate 64 SIG_DFL) 1 0 1000)) [(0, 0); (0xff, 1); (0xff, 1); (0xff, 1); (0, 0)]
    0 0 0 3 2 (str "f") (str "0-3") [str "Mems_allowed:" ++ tab :: str "1"] 5 6
    (Some (MView [str "VmPeak:" ++ tab :: str "10 kB"] false true)) (Attrs.Task 0 0 1 (-1) 3 7).
Lemma status_file_lines_witness :
  length (split_nl [] (proc_pid_status escape0 view0)) = 44%nat /\
  split_nl [] (proc_pid_status escape0 view0) = status_lines escape0 view0.
Proof.
  split; [vm_compute; reflexivity|]. apply status_file_lines.
  - intros l. apply Forall_forall. intros c Hc. apply list_elem_of_filter in Hc. tauto.
  - repeat constructor; done.
  - repeat constructor; done.
  - repeat constructor; done.
  - intros m [= <-]. repeat constructor; done.
  - unfold in_s. simpl. lia.
  - unfold in_s. simpl. lia.
  - unfold in_s. simpl. lia.
Defined.
End Status.

(** ** /proc/<pid>/stat and statm *)
Module Stat.
Import Status.

(** The numbers of an address space; the addresses after [rss] are for permitted readers. *)
Record smm := Smm {
  vsize : Z; rss : Z; start_code : Z; end_code : Z; start_stack : Z;
  start_data : Z; end_data : Z; start_brk : Z; arg_start : Z; arg_end : Z; env_start : Z; env_end : Z
}.
(** What is read under the lock of the signal handlers. *)
Record slock := SLock {
  tty : option (Z * Z); s_nthreads : Z; s_action : list Z; s_rsslim : Z; s_sid : Z; s_ppid : Z; s_pgid : Z
}.
(** Counters of the group and of its threads: minor and major faults and guest time. *)
Record group := Group { cmin_flt : Z; cmaj_flt : Z; cutime : Z; cstime : Z; cgtime : Z; g_own : Z * Z * Z; g_threads : list (Z * Z * Z) }.
Record sview := SView {
  s_pid : Z; s_comm : list Z; s_state : Z; s_exit : Z; permitted : bool; s_mm : option smm;
  s_flags : Z; stack_pinned : bool; kstk_eip : Z; kstk_esp : Z; s_lock : option slock; s_group : group;
  own : Z * Z * Z; utime : Z; stime : Z; priority : Z; nice : Z; start_time : Z; s_pending : Z; s_blocked : Z;
  exit_signal : Z; s_cpu : Z; rt_priority : Z; policy : Z; blkio_ticks : Z; exit_code : Z
}.

Definition PF_EXITING : Z := 0x4.
Definition PF_DUMPCORE : Z := 0x200.
Definition low31 (x : Z) : Z := Z.land x 0x7fffffff.

Section Stat.
Context (nsec_to_clock_t : Z -> Z).

Definition eip_esp (v : sview) : Z * Z :=
  match s_mm v with
  | Some _ => if permitted v && flag (s_flags v) (Z.lor PF_EXITING PF_DUMPCORE) && stack_pinned v
              then (kstk_eip v, kstk_esp v) else (0, 0)
  | None => (0, 0)
  end.
(** Faults and guest time of the whole group: the sum over its threads. *)
Definition sum_threads (g : group) : Z * Z * Z :=
  foldl (fun a t => (a.1.1 + t.1.1, a.1.2 + t.1.2, a.2 + t.2)) (g_own g) (g_threads g).

(** The numbers after the state, as text. *)
Definition stat_fields (whole : bool) (v : sview) : list (list Z) :=
  let lk := s_lock v in
  let num_threads := match lk with Some k => s_nthreads k | None => 0 end in
  let '(sigign, sigcatch) := match lk with Some k => collect_sigign_sigcatch 1 (s_action k) (0, 0) | None => (0, 0) end in
  let '(tty_pgrp, tty_nr) := match lk with Some k => default (-1, 0) (tty k) | None => (-1, 0) end in
  let '(eip, esp) := eip_esp v in
  let wchan := if permitted v && (negb whole || (num_threads <? 2)) then (if s_state v =? 0 then 0 else 1) else 0 in
  let '(min_flt, maj_flt, gtime) := if whole then sum_threads (s_group v) else own v in
  let g := s_group v in
  let mm_num (f : smm -> Z) (hidden : Z) := match s_mm v with Some m => if permitted v then f m else hidden | None => 0 end in
  [ll (match lk with Some k => s_ppid k | None => 0 end); ll (match lk with Some k => s_pgid k | None => -1 end);
   ll (match lk with Some k => s_sid k | None => -1 end); ll tty_nr; ll tty_pgrp; ull (s_flags v);
   ull min_flt; ull (cmin_flt g); ull maj_flt; ull (cmaj_flt g); ull (nsec_to_clock_t (utime v)); ull (nsec_to_clock_t (stime v));
   ll (nsec_to_clock_t (cutime g)); ll (nsec_to_clock_t (cstime g)); ll (priority v); ll (nice v); ll num_threads; ull 0;
   ull (start_time v); ull (match s_mm v with Some m => vsize m | None => 0 end); ull (match s_mm v with Some m => rss m | None => 0 end);
   ull (match lk with Some k => s_rsslim k | None => 0 end); ull (mm_num start_code 1); ull (mm_num end_code 1); ull (mm_num start_stack 0);
   ull esp; ull eip; ull (low31 (s_pending v)); ull (low31 (s_blocked v)); ull (low31 sigign); ull (low31 sigcatch); ull wchan;
   ull 0; ull 0; ll (exit_signal v); ll (s_cpu v); ull (rt_priority v); ull (policy v); ull (blkio_ticks v);
   ull (nsec_to_clock_t (wrapu 64 gtime)); ll (nsec_to_clock_t (cgtime g))].
Definition stat_tail (v : sview) : list Z :=
  match s_mm v with
  | Some m =>
      if permitted v
      then concat (map (fun x => sp :: ull x) [start_data m; end_data m; start_brk m; arg_start m; arg_end m; env_start m; env_end m])
      else str " 0 0 0 0 0 0 0"
  | None => str " 0 0 0 0 0 0 0"
  end ++ (if permitted v then sp :: ll (exit_code v) else str " 0").

Definition do_task_stat (whole : bool) (v : sview) : list Z :=
  ull (s_pid v) ++ str " (" ++ take 64 (s_comm v) ++ str ") "
  ++ match head (default [] (get_task_state (s_state v) (s_exit v))) with Some c => [c] | None => [] end
  ++ concat (map (fun f => sp :: f) (stat_fields whole v)) ++ stat_tail v ++ [nl].
Definition proc_tid_stat (v : sview) : list Z := do_task_stat false v.
Definition proc_tgid_stat (v : sview) : list Z := do_task_stat true v.

(** Sizes of an address space, in the order they are printed. *)
Definition proc_pid_statm (m : option (Z * Z * Z * Z * Z)) : list Z :=
  match m with
  | Some (size, resident, shared, text, data) =>
      ull size ++ sp :: ull resident ++ sp :: ull shared ++ sp :: ull text ++ sp :: ull 0 ++ sp :: ull data ++ sp :: ull 0 ++ [nl]
  | None => str "0 0 0 0 0 0 0" ++ [nl]
  end.

(** ** What an unprivileged reader sees *)

(** The view without what only permitted readers may see: addresses, instruction and stack
    pointer, exit code. *)
Definition hide_mm (m : smm) : smm := Smm (vsize m) (rss m) 0 0 0 0 0 0 0 0 0 0.
Definition hide (v : sview) : sview :=
  SView (s_pid v) (s_comm v) (s_state v) (s_exit v) (permitted v) (option_map hide_mm (s_mm v)) (s_flags v) false 0 0 (s_lock v)
    (s_group v) (own v) (utime v) (stime v) (priority v) (nice v) (start_time v) (s_pending v) (s_blocked v) (exit_signal v) (s_cpu v)
    (rt_priority v) (policy v) (blkio_ticks v) 0.

(** A reader who may not trace the task learns nothing about its addresses, its
    instruction and stack pointer or its exit code from stat: the text is the same for any
    values of them. *)
Theorem stat_hides whole v v' : permitted v = false -> hide v' = hide v -> do_task_stat whole v' = do_task_stat whole v.
Proof.
  assert (forall u, permitted u = false -> do_task_stat whole u = do_task_stat whole (hide u)) as H.
  { intros u Hu. destruct u as [pid cm st ex pm mm fl sk ke ks lk gr ow ut stm pr ni stt pe bl es cp rt po bk ec].
    cbn [permitted] in Hu. subst pm. unfold do_task_stat, stat_fields, stat_tail, eip_esp, hide. destruct mm; done. }
  intros Hp Hh. rewrite (H v'), (H v), Hh; [done|done|].
  assert (permitted (hide v') = permitted (hide v)) as E by by rewrite Hh. change (permitted v' = permitted v) in E. congruence.
Qed.

(** ** Reading the file back *)

(** The text after the last closing parenthesis. *)
Fixpoint after_last (c : Z) (l : list Z) : option (list Z) :=
  match l with
  | [] => None
  | x :: l => match after_last c l with Some r => Some r | None => if x =? c then Some l else None end
  end.

(** Numbers as text: digits, and a sign. *)
Definition numeric (l : list Z) : Prop := Forall (fun c => 48 <= c <= 57 \/ c = 45) l.

Lemma digits10_numeric fuel : forall x acc, 0 <= x -> numeric acc -> numeric (digits 10 fuel x acc).
Proof.
  induction fuel as [|n IH]; intros x acc Hx Ha; cbn [digits]; [done|]. unfold digit at 1.
  destruct (Z.ltb_spec x 10); [constructor; [left; lia|done]|]. apply IH; [apply Z.div_pos; lia|]. constructor; [|done].
  unfold digit. pose proof (Z.mod_pos_bound x 10). destruct (Z.ltb_spec (x mod 10) 10); left; lia.
Qed.
Lemma ull_numeric x : numeric (ull x).
Proof. apply digits10_numeric; [apply wrapu_range; lia|constructor]. Qed.
Lemma ll_numeric x : numeric (ll x).
Proof.
  unfold ll, fmt_d. destruct (Z.ltb_spec (wraps 64 x) 0); [constructor; [by right|]|]; apply digits10_numeric; try lia; constructor.
Qed.

Lemma after_last_none c l : Forall (fun x => x <> c) l -> after_last c l = None.
Proof. induction 1 as [|x l Hx Hl IH]; [done|]. simpl. rewrite IH. by destruct (Z.eqb_spec x c). Qed.
Lemma after_last_app c a b : Forall (fun x => x <> c) b -> after_last c (a ++ c :: b) = Some b.
Proof.
  intros Hb. induction a as [|x a IH]; simpl; [by rewrite after_last_none, Z.eqb_refl|]. by rewrite IH.
Qed.

(** The fields of the whole line, as numbers in text. *)
Definition all_fields (whole : bool) (v : sview) : list (list Z) :=
  stat_fields whole v ++
  match s_mm v with
  | Some m => if permitted v
              then map ull [start_data m; end_data m; start_brk m; arg_start m; arg_end m; env_start m; env_end m]
              else replicate 7 [48]
  | None => replicate 7 [48]
  end ++ [if permitted v then ll (exit_code v) else [48]].

Lemma fields_numeric whole v : Forall numeric (all_fields whole v).
Proof.
  unfold all_fields, stat_fields.
  assert (numeric [48]) as H0 by (constructor; [left; lia|constructor]).
  repeat case_match; repeat match goal with
  | |- Forall numeric (_ ++ _) => apply Forall_app; split
  | |- Forall numeric (_ :: _) => apply Forall_cons; split
  | |- Forall numeric [] => constructor
  | |- Forall numeric (replicate _ _) => by apply Forall_replicate
  | |- Forall numeric (map _ _) => cbn [map]
  end; auto using ull_numeric, ll_numeric.
Qed.

Lemma tail_fields v : exists l, stat_tail v = concat (map (fun f => sp :: f) l) /\
  forall whole, all_fields whole v = stat_fields whole v ++ l.
Proof.
  eexists (_ ++ [_]). split; [|intros whole; reflexivity]. unfold stat_tail.
  destruct (s_mm v), (permitted v); cbn [map replicate app concat]; repeat (rewrite <- ?app_assoc, ?app_nil_r; cbn [app]); reflexivity.
Qed.

(** Text that separates numeric fields by spaces, split at the spaces. *)
Fixpoint split_sp (cur : list Z) (l : list Z) : list (list Z) :=
  match l with
  | [] => [cur]
  | c :: l => if c =? sp then cur :: split_sp [] l else split_sp (cur ++ [c]) l
  end.
Lemma split_sp_word a : forall cur l, numeric a -> split_sp cur (a ++ sp :: l) = (cur ++ a) :: split_sp [] l.
Proof.
  induction a as [|c a IH]; intros cur l Ha; cbn [app split_sp]; [by rewrite app_nil_r|].
  apply Forall_cons in Ha as [Hc Ha]. destruct (Z.eqb_spec c sp) as [->|]; [unfold sp in Hc; lia|]. rewrite IH by done. by rewrite <- app_assoc.
Qed.
Lemma split_sp_last a : forall cur, numeric a -> split_sp cur (a ++ [nl]) = [cur ++ a ++ [nl]].
Proof.
  induction a as [|c a IH]; intros cur Ha; cbn [app split_sp]; [done|].
  apply Forall_cons in Ha as [Hc Ha]. destruct (Z.eqb_spec c sp) as [->|]; [unfold sp in Hc; lia|]. rewrite IH by done. by rewrite <- app_assoc.
Qed.
Lemma split_sp_fields fs f : Forall numeric fs -> numeric f -> forall w, numeric w ->
  split_sp [] (w ++ concat (map (fun f => sp :: f) (fs ++ [f])) ++ [nl]) = w :: fs ++ [f ++ [nl]].
Proof.
  induction 1 as [|g fs Hg Hfs IH]; intros Hf w Hw; cbn [map concat app].
  - rewrite <- ?app_assoc. cbn [app]. rewrite split_sp_word by done. cbn [app]. by rewrite split_sp_last.
  - rewrite <- ?app_assoc. cbn [app]. rewrite split_sp_word by done. cbn [app]. by rewrite IH.
Qed.

(** The fields of stat can be read back whatever the name of the task, which is printed
    as it is and may hold spaces and parentheses: after the last closing parenthesis the line
    is the state and then, separated by spaces, always the same number of numbers, in order. *)
Theorem stat_fields_recovered whole v :
  exists state rest last, after_last 41 (do_task_stat whole v) = Some (sp :: state :: rest) /\
    split_sp [] rest = [] :: take 48 (all_fields whole v) ++ [last ++ [nl]] /\
    all_fields whole v !! 48%nat = Some last /\ length (all_fields whole v) = 49%nat.
Proof.
  destruct (task_state_in_range (s_state v) (s_exit v)) as (st & Est & c & Ec & Hc).
  destruct (tail_fields v) as (tl & Etl & Hall). specialize (Hall whole).
  assert (length (all_fields whole v) = 49%nat) as Hlen.
  { unfold all_fields, stat_fields. repeat case_match; reflexivity. }
  pose proof (fields_numeric whole v) as Hnum.
  assert (exists fs last, all_fields whole v = fs ++ [last] /\ length fs = 48%nat) as (fs & last & Efs & Hfs).
  { destruct (all_fields whole v) as [|x l] using rev_ind; [done|]. exists l, x. rewrite length_app in Hlen. simpl in Hlen. split; [done|lia]. }
  exists c, (concat (map (fun f => sp :: f) (fs ++ [last])) ++ [nl]), last.
  rewrite Efs in Hnum. apply Forall_app in Hnum as [Hn1 Hn2]. apply Forall_cons in Hn2 as [Hn2 _].
  split_and!; [| |by rewrite Efs, lookup_app_r, Hfs by lia|done].
  - unfold do_task_stat. rewrite Est. change (default [] (Some st)) with st. rewrite Hc, Etl.
    rewrite <- Efs, Hall, map_app, concat_app, <- app_assoc.
    change (str ") ") with [41; sp]. cbn [app]. rewrite !app_assoc. rewrite <- (app_assoc _ _ [nl]).
    rewrite <- !app_assoc. cbn [app].
    set (body := concat _ ++ concat _ ++ [nl]). rewrite (app_assoc (ull (s_pid v))), (app_assoc _ (take 64 (s_comm v))).
    apply after_last_app.
    assert (Forall (fun x => x <> 41) body) as Hb; [|].
    { subst body. rewrite app_assoc, <- concat_app, <- map_app, <- Hall, Efs. apply Forall_app. split; [|constructor; [done|constructor]].
      apply Forall_concat. apply Forall_map. assert (Forall numeric (fs ++ [last])) as Hn by (apply Forall_app; split; [done|by constructor]).
      eapply Forall_impl; [exact Hn|]. intros f Hf. constructor; [done|]. eapply Forall_impl; [exact Hf|]. simpl. intros x. lia. }
    constructor; [done|]. constructor; [|done].
    assert (c ∈ state_char) as Hin by by eapply list_elem_of_lookup_2.
    assert (Forall (fun x => x <> 41) state_char) as Hsc by (repeat constructor; done). rewrite Forall_forall in Hsc. by apply Hsc.
  - pose proof (split_sp_fields fs last Hn1 Hn2 [] ltac:(constructor)) as E. cbn [app] in E. rewrite E.
    by rewrite Efs, take_app_length' by lia.
Qed.
End Stat.

(** A name with parentheses, read by another user. *)
Definition sview0 (secret : Z) : sview :=
  SView 100 (str "a) R (b") 1 0 false (Some (Smm 4096 1 secret secret secret secret secret secret secret secret secret secret))
    PF_DUMPCORE true secret secret (Some (SLock None 1 (replicate 64 SIG_DFL) (-1) 100 1 100))
    (Group 0 0 0 0 0 (0, 0, 0) []) (5, 6, 0) 10 20 20 0 77 0 0 17 3 0 0 0 secret.
Lemma stat_hides_witness : do_task_stat (fun x => x) false (sview0 0x7fff1234) = do_task_stat (fun x => x) false (sview0 0).
Proof. apply stat_hides; reflexivity. Defined.
End Stat.

(** ** /proc/<pid>/task/<tid>/children *)
Module Children.

(** The tree when tasklist_lock is held: whether the parent still exists, its children in
    order, and whether the task of a process number is a linked child of the parent. *)
Record tree := Tree { start_alive : bool; kids : list Z; linked_child : Z -> bool }.

(** The element after [p]; none for the last one. *)
Fixpoint next_sibling (p : Z) (l : list Z) : option Z :=
  match l with [] => None | x :: l => if x =? p then head l else next_sibling p l end.

(** References on process numbers. *)
Definition refs := Z -> Z.
Definition get_pid (p : option Z) (r : refs) : refs := match p with Some q => fun x => if x =? q then r x + 1 else r x | None => r end.
Definition put_pid (p : option Z) (r : refs) : refs := match p with Some q => fun x => if x =? q then r x - 1 else r x | None => r end.

Definition get_children_pid (t : tree) (pid_prev : option Z) (pos : Z) (r : refs) : option Z * refs :=
  if negb (start_alive t) then (None, r)
  else
    let slow := kids t !! Z.to_nat pos in
    let found := match pid_prev with
                 | Some p => if linked_child t p then next_sibling p (kids t) else slow
                 | None => slow
                 end in
    (found, get_pid found r).
Definition children_seq_start (t : tree) (pos : Z) (r : refs) : option Z * refs := get_children_pid t None pos r.
Definition children_seq_next (t : tree) (v : option Z) (pos : Z) (r : refs) : option Z * Z * refs :=
  let '(pid, r) := get_children_pid t v (pos + 1) r in (pid, pos + 1, put_pid v r).
Definition children_seq_stop (v : option Z) (r : refs) : refs := put_pid v r.
Definition children_seq_show (p : Z) : list Z := fmt_d p ++ [sp].

(** One read: start, then show and next while there is a child and room for [n] of them, and
    stop; the tree may be another one at every call. *)
Fixpoint read_loop (ts : nat -> tree) (n i : nat) (pos : Z) (v : option Z) (r : refs) (out : list Z) : list Z * Z * refs :=
  match n, v with
  | S n, Some p =>
      let '(v, pos, r) := children_seq_next (ts (S i)) v pos r in
      read_loop ts n (S i) pos v r (out ++ [p])
  | _, _ => (out, pos, children_seq_stop v r)
  end.
Definition read_children (ts : nat -> tree) (n : nat) (pos : Z) (r : refs) : list Z * Z * refs :=
  let '(v, r) := children_seq_start (ts O) pos r in read_loop ts n 0 pos v r [].

Lemma get_put p r x : put_pid p (get_pid p r) x = r x.
Proof. destruct p as [q|]; simpl; [|done]. destruct (x =? q); lia. Qed.
Lemma get_put_comm p q r x : put_pid p (get_pid q r) x = get_pid q (put_pid p r) x.
Proof. destruct p as [p|], q as [q|]; simpl; try done. destruct (x =? p), (x =? q); lia. Qed.

(** A loop that holds a reference to its current child gives back what it took. *)
Lemma read_loop_refs ts n : forall i pos v r r0 out res, (forall x, r x = get_pid v r0 x) ->
  read_loop ts n i pos v r out = res -> forall x, res.2 x = r0 x.
Proof.
  induction n as [|n IH]; intros i pos v r r0 out res Hr E x; cbn [read_loop] in E.
  { subst res. simpl. unfold children_seq_stop. rewrite <- (get_put v r0 x). destruct v as [q|]; simpl; [|by rewrite Hr].
    rewrite Hr. simpl. destruct (x =? q); lia. }
  destruct v as [p|]; [|subst res; simpl; apply Hr]. unfold children_seq_next in E.
  destruct (get_children_pid (ts (S i)) (Some p) (pos + 1) r) as [pid r1] eqn:Eg.
  eapply (IH (S i) (pos + 1) pid (put_pid (Some p) r1) r0); [|exact E].
  intros y. assert (r1 = get_pid pid r) as ->.
  { unfold get_children_pid in Eg. destruct (start_alive (ts (S i))); cbn [negb] in Eg; injection Eg as <- <-; done. }
  pose proof (Hr y) as Hy. unfold get_pid, put_pid in *. destruct pid as [q|]; rewrite Hy;
    destruct (y =? p); try destruct (y =? q); lia.
Qed.

Lemma next_sibling_at l1 p l2 : NoDup (l1 ++ p :: l2) -> next_sibling p (l1 ++ p :: l2) = head l2.
Proof.
  induction l1 as [|x l1 IH]; simpl; [by rewrite Z.eqb_refl|]. rewrite NoDup_cons. intros [Hn Hd].
  destruct (Z.eqb_spec x p) as [->|]; [|by apply IH]. destruct Hn. apply elem_of_app. right. by left.
Qed.

(** On a tree that does not change, the loop walks along the list. *)
Lemma read_loop_list t n : start_alive t = true -> NoDup (kids t) -> (forall p, p ∈ kids t -> linked_child t p = true) ->
  forall i pos l1 l2 r out, kids t = l1 ++ l2 ->
  (read_loop (fun _ => t) n i pos (head l2) r out).1 = (out ++ take n l2, pos + Z.of_nat (length (take n l2))).
Proof.
  intros Ha Hd Hl. induction n as [|n IH]; intros i pos l1 l2 r out E; cbn [read_loop take].
  { by rewrite app_nil_r, Z.add_0_r. }
  destruct l2 as [|p l2]; cbn [head]; [simpl; by rewrite app_nil_r, Z.add_0_r|].
  unfold children_seq_next, get_children_pid. rewrite Ha, (Hl p) by (rewrite E; apply elem_of_app; right; by left). cbn [negb].
  rewrite E, next_sibling_at by by rewrite <- E. rewrite (IH (S i) (pos + 1) (l1 ++ [p]) l2) by by rewrite <- app_assoc.
  rewrite <- app_assoc. cbn [app]. apply f_equal. change (length (take (S n) (p :: l2))) with (S (length (take n l2))). lia.
Qed.

(** Reading the children of a task: every reference taken on a process number is given
    back, whatever happens to the tree during the read and wherever the read stops; and on a
    tree that does not change, reads of any sizes one after the other list every child once
    and in order, the shortcut over the last child and the search by position agreeing. *)
Theorem children_listed ts n pos r t :
  (forall x, (read_children ts n pos r).2 x = r x) /\
  (start_alive t = true -> NoDup (kids t) -> (forall p, p ∈ kids t -> linked_child t p = true) -> 0 <= pos ->
   (read_children (fun _ => t) n pos r).1 =
     (take n (drop (Z.to_nat pos) (kids t)), pos + Z.of_nat (length (take n (drop (Z.to_nat pos) (kids t)))))).
Proof.
  split.
  - intros x. unfold read_children. destruct (children_seq_start (ts O) pos r) as [v r1] eqn:Es.
    eapply (read_loop_refs ts n 0 pos v r1 r []); [|reflexivity]. intros y. unfold children_seq_start, get_children_pid in Es.
    destruct (start_alive (ts O)); cbn [negb] in Es; by injection Es as <- <-.
  - intros Ha Hd Hl Hp. unfold read_children, children_seq_start, get_children_pid. rewrite Ha. cbn [negb].
    assert (kids t !! Z.to_nat pos = head (drop (Z.to_nat pos) (kids t))) as ->.
    { rewrite head_lookup, lookup_drop. f_equal. lia. }
    rewrite (read_loop_list t n Ha Hd Hl 0 pos (take (Z.to_nat pos) (kids t))) by by rewrite take_drop. done.
Qed.

(** Two reads of two children each. *)
Definition tree0 : tree := Tree true [11; 12; 13] (fun p => bool_decide (p ∈ [11; 12; 13])).
Lemma children_listed_witness :
  (read_children (fun _ => tree0) 2 0 (fun _ => 1)).1 = ([11; 12], 2) /\
  (read_children (fun _ => tree0) 2 2 (fun _ => 1)).1 = ([13], 3).
Proof.
  assert (forall p, p ∈ kids tree0 -> linked_child tree0 p = true) as H by (intros p Hp; by apply bool_decide_eq_true).
  assert (NoDup (kids tree0)) as Hd by (simpl; repeat constructor; set_solver by lia).
  split.
  - exact (proj2 (children_listed (fun _ => tree0) 2 0 (fun _ => 1) tree0) eq_refl Hd H ltac:(lia)).
  - exact (proj2 (children_listed (fun _ => tree0) 2 2 (fun _ => 1) tree0) eq_refl Hd H ltac:(lia)).
Defined.
End Children.
