(* ===== verification/SockReg.v ===== *)
(** * Registration of protocols and families
    (src/kvm/linux-5.15.178/net/core/sock.c and net/socket.c)

    [Protos]: proto_register and proto_unregister with the slab caches, their names and the
    indices of the usage counters.  [Families]: the table of address families and what
    __sock_create finds in it. *)

From S2P Require Import Prelude Socket.

Module Protos.

(** Names and slab caches are objects that live until they are freed. *)
Record heap := Heap { live : gset Z; next : Z }.
Definition alloc (ok : bool) (h : heap) : option Z * heap :=
  if ok then (Some (next h), Heap ({[next h]} ∪ live h) (next h + 1)) else (None, h).
(** kfree and kmem_cache_destroy: nothing for a null pointer, [None] for what is not live. *)
Definition free (o : option Z) (h : heap) : option heap :=
  match o with
  | None => Some h
  | Some x => if decide (x ∈ live h) then Some (Heap (live h ∖ {[x]}) (next h)) else None
  end.

(** The name and slab of request_sock_ops or timewait_sock_ops, which a protocol has for
    itself if it has them at all. *)
Record ops := Ops { slab_name : option Z; ops_slab : option Z }.
Record proto := Proto { slab : option Z; rsk_prot : option ops; twsk_prot : option ops; inuse_idx : nat }.
(** The protocols that exist by number, proto_list, the bitmap proto_inuse_idx. *)
Record reg := Reg { protos : gmap Z proto; proto_list : list Z; proto_inuse_idx : gset nat; mem : heap }.

(** Which allocations of a registration succeed. *)
Record renv := REnv { slab_ok : bool; req_name_ok : bool; req_slab_ok : bool; tw_name_ok : bool; tw_slab_ok : bool }.

(** The shape of req_prot_init and tw_prot_init. *)
Definition prot_init (name_ok cache_ok : bool) (o : option ops) (h : heap) : Z * option ops * heap :=
  match o with
  | None => (0, None, h)
  | Some p =>
      match alloc name_ok h with
      | (None, h) => (- ENOMEM, Some (Ops None (ops_slab p)), h)
      | (Some n, h) =>
          match alloc cache_ok h with
          | (None, h) => (- ENOMEM, Some (Ops (Some n) None), h)
          | (Some s, h) => (0, Some (Ops (Some n) (Some s)), h)
          end
      end
  end.
Definition req_prot_init (e : renv) (p : proto) (h : heap) : Z * option ops * heap :=
  prot_init (req_name_ok e) (req_slab_ok e) (rsk_prot p) h.
Definition tw_prot_init (e : renv) (p : proto) (h : heap) : Z * option ops * heap :=
  prot_init (tw_name_ok e) (tw_slab_ok e) (twsk_prot p) h.
(** The shape of req_prot_cleanup and tw_prot_cleanup. *)
Definition prot_cleanup (o : option ops) (h : heap) : option (option ops * heap) :=
  match o with
  | None => Some (None, h)
  | Some p => h ← free (slab_name p) h; h ← free (ops_slab p) h; Some (Some (Ops None None), h)
  end.
Definition req_prot_cleanup : option ops -> heap -> option (option ops * heap) := prot_cleanup.
Definition tw_prot_cleanup : option ops -> heap -> option (option ops * heap) := prot_cleanup.

(** find_first_zero_bit over the [n] bits from [i] on. *)
Fixpoint find_first_zero_bit (n i : nat) (used : gset nat) : nat :=
  match n with
  | O => i
  | S n => if decide (i ∈ used) then find_first_zero_bit n (S i) used else i
  end.

Section Protos.
Context (PROTO_INUSE_NR : nat).

Definition assign_proto_idx (used : gset nat) : Z * nat * gset nat :=
  let idx := find_first_zero_bit PROTO_INUSE_NR 0 used in
  if decide (idx = (PROTO_INUSE_NR - 1)%nat) then (- ENOSPC, idx, used) else (0, idx, {[idx]} ∪ used).
Definition release_proto_idx (idx : nat) (used : gset nat) : gset nat :=
  if decide (idx <> (PROTO_INUSE_NR - 1)%nat) then used ∖ {[idx]} else used.

Definition put_proto (id : Z) (p : proto) (h : heap) (r : reg) : reg :=
  Reg (<[id := p]> (protos r)) (proto_list r) (proto_inuse_idx r) h.

(** The labels of proto_register. *)
Definition out_free_request_sock_slab (alloc_slab : bool) (id ret : Z) (p : proto) (h : heap) (r : reg) : option (Z * reg) :=
  if alloc_slab then
    '(rsk, h) ← req_prot_cleanup (rsk_prot p) h;
    h ← free (slab p) h;
    Some (ret, put_proto id (Proto None rsk (twsk_prot p) (inuse_idx p)) h r)
  else Some (ret, put_proto id p h r).
Definition out_free_timewait_sock_slab (alloc_slab : bool) (id ret : Z) (p : proto) (h : heap) (r : reg) : option (Z * reg) :=
  if alloc_slab then
    '(tw, h) ← tw_prot_cleanup (twsk_prot p) h;
    out_free_request_sock_slab alloc_slab id ret (Proto (slab p) (rsk_prot p) tw (inuse_idx p)) h r
  else out_free_request_sock_slab alloc_slab id ret p h r.

(** proto_register under the mutex: the index and the list. *)
Definition publish_proto (alloc_slab : bool) (id : Z) (p : proto) (h : heap) (r : reg) : option (Z * reg) :=
  let '(ret, idx, used) := assign_proto_idx (proto_inuse_idx r) in
  let p := Proto (slab p) (rsk_prot p) (twsk_prot p) idx in
  if ztrue ret then out_free_timewait_sock_slab alloc_slab id ret p h r
  else Some (ret, Reg (<[id := p]> (protos r)) (id :: proto_list r) used h).

Definition proto_register (e : renv) (alloc_slab : bool) (id : Z) (r : reg) : option (Z * reg) :=
  p ← protos r !! id;
  if alloc_slab then
    let '(s, h) := alloc (slab_ok e) (mem r) in
    let p := Proto s (rsk_prot p) (twsk_prot p) (inuse_idx p) in
    if bool_decide (s = None) then Some (- ENOBUFS, put_proto id p h r)
    else
      let '(err, rsk, h) := req_prot_init e p h in
      let p := Proto (slab p) rsk (twsk_prot p) (inuse_idx p) in
      if ztrue err then out_free_request_sock_slab alloc_slab id (- ENOBUFS) p h r
      else
        let '(err, tw, h) := tw_prot_init e p h in
        let p := Proto (slab p) (rsk_prot p) tw (inuse_idx p) in
        if ztrue err then out_free_timewait_sock_slab alloc_slab id (- ENOBUFS) p h r
        else publish_proto alloc_slab id p h r
  else publish_proto alloc_slab id p (mem r) r.

Definition list_del (id : Z) (l : list Z) : list Z := filter (fun x => x <> id) l.
Definition proto_unregister (id : Z) (r : reg) : option reg :=
  p ← protos r !! id;
  let used := release_proto_idx (inuse_idx p) (proto_inuse_idx r) in
  h ← free (slab p) (mem r);
  '(rsk, h) ← req_prot_cleanup (rsk_prot p) h;
  '(tw, h) ← tw_prot_cleanup (twsk_prot p) h;
  Some (Reg (<[id := Proto None rsk tw (inuse_idx p)]> (protos r)) (list_del id (proto_list r)) used h).

(** sock_prot_inuse_get: the counters of every processor, an array of PROTO_INUSE_NR each;
    [None] for an index out of the array. *)
Fixpoint sum_at (idx : nat) (cpus : list (list Z)) (res : Z) : option Z :=
  match cpus with
  | [] => Some res
  | val :: cpus => x ← val !! idx; sum_at idx cpus (wraps 32 (res + x))
  end.
Definition sock_prot_inuse_get (p : proto) (cpus : list (list Z)) : option Z :=
  res ← sum_at (inuse_idx p) cpus 0; Some (if 0 <=? res then res else 0).

(** ** Registrations in any order *)

(** What a protocol holds. *)
Definition ops_held (o : option ops) : list Z :=
  match o with Some p => option_list (slab_name p) ++ option_list (ops_slab p) | None => [] end.
Definition held (p : proto) : list Z := option_list (slab p) ++ ops_held (rsk_prot p) ++ ops_held (twsk_prot p).

Inductive rstep : reg -> reg -> Prop :=
| r_register e alloc_slab id r ret r' : is_Some (protos r !! id) -> id ∉ proto_list r ->
    proto_register e alloc_slab id r = Some (ret, r') -> rstep r r'
| r_unregister id r r' : id ∈ proto_list r -> proto_unregister id r = Some r' -> rstep r r'.

(** *** Objects taken and given back *)

Definition bounded (h : heap) : Prop := forall x, x ∈ live h -> x < next h.
(** From [h] to [h'] exactly the objects [l] were made. *)
Definition grows (h : heap) (l : list Z) (h' : heap) : Prop :=
  live h' = list_to_set l ∪ live h /\ NoDup l /\ (forall x, x ∈ l -> next h <= x < next h') /\ next h <= next h'.

Lemma grows_nil h : grows h [] h.
Proof. split; [set_solver|]. split; [constructor|]. split; [set_solver|lia]. Qed.
Lemma grows_app h l1 h1 l2 h2 : grows h l1 h1 -> grows h1 l2 h2 -> grows h (l1 ++ l2) h2.
Proof.
  intros (L1 & D1 & R1 & N1) (L2 & D2 & R2 & N2). split; [rewrite L2, L1, list_to_set_app_L; set_solver|].
  split. { apply NoDup_app. split; [done|]. split; [|done]. intros x H1 H2. apply R1 in H1. apply R2 in H2. lia. }
  split; [|lia]. intros x [H|H]%elem_of_app; [apply R1 in H|apply R2 in H]; lia.
Qed.
Lemma alloc_grows ok h : grows h (option_list (alloc ok h).1) (alloc ok h).2.
Proof.
  destruct ok; simpl; [|apply grows_nil]. split; [set_solver|]. split; [apply NoDup_singleton|].
  split; [|simpl; lia]. intros x ->%list_elem_of_singleton. simpl. lia.
Qed.
Lemma grows_fresh h l h' x : bounded h -> grows h l h' -> x ∈ l -> x ∉ live h.
Proof. intros Hb (_ & _ & R & _) Hx Hl. apply R in Hx. apply Hb in Hl. lia. Qed.
Lemma grows_bounded h l h' : bounded h -> grows h l h' -> bounded h'.
Proof.
  intros Hb (L & _ & R & N) x Hx. rewrite L in Hx. apply elem_of_union in Hx as [Hx%elem_of_list_to_set|Hx].
  - by apply R.
  - apply Hb in Hx. lia.
Qed.

(** Freeing [l]. *)
Definition freed (l : list Z) (h : heap) : heap := Heap (live h ∖ list_to_set l) (next h).
Lemma freed_app l1 l2 h : freed l2 (freed l1 h) = freed (l1 ++ l2) h.
Proof. unfold freed. simpl. f_equal. rewrite list_to_set_app_L. set_solver. Qed.
Lemma free_spec o h : (forall x, x ∈ option_list o -> x ∈ live h) -> free o h = Some (freed (option_list o) h).
Proof.
  destruct o as [x|]; simpl; intros H; [|unfold freed; simpl; rewrite difference_empty_L; by destruct h].
  rewrite decide_True by (apply H, list_elem_of_singleton; done). unfold freed. do 2 f_equal. simpl. set_solver.
Qed.
Lemma prot_cleanup_spec o h : NoDup (ops_held o) -> (forall x, x ∈ ops_held o -> x ∈ live h) ->
  prot_cleanup o h = Some ((fun _ => Ops None None) <$> o, freed (ops_held o) h).
Proof.
  destruct o as [[n s]|]; simpl; intros Hd H; [|unfold freed; simpl; rewrite difference_empty_L; by destruct h].
  apply NoDup_app in Hd as (_ & Hd & _). rewrite free_spec by set_solver. simpl.
  rewrite free_spec; [simpl; by rewrite freed_app|]. intros x Hx. unfold freed. simpl. set_solver.
Qed.
Lemma cleaned_holds_nothing (o : option ops) : ops_held ((fun _ => Ops None None) <$> o) = [].
Proof. by destruct o. Qed.
Lemma prot_init_grows a b o h : ops_held o = [] ->
  grows h (ops_held (prot_init a b o h).1.2) (prot_init a b o h).2.
Proof.
  destruct o as [[n s]|]; simpl; intros H; [|apply grows_nil]. destruct n, s; try done.
  pose proof (alloc_grows a h) as G1. destruct (alloc a h) as [[n|] h1]; simpl in *; [|done].
  pose proof (alloc_grows b h1) as G2. destruct (alloc b h1) as [[s|] h2]; simpl in *; apply (grows_app _ [n] h1 _ h2 G1 G2).
Qed.

Lemma freed_all h l l' h' : bounded h -> grows h l h' -> l ≡ₚ l' -> live (freed l' h') = live h.
Proof.
  intros Hb G P. simpl. rewrite <- P. destruct G as (L & D & R & N) eqn:E. rewrite L. apply set_eq. intros x.
  rewrite elem_of_difference, elem_of_union, elem_of_list_to_set. split; [tauto|]. intros Hx. split; [by right|].
  intros Hl. by apply (grows_fresh h l h' x).
Qed.

(** The labels give back what the registration took. *)
Lemma out_request_spec id ret p h0 h r : bounded h0 -> grows h0 (held p) h -> ops_held (twsk_prot p) = [] ->
  exists p' h', out_free_request_sock_slab true id ret p h r = Some (ret, put_proto id p' h' r) /\
    held p' = [] /\ live h' = live h0 /\ next h' = next h.
Proof.
  intros Hb G Ht. pose proof G as (L & D & R & N). unfold held in D, L. rewrite Ht, app_nil_r in D, L.
  apply NoDup_app in D as (_ & Ds & Dr). unfold out_free_request_sock_slab, req_prot_cleanup.
  rewrite prot_cleanup_spec by (rewrite ?L; set_solver). simpl.
  rewrite free_spec by (simpl; rewrite L; set_solver). simpl. do 2 eexists. split; [done|].
  split; [unfold held; simpl; by rewrite cleaned_holds_nothing|]. split; [|done]. rewrite freed_app.
  apply (freed_all h0 (held p)); [done..|]. unfold held. rewrite Ht, app_nil_r. apply Permutation_app_comm.
Qed.
Lemma out_timewait_spec id ret p h0 h r : bounded h0 -> grows h0 (held p) h ->
  exists p' h', out_free_timewait_sock_slab true id ret p h r = Some (ret, put_proto id p' h' r) /\
    held p' = [] /\ live h' = live h0 /\ next h' = next h.
Proof.
  intros Hb G. pose proof G as (L & D & R & N). unfold held in D, L, R. rewrite app_assoc in D, L, R.
  apply NoDup_app in D as (Dp & Ds & Dt). unfold out_free_timewait_sock_slab, tw_prot_cleanup.
  rewrite prot_cleanup_spec by (rewrite ?L; set_solver). cbn [mbind option_bind].
  apply (out_request_spec _ _ (Proto (slab p) (rsk_prot p) ((fun _ => Ops None None) <$> twsk_prot p) (inuse_idx p)) h0 (freed (ops_held (twsk_prot p)) h));
    [done| |apply cleaned_holds_nothing].
  unfold held. simpl. rewrite cleaned_holds_nothing, app_nil_r.
  split. { unfold freed. simpl. rewrite L. apply set_eq. intros x. set_unfold.
    assert (x ∈ ops_held (twsk_prot p) -> x ∉ live h0).
    { intros Hx. apply (grows_fresh h0 (held p) h x Hb G). unfold held. set_solver. }
    specialize (Ds x). set_unfold. tauto. }
  split; [done|]. split; [|simpl; lia]. intros x Hx. simpl. apply R. set_solver.
Qed.

(** *** The invariant *)

(** The registered protocols, in the order of the list. *)
Definition registered (r : reg) : list proto := omap (fun id => protos r !! id) (proto_list r).
Record rinv (r : reg) : Prop := RInv {
  ri_list : NoDup (proto_list r);
  ri_known : forall id, id ∈ proto_list r -> is_Some (protos r !! id);
  ri_idle : forall id p, protos r !! id = Some p -> id ∉ proto_list r -> held p = [];
  ri_idx : NoDup (inuse_idx <$> registered r);
  ri_used : proto_inuse_idx r = list_to_set (inuse_idx <$> registered r);
  ri_range : forall i, i ∈ inuse_idx <$> registered r -> (i < PROTO_INUSE_NR - 1)%nat;
  ri_objs : NoDup (concat (held <$> registered r));
  ri_live : live (mem r) = list_to_set (concat (held <$> registered r));
  ri_bounded : bounded (mem r)
}.

Lemma omap_insert_other (m : gmap Z proto) (id : Z) (p : proto) (l : list Z) : id ∉ l ->
  omap (fun i => <[id := p]> m !! i) l = omap (fun i => m !! i) l.
Proof.
  induction l as [|x l IH]; [done|]. intros Hn. apply not_elem_of_cons in Hn as [Hx Hl]. cbn [omap list_omap].
  rewrite lookup_insert_ne by done. by rewrite <- (IH Hl).
Qed.
Lemma registered_length r : rinv r -> length (registered r) = length (proto_list r).
Proof.
  intros [_ Hk _ _ _ _ _ _ _]. unfold registered. revert Hk. generalize (proto_list r). induction l as [|x l IH]; intros Hk; [done|].
  destruct (Hk x) as [p Hp]; [by left|]. cbn [omap list_omap]. rewrite Hp. cbn [length]. f_equal. apply IH. intros i Hi. apply Hk. by right.
Qed.

Lemma rinv_put r id p h : rinv r -> id ∉ proto_list r -> held p = [] -> live h = live (mem r) -> next (mem r) <= next h ->
  rinv (put_proto id p h r).
Proof.
  intros [I1 I2 I3 I4 I5 I6 I7 I8 I9] Hn Hp Hl Hx.
  assert (registered (put_proto id p h r) = registered r) as Er by (by apply omap_insert_other).
  split; rewrite ?Er; try done.
  - intros i Hi. simpl. apply lookup_insert_is_Some'. right. by apply I2.
  - intros i q. simpl. intros [[<- <-]|[_ Hq]]%lookup_insert_Some Hi; [done|by eapply I3].
  - simpl. by rewrite Hl.
  - intros x Hlx. simpl in *. rewrite Hl in Hlx. apply I9 in Hlx. lia.
Qed.

Lemma find_first_zero_bit_spec n used : forall i, let k := find_first_zero_bit n i used in
  (i <= k <= i + n)%nat /\ ((k < i + n)%nat -> k ∉ used) /\ forall j, (i <= j < k)%nat -> j ∈ used.
Proof.
  induction n as [|n IH]; intros i; simpl; [split; [lia|]; split; intros; lia|].
  case_decide as Hu; [|split; [lia|]; split; [done|intros; lia]].
  destruct (IH (S i)) as (H1 & H2 & H3). split; [lia|]. split; [intros; apply H2; lia|].
  intros j Hj. destruct (decide (j = i)) as [->|]; [done|]. apply H3. lia.
Qed.
(** The last index is never given away, so the search always ends at it or before. *)
Lemma assign_spec r : (0 < PROTO_INUSE_NR)%nat -> rinv r ->
  match assign_proto_idx (proto_inuse_idx r) with
  | (ret, idx, used) =>
      (ret = 0 /\ (idx < PROTO_INUSE_NR - 1)%nat /\ (idx ∉ proto_inuse_idx r) /\ used = {[idx]} ∪ proto_inuse_idx r) \/
      (ret = - ENOSPC /\ length (proto_list r) = (PROTO_INUSE_NR - 1)%nat)
  end.
Proof.
  intros Hnr I. pose proof (find_first_zero_bit_spec PROTO_INUSE_NR (proto_inuse_idx r) 0) as (H1 & H2 & H3).
  rewrite <- (registered_length r I). destruct I as [_ _ _ I4 I5 I6 _ _ _]. unfold assign_proto_idx.
  remember (find_first_zero_bit PROTO_INUSE_NR 0 (proto_inuse_idx r)) as k eqn:Ek. clear Ek. simpl in *.
  assert (forall j, j ∈ proto_inuse_idx r <-> j ∈ (inuse_idx <$> registered r)) as Hin
    by (intros j; rewrite I5; apply elem_of_list_to_set).
  assert (k <= PROTO_INUSE_NR - 1)%nat as Hk.
  { destruct (decide (k <= PROTO_INUSE_NR - 1)%nat); [done|].
    pose proof (I6 (PROTO_INUSE_NR - 1)%nat (proj1 (Hin _) (H3 (PROTO_INUSE_NR - 1)%nat ltac:(lia)))). lia. }
  case_decide as Hd; [right|left; repeat split; try lia; apply H2; lia]. split; [done|].
  enough (seq 0 (PROTO_INUSE_NR - 1) ≡ₚ inuse_idx <$> registered r) as P
    by (apply Permutation_length in P; by rewrite length_seq, length_fmap in P).
  apply NoDup_Permutation; [apply NoDup_seq|done|]. intros j. rewrite elem_of_seq. split; intros Hj; [apply Hin, H3; lia|].
  apply I6 in Hj. lia.
Qed.

(** What a registration answers, given what it found. *)
Definition registers (id : Z) (r : reg) (o : option (Z * reg)) : Prop :=
  exists ret r', o = Some (ret, r') /\ rinv r' /\
    (ret <> 0 -> proto_list r' = proto_list r /\ proto_inuse_idx r' = proto_inuse_idx r /\ live (mem r') = live (mem r)) /\
    (ret = 0 -> proto_list r' = id :: proto_list r) /\
    (ret = - ENOSPC -> length (proto_list r) = (PROTO_INUSE_NR - 1)%nat).

Lemma registers_fails id r ret p h : rinv r -> id ∉ proto_list r -> ret < 0 -> (ret = - ENOSPC -> length (proto_list r) = (PROTO_INUSE_NR - 1)%nat) ->
  held p = [] -> live h = live (mem r) -> next (mem r) <= next h -> registers id r (Some (ret, put_proto id p h r)).
Proof.
  intros I Hn Hret Hsp Hp Hl Hx. exists ret, (put_proto id p h r). split; [done|]. split; [by apply rinv_put|].
  split; [done|]. split; [lia|done].
Qed.

Lemma publish_proto_spec alloc_slab id p h r : (0 < PROTO_INUSE_NR)%nat -> rinv r -> id ∉ proto_list r -> grows (mem r) (held p) h ->
  (alloc_slab = false -> held p = [] /\ h = mem r) -> registers id r (publish_proto alloc_slab id p h r).
Proof.
  intros Hnr I Hn G Hf. unfold publish_proto. pose proof (assign_spec r Hnr I) as Ha.
  destruct (assign_proto_idx (proto_inuse_idx r)) as [[ret idx] used].
  destruct Ha as [(-> & Hi & Hu & ->)|(-> & Hlen)]; unfold ztrue; simpl.
  - exists 0, (Reg (<[id := Proto (slab p) (rsk_prot p) (twsk_prot p) idx]> (protos r)) (id :: proto_list r) ({[idx]} ∪ proto_inuse_idx r) h).
    split; [done|]. split; [|split; [done|]; split; [done|done]]. pose proof I as [I1 I2 I3 I4 I5 I6 I7 I8 I9].
    remember (Proto (slab p) (rsk_prot p) (twsk_prot p) idx) as q eqn:Eq.
    assert (registered (Reg (<[id := q]> (protos r)) (id :: proto_list r) ({[idx]} ∪ proto_inuse_idx r) h) = q :: registered r) as Er.
    { unfold registered. cbn [proto_list protos omap list_omap]. rewrite lookup_insert_eq. f_equal. by apply omap_insert_other. }
    assert (inuse_idx q = idx /\ held q = held p) as [Eqi Eqh] by by rewrite Eq. clear Eq.
    assert (idx ∉ (inuse_idx <$> registered r)) as Hni by (intros H; apply Hu; rewrite I5; by apply elem_of_list_to_set).
    split; rewrite ?Er; cbn [proto_list protos proto_inuse_idx mem fmap list_fmap concat]; rewrite ?Eqi, ?Eqh.
    + by constructor.
    + intros i [->|Hi']%elem_of_cons; apply lookup_insert_is_Some'; [by left|right; by apply I2].
    + intros i x [[<- <-]|[_ Hx]]%lookup_insert_Some Hnx; [destruct Hnx; by left|]. apply (I3 _ _ Hx). set_solver.
    + by constructor.
    + rewrite I5. set_solver.
    + intros i [->|H]%elem_of_cons; [done|by apply I6].
    + apply NoDup_app. split; [apply G|]. split; [|done]. intros x Hx Hc.
      apply (grows_fresh (mem r) (held p) h x I9 G Hx). rewrite I8. by apply elem_of_list_to_set.
    + destruct G as (L & _). by rewrite L, I8, list_to_set_app_L.
    + by apply (grows_bounded (mem r) (held p)).
  - destruct alloc_slab.
    + destruct (out_timewait_spec id (- ENOSPC) (Proto (slab p) (rsk_prot p) (twsk_prot p) idx) (mem r) h r) as (p' & h' & E & Hp & Hl & Hx);
        [apply I|done|]. rewrite E. apply registers_fails; try done. rewrite Hx. apply G.
    + destruct (Hf eq_refl) as [Hp ->]. simpl. by apply registers_fails.
Qed.

Lemma proto_register_spec e alloc_slab id r : (0 < PROTO_INUSE_NR)%nat -> rinv r -> is_Some (protos r !! id) -> id ∉ proto_list r ->
  registers id r (proto_register e alloc_slab id r).
Proof.
  intros Hnr I [p Hp] Hn. pose proof (ri_idle r I _ _ Hp Hn) as Hheld. pose proof (ri_bounded r I) as Hb.
  unfold proto_register. rewrite Hp. cbn [mbind option_bind]. destruct alloc_slab; cycle 1.
  { apply publish_proto_spec; try done. rewrite Hheld. apply grows_nil. }
  unfold held in Hheld. apply app_eq_nil in Hheld as [_ [Hr Ht]%app_eq_nil].
  pose proof (alloc_grows (slab_ok e) (mem r)) as Ga. destruct (alloc (slab_ok e) (mem r)) as [s h1]. cbn [fst snd] in Ga.
  case_bool_decide as Hs.
  { subst s. apply registers_fails; try done; [by unfold held; simpl; rewrite Hr, Ht| |]; destruct Ga as (L & _ & _ & N); [|done].
    rewrite L. set_solver. }
  pose proof (prot_init_grows (req_name_ok e) (req_slab_ok e) (rsk_prot p) h1 Hr) as Gr. unfold req_prot_init. cbn [rsk_prot].
  destruct (prot_init (req_name_ok e) (req_slab_ok e) (rsk_prot p) h1) as [[err rsk] h2]. cbn [fst snd slab twsk_prot inuse_idx] in *.
  pose proof (grows_app _ _ _ _ _ Ga Gr) as Gr'. destruct (ztrue err).
  { destruct (out_request_spec id (- ENOBUFS) (Proto s rsk (twsk_prot p) (inuse_idx p)) (mem r) h2 r) as (p' & h' & E & Hp' & Hl & Hx);
      [done|unfold held; simpl; by rewrite Ht, app_nil_r|done|]. rewrite E. apply registers_fails; try done. rewrite Hx. apply Gr'. }
  pose proof (prot_init_grows (tw_name_ok e) (tw_slab_ok e) (twsk_prot p) h2 Ht) as Gt. unfold tw_prot_init. cbn [twsk_prot].
  destruct (prot_init (tw_name_ok e) (tw_slab_ok e) (twsk_prot p) h2) as [[err' tw] h3]. cbn [fst snd slab rsk_prot inuse_idx] in *.
  assert (grows (mem r) (held (Proto s rsk tw (inuse_idx p))) h3) as G
    by (unfold held; simpl; rewrite app_assoc; by apply (grows_app _ _ h2)).
  destruct (ztrue err'); [|by apply publish_proto_spec].
  destruct (out_timewait_spec id (- ENOBUFS) _ (mem r) h3 r Hb G) as (p' & h' & E & Hp' & Hl & Hx).
  rewrite E. apply registers_fails; try done. rewrite Hx. apply G.
Qed.

Lemma list_del_at id l1 l2 : NoDup (l1 ++ id :: l2) -> list_del id (l1 ++ id :: l2) = l1 ++ l2.
Proof.
  intros (_ & H1 & [H2 _]%NoDup_cons)%NoDup_app. unfold list_del.
  assert (forall l : list Z, id ∉ l -> filter (fun x => x <> id) l = l) as Hf.
  { induction l as [|x l IH]; [done|]. intros [Hx Hl]%not_elem_of_cons. rewrite filter_cons_True by done. by rewrite (IH Hl). }
  rewrite filter_app, filter_cons_False by tauto. rewrite !Hf; [done|done|]. intros Hx. apply (H1 id Hx). by left.
Qed.

Lemma proto_unregister_spec id r : rinv r -> id ∈ proto_list r ->
  exists p r', protos r !! id = Some p /\ proto_unregister id r = Some r' /\ rinv r' /\ proto_list r' = list_del id (proto_list r) /\
    proto_inuse_idx r' = proto_inuse_idx r ∖ {[inuse_idx p]} /\ live (mem r') = live (mem r) ∖ list_to_set (held p).
Proof.
  intros [I1 I2 I3 I4 I5 I6 I7 I8 I9] Hid. destruct (I2 id Hid) as [p Hp].
  apply list_elem_of_split in Hid as (l1 & l2 & El). rewrite El in I1. pose proof I1 as (D1 & D2 & [D3 D4]%NoDup_cons)%NoDup_app.
  assert (id ∉ l1) as Hn1 by (intros H; apply (D2 id H); by left).
  set (f := fun i => protos r !! i). assert (registered r = omap f l1 ++ p :: omap f l2) as Er.
  { unfold registered. rewrite El, omap_app. f_equal. cbn [omap list_omap]. by rewrite Hp. }
  rewrite Er in *. rewrite !fmap_app, !fmap_cons in *. rewrite concat_app in I7, I8. cbn [concat] in I7, I8.
  assert (forall x, x ∈ held p -> x ∈ live (mem r)) as Hl by (intros x Hx; rewrite I8; set_solver).
  pose proof I7 as (N1 & N2 & (N3 & N4 & N5)%NoDup_app)%NoDup_app.
  unfold held in Hl, N3. pose proof N3 as (M1 & M2 & (M3 & M4 & M5)%NoDup_app)%NoDup_app.
  unfold proto_unregister. rewrite Hp. cbn [mbind option_bind].
  rewrite free_spec by set_solver. cbn [mbind option_bind]. unfold req_prot_cleanup, tw_prot_cleanup.
  rewrite prot_cleanup_spec by (unfold freed; simpl; set_solver). cbn [mbind option_bind].
  rewrite prot_cleanup_spec by (unfold freed; simpl; set_solver). cbn [mbind option_bind].
  rewrite !freed_app. fold (held p). unfold release_proto_idx.
  assert (inuse_idx p < PROTO_INUSE_NR - 1)%nat as Hr by (apply I6, elem_of_app; right; by left). rewrite decide_True by lia.
  do 2 eexists. split; [done|]. split; [done|]. split; [|done]. rewrite El, (list_del_at _ _ _ I1).
  remember (Proto None _ _ _) as q eqn:Eq. assert (held q = []) as Eqh by (rewrite Eq; unfold held; simpl; by rewrite !cleaned_holds_nothing).
  clear Eq. apply NoDup_app in I4 as (J1 & J2 & [J3 J4]%NoDup_cons).
  assert (registered (Reg (<[id := q]> (protos r)) (l1 ++ l2) (proto_inuse_idx r ∖ {[inuse_idx p]}) (freed (held p) (mem r)))
    = omap f l1 ++ omap f l2) as Er'. { unfold registered. simpl. rewrite omap_app. f_equal; by apply omap_insert_other. }
  split; rewrite ?Er', ?fmap_app, ?concat_app; cbn [proto_list protos proto_inuse_idx mem].
  - apply NoDup_app. split; [done|]. split; [|done]. intros x Hx Hx2. apply (D2 x Hx). by right.
  - intros i Hi. apply lookup_insert_is_Some'. right. apply I2. rewrite El. set_solver.
  - intros i x [[<- <-]|[Hne Hx]]%lookup_insert_Some Hnx; [done|]. apply (I3 _ _ Hx). rewrite El. set_solver.
  - apply NoDup_app. split; [done|]. split; [|done]. intros x Hx Hx2. apply (J2 x Hx). by right.
  - rewrite I5. apply set_eq. intros x. specialize (J2 x). set_unfold. destruct (decide (x = inuse_idx p)) as [->|]; tauto.
  - intros i Hi. apply I6. rewrite !elem_of_app, ?elem_of_cons in *. tauto.
  - apply NoDup_app. split; [done|]. split; [|done]. intros x Hx Hx2. apply (N2 x Hx), elem_of_app. by right.
  - unfold freed. cbn [live]. rewrite I8. apply set_eq. intros x. specialize (N2 x). specialize (N4 x). set_unfold. tauto.
  - intros x Hx. apply I9. unfold freed in Hx. simpl in Hx. set_solver.
Qed.

(** Before any protocol is registered. *)
Definition initial (r : reg) : Prop :=
  proto_list r = [] /\ proto_inuse_idx r = ∅ /\ live (mem r) = ∅ /\ forall id p, protos r !! id = Some p -> held p = [].
Lemma reachable_rinv r0 r : (0 < PROTO_INUSE_NR)%nat -> initial r0 -> rtc rstep r0 r -> rinv r.
Proof.
  intros Hnr (H1 & H2 & H3 & H4). revert r. apply (rtc_ind_r rinv).
  - assert (registered r0 = []) as Er by (unfold registered; by rewrite H1).
    split; rewrite ?Er, ?H1, ?H2, ?H3; try done; [constructor|set_solver|eauto|constructor|set_solver|constructor|].
    intros x. rewrite H3. set_solver.
  - intros r1 r2 _ Hst I. destruct Hst as [e b id r ret r' Hk Hn E|id r r' Hid E].
    + destruct (proto_register_spec e b id r Hnr I Hk Hn) as (ret' & r'' & E' & I' & _). rewrite E in E'. by injection E' as <- <-.
    + destruct (proto_unregister_spec id r I Hid) as (p & r'' & _ & E' & I' & _). rewrite E in E'. by injection E' as <-.
Qed.
Lemma inuse_get_in_range i cpus : (forall val, val ∈ cpus -> (i < length val)%nat) -> forall z, is_Some (sum_at i cpus z).
Proof.
  induction cpus as [|val cpus IH]; intros H z; simpl; [by eexists|].
  destruct (lookup_lt_is_Some_2 val i) as [x Hx]; [apply H; by left|]. rewrite Hx. simpl. apply IH. intros v Hv. apply H. by right.
Qed.

End Protos.

(** Protocols register and unregister in any order, with any allocation failing: the
    registered ones have distinct usage counters, always inside the arrays; the names and
    slab caches that exist are exactly theirs, each held once; a registration ends without
    freeing what is not live, and when it fails it leaves the list, the indices and the
    objects as they were; it reports that the indices are exhausted only when all but the
    reserved one are in use; and unregistering gives back exactly what the protocol had. *)
Theorem protocols_registered nr r0 r : (0 < nr)%nat -> initial r0 -> rtc (rstep nr) r0 r ->
  NoDup (proto_list r) /\ length (registered r) = length (proto_list r) /\
  NoDup (inuse_idx <$> registered r) /\ proto_inuse_idx r = list_to_set (inuse_idx <$> registered r) /\
  NoDup (concat (held <$> registered r)) /\ live (mem r) = list_to_set (concat (held <$> registered r)) /\
  (forall id p cpus, protos r !! id = Some p -> id ∈ proto_list r -> (forall val, val ∈ cpus -> length val = nr) ->
     is_Some (sock_prot_inuse_get p cpus)) /\
  (forall e b id, is_Some (protos r !! id) -> id ∉ proto_list r -> exists ret r', proto_register nr e b id r = Some (ret, r') /\
     (ret <> 0 -> proto_list r' = proto_list r /\ proto_inuse_idx r' = proto_inuse_idx r /\ live (mem r') = live (mem r)) /\
     (ret = 0 -> proto_list r' = id :: proto_list r) /\
     (ret = - ENOSPC -> length (proto_list r) = (nr - 1)%nat)) /\
  (forall id, id ∈ proto_list r -> exists p r', protos r !! id = Some p /\ proto_unregister nr id r = Some r' /\
     proto_list r' = list_del id (proto_list r) /\ live (mem r') = live (mem r) ∖ list_to_set (held p)).
Proof.
  intros Hnr H0 Hr. pose proof (reachable_rinv nr r0 r Hnr H0 Hr) as I. pose proof I as [I1 I2 I3 I4 I5 I6 I7 I8 I9].
  refine (conj I1 (conj (registered_length nr r I) (conj I4 (conj I5 (conj I7 (conj I8 (conj _ (conj _ _)))))))).
  - intros id p cpus Hp Hid Hc. unfold sock_prot_inuse_get.
    assert (inuse_idx p < nr - 1)%nat as Hi by (apply I6, list_elem_of_fmap_2, list_elem_of_omap; by exists id).
    destruct (inuse_get_in_range (inuse_idx p) cpus) with (z := 0) as [x Hx]; [|rewrite Hx; by eexists].
    intros val Hv. rewrite (Hc val Hv). lia.
  - intros e b id Hk Hn. destruct (proto_register_spec nr e b id r Hnr I Hk Hn) as (ret & r' & E & _ & H). by exists ret, r'.
  - intros id Hid. destruct (proto_unregister_spec nr id r I Hid) as (p & r' & Hp & E & _ & Hl & _ & Hlv). by exists p, r'.
Qed.

Definition reg0 : reg :=
  Reg {[ 1 := Proto None (Some (Ops None None)) (Some (Ops None None)) 0; 2 := Proto None None (Some (Ops None None)) 0 ]} [] ∅ (Heap ∅ 100).
Definition ok0 : renv := REnv true true true true true.
Lemma protocols_registered_witness : exists r, rtc (rstep 3) reg0 r /\ proto_list r = [2] /\
  NoDup (concat (held <$> registered r)) /\ length (concat (held <$> registered r)) = 3%nat.
Proof.
  assert (exists r, rtc (rstep 3) reg0 r /\ proto_list r = [2] /\ length (concat (held <$> registered r)) = 3%nat) as (r & Hr & Hl & Hn).
  { eexists. split; [|split].
    - eapply rtc_l; [eapply (r_register 3 ok0 true 1); [by eexists|apply not_elem_of_nil|vm_compute; reflexivity]|].
      eapply rtc_l; [eapply (r_register 3 ok0 true 2); [by eexists|set_solver|vm_compute; reflexivity]|].
      eapply rtc_l; [eapply (r_unregister 3 1); [set_solver|vm_compute; reflexivity]|]. apply rtc_refl.
    - vm_compute. reflexivity.
    - vm_compute. reflexivity. }
  exists r. split; [done|]. split; [done|]. split; [|done].
  refine (proj1 (proj2 (proj2 (proj2 (proj2 (protocols_registered 3 reg0 r _ _ Hr)))))); [lia|].
  repeat split. intros id p H. unfold reg0 in H. simpl in H.
  apply lookup_insert_Some in H as [[<- <-]|[_ H]]; [done|]. apply lookup_singleton_Some in H as [<- <-]. done.
Defined.

End Protos.

Module Families.
Import Layer.

Definition AF_INET : Z := 2.
Definition IPPROTO_RAW : Z := 255.
Definition MAX_INET_PROTOS : Z := 256.

(** net_families, an array of NPROTO pointers; [None] outside of it. *)
Abbreviation table := (list (option Z)).
Definition slot (t : table) (f : Z) : option (option Z) := if f <? 0 then None else t !! Z.to_nat f.
Definition set_slot (t : table) (f : Z) (o : option Z) : table := <[Z.to_nat f := o]> t.

Definition sock_register (family ops : Z) (t : table) : option (Z * table) :=
  if NPROTO <=? family then Some (- ENOBUFS, t)
  else
    old ← slot t family;
    match old with
    | Some _ => Some (- EEXIST, t)
    | None => Some (0, set_slot t family (Some ops))
    end.
Definition sock_unregister (family : Z) (t : table) : option table :=
  if (family <? 0) || (NPROTO <=? family) then None else Some (set_slot t family None).
Definition sock_is_registered (family : Z) (t : table) : option bool :=
  if family <? NPROTO then o ← slot t family; Some (bool_decide (is_Some o)) else Some false.

(** sock_load_diag_module; [inet_protos] tells whether a protocol number has a handler,
    [request_module] loads the module of a family or of one of its protocols. *)
Definition sock_load_diag_module (inet_protos : list bool) (request_module : Z -> option Z -> Z)
    (family protocol : Z) (t : table) : option Z :=
  if protocol =? 0 then
    (fun b : bool => if b then request_module family None else - ENOENT) <$> sock_is_registered family t
  else if (family =? AF_INET) && negb (protocol =? IPPROTO_RAW) && (protocol <? MAX_INET_PROTOS) then
    if protocol <? 0 then None
    else (fun h : bool => if h then request_module family (Some protocol) else - ENOENT) <$> inet_protos !! Z.to_nat protocol
  else Some (request_module family (Some protocol)).

(** __sock_create reads the table. *)
Definition reads (e : create_env) (t : table) : Prop := forall f, net_families e f = mjoin (slot t f).

Lemma slot_set t f g o : length t = Z.to_nat NPROTO -> 0 <= f < NPROTO ->
  slot (set_slot t f o) g = if g =? f then Some o else slot t g.
Proof.
  intros Hl Hf. unfold slot, set_slot. destruct (Z.ltb_spec g 0).
  { destruct (Z.eqb_spec g f); [lia|done]. }
  destruct (Z.eqb_spec g f) as [->|]; [|apply list_lookup_insert_ne; lia].
  apply list_lookup_insert_eq. rewrite Hl. lia.
Qed.
Lemma slot_some t f : length t = Z.to_nat NPROTO -> 0 <= f < NPROTO -> is_Some (slot t f).
Proof. intros Hl Hf. unfold slot. destruct (Z.ltb_spec f 0); [lia|]. apply lookup_lt_is_Some. rewrite Hl. lia. Qed.

Lemma create_needs_family e t family type protocol kern w err sk w' : reads e t ->
  (family = PF_INET -> type <> SOCK_PACKET) ->
  __sock_create e family type protocol kern w = (err, Some sk, w') -> exists o, slot t family = Some (Some o).
Proof.
  intros Hr Hp H. unfold __sock_create in H.
  destruct ((family <? 0) || (NPROTO <=? family))%bool; [done|].
  destruct ((type <? 0) || (SOCK_MAX <=? type))%bool; [done|].
  destruct (negb kern && limit_reached (cur w))%bool; [done|].
  replace ((family =? PF_INET) && (type =? SOCK_PACKET))%bool with false in H
    by (destruct (Z.eqb_spec family PF_INET), (Z.eqb_spec type SOCK_PACKET); simpl; tauto).
  destruct (ztrue (sec_create e family type protocol kern)); [done|].
  destruct (sock_alloc (alloc_ok e) w) as [[s|] w1]; [|done].
  unfold create_in_family in H. rewrite (Hr family) in H. destruct (slot t family) as [[o|]|]; [by exists o|done|done].
Qed.

(** The table of families: registering answers by the slot, 0 if it was free, that the
    family exists if it was not, and that there is no room for it beyond the table; a family
    that was registered is found until it is unregistered and cannot be registered twice, no
    other family is touched; and a socket is created only in a family that is registered, so
    that none can be created after sock_unregister, except that SOCK_PACKET in PF_INET is
    looked up as PF_PACKET. *)
Theorem families_registered t f ops : length t = Z.to_nat NPROTO -> 0 <= f ->
  match sock_register f ops t with
  | None => False
  | Some (err, t') =>
      length t' = Z.to_nat NPROTO /\ (forall g, g <> f -> slot t' g = slot t g) /\
      (err = 0 /\ slot t f = Some None /\ slot t' f = Some (Some ops) /\ sock_is_registered f t' = Some true /\
         sock_register f ops t' = Some (- EEXIST, t')
       \/ err = - EEXIST /\ t' = t /\ sock_is_registered f t = Some true
       \/ err = - ENOBUFS /\ t' = t /\ NPROTO <= f /\ sock_is_registered f t = Some false)
  end /\
  (f < NPROTO -> exists t', sock_unregister f t = Some t' /\ length t' = Z.to_nat NPROTO /\ (forall g, g <> f -> slot t' g = slot t g) /\
     sock_is_registered f t' = Some false /\
     forall e type protocol kern w, reads e t' -> (f = PF_INET -> type <> SOCK_PACKET) ->
       (__sock_create e f type protocol kern w).1.2 = None).
Proof.
  intros Hl Hf. split.
  - unfold sock_register. destruct (Z.leb_spec NPROTO f) as [Hn|Hn].
    { split; [done|]. split; [done|]. right. right. unfold sock_is_registered. destruct (Z.ltb_spec f NPROTO); [lia|done]. }
    destruct (slot_some t f Hl) as [o Ho]; [done|]. rewrite Ho. cbn [mbind option_bind].
    assert (forall t' x, slot t' f = Some x -> sock_is_registered f t' = Some (bool_decide (is_Some x))) as His.
    { intros t' x Hx. unfold sock_is_registered. destruct (Z.ltb_spec f NPROTO); [|lia]. by rewrite Hx. }
    destruct o as [o|].
    { split; [done|]. split; [done|]. right. left. by rewrite (His t (Some o) Ho). }
    assert (slot (set_slot t f (Some ops)) f = Some (Some ops)) as Hs by (rewrite slot_set, Z.eqb_refl by done; done).
    split; [unfold set_slot; by rewrite length_insert|]. split; [intros g Hg; rewrite slot_set by done; by destruct (Z.eqb_spec g f)|].
    left. rewrite (His _ _ Hs), Hs. done.
  - intros Hn. unfold sock_unregister. destruct (Z.ltb_spec f 0), (Z.leb_spec NPROTO f); try lia. cbn [orb].
    assert (slot (set_slot t f None) f = Some None) as Hs by (rewrite slot_set, Z.eqb_refl by done; done).
    eexists. split; [done|]. split; [unfold set_slot; by rewrite length_insert|].
    split; [intros g Hg; rewrite slot_set by done; by destruct (Z.eqb_spec g f)|].
    split; [unfold sock_is_registered; rewrite Hs; by destruct (Z.ltb_spec f NPROTO); [|lia]|].
    intros e type protocol kern w Hr Hp. destruct (__sock_create e f type protocol kern w) as [[err [sk|]] w'] eqn:E; [|done].
    destruct (create_needs_family e _ f type protocol kern w err sk w' Hr Hp E) as [o Ho]. congruence.
Qed.

Lemma families_registered_witness : length (replicate 46 (None : option Z)) = Z.to_nat NPROTO /\ 0 <= 1 /\
  exists t', sock_unregister 1 (replicate 46 None) = Some t' /\ sock_is_registered 1 t' = Some false.
Proof.
  split; [done|]. split; [lia|].
  destruct (families_registered (replicate 46 None) 1 7 ltac:(done) ltac:(lia)) as [_ H].
  destruct (H ltac:(unfold NPROTO; lia)) as (t' & E & _ & _ & R & _). by exists t'.
Defined.

End Families.
