(* ===== verification/SockCtl.v ===== *)
(** * Control messages and the receive queue
    (src/kvm/linux-5.15.178/net/core/sock.c and net/socket.c)

    [SendCtl]: the control messages that accompany a message that is sent.  [RecvCtl]: those
    that accompany one that is received, and the error queue.  [RcvQueue]: the receive queue
    and its memory.  [Frag]: page fragments.  The macros that walk a control buffer, the
    conversion of times and the inline helpers of the headers are parameters, or answers that
    come with the packet. *)

From S2P Require Import Prelude.

Module SendCtl.

Definition SOL_SOCKET : Z := 1.
Definition SO_MARK : Z := 36.
Definition SO_TIMESTAMPING_OLD : Z := 37.
Definition SO_TIMESTAMPING_NEW : Z := 65.
Definition SCM_TXTIME : Z := 61.
Definition SCM_RIGHTS : Z := 1.
Definition SCM_CREDENTIALS : Z := 2.
(** TX_HARDWARE, TX_SOFTWARE, TX_SCHED and TX_ACK. *)
Definition SOF_TIMESTAMPING_TX_RECORD_MASK : Z := 0x303.

(** struct sockcm_cookie: 64, 32 and 16 bits. *)
Record cookie := Cookie { transmit_time : Z; mark : Z; tsflags : Z }.
(** A control message as the macros give it: CMSG_OK, the header, and the bytes of CMSG_DATA. *)
Record cmsg := Cmsg { cmsg_ok : bool; cmsg_level : Z; cmsg_type : Z; cmsg_len : Z; cmsg_data : list Z }.

Definition u32_at (l : list Z) : Z := le_value (take 4 l).
Definition u64_at (l : list Z) : Z := le_value (take 8 l).

Section Send.
(** CMSG_LEN, whether the caller has CAP_NET_ADMIN over the network namespace of the socket,
    and the flag SOCK_TXTIME. *)
Context (CMSG_LEN : Z -> Z) (net_admin txtime : bool).

Definition cookie_mark (v : Z) (k : cookie) : cookie := Cookie (transmit_time k) v (tsflags k).
Definition cookie_txtime (v : Z) (k : cookie) : cookie := Cookie v (mark k) (tsflags k).
Definition cookie_tsflags (v : Z) (k : cookie) : cookie := Cookie (transmit_time k) (mark k) v.

Definition __sock_cmsg_send (c : cmsg) (k : cookie) : Z * cookie :=
  let ty := cmsg_type c in
  if ty =? SO_MARK then
    if negb net_admin then (- EPERM, k)
    else if negb (cmsg_len c =? CMSG_LEN 4) then (- EINVAL, k)
    else (0, cookie_mark (u32_at (cmsg_data c)) k)
  else if (ty =? SO_TIMESTAMPING_OLD) || (ty =? SO_TIMESTAMPING_NEW) then
    if negb (cmsg_len c =? CMSG_LEN 4) then (- EINVAL, k)
    else
      let ts := u32_at (cmsg_data c) in
      if flag ts (wrapu 32 (Z.lnot SOF_TIMESTAMPING_TX_RECORD_MASK)) then (- EINVAL, k)
      else (0, cookie_tsflags (wrapu 16 (Z.lor (Z.land (tsflags k) (Z.lnot SOF_TIMESTAMPING_TX_RECORD_MASK)) ts)) k)
  else if ty =? SCM_TXTIME then
    if negb txtime then (- EINVAL, k)
    else if negb (cmsg_len c =? CMSG_LEN 8) then (- EINVAL, k)
    else (0, cookie_txtime (u64_at (cmsg_data c)) k)
  else if (ty =? SCM_RIGHTS) || (ty =? SCM_CREDENTIALS) then (0, k)
  else (- EINVAL, k).

(** sock_cmsg_send over the headers of the control buffer. *)
Fixpoint sock_cmsg_send (msg : list cmsg) (k : cookie) : Z * cookie :=
  match msg with
  | [] => (0, k)
  | c :: msg =>
      if negb (cmsg_ok c) then (- EINVAL, k)
      else if negb (cmsg_level c =? SOL_SOCKET) then sock_cmsg_send msg k
      else
        let '(ret, k) := __sock_cmsg_send c k in
        if ztrue ret then (ret, k) else sock_cmsg_send msg k
  end.

(** ** What gets into the cookie *)

(** The messages of a type at this level. *)
Definition of_type (ty : Z) (msg : list cmsg) : list cmsg :=
  filter (fun c => cmsg_level c = SOL_SOCKET /\ cmsg_type c = ty) msg.
(** The value of the last of them, if there is one. *)
Definition last_value (f : list Z -> Z) (ty : Z) (msg : list cmsg) (v : Z) : Z :=
  default v (last ((fun c => f (cmsg_data c)) <$> of_type ty msg)).

(** A message that is taken: which one may be sent by whom, in which form. *)
Definition acceptable (c : cmsg) : Prop :=
  cmsg_ok c = true /\
  (cmsg_level c = SOL_SOCKET ->
     (cmsg_type c = SO_MARK /\ net_admin = true /\ cmsg_len c = CMSG_LEN 4) \/
     ((cmsg_type c = SO_TIMESTAMPING_OLD \/ cmsg_type c = SO_TIMESTAMPING_NEW) /\ cmsg_len c = CMSG_LEN 4 /\
        flag (u32_at (cmsg_data c)) (wrapu 32 (Z.lnot SOF_TIMESTAMPING_TX_RECORD_MASK)) = false) \/
     (cmsg_type c = SCM_TXTIME /\ txtime = true /\ cmsg_len c = CMSG_LEN 8) \/
     cmsg_type c = SCM_RIGHTS \/ cmsg_type c = SCM_CREDENTIALS).

Lemma last_value_cons f ty c msg v : last_value f ty (c :: msg) v =
  last_value f ty msg (if decide (cmsg_level c = SOL_SOCKET /\ cmsg_type c = ty) then f (cmsg_data c) else v).
Proof.
  unfold last_value, of_type. destruct (decide (cmsg_level c = SOL_SOCKET /\ cmsg_type c = ty)) as [H|H].
  - rewrite filter_cons_True by done. rewrite fmap_cons, last_cons. by destruct (last _).
  - by rewrite filter_cons_False by done.
Qed.

(** One message: every outcome. *)
Lemma cmsg_send_one c k ret k' : cmsg_ok c = true -> cmsg_level c = SOL_SOCKET -> __sock_cmsg_send c k = (ret, k') ->
  (ret = 0 /\ acceptable c /\
     mark k' = (if decide (cmsg_type c = SO_MARK) then u32_at (cmsg_data c) else mark k) /\
     transmit_time k' = (if decide (cmsg_type c = SCM_TXTIME) then u64_at (cmsg_data c) else transmit_time k) /\
     (tsflags k' = tsflags k \/ exists ts, flag ts (wrapu 32 (Z.lnot SOF_TIMESTAMPING_TX_RECORD_MASK)) = false /\
        tsflags k' = wrapu 16 (Z.lor (Z.land (tsflags k) (Z.lnot SOF_TIMESTAMPING_TX_RECORD_MASK)) ts))) \/
  ((ret = - EINVAL \/ ret = - EPERM) /\ ~ acceptable c /\ k' = k).
Proof.
  intros Hok Hl H. unfold __sock_cmsg_send in H. unfold acceptable.
  unfold SO_MARK, SO_TIMESTAMPING_OLD, SO_TIMESTAMPING_NEW, SCM_TXTIME, SCM_RIGHTS, SCM_CREDENTIALS in *.
  repeat (match type of H with context [if ?b then _ else _] =>
            first [match b with context [?x =? ?y] => destruct (Z.eqb_spec x y) end | destruct b eqn:?]; cbn [negb orb] in H end);
    injection H as <- <-;
    bool_prop;
    first [right; split; [first [by left|by right]|]; split; [|done]; intros [_ Ha]; specialize (Ha Hl); intuition (congruence || lia)
          |left; split; [done|]; split; [tauto|]; split; [case_decide; first [done|lia]|]; split; [case_decide; first [done|lia]|]; eauto].
Qed.
(** Bits of the time stamping flags outside of the mask stay as they are. *)
Definition same_outside (v v' : Z) : Prop :=
  in_u 16 v' /\ forall i, 0 <= i -> Z.testbit SOF_TIMESTAMPING_TX_RECORD_MASK i = false -> Z.testbit v' i = Z.testbit v i.
Lemma tsflags_outside v ts : in_u 16 v -> flag ts (wrapu 32 (Z.lnot SOF_TIMESTAMPING_TX_RECORD_MASK)) = false ->
  same_outside v (wrapu 16 (Z.lor (Z.land v (Z.lnot SOF_TIMESTAMPING_TX_RECORD_MASK)) ts)).
Proof.
  intros Hv Hf. split; [by apply wrapu_range|]. intros i Hi Hm. unfold wrapu.
  destruct (Z.lt_ge_cases i 16) as [Hl|Hl].
  - rewrite Z.mod_pow2_bits_low, Z.lor_spec, Z.land_spec, Z.lnot_spec, Hm by lia.
    assert (Z.testbit ts i = false) as Ht.
    { unfold flag, ztrue in Hf. apply negb_false_iff, Z.eqb_eq in Hf. apply (f_equal (fun x => Z.testbit x i)) in Hf.
      rewrite Z.land_spec, Z.bits_0 in Hf. unfold wrapu in Hf. rewrite Z.mod_pow2_bits_low, Z.lnot_spec, Hm in Hf by lia.
      by rewrite andb_true_r in Hf. }
    rewrite Ht. cbn [negb]. by rewrite andb_true_r, orb_false_r.
  - rewrite Z.mod_pow2_bits_high by lia. rewrite <- (wrapu_id 16 v Hv). unfold wrapu. by rewrite Z.mod_pow2_bits_high by lia.
Qed.
Lemma same_outside_refl v : in_u 16 v -> same_outside v v.
Proof. done. Qed.

(** What sending does to the cookie, whatever it answers. *)
Definition guarded (k k' : cookie) : Prop :=
  (net_admin = false -> mark k' = mark k) /\ (txtime = false -> transmit_time k' = transmit_time k) /\ same_outside (tsflags k) (tsflags k').
Lemma cmsg_send_guarded c k ret k' : in_u 16 (tsflags k) -> cmsg_ok c = true -> cmsg_level c = SOL_SOCKET ->
  __sock_cmsg_send c k = (ret, k') -> guarded k k'.
Proof.
  intros Hu Hok Hl H. destruct (cmsg_send_one c k ret k' Hok Hl H) as [(_ & [_ Ha] & Hm & Ht & Hs)|(_ & _ & ->)]; [|done].
  specialize (Ha Hl). unfold SO_MARK, SO_TIMESTAMPING_OLD, SO_TIMESTAMPING_NEW, SCM_TXTIME, SCM_RIGHTS, SCM_CREDENTIALS in *.
  split; [intros Hn; rewrite Hm; clear Hm Ht; case_decide; [intuition (congruence || lia)|done]|].
  split; [intros Hn; rewrite Ht; clear Hm Ht; case_decide; [intuition (congruence || lia)|done]|].
  destruct Hs as [->|(ts & Hf & ->)]; [done|by apply tsflags_outside].
Qed.
Lemma guarded_trans k1 k2 k3 : guarded k1 k2 -> guarded k2 k3 -> guarded k1 k3.
Proof.
  intros (A1 & A2 & A3 & A4) (B1 & B2 & B3 & B4). split; [intros H; by rewrite B1, A1|]. split; [intros H; by rewrite B2, A2|].
  split; [done|]. intros i Hi Hm. by rewrite B4, A4.
Qed.
End Send.

(** (C35) The control messages of a message that is sent: they are taken if and only if each is
    well formed and of a kind and form the caller may use; the mark is changed only with
    CAP_NET_ADMIN and the transmit time only on a socket that has the option, even when a later
    message is refused, and of the time stamping flags only those that ask for a record; taken
    together, the last message of a kind counts. *)
Theorem send_control_checked CMSG_LEN net_admin txtime msg k ret k' : in_u 16 (tsflags k) ->
  sock_cmsg_send CMSG_LEN net_admin txtime msg k = (ret, k') ->
  (ret = 0 <-> Forall (acceptable CMSG_LEN net_admin txtime) msg) /\ (ret = 0 \/ ret = - EINVAL \/ ret = - EPERM) /\
  guarded net_admin txtime k k' /\
  (ret = 0 -> mark k' = last_value u32_at SO_MARK msg (mark k) /\
     transmit_time k' = last_value u64_at SCM_TXTIME msg (transmit_time k)).
Proof.
  revert k. induction msg as [|c msg IH]; intros k Hu H; cbn [sock_cmsg_send] in H.
  { injection H as <- <-. split; [split; [constructor|done]|]. split; [by left|]. done. }
  rewrite Forall_cons, !last_value_cons. destruct (cmsg_ok c) eqn:Hok; cbn [negb] in H; cycle 1.
  { injection H as <- <-. split; [split; [done|]|split; [by right; left|done]]. intros [[Hc _] _]. congruence. }
  destruct (Z.eqb_spec (cmsg_level c) SOL_SOCKET) as [Hl|Hl]; cbn [negb] in H; cycle 1.
  { rewrite !decide_False by tauto. destruct (IH k Hu H) as (H1 & H2 & H3 & H4). split; [|done].
    rewrite H1. split; [|tauto]. intros HF. split; [|done]. split; [done|]. intros ?. congruence. }
  destruct (__sock_cmsg_send CMSG_LEN net_admin txtime c k) as [r1 k1] eqn:E1.
  pose proof (cmsg_send_guarded CMSG_LEN net_admin txtime c k r1 k1 Hu Hok Hl E1) as Hg.
  destruct (cmsg_send_one CMSG_LEN net_admin txtime c k r1 k1 Hok Hl E1) as [(-> & Ha & Hm & Ht & _)|(Hr & Hn & ->)]; cycle 1.
  { unfold EINVAL, EPERM in Hr. destruct Hr as [-> | ->]; unfold ztrue in H; simpl in H; injection H as <- <-;
      (split; [split; [done|tauto]|]); (split; [auto|done]). }
  unfold ztrue in H. simpl in H. assert (in_u 16 (tsflags k1)) as Hu1 by apply Hg.
  destruct (IH k1 Hu1 H) as (H1 & H2 & H3 & H4). split; [tauto|]. split; [done|]. split; [by eapply guarded_trans|].
  intros Hz. destruct (H4 Hz) as [-> ->]. rewrite Hm, Ht.
  split; [destruct (decide (cmsg_type c = SO_MARK))|destruct (decide (cmsg_type c = SCM_TXTIME))];
    first [rewrite decide_True by done; done|rewrite decide_False by tauto; done].
Qed.

Definition cm0 (ty len : Z) (data : list Z) : cmsg := Cmsg true SOL_SOCKET ty len data.
Lemma send_control_checked_witness :
  in_u 16 (tsflags (Cookie 0 0 0x88)) /\
  exists k', sock_cmsg_send (fun n => 16 + n) true false [cm0 SO_MARK 20 [1; 0; 0; 0]; cm0 SO_TIMESTAMPING_OLD 20 [2; 1; 0; 0]; cm0 SO_MARK 20 [7; 0; 0; 0]]
      (Cookie 0 0 0x88) = (0, k') /\ mark k' = 7 /\ transmit_time k' = 0 /\ tsflags k' = 0x18a.
Proof.
  split; [unfold in_u; simpl; lia|]. eexists. split; [vm_compute; reflexivity|].
  destruct (send_control_checked (fun n => 16 + n) true false
    [cm0 SO_MARK 20 [1; 0; 0; 0]; cm0 SO_TIMESTAMPING_OLD 20 [2; 1; 0; 0]; cm0 SO_MARK 20 [7; 0; 0; 0]] (Cookie 0 0 0x88) 0 (Cookie 0 7 0x18a))
    as (_ & _ & _ & H); [unfold in_u; simpl; lia|vm_compute; reflexivity|].
  destruct (H eq_refl) as [Hm _]. split; [exact Hm|done].
Defined.

End SendCtl.

Module RecvCtl.

Definition SOF_TIMESTAMPING_TX_HARDWARE : Z := 1.
Definition SOF_TIMESTAMPING_TX_SOFTWARE : Z := 2.
Definition SOF_TIMESTAMPING_SOFTWARE : Z := 0x10.
Definition SOF_TIMESTAMPING_RAW_HARDWARE : Z := 0x40.
Definition SOF_TIMESTAMPING_TX_SCHED : Z := 0x100.
Definition SOF_TIMESTAMPING_OPT_PKTINFO : Z := 0x2000.
Definition SOF_TIMESTAMPING_BIND_PHC : Z := 0x8000.
Definition SKBTX_HW_TSTAMP : Z := 1.
Definition SKBTX_SW_TSTAMP : Z := 2.
Definition SKBTX_SCHED_TSTAMP : Z := 0x40.
Definition MSG_TRUNC : Z := 0x20.
Definition MSG_ERRQUEUE : Z := 0x2000.

(** The control messages of SOL_SOCKET with what they carry; a time is in nanoseconds, and 0
    in a timestamping message is a time that was not filled in. *)
Inductive ctl :=
| SO_TIMESTAMP (new : bool) (t : Z)
| SO_TIMESTAMPNS (new : bool) (t : Z)
| SCM_TIMESTAMPING (new : bool) (sw hw : Z)
| SCM_TIMESTAMPING_PKTINFO (if_index pkt_length : Z)
| SCM_TIMESTAMPING_OPT_STATS (data : list Z)
| SCM_WIFI_STATUS (ack : Z)
| SO_RXQ_OVFL (dropcount : Z)
| EXT_ERR (level type : Z) (ee : list Z).
#[global] Instance ctl_eq_dec : EqDecision ctl.
Proof. solve_decision. Defined.

(** The flags of a socket that these functions read. *)
Record rsk := Rsk {
  rcvtstamp : bool; rcvtstampns : bool; tstamp_new : bool; rxq_ovfl : bool; wifi_status : bool; sk_tsflags : Z; sk_bind_phc : Z
}.
(** A packet; [orig_dev] is the index of the device that dev_get_by_napi_id finds. *)
Record skb := Skb {
  tstamp : Z; outgoing : bool; hwtstamp : option Z; skb_data : list Z; opt_stats : bool; mac_set : bool; mac_offset : Z;
  orig_dev : option Z; wifi_acked : option Z; dropcount : Z; ee : list Z
}.
Definition skb_len (b : skb) : Z := Z.of_nat (length (skb_data b)).

Definition __sock_tx_timestamp (tsflags tx_flags : Z) : Z :=
  let flags := tx_flags in
  let flags := if flag tsflags SOF_TIMESTAMPING_TX_HARDWARE then Z.lor flags SKBTX_HW_TSTAMP else flags in
  let flags := if flag tsflags SOF_TIMESTAMPING_TX_SOFTWARE then Z.lor flags SKBTX_SW_TSTAMP else flags in
  if flag tsflags SOF_TIMESTAMPING_TX_SCHED then Z.lor flags SKBTX_SCHED_TSTAMP else flags.

Definition skb_is_err_queue (b : skb) : bool := outgoing b.
Definition skb_is_swtx_tstamp (b : skb) (false_tstamp : bool) : bool :=
  ztrue (tstamp b) && negb false_tstamp && skb_is_err_queue b.
Definition put_ts_pktinfo (b : skb) : list ctl :=
  if negb (mac_set b) then []
  else [SCM_TIMESTAMPING_PKTINFO (default 0 (orig_dev b)) (wrapu 32 (skb_len b - mac_offset b))].

Definition set_tstamp (t : Z) (b : skb) : skb :=
  Skb t (outgoing b) (hwtstamp b) (skb_data b) (opt_stats b) (mac_set b) (mac_offset b) (orig_dev b) (wifi_acked b) (dropcount b) (ee b).

Section Recv.
(** ptp_convert_timestamp. *)
Context (ptp_convert_timestamp : Z -> Z -> Z).

(** The hardware time that a socket is shown, 0 for none. *)
Definition hw_stamp (sk : rsk) (b : skb) (false_tstamp : bool) : Z :=
  match hwtstamp b with
  | Some h =>
      if flag (sk_tsflags sk) SOF_TIMESTAMPING_RAW_HARDWARE && negb (skb_is_swtx_tstamp b false_tstamp)
      then (if flag (sk_tsflags sk) SOF_TIMESTAMPING_BIND_PHC then ptp_convert_timestamp h (sk_bind_phc sk) else h)
      else 0
  | None => 0
  end.
(** The record for SO_TIMESTAMP and SO_TIMESTAMPNS. *)
Definition sw_record (sk : rsk) (b : skb) : list ctl :=
  if rcvtstamp sk
  then [(if rcvtstampns sk then SO_TIMESTAMPNS else SO_TIMESTAMP) (tstamp_new sk) (tstamp b)]
  else [].
(** __sock_recv_timestamp at the time [now]: the control messages put, and the packet with the
    time filled in if the socket wants one and it had none. *)
Definition __sock_recv_timestamp (now : Z) (sk : rsk) (b : skb) : list ctl * skb :=
  let false_tstamp := rcvtstamp sk && (tstamp b =? 0) in
  let b := if false_tstamp then set_tstamp now b else b in
  let sw := if flag (sk_tsflags sk) SOF_TIMESTAMPING_SOFTWARE then tstamp b else 0 in
  let hw := hw_stamp sk b false_tstamp in
  let pktinfo := if ztrue hw && flag (sk_tsflags sk) SOF_TIMESTAMPING_OPT_PKTINFO && negb (skb_is_err_queue b)
                 then put_ts_pktinfo b else [] in
  let tss := if ztrue sw || ztrue hw
             then SCM_TIMESTAMPING (tstamp_new sk) sw hw ::
                  (if skb_is_err_queue b && ztrue (skb_len b) && opt_stats b then [SCM_TIMESTAMPING_OPT_STATS (skb_data b)] else [])
             else [] in
  (sw_record sk b ++ pktinfo ++ tss, b).

Definition __sock_recv_wifi_status (sk : rsk) (b : skb) : list ctl :=
  if negb (wifi_status sk) then [] else match wifi_acked b with Some ack => [SCM_WIFI_STATUS ack] | None => [] end.
Definition sock_recv_drops (sk : rsk) (b : option skb) : list ctl :=
  match b with
  | Some b => if rxq_ovfl sk && ztrue (dropcount b) then [SO_RXQ_OVFL (dropcount b)] else []
  | None => []
  end.

(** sock_recv_timestamp, inline in a header, puts the time stamps of a packet. *)
Context (sock_recv_timestamp : rsk -> skb -> list ctl).
Definition __sock_recv_ts_and_drops (sk : rsk) (b : skb) : list ctl :=
  sock_recv_timestamp sk b ++ sock_recv_drops sk (Some b).

(** sock_recv_errqueue: the error queue, the flags of the message and what was put; [copy] is
    skb_copy_datagram_msg of that many bytes. *)
Record emsg := EMsg { msg_flags : Z; msg_data : list Z; msg_control : list ctl }.
Definition sock_recv_errqueue (copy : Z) (sk : rsk) (len level type : Z) (q : list skb) (m : emsg) : Z * list skb * emsg :=
  match q with
  | [] => (- EAGAIN, [], m)
  | b :: q =>
      let trunc := len <? skb_len b in
      let copied := if trunc then len else skb_len b in
      let fl := if trunc then Z.lor (msg_flags m) MSG_TRUNC else msg_flags m in
      if ztrue copy then (copy, q, EMsg fl (msg_data m) (msg_control m))
      else (copied, q, EMsg (Z.lor fl MSG_ERRQUEUE) (msg_data m ++ take (Z.to_nat copied) (skb_data b))
                         (msg_control m ++ sock_recv_timestamp sk b ++ [EXT_ERR level type (ee b)]))
  end.
(** ** What a socket is told *)

(** A record that the socket [sk] may be given for a packet [b] whose time is [t], with the
    other records [out]. *)
Definition asked (sk : rsk) (b : skb) (t : Z) (out : list ctl) (c : ctl) : Prop :=
  match c with
  | SO_TIMESTAMP n v => rcvtstamp sk = true /\ rcvtstampns sk = false /\ n = tstamp_new sk /\ v = t
  | SO_TIMESTAMPNS n v => rcvtstamp sk = true /\ rcvtstampns sk = true /\ n = tstamp_new sk /\ v = t
  | SCM_TIMESTAMPING n sw hw =>
      n = tstamp_new sk /\ (sw <> 0 \/ hw <> 0) /\
      (sw <> 0 -> flag (sk_tsflags sk) SOF_TIMESTAMPING_SOFTWARE = true /\ sw = t) /\
      (hw <> 0 -> flag (sk_tsflags sk) SOF_TIMESTAMPING_RAW_HARDWARE = true /\ (outgoing b = true -> tstamp b = 0))
  | SCM_TIMESTAMPING_PKTINFO i l =>
      flag (sk_tsflags sk) SOF_TIMESTAMPING_OPT_PKTINFO = true /\ outgoing b = false /\
      exists sw hw, SCM_TIMESTAMPING (tstamp_new sk) sw hw ∈ out /\ hw <> 0
  | SCM_TIMESTAMPING_OPT_STATS d => outgoing b = true /\ d = skb_data b /\ d <> []
  | _ => False
  end.

Lemma hw_stamp_asked sk b fl : hw_stamp sk b fl <> 0 ->
  flag (sk_tsflags sk) SOF_TIMESTAMPING_RAW_HARDWARE = true /\ (outgoing b = true -> tstamp b = 0 \/ fl = true).
Proof.
  unfold hw_stamp. destruct (hwtstamp b) as [h|]; [|done].
  destruct (flag (sk_tsflags sk) SOF_TIMESTAMPING_RAW_HARDWARE); cbn [andb]; [|done].
  unfold skb_is_swtx_tstamp, skb_is_err_queue, ztrue. destruct (Z.eqb_spec (tstamp b) 0), fl, (outgoing b); simpl; tauto.
Qed.
Lemma recv_timestamp_asked now sk b out b' : __sock_recv_timestamp now sk b = (out, b') ->
  Forall (asked sk b (tstamp b') out) out.
Proof.
  unfold __sock_recv_timestamp. set (fl := (rcvtstamp sk && (tstamp b =? 0))%bool).
  set (b1 := if fl then set_tstamp now b else b). intros H. injection H as <- <-.
  assert (outgoing b1 = outgoing b /\ skb_data b1 = skb_data b) as [Eo Ed] by (subst b1; by destruct fl).
  assert (hw_stamp sk b1 fl <> 0 -> flag (sk_tsflags sk) SOF_TIMESTAMPING_RAW_HARDWARE = true /\ (outgoing b = true -> tstamp b = 0)) as Hhw.
  { intros Hh. destruct (hw_stamp_asked sk b1 fl Hh) as [H1 H2]. split; [done|]. intros Ho. rewrite Eo in H2.
    subst b1 fl. destruct (rcvtstamp sk), (Z.eqb_spec (tstamp b) 0); simpl in *; try done; by destruct (H2 Ho). }
  remember (hw_stamp sk b1 fl) as hw eqn:Eh. clear Eh.
  apply Forall_app. split; [|apply Forall_app; split].
  - unfold sw_record. destruct (rcvtstamp sk) eqn:?; [|constructor]. constructor; [|constructor]. by destruct (rcvtstampns sk) eqn:?.
  - destruct (ztrue hw) eqn:Ez; cbn [andb orb]; [|constructor]. rewrite orb_true_r.
    destruct (flag (sk_tsflags sk) SOF_TIMESTAMPING_OPT_PKTINFO) eqn:?; cbn [andb]; [|constructor].
    unfold skb_is_err_queue. destruct (outgoing b1) eqn:?; cbn [negb]; [constructor|].
    unfold put_ts_pktinfo. destruct (mac_set b1); cbn [negb]; [|constructor]. constructor; [|constructor].
    split; [done|]. split; [congruence|]. eexists _, hw. split; [apply elem_of_app; right; right; by left|]. unfold ztrue in Ez. bool_prop. done.
  - destruct (ztrue (if flag (sk_tsflags sk) SOF_TIMESTAMPING_SOFTWARE then tstamp b1 else 0) || ztrue hw)%bool eqn:Ez; [|constructor].
    constructor.
    + unfold ztrue in Ez. split; [done|]. split.
      { apply orb_true_iff in Ez as [Ez|Ez]; bool_prop; [by left|by right]. }
      split; [|done]. by destruct (flag (sk_tsflags sk) SOF_TIMESTAMPING_SOFTWARE).
    + unfold skb_is_err_queue, skb_len, ztrue. destruct (outgoing b1) eqn:?; cbn [andb]; [|constructor].
      destruct (Z.eqb_spec (Z.of_nat (length (skb_data b1))) 0) as [|Hn]; cbn [negb andb]; [constructor|].
      destruct (opt_stats b1); [|constructor]. constructor; [|constructor]. split; [congruence|]. split; [done|].
      intros E. rewrite E in Hn. done.
Qed.

End Recv.

(** The control messages of a received packet: every record in it was asked for by an
    option of the socket, in the form the options say, and carries the time of the packet; a
    time stamping record is never empty and never shows a hardware time next to the real
    software time of a sent packet; packet information only accompanies a hardware time; a
    socket that asked for a time gets one, the current one if the packet had none.  Reading the
    error queue takes the first packet, returns at most the bytes asked for and says whether
    some were cut off. *)
Theorem recv_control_asked ptp now sk b :
  let '(out, b') := __sock_recv_timestamp ptp now sk b in
  Forall (asked sk b (tstamp b') out) out /\
  tstamp b' = (if rcvtstamp sk && (tstamp b =? 0) then now else tstamp b) /\
  (rcvtstamp sk = true -> exists f rest, out = f (tstamp_new sk) (tstamp b') :: rest /\ (f = SO_TIMESTAMP \/ f = SO_TIMESTAMPNS)) /\
  (flag (sk_tsflags sk) SOF_TIMESTAMPING_SOFTWARE = true -> tstamp b' <> 0 ->
     exists hw, SCM_TIMESTAMPING (tstamp_new sk) (tstamp b') hw ∈ out) /\
  (forall stamps copy len level type q m, 0 <= len ->
     let '(r, q', m') := sock_recv_errqueue stamps copy sk len level type (b :: q) m in
     q' = q /\ (copy <> 0 -> r = copy /\ msg_data m' = msg_data m /\ msg_control m' = msg_control m) /\
     (copy = 0 -> 0 <= r <= len /\ msg_data m' = msg_data m ++ take (Z.to_nat r) (skb_data b) /\
        (Z.testbit (msg_flags m) 5 = false -> (Z.testbit (msg_flags m') 5 = true <-> r < skb_len b)))).
Proof.
  destruct (__sock_recv_timestamp ptp now sk b) as [out b'] eqn:E. split; [by eapply recv_timestamp_asked|].
  unfold __sock_recv_timestamp in E. injection E as <- <-.
  split; [by destruct (rcvtstamp sk && (tstamp b =? 0))%bool|]. split; [|split].
  - intros Hr. unfold sw_record. rewrite Hr. cbn [andb]. do 2 eexists. split; [done|]. destruct (rcvtstampns sk); auto.
  - intros Hs Hn. rewrite Hs. eexists. rewrite !elem_of_app. right. right. unfold ztrue at 1.
    destruct (Z.eqb_spec (tstamp (if rcvtstamp sk && (tstamp b =? 0) then set_tstamp now b else b)) 0); [done|]. cbn [negb orb]. by left.
  - intros stamps copy len level type q m Hl. unfold sock_recv_errqueue, ztrue.
    destruct (Z.eqb_spec copy 0) as [->|Hc]; cbn [negb].
    2: { split; [done|]. split; [done|]. intros ->. done. }
    split; [done|]. split; [done|]. intros _.
    assert (0 <= skb_len b) by (unfold skb_len; lia).
    destruct (Z.ltb_spec len (skb_len b)); cbn [msg_flags msg_data]; (split; [lia|]); (split; [done|]); intros Hb;
      rewrite !Z.lor_spec, Hb; simpl; (split; [lia || done|lia || done]).
Qed.

End RecvCtl.

Module RcvQueue.

(** A packet with its truesize and the number of drops noted in it. *)
Record pkt := Pkt { id : Z; truesize : Z; noted : Z }.
(** The receive queue; packets a reader took and has not freed; sk_rmem_alloc, sk_forward_alloc
    and sk_drops; how often sk_data_ready was called; and, to state what happened, the packets
    that were accepted, those that readers took, the number refused for lack of room, and the
    memory that was granted. *)
Record rq := RQ {
  queue : list pkt; taken : list pkt; rmem_alloc : Z; forward_alloc : Z; drops : Z; ready : Z;
  accepted : list Z; delivered : list Z; refused : Z; granted : Z
}.
Definition sizes (l : list pkt) : Z := foldr (fun p n => truesize p + n) 0 l.

Definition drop (q : rq) : rq :=
  RQ (queue q) (taken q) (rmem_alloc q) (forward_alloc q) (wraps 32 (drops q + 1)) (ready q)
    (accepted q) (delivered q) (refused q + 1) (granted q).

(** Answers for a packet that arrives: sk_filter; the memory that sk_rmem_schedule adds to
    sk_forward_alloc, or none; the number sock_skb_set_dropcount notes for a count of drops;
    whether the socket is dead. *)
Record aenv := AEnv { filter_err : Z; schedule : option Z; dropcount_of : Z -> Z; dead : bool }.

(** __sock_queue_rcv_skb; skb_set_owner_r charges the size of the packet to sk_rmem_alloc and
    takes it from sk_forward_alloc. *)
Definition __sock_queue_rcv_skb (e : aenv) (rcvbuf i size : Z) (q : rq) : Z * rq :=
  if rcvbuf <=? rmem_alloc q then (- ENOMEM, drop q)
  else
    match schedule e with
    | None => (- ENOBUFS, drop q)
    | Some g =>
        (0, RQ (queue q ++ [Pkt i size (dropcount_of e (drops q))]) (taken q) (rmem_alloc q + size)
               (forward_alloc q + g - size) (drops q) (if dead e then ready q else ready q + 1)
               (accepted q ++ [i]) (delivered q) (refused q) (granted q + g))
    end.
Definition sock_queue_rcv_skb (e : aenv) (rcvbuf i size : Z) (q : rq) : Z * rq :=
  if ztrue (filter_err e) then (filter_err e, q) else __sock_queue_rcv_skb e rcvbuf i size q.

(** sock_rfree, the destructor of a packet. *)
Definition sock_rfree (p : pkt) (q : rq) : rq :=
  RQ (queue q) (taken q) (rmem_alloc q - truesize p) (forward_alloc q + truesize p) (drops q) (ready q)
    (accepted q) (delivered q) (refused q) (granted q).

Section Rcv.
(** Bounds on sk_rcvbuf, which may change, and on the size of a packet. *)
Context (rcvbuf_max size_max : Z).

Definition take_head (q : rq) : rq :=
  match queue q with
  | p :: l => RQ l (p :: taken q) (rmem_alloc q) (forward_alloc q) (drops q) (ready q) (accepted q) (delivered q ++ [id p]) (refused q) (granted q)
  | [] => q
  end.
Definition forget (l1 l2 : list pkt) (q : rq) : rq :=
  RQ (queue q) (l1 ++ l2) (rmem_alloc q) (forward_alloc q) (drops q) (ready q) (accepted q) (delivered q) (refused q) (granted q).

(** Packets arrive, readers take the first one and free what they took. *)
Inductive qstep : rq -> rq -> Prop :=
| q_arrive e rcvbuf i size q r q' : rcvbuf <= rcvbuf_max -> 0 < size <= size_max ->
    (forall g, schedule e = Some g -> 0 <= g /\ size <= forward_alloc q + g) ->
    sock_queue_rcv_skb e rcvbuf i size q = (r, q') -> qstep q q'
| q_take q : qstep q (take_head q)
| q_free q l1 p l2 : taken q = l1 ++ p :: l2 -> qstep q (sock_rfree p (forget l1 l2 q)).

Definition empty : rq := RQ [] [] 0 0 0 0 [] [] 0 0.

Record qinv (q : rq) : Prop := QInv {
  qi_rmem : rmem_alloc q = sizes (queue q) + sizes (taken q);
  qi_bound : rmem_alloc q < Z.max 1 (rcvbuf_max + size_max);
  qi_pos : Forall (fun p => 0 < truesize p) (queue q ++ taken q);
  qi_fwd : 0 <= forward_alloc q;
  qi_grant : granted q = forward_alloc q + rmem_alloc q;
  qi_order : accepted q = delivered q ++ (id <$> queue q);
  qi_drops : drops q = wraps 32 (refused q);
  qi_refused : 0 <= refused q
}.

Lemma sizes_app l1 l2 : sizes (l1 ++ l2) = sizes l1 + sizes l2.
Proof. induction l1 as [|p l1 IH]; simpl; [done|]. rewrite IH. lia. Qed.
Lemma sizes_nonneg l : Forall (fun p => 0 < truesize p) l -> 0 <= sizes l.
Proof. induction 1; simpl; lia. Qed.

Lemma qinv_drop q : qinv q -> qinv (drop q).
Proof.
  intros [I1 I2 I3 I4 I5 I6 I7 I8]. split; cbn; try done; [|lia]. rewrite I7. by apply wraps_add_l.
Qed.
Lemma qinv_arrive e rcvbuf i size q : rcvbuf <= rcvbuf_max -> 0 < size <= size_max ->
  (forall g, schedule e = Some g -> 0 <= g /\ size <= forward_alloc q + g) -> qinv q ->
  qinv (sock_queue_rcv_skb e rcvbuf i size q).2.
Proof.
  intros Hr Hs Hg I. unfold sock_queue_rcv_skb, __sock_queue_rcv_skb. destruct (ztrue (filter_err e)); [done|].
  destruct (Z.leb_spec rcvbuf (rmem_alloc q)); [by apply qinv_drop|].
  destruct (schedule e) as [g|]; [|by apply qinv_drop]. destruct (Hg g eq_refl) as [Hg0 Hg1]. destruct I as [I1 I2 I3 I4 I5 I6 I7 I8].
  split; cbn [queue taken rmem_alloc forward_alloc drops ready accepted delivered refused granted snd]; try done; try lia.
  - rewrite sizes_app. simpl. lia.
  - apply Forall_app in I3 as [F1 F2]. apply Forall_app. split; [apply Forall_app; split; [done|]|done]. constructor; [simpl; lia|constructor].
  - rewrite I6, fmap_app, <- app_assoc. done.
Qed.
Lemma qinv_step q q' : qstep q q' -> qinv q -> qinv q'.
Proof.
  intros Hst I. destruct Hst as [e rcvbuf i size q r q' Hr Hs Hg E|q|q l1 p l2 E].
  - pose proof (qinv_arrive e rcvbuf i size q Hr Hs Hg I) as H. by rewrite E in H.
  - unfold take_head. destruct (queue q) as [|p l] eqn:Eq; [done|]. destruct I as [I1 I2 I3 I4 I5 I6 I7 I8]. rewrite Eq in *.
    split; cbn [queue taken rmem_alloc forward_alloc drops ready accepted delivered refused granted]; try done.
    + rewrite I1. simpl. lia.
    + simpl in I3. by rewrite <- Permutation_middle.
    + rewrite I6, <- app_assoc. done.
  - destruct I as [I1 I2 I3 I4 I5 I6 I7 I8]. rewrite E in *. rewrite sizes_app in I1. simpl in I1.
    apply Forall_app in I3 as [F1 F2]. apply Forall_app in F2 as [F2 F3]. inversion F3 as [|x y Fp F4]; subst x y.
    split; cbn [sock_rfree forget queue taken rmem_alloc forward_alloc drops ready accepted delivered refused granted]; try done; try lia.
    + rewrite sizes_app. lia.
    + apply Forall_app. split; [done|]. apply Forall_app. done.
Qed.
End Rcv.

(** The receive queue, through any arrivals, reads and releases: readers get the packets
    that were accepted, in order and each once; the memory charged to the socket is that of the
    packets queued or still with a reader, stays below the largest receive buffer plus one
    packet, and what was granted to the socket is what it has left plus what is charged; the
    counter of drops counts the packets refused for lack of room. *)
Theorem receive_queue_accounted rcvbuf_max size_max q : rtc (qstep rcvbuf_max size_max) empty q ->
  accepted q = delivered q ++ (id <$> queue q) /\
  rmem_alloc q = sizes (queue q) + sizes (taken q) /\ 0 <= rmem_alloc q < Z.max 1 (rcvbuf_max + size_max) /\
  0 <= forward_alloc q /\ granted q = forward_alloc q + rmem_alloc q /\ drops q = wraps 32 (refused q) /\
  forall e rcvbuf i size r q', sock_queue_rcv_skb e rcvbuf i size q = (r, q') ->
    (r = 0 -> accepted q' = accepted q ++ [i] /\ refused q' = refused q) /\
    (r <> 0 -> accepted q' = accepted q /\ rmem_alloc q' = rmem_alloc q /\ granted q' = granted q).
Proof.
  intros Hr. assert (qinv rcvbuf_max size_max q) as I.
  { revert q Hr. apply (rtc_ind_r (qinv rcvbuf_max size_max)); [|intros q1 q2 _ Hst; by apply qinv_step].
    split; cbn; try done; try lia. }
  destruct I as [I1 I2 I3 I4 I5 I6 I7 I8]. apply Forall_app in I3 as [F1 F2]. pose proof (sizes_nonneg _ F1). pose proof (sizes_nonneg _ F2).
  split; [done|]. split; [done|]. split; [lia|]. split; [done|]. split; [done|]. split; [done|].
  intros e rcvbuf i size r q' E. unfold sock_queue_rcv_skb, __sock_queue_rcv_skb in E.
  destruct (ztrue (filter_err e)) eqn:Ef; [injection E as <- <-; split; [|done]; intros Hz; by rewrite Hz in Ef|].
  destruct (rcvbuf <=? rmem_alloc q); [by injection E as <- <-|]. destruct (schedule e); by injection E as <- <-.
Qed.
Definition aenv0 : aenv := AEnv 0 (Some 4096) (fun d => d) false.
Lemma receive_queue_accounted_witness : exists q, rtc (qstep 1000 800) empty q /\
  delivered q = [1] /\ rmem_alloc q = 700 + 800 /\ drops q = 1 /\ accepted q = delivered q ++ (id <$> queue q).
Proof.
  assert (exists q, rtc (qstep 1000 800) empty q /\ delivered q = [1] /\ rmem_alloc q = 700 + 800 /\ drops q = 1) as (q & Hq & H1 & H2 & H3).
  { eexists. split.
    - eapply rtc_l; [eapply (q_arrive 1000 800 aenv0 1000 1 700); [lia|lia| |vm_compute; reflexivity]; intros g [= <-]; simpl; lia|].
      eapply rtc_l; [eapply (q_arrive 1000 800 aenv0 1000 2 800); [lia|lia| |vm_compute; reflexivity]; intros g [= <-]; simpl; lia|].
      eapply rtc_l; [eapply (q_arrive 1000 800 aenv0 1000 3 500); [lia|lia| |vm_compute; reflexivity]; intros g [= <-]; simpl; lia|].
      eapply rtc_l; [apply q_take|]. apply rtc_refl.
    - vm_compute. done. }
  exists q. split; [done|]. split; [done|]. split; [done|]. split; [done|].
  exact (proj1 (receive_queue_accounted 1000 800 q Hq)).
Defined.
End RcvQueue.

Module Frag.

(** struct page_frag and the references of pages. *)
Record pfrag := PFrag { page : option Z; offset : Z; size : Z }.
Definition upd (p d : Z) (refs : Z -> Z) : Z -> Z := fun x => if x =? p then refs x + d else refs x.

Section Frag.
(** PAGE_SIZE and SKB_FRAG_PAGE_ORDER. *)
Context (PAGE_SIZE order : Z).

(** The pages that the allocator gives: of the high order, and a single one. *)
Definition new_page (no_high : bool) (high low : option Z) (sz0 : Z) (refs : Z -> Z) : bool * pfrag * (Z -> Z) :=
  let single := match low with
                | Some p => (true, PFrag (Some p) 0 PAGE_SIZE, upd p 1 refs)
                | None => (false, PFrag None 0 sz0, refs)
                end in
  if ztrue order && negb no_high
  then match high with
       | Some p => (true, PFrag (Some p) 0 (Z.shiftl PAGE_SIZE order), upd p 1 refs)
       | None => single
       end
  else single.
Definition skb_page_frag_refill (no_high : bool) (high low : option Z) (sz : Z) (f : pfrag) (refs : Z -> Z) : bool * pfrag * (Z -> Z) :=
  match page f with
  | Some p =>
      if refs p =? 1 then (true, PFrag (Some p) 0 (size f), refs)
      else if wrapu 32 (offset f + sz) <=? size f then (true, f, refs)
      else new_page no_high high low (size f) (upd p (-1) refs)
  | None => new_page no_high high low (size f) refs
  end.
(** sk_page_frag_refill: a failure also enters memory pressure and moderates the send buffer. *)
Definition sk_page_frag_refill {S} (pressure : S -> S) (no_high : bool) (high low : option Z) (f : pfrag) (refs : Z -> Z) (s : S)
    : bool * pfrag * (Z -> Z) * S :=
  match skb_page_frag_refill no_high high low 32 f refs with
  | (true, f, refs) => (true, f, refs, s)
  | (false, f, refs) => (false, f, refs, pressure s)
  end.

(** ** Pieces in use *)

(** A piece of a page that was handed out. *)
Record piece := Piece { in_page : Z; start : Z; len : Z }.
Record fworld := FWorld { frag : pfrag; refs : Z -> Z; pieces : gmap Z piece }.

Inductive fstep : fworld -> fworld -> Prop :=
| f_refill no_high high low sz w r f rf : 0 < sz <= PAGE_SIZE ->
    (forall p, high = Some p \/ low = Some p -> refs w p = 0) ->
    skb_page_frag_refill no_high high low sz (frag w) (refs w) = (r, f, rf) -> fstep w (FWorld f rf (pieces w))
| f_take k n p w : page (frag w) = Some p -> 0 < n -> offset (frag w) + n <= size (frag w) -> pieces w !! k = None ->
    fstep w (FWorld (PFrag (Some p) (offset (frag w) + n) (size (frag w))) (upd p 1 (refs w))
               (<[k := Piece p (offset (frag w)) n]> (pieces w)))
| f_free k c w : pieces w !! k = Some c -> fstep w (FWorld (frag w) (upd (in_page c) (-1) (refs w)) (delete k (pieces w))).

(** The pieces of a page. *)
Definition users (p : Z) (m : gmap Z piece) : Z := countm (fun c => in_page c = p) m.
Definition apart (a b : piece) : Prop := in_page a = in_page b -> start a + len a <= start b \/ start b + len b <= start a.

Record finv (w : fworld) : Prop := FInv {
  fi_refs : forall p, refs w p = users p (pieces w) + (if decide (page (frag w) = Some p) then 1 else 0);
  fi_apart : forall i j a b, pieces w !! i = Some a -> pieces w !! j = Some b -> i <> j -> apart a b;
  fi_below : forall k c, pieces w !! k = Some c -> page (frag w) = Some (in_page c) -> start c + len c <= offset (frag w);
  fi_frag : forall p, page (frag w) = Some p -> 0 <= offset (frag w) <= size (frag w) /\ PAGE_SIZE <= size (frag w) <= 2 ^ 30
}.
Lemma users_none p m k c : users p m <= 0 -> m !! k = Some c -> in_page c <> p.
Proof. intros Hu Hk Hp. pose proof (countm_pos (fun c => in_page c = p) k c m Hk Hp). unfold users in Hu. lia. Qed.

Context (page_pos : 0 < PAGE_SIZE) (order_ok : 0 <= order) (high_ok : Z.shiftl PAGE_SIZE order <= 2 ^ 30).

Lemma high_size : PAGE_SIZE <= Z.shiftl PAGE_SIZE order.
Proof. rewrite Z.shiftl_mul_pow2 by done. pose proof (Z.pow_pos_nonneg 2 order). nia. Qed.
Lemma new_page_spec no_high high low sz0 rf r f rf' : new_page no_high high low sz0 rf = (r, f, rf') ->
  (r = true /\ exists q, (high = Some q \/ low = Some q) /\ page f = Some q /\ offset f = 0 /\ PAGE_SIZE <= size f <= 2 ^ 30 /\ rf' = upd q 1 rf)
  \/ (r = false /\ page f = None /\ rf' = rf).
Proof.
  pose proof high_size as Hh. unfold new_page. intros H.
  destruct (ztrue order && negb no_high)%bool; [destruct high as [q|]|]; [|destruct low as [q|]..];
    injection H as <- <- <-; try (right; done); left; (split; [done|]); exists q; simpl; auto with lia.
Qed.

(** A page that replaces the one of the fragment, given back before ([old]). *)
Lemma finv_new w no_high high low sz0 old r f rf : finv w -> page (frag w) = old ->
  (forall p, high = Some p \/ low = Some p -> refs w p = 0) ->
  new_page no_high high low sz0 (match old with Some p => upd p (-1) (refs w) | None => refs w end) = (r, f, rf) ->
  finv (FWorld f rf (pieces w)) /\ (r = false -> page f = None) /\ (r = true -> is_Some (page f) /\ offset f = 0 /\ PAGE_SIZE <= size f).
Proof.
  intros [I1 I2 I3 I4] Ho Hf E.
  assert (forall x, (match old with Some p => upd p (-1) (refs w) | None => refs w end) x = users x (pieces w)) as Hu.
  { intros x. rewrite Ho in I1. destruct old as [p|]; [unfold upd|rewrite I1, decide_False by done; lia].
    rewrite I1. destruct (Z.eqb_spec x p) as [->|]; [rewrite decide_True by done; lia|rewrite decide_False by congruence; lia]. }
  apply new_page_spec in E as [(-> & q & Hq & Hp & Hz & Hs & ->)|(-> & Hp & ->)].
  - apply Hf in Hq. rewrite I1 in Hq. pose proof (countm_nonneg (fun c => in_page c = q) (pieces w)).
    assert (users q (pieces w) = 0) as Hq0 by (unfold users in *; destruct (decide (page (frag w) = Some q)); lia).
    split; [|split; [done|rewrite Hp; intros _; split; [by eexists|]; split; [done|lia]]]. split; cbn [frag refs pieces].
    + intros x. unfold upd. rewrite Hu, Hp. destruct (Z.eqb_spec x q) as [->|]; [by rewrite decide_True|rewrite decide_False by congruence; lia].
    + done.
    + intros k c Hk Hc. rewrite Hp in Hc. injection Hc as ->. destruct (users_none (in_page c) (pieces w) k c); [lia|done|done].
    + intros x Hx. lia.
  - split; [|split; [done|done]]. split; cbn [frag refs pieces]; try done; [|intros ? ?; congruence..].
    intros x. rewrite Hu, Hp, decide_False by done. lia.
Qed.

Lemma finv_refill w no_high high low sz r f rf : finv w -> 0 < sz <= PAGE_SIZE ->
  (forall p, high = Some p \/ low = Some p -> refs w p = 0) ->
  skb_page_frag_refill no_high high low sz (frag w) (refs w) = (r, f, rf) ->
  finv (FWorld f rf (pieces w)) /\ (r = false -> page f = None) /\ (r = true -> is_Some (page f) /\ offset f + sz <= size f).
Proof.
  intros I Hsz Hf E. unfold skb_page_frag_refill in E. destruct (page (frag w)) as [p|] eqn:Ep; cycle 1.
  { destruct (finv_new w no_high high low (size (frag w)) None r f rf I Ep Hf E) as (I' & H1 & H2).
    split; [done|]. split; [done|]. intros Hr. destruct (H2 Hr) as (H3 & H4 & H5). split; [done|lia]. }
  pose proof I as [I1 I2 I3 I4]. destruct (I4 p Ep) as [Ho Hs]. destruct (Z.eqb_spec (refs w p) 1) as [H1|H1].
  { injection E as <- <- <-. split; [|split; [done|]; intros _; split; [by eexists|simpl; lia]].
    rewrite I1, decide_True in H1 by done. split; cbn [frag refs pieces page offset size]; try done.
    - intros x. by rewrite I1, Ep.
    - intros k c Hk [= ->]. destruct (users_none (in_page c) (pieces w) k c); [lia|done|done].
    - intros x _. lia. }
  destruct (Z.leb_spec (wrapu 32 (offset (frag w) + sz)) (size (frag w))) as [Hw|Hw].
  { injection E as <- <- <-. assert (PAGE_SIZE <= 2 ^ 30) by lia. rewrite wrapu_id in Hw by (unfold in_u; lia).
    split; [by destruct w|]. split; [done|]. intros _. split; [by rewrite Ep; eexists|done]. }
  destruct (finv_new w no_high high low (size (frag w)) (Some p) r f rf I Ep Hf E) as (I' & H2 & H3).
  split; [done|]. split; [done|]. intros Hr. destruct (H3 Hr) as (H4 & H5 & H6). split; [done|lia].
Qed.

Lemma finv_take w k n p : finv w -> page (frag w) = Some p -> 0 < n -> offset (frag w) + n <= size (frag w) -> pieces w !! k = None ->
  finv (FWorld (PFrag (Some p) (offset (frag w) + n) (size (frag w))) (upd p 1 (refs w)) (<[k := Piece p (offset (frag w)) n]> (pieces w))).
Proof.
  intros [I1 I2 I3 I4] Hp Hn Ho Hk. destruct (I4 p Hp). split; cbn [frag refs pieces page offset size].
  - intros x. unfold users. rewrite countm_insert by done. fold (users x (pieces w)). unfold upd. rewrite I1, Hp. cbn [in_page].
    destruct (Z.eqb_spec x p) as [->|]; [rewrite !decide_True by done; lia|rewrite !decide_False by congruence; lia].
  - intros i j a b. rewrite !lookup_insert_Some. intros [[Ei Ea]|[_ Ha]] [[Ej Eb]|[_ Hb]] Hij; subst; try done; try (by eapply I2).
    + intros Heq. cbn [in_page start len] in *. right. apply (I3 _ _ Hb). by rewrite <- Heq.
    + intros Heq. cbn [in_page start len] in *. left. apply (I3 _ _ Ha). by rewrite Heq.
  - intros i c. rewrite lookup_insert_Some. intros [[Ei Ec]|[_ Hc]] Heq; injection Heq as Heq; [subst c; cbn [start len]; lia|].
    pose proof (I3 _ _ Hc). rewrite Hp, Heq in *. intuition lia.
  - intros x _. lia.
Qed.
Lemma finv_free w k c : finv w -> pieces w !! k = Some c ->
  finv (FWorld (frag w) (upd (in_page c) (-1) (refs w)) (delete k (pieces w))).
Proof.
  intros [I1 I2 I3 I4] Hk. split; cbn [frag refs pieces]; try done.
  - intros x. unfold users. rewrite (countm_delete _ k c) by done. fold (users x (pieces w)). unfold upd. rewrite I1.
    destruct (Z.eqb_spec x (in_page c)) as [->|]; [rewrite (decide_True (P := in_page c = in_page c)) by done; lia|].
    rewrite (decide_False (P := in_page c = x)) by congruence. lia.
  - intros i j a b [_ Ha]%lookup_delete_Some [_ Hb]%lookup_delete_Some. by eapply I2.
  - intros i d [_ Hd]%lookup_delete_Some. by eapply I3.
Qed.
End Frag.

(** Page fragments: whoever takes pieces of the current page, frees them and refills it, in
    any order and with any allocation failing, pieces in use never overlap, each page has exactly
    one reference for each of its pieces and one for being the current page; a refill that
    succeeds leaves room for the size asked for, and one that fails leaves no page behind. *)
Theorem fragments_apart PAGE_SIZE order w : 0 < PAGE_SIZE -> 0 <= order -> Z.shiftl PAGE_SIZE order <= 2 ^ 30 ->
  rtc (fstep PAGE_SIZE order) (FWorld (PFrag None 0 0) (fun _ => 0) ∅) w ->
  (forall i j a b, pieces w !! i = Some a -> pieces w !! j = Some b -> i <> j -> apart a b) /\
  (forall p, refs w p = users p (pieces w) + (if decide (page (frag w) = Some p) then 1 else 0)) /\
  forall no_high high low sz r f rf, 0 < sz <= PAGE_SIZE -> (forall p, high = Some p \/ low = Some p -> refs w p = 0) ->
    skb_page_frag_refill PAGE_SIZE order no_high high low sz (frag w) (refs w) = (r, f, rf) ->
    (r = false -> page f = None /\ forall p, rf p = users p (pieces w)) /\ (r = true -> is_Some (page f) /\ offset f + sz <= size f).
Proof.
  intros Hp Ho Hh Hr. assert (finv PAGE_SIZE w) as I.
  { revert w Hr. apply (rtc_ind_r (finv PAGE_SIZE)).
    - by split.
    - intros w1 w2 _ Hst I. destruct Hst as [no_high high low sz w r f rf Hsz Hf E|k n p w H1 H2 H3 H4|k c w H1].
      + by eapply finv_refill.
      + by apply finv_take.
      + by apply finv_free. }
  split; [apply I|]. split; [apply I|]. intros no_high high low sz r f rf Hsz Hf E.
  destruct (finv_refill PAGE_SIZE order Hp Ho Hh w no_high high low sz r f rf I Hsz Hf E) as ([I1 _ _ _] & H1 & H2).
  split; [|done]. intros Hr'. split; [by apply H1|]. intros p. specialize (I1 p). cbn [refs pieces frag] in I1.
  rewrite (H1 Hr'), decide_False in I1 by done. lia.
Qed.

Lemma fragments_apart_witness : exists w, rtc (fstep 4096 3) (FWorld (PFrag None 0 0) (fun _ => 0) ∅) w /\
  pieces w !! 1 = Some (Piece 9 0 100) /\ pieces w !! 2 = Some (Piece 9 100 50) /\ apart (Piece 9 0 100) (Piece 9 100 50) /\ refs w 9 = 3.
Proof.
  assert (exists w, rtc (fstep 4096 3) (FWorld (PFrag None 0 0) (fun _ => 0) ∅) w /\
    pieces w !! 1 = Some (Piece 9 0 100) /\ pieces w !! 2 = Some (Piece 9 100 50) /\ refs w 9 = 3) as (w & Hw & H1 & H2 & H3).
  { eexists. split.
    - eapply rtc_l; [eapply (f_refill 4096 3 false (Some 9) None 32); [lia|by intros p _|reflexivity]|].
      eapply rtc_l; [eapply (f_take 4096 3 1 100 9); vm_compute; (reflexivity || discriminate)|].
      eapply rtc_l; [eapply (f_take 4096 3 2 50 9); vm_compute; (reflexivity || discriminate)|]. apply rtc_refl.
    - vm_compute. done. }
  exists w. split; [done|]. split; [done|]. split; [done|]. split; [|done].
  destruct (fragments_apart 4096 3 w ltac:(lia) ltac:(lia) ltac:(vm_compute; discriminate) Hw) as [H _].
  by apply (H 1 2).
Defined.
End Frag.
