(* ===== verification/Tcpdump.v ===== *)
(** * The packet capture tool (src/tcpdump/custom_tcpdump.c, main.c)

    The capture functions over libpcap, the handler that stores packets in a buffer, and
    the command line program with its signal handler.  libpcap is a parameter: whether an
    interface opens, whether a filter compiles and can be set, and what a loop delivers
    under the filter in force.  [None] stands for a write outside a buffer. *)

From S2P Require Import Prelude.

(** struct pcap_pkthdr with the packet. *)
Record packet := Packet { ts_sec : Z; caplen : Z; len : Z; data : list Z }.

(** What happens during a loop: a packet is handed over, or SIGINT arrives. *)
Inductive levent := LPacket (p : packet) | LSigint.
Definition packets (l : list levent) : list packet :=
  omap (fun e => match e with LPacket p => Some p | LSigint => None end) l.

(** libpcap; [loop] gives the events and the result of pcap_loop for a filter and a count. *)
Record pcap := Pcap {
  open_ok : string -> bool; compile_ok : string -> bool; setfilter_ok : bool;
  loop : option string -> Z -> list levent * Z
}.

(** What the documentation of libpcap says of pcap_loop: a packet comes with [caplen]
    bytes, a 32-bit number; under a filter only matching packets come; a positive count
    bounds the packets; without one the loop on a live capture ends with an error or,
    after pcap_breakloop, with PCAP_ERROR_BREAK. *)
Definition PCAP_ERROR : Z := -1.
Definition PCAP_ERROR_BREAK : Z := -2.
Record pcap_laws (matches : string -> packet -> bool) (l : pcap) : Prop := PcapLaws {
  law_len : forall f n, Forall (fun p => caplen p = Z.of_nat (length (data p)) /\ in_u 32 (caplen p))
                          (packets (fst (loop l f n)));
  law_match : forall f n, Forall (fun p => matches f p = true) (packets (fst (loop l (Some f) n)));
  law_count : forall f n, 0 < n -> Z.of_nat (length (packets (fst (loop l f n)))) <= n;
  law_end : forall f n, n <= 0 -> snd (loop l f n) = PCAP_ERROR \/ snd (loop l f n) = PCAP_ERROR_BREAK
}.

Module Capture.

(** The process: open handles, compiled programs, the filter in force, whether
    pcap_breakloop was called, and the data of the packet handler. *)
Record proc (U : Type) := Proc {
  handles : Z; programs : Z; active : option string; broken : bool; user : U
}.
Arguments Proc {U} _ _ _ _ _.
Arguments handles {U} _.
Arguments programs {U} _.
Arguments active {U} _.
Arguments broken {U} _.
Arguments user {U} _.

Section Handler.
Context {U : Type} (l : pcap) (sigint : proc U -> proc U).

Definition add_handles (k : Z) (s : proc U) : proc U :=
  Proc (handles s + k) (programs s) (active s) (broken s) (user s).
Definition add_programs (k : Z) (s : proc U) : proc U :=
  Proc (handles s) (programs s + k) (active s) (broken s) (user s).
Definition set_active (f : option string) (s : proc U) : proc U :=
  Proc (handles s) (programs s) f (broken s) (user s).
Definition set_user (u : U) (s : proc U) : proc U :=
  Proc (handles s) (programs s) (active s) (broken s) u.

(** pcap_loop as seen by the program: the handler for each packet, the signal handler for
    each signal. *)
Fixpoint deliver (handler : U -> packet -> option U) (es : list levent) (s : proc U) : option (proc U) :=
  match es with
  | [] => Some s
  | LPacket p :: es' => u ← handler (user s) p; deliver handler es' (set_user u s)
  | LSigint :: es' => deliver handler es' (sigint s)
  end.
Definition pcap_loop (packet_count : Z) (handler : U -> packet -> option U) (s : proc U)
    : option (Z * proc U) :=
  let '(es, ret) := loop l (active s) packet_count in
  s' ← deliver handler es s; Some (ret, s').

(** The filter part: an error, with everything released, or the filter in force. *)
Definition apply_filter (custom_filter : option string) (s : proc U) : Z * proc U :=
  match custom_filter with
  | Some f =>
      if (0 <? String.length f)%nat then
        if negb (compile_ok l f) then (- EINVAL, add_handles (-1) s)
        else
          let s := add_programs 1 s in
          if negb (setfilter_ok l) then (- EINVAL, add_handles (-1) (add_programs (-1) s))
          else (0, add_programs (-1) (set_active (Some f) s))
      else (0, s)
  | None => (0, s)
  end.

(** custom_tcpdump_capture_with_handler. *)
Definition custom_tcpdump_capture_with_handler (iface custom_filter : option string)
    (handler : option (U -> packet -> option U)) (packet_count : Z) (s : proc U)
    : option (Z * proc U) :=
  match iface, handler with
  | Some iface, Some handler =>
      if negb (open_ok l iface) then Some (- ENODEV, s)
      else
        let '(err, s1) := apply_filter custom_filter (set_active None (add_handles 1 s)) in
        if ztrue err then Some (err, s1)
        else
          r ← pcap_loop packet_count handler s1;
          let '(ret, s2) := r in
          if ret =? -1 then Some (- EIO, add_handles (-1) s2)
          else Some (0, add_handles (-1) s2)
  | _, _ => Some (- EINVAL, s)
  end.
End Handler.

(** capture_buffer_t *)
Record capture_buffer_t := CaptureBuffer { buffer : list Z; buffer_size : Z; bytes_written : Z }.

(** memcpy into a buffer; [None] when it would write outside. *)
Definition memcpy (off : nat) (src buf : list Z) : option (list Z) :=
  if decide (off + length src <= length buf)%nat
  then Some (take off buf ++ src ++ drop (off + length src) buf) else None.

Definition default_packet_handler (c : capture_buffer_t) (p : packet) : option capture_buffer_t :=
  if buffer_size c <? wrapu 64 (bytes_written c + caplen p) then Some c
  else
    b ← memcpy (Z.to_nat (bytes_written c)) (take (Z.to_nat (caplen p)) (data p)) (buffer c);
    Some (CaptureBuffer b (buffer_size c) (wrapu 64 (bytes_written c + caplen p))).

(** custom_tcpdump_capture: the result, the buffer and the process. *)
Definition custom_tcpdump_capture (l : pcap) (iface custom_filter : option string)
    (buf : option (list Z)) (size : Z) (s : proc unit) : option (Z * option (list Z) * proc unit) :=
  match iface, buf with
  | Some _, Some b =>
      if size =? 0 then Some (- EINVAL, buf, s)
      else
        let capture_info := CaptureBuffer b size 0 in
        r ← custom_tcpdump_capture_with_handler l id iface custom_filter (Some default_packet_handler) 10
              (Proc (handles s) (programs s) (active s) (broken s) capture_info);
        let '(ret, s') := r in
        Some (ret, Some (buffer (user s')),
              Proc (handles s') (programs s') (active s') (broken s') tt)
  | _, _ => Some (- EINVAL, buf, s)
  end.

(** ** What a capture does *)

(** The packets a buffer takes: each one that still fits, in order. *)
Fixpoint kept (room : Z) (ps : list packet) : list packet :=
  match ps with
  | [] => []
  | p :: ps' => if caplen p <=? room then p :: kept (room - caplen p) ps' else kept room ps'
  end.
Definition bytes_of (ps : list packet) : list Z := concat (data <$> ps).

Definition sized (p : packet) : Prop := caplen p = Z.of_nat (length (data p)) /\ in_u 32 (caplen p).

Lemma kept_room room ps : Forall sized ps -> 0 <= room ->
  Z.of_nat (length (bytes_of (kept room ps))) <= room.
Proof.
  intros H. revert room. induction H as [|p ps [Hp Hu] _ IH]; intros room Hr; [done|]. simpl.
  unfold in_u in Hu. destruct (Z.leb_spec (caplen p) room); [|by apply IH].
  unfold bytes_of in *. cbn [fmap list_fmap concat]. rewrite length_app.
  specialize (IH (room - caplen p)). lia.
Qed.

Lemma kept_all room ps : Forall sized ps -> Z.of_nat (length (bytes_of ps)) <= room -> kept room ps = ps.
Proof.
  intros H. revert room. induction H as [|p ps [Hp Hu] _ IH]; intros room Hr; [done|]. simpl.
  unfold bytes_of in *. cbn [fmap list_fmap concat] in Hr. rewrite length_app in Hr.
  destruct (Z.leb_spec (caplen p) room); [|lia]. f_equal. apply IH. lia.
Qed.

(** The buffer after the bytes [done_] were stored. *)
Definition filled (done_ buf : list Z) : list Z := done_ ++ drop (length done_) buf.

Lemma memcpy_filled dn src buf : (length dn + length src <= length buf)%nat ->
  memcpy (length dn) src (filled dn buf) = Some (filled (dn ++ src) buf).
Proof.
  intros H. unfold memcpy, filled. rewrite length_app, length_drop, decide_True by lia.
  f_equal. rewrite take_app_length, drop_app_ge by lia. rewrite drop_drop, length_app, <- app_assoc.
  do 3 f_equal. lia.
Qed.

(** The handler over a list of packets. *)
Lemma handler_run size buf es (dn : list Z) (s : proc capture_buffer_t) :
  Forall sized (packets es) -> length buf = Z.to_nat size -> 0 < size < 2 ^ 63 ->
  (length dn <= length buf)%nat ->
  user s = CaptureBuffer (filled dn buf) size (Z.of_nat (length dn)) ->
  exists s', deliver id default_packet_handler es s = Some s' /\
    buffer (user s') = filled (dn ++ bytes_of (kept (size - Z.of_nat (length dn)) (packets es))) buf /\
    handles s' = handles s /\ programs s' = programs s.
Proof.
  intros Hs Hb Hz. revert dn s. induction es as [|[p|] es IH]; intros dn s Hd Hu; cbn [deliver].
  - exists s. rewrite Hu. simpl. rewrite app_nil_r. done.
  - apply Forall_cons in Hs as [[Hc Hc'] Hs]. unfold in_u in Hc'. rewrite Hu.
    unfold default_packet_handler. cbn [buffer_size bytes_written buffer].
    rewrite wrapu_id by (unfold in_u; lia). cbn [packets omap list_omap kept].
    destruct (Z.ltb_spec size (Z.of_nat (length dn) + caplen p)).
    + cbn [mbind option_bind]. destruct (Z.leb_spec (caplen p) (size - Z.of_nat (length dn))); [lia|].
      destruct (IH Hs dn (set_user (CaptureBuffer (filled dn buf) size (Z.of_nat (length dn))) s)) as (s' & E & H');
        [done|done|]. by exists s'.
    + destruct (Z.leb_spec (caplen p) (size - Z.of_nat (length dn))); [|lia].
      rewrite Nat2Z.id, take_ge by lia. rewrite memcpy_filled by lia. cbn [mbind option_bind].
      destruct (IH Hs (dn ++ data p) (set_user (CaptureBuffer (filled (dn ++ data p) buf) size
        (Z.of_nat (length dn) + caplen p)) s)) as (s' & E & Hbuf & H').
      { rewrite length_app. lia. }
      { simpl. rewrite length_app. f_equal. lia. }
      exists s'. split; [exact E|]. split; [|done]. rewrite Hbuf. f_equal.
      unfold bytes_of. cbn [fmap list_fmap concat]. rewrite length_app, app_assoc.
      do 4 f_equal. lia.
  - by apply (IH Hs dn (id s)).
Qed.

(** The filter part releases what it took when it fails. *)
Lemma apply_filter_spec {U} l custom_filter (s : proc U) r s' :
  apply_filter l custom_filter s = (r, s') -> active s = None ->
  programs s' = programs s /\ user s' = user s /\ broken s' = broken s /\
  ((r = - EINVAL /\ handles s' = handles s - 1 /\
    exists f, custom_filter = Some f /\ f <> EmptyString /\ (compile_ok l f = false \/ setfilter_ok l = false)) \/
   (r = 0 /\ handles s' = handles s /\
    (forall f, custom_filter = Some f -> f <> EmptyString -> active s' = Some f))).
Proof.
  intros H Ha. destruct custom_filter as [f|]; simpl in H; [|injection H as <- <-; split_and!; try done; right; by split_and!].
  destruct (String.length f) eqn:El; simpl in H.
  { injection H as <- <-. destruct f; [|done]. split_and!; try done. right. by split_and!; try congruence. }
  assert (f <> EmptyString) as Hf by (by intros ->).
  destruct (compile_ok l f) eqn:Ec; simpl in H.
  - destruct (setfilter_ok l) eqn:Es; simpl in H; injection H as <- <-; simpl.
    + split; [lia|]. split; [done|]. split; [done|]. right. split_and!; [done|done|congruence].
    + split; [lia|]. split; [done|]. split; [done|]. left. split_and!; try done. exists f. auto.
  - injection H as <- <-; simpl. split_and!; try done. left. split_and!; try done. exists f. auto.
Qed.

(** (C15) A capture into a buffer, for any packets that arrive, an interface and a buffer
    of the size given.  It returns on every path with the handle closed and the compiled
    filter freed.  A failure before the loop is reported and the buffer untouched.
    Otherwise at most ten packets came, all matching the filter if there is one; the
    buffer holds, from its start and in order, the whole packets that fitted into the
    room left when they came (all of them if they fit together), its other bytes are as
    before, and nothing is written outside it. *)
Theorem custom_tcpdump_capture_spec matches l iface custom_filter buf size s :
  pcap_laws matches l -> length buf = Z.to_nat size -> 0 < size < 2 ^ 63 ->
  exists r buf' s',
    custom_tcpdump_capture l (Some iface) custom_filter (Some buf) size s = Some (r, Some buf', s') /\
    handles s' = handles s /\ programs s' = programs s /\
    ((r = - ENODEV /\ open_ok l iface = false /\ buf' = buf) \/
     (r = - EINVAL /\ buf' = buf /\ exists f, custom_filter = Some f /\ f <> EmptyString /\
        (compile_ok l f = false \/ setfilter_ok l = false)) \/
     (exists f0, let ps := packets (fst (loop l f0 10)) in
        r = (if snd (loop l f0 10) =? PCAP_ERROR then - EIO else 0) /\
        Z.of_nat (length ps) <= 10 /\
        (forall f, custom_filter = Some f -> f <> EmptyString -> Forall (fun p => matches f p = true) ps) /\
        buf' = filled (bytes_of (kept size ps)) buf /\ length buf' = length buf /\
        (Z.of_nat (length (bytes_of ps)) <= size -> kept size ps = ps))).
Proof.
  intros Hl Hb Hz. unfold custom_tcpdump_capture, custom_tcpdump_capture_with_handler.
  rewrite (proj2 (Z.eqb_neq size 0)) by lia. set (c := CaptureBuffer buf size 0).
  destruct (open_ok l iface) eqn:Eo; cbn [negb].
  2: { do 3 eexists. split; [reflexivity|]. split; [done|]. split; [done|]. by left. }
  destruct (apply_filter _ _ _) as [err s1] eqn:Ef.
  destruct (apply_filter_spec _ _ _ _ _ Ef eq_refl) as (P1 & P2 & P3 & [(-> & P4 & P5)|(-> & P4 & P5)]);
    simpl in P1, P2, P3, P4.
  { do 3 eexists. split; [reflexivity|]. simpl. split; [lia|]. split; [done|]. right; left.
    rewrite P2. auto. }
  cbn [ztrue negb Z.eqb]. unfold pcap_loop.
  pose proof (law_len _ _ Hl (active s1) 10) as Hlen. pose proof (law_count _ _ Hl (active s1) 10) as Hcnt.
  destruct (loop l (active s1) 10) as [es ret] eqn:El. simpl in Hlen, Hcnt.
  destruct (handler_run size buf es [] s1 Hlen Hb Hz) as (s2 & -> & Hbuf & Hh & Hp); [simpl; lia|by rewrite P2|].
  simpl in Hbuf. rewrite Z.sub_0_r in Hbuf. cbn [mbind option_bind].
  exists (if ret =? -1 then - EIO else 0), (buffer (user s2)), (Proc (handles s) (programs s) (active s2) (broken s2) tt).
  split; [destruct (ret =? -1); simpl; do 3 f_equal; lia|]. split; [done|]. split; [done|].
  right; right. exists (active s1). rewrite El. cbn [fst snd]. split; [done|]. split; [apply Hcnt; lia|].
  split.
  { intros f H1 H2. pose proof (law_match _ _ Hl f 10) as Hm. rewrite <- (P5 f H1 H2), El in Hm. exact Hm. }
  split; [done|]. split; [|intros; by apply kept_all].
  rewrite Hbuf. unfold filled. rewrite length_app, length_drop.
  pose proof (kept_room size _ Hlen). lia.
Qed.

(** Three packets of 3, 4 and 2 bytes into a buffer of 6: the second does not fit. *)
Definition demo_packets : list packet :=
  [Packet 1 3 3 [1; 2; 3]; Packet 2 4 4 [4; 5; 6; 7]; Packet 3 2 2 [8; 9]].
Definition demo_loop (f : option string) (n : Z) : list levent * Z :=
  if 3 <=? n then (LPacket <$> demo_packets, 0) else ([], PCAP_ERROR).
Definition demo_pcap : pcap := Pcap (fun _ => true) (fun _ => true) true demo_loop.

Lemma demo_laws : pcap_laws (fun _ _ => true) demo_pcap.
Proof.
  split; intros f n; simpl; unfold demo_loop; destruct (Z.leb_spec 3 n); simpl; try lia; auto;
    by repeat constructor.
Qed.

Lemma custom_tcpdump_capture_spec_witness :
  exists r buf', custom_tcpdump_capture demo_pcap (Some "eth0"%string) None (Some (replicate 6 0)) 6
    (Proc 0 0 None false tt) = Some (r, Some buf', Proc 0 0 None false tt) /\
  buf' = [1; 2; 3; 8; 9; 0] /\ length buf' = 6%nat.
Proof.
  destruct (custom_tcpdump_capture_spec (fun _ _ => true) demo_pcap "eth0" None (replicate 6 0) 6
    (Proc 0 0 None false tt)) as (r & buf' & s' & E & _ & _ & H); [exact demo_laws|reflexivity|lia|].
  destruct H as [(_ & H & _)|[(_ & _ & f & H & _)|(f0 & _ & _ & _ & _ & Hlen & _)]]; [done|done|].
  exists r, buf'. vm_compute in E. injection E as <- <- <-. split; [reflexivity|]. split; [reflexivity|exact Hlen].
Defined.

End Capture.

Module Main.
Import Capture.

(** What the program prints. *)
Inductive out :=
| OUsage | OStart (iface : string) (filter : option string)
| OPacket (nr time len : Z) (bytes : list Z)
| OStop | OFail (code : Z) | ODone.

(** The global handle, of which nothing but NULL-ness matters, the static counter of the
    packet handler, and the output. *)
Record prog := Prog { global_handle : bool; count : Z; printed : list out }.

(** The loop that prints at most ten bytes; [i] is the index, [n] what is left of ten. *)
Fixpoint first_bytes (n i : nat) (p : packet) : list Z :=
  match n with
  | O => []
  | S n' => if Z.of_nat i <? caplen p then data p !!! i :: first_bytes n' (S i) p else []
  end.

Definition my_packet_handler (u : prog) (p : packet) : option prog :=
  Some (Prog (global_handle u) (wraps 32 (count u + 1))
          (printed u ++ [OPacket (count u) (ts_sec p) (wraps 32 (len p)) (first_bytes 10 0 p)])).

Definition signal_handler (s : proc prog) : proc prog :=
  if global_handle (user s)
  then Proc (handles s) (programs s) (active s) true
         (Prog (global_handle (user s)) (count (user s)) (printed (user s) ++ [OStop]))
  else s.

Definition print (o : out) (s : proc prog) : proc prog :=
  set_user (Prog (global_handle (user s)) (count (user s)) (printed (user s) ++ [o])) s.

Definition main (l : pcap) (argv : list string) (s : proc prog) : option (Z * proc prog) :=
  match argv with
  | _ :: iface :: rest =>
      let filter := head rest in
      r ← custom_tcpdump_capture_with_handler l signal_handler (Some iface) filter
            (Some my_packet_handler) 0 (print (OStart iface filter) s);
      let '(result, s') := r in
      if ztrue result then Some (1, print (OFail result) s') else Some (0, print ODone s')
  | _ => Some (1, print OUsage s)
  end.

(** ** What the program does *)

Definition start : proc prog := Proc 0 0 None false (Prog false 1 []).

(** One line per packet, numbered from [k]. *)
Fixpoint shown (k : Z) (ps : list packet) : list out :=
  match ps with
  | [] => []
  | p :: ps' => OPacket k (ts_sec p) (wraps 32 (len p)) (take 10 (data p)) :: shown (k + 1) ps'
  end.

Lemma first_bytes_take n i p : caplen p = Z.of_nat (length (data p)) ->
  first_bytes n i p = take n (drop i (data p)).
Proof.
  intros Hc. revert i. induction n as [|n IH]; intros i; [done|]. simpl.
  destruct (Z.ltb_spec (Z.of_nat i) (caplen p)) as [Hi|Hi].
  - assert (i < length (data p))%nat as Hlt by lia.
    rewrite (drop_S _ (data p !!! i)) by (by apply list_lookup_lookup_total_lt). simpl. by rewrite IH.
  - rewrite drop_ge by lia. done.
Qed.

Lemma main_deliver es (s : proc prog) :
  Forall sized (packets es) -> global_handle (user s) = false ->
  1 <= count (user s) -> count (user s) + Z.of_nat (length (packets es)) < 2 ^ 31 ->
  exists s', deliver signal_handler my_packet_handler es s = Some s' /\
    broken s' = broken s /\ handles s' = handles s /\ programs s' = programs s /\
    global_handle (user s') = false /\
    printed (user s') = printed (user s) ++ shown (count (user s)) (packets es).
Proof.
  revert s. induction es as [|[p|] es IH]; intros s Hs Hg H1 Hc; cbn [deliver].
  - exists s. rewrite app_nil_r. auto 6.
  - apply Forall_cons in Hs as [[Hp _] Hs]. cbn [packets omap list_omap length] in Hc.
    fold (packets es) in Hc. unfold my_packet_handler at 1. cbn [mbind option_bind].
    destruct (IH (set_user (Prog (global_handle (user s)) (wraps 32 (count (user s) + 1))
      (printed (user s) ++ [OPacket (count (user s)) (ts_sec p) (wraps 32 (len p)) (first_bytes 10 0 p)])) s))
      as (s' & E & B & Hh & Hpr & G & O); try done.
    { simpl. rewrite wraps_id by (unfold in_s; change (2 ^ (32 - 1)) with 2147483648; lia). lia. }
    { simpl. rewrite wraps_id by (unfold in_s; change (2 ^ (32 - 1)) with 2147483648; lia). lia. }
    exists s'. split; [exact E|]. split_and!; try done. rewrite O.
    cbn [set_user user printed count packets omap list_omap shown].
    rewrite (wraps_id 32 (count (user s) + 1)) by (unfold in_s; change (2 ^ (32 - 1)) with 2147483648; lia).
    by rewrite <- app_assoc, first_bytes_take.
  - replace (signal_handler s) with s by (unfold signal_handler; by rewrite Hg). by apply IH.
Qed.

(** The program, on any packets and with SIGINT arriving at any time.  It prints each
    packet once, in order, numbered from 1, with its first ten bytes at most, and
    releases what it took.  But SIGINT never stops it: the handle the signal handler
    tests is never set, so pcap_breakloop is not called and the capture, which has no
    packet limit, can only end with an error; the program never returns 0. *)
Theorem main_interrupt_ignored matches l prg iface rest :
  pcap_laws matches l ->
  (forall f s s', deliver signal_handler my_packet_handler (fst (loop l f 0)) s = Some s' ->
     broken s = false -> snd (loop l f 0) = PCAP_ERROR_BREAK -> broken s' = true) ->
  (forall f, Z.of_nat (length (packets (fst (loop l f 0)))) < 2 ^ 31 - 1) ->
  exists s' ps code, main l (prg :: iface :: rest) start = Some (1, s') /\
    broken s' = false /\ handles s' = 0 /\ programs s' = 0 /\ code < 0 /\
    printed (user s') = OStart iface (head rest) :: shown 1 ps ++ [OFail code] /\
    (code = - EIO -> exists f, ps = packets (fst (loop l f 0))) /\
    (code <> - EIO -> ps = []).
Proof.
  intros Hl Hbrk Hn. unfold main, custom_tcpdump_capture_with_handler.
  destruct (open_ok l iface) eqn:Eo; cbn [negb].
  2: { exists (print (OFail (- ENODEV)) (print (OStart iface (head rest)) start)), [], (- ENODEV). by split_and!. }
  destruct (apply_filter _ _ _) as [err s1] eqn:Ef.
  destruct (apply_filter_spec _ _ _ _ _ Ef eq_refl) as (P1 & P2 & P3 & [(-> & P4 & P5)|(-> & P4 & P5)]);
    simpl in P1, P2, P3, P4.
  { exists (print (OFail (- EINVAL)) s1), [], (- EINVAL). split; [reflexivity|]. simpl.
    rewrite P2, P3, P4, P1. by split_and!. }
  cbn [ztrue negb Z.eqb]. unfold pcap_loop.
  pose proof (law_len _ _ Hl (active s1) 0) as Hlen. pose proof (law_end _ _ Hl (active s1) 0 ltac:(lia)) as Hend.
  pose proof (Hn (active s1)) as Hn1. pose proof (Hbrk (active s1)) as Hb1.
  destruct (loop l (active s1) 0) as [es ret] eqn:El. simpl in Hlen, Hend, Hn1, Hb1.
  destruct (main_deliver es s1) as (s2 & E & B & Hh & Hp & G & O); rewrite ?P2; simpl; try done; try lia.
  rewrite E. cbn [mbind option_bind].
  assert (ret = -1) as ->.
  { destruct Hend as [H|H]; [done|]. specialize (Hb1 _ _ E P3 H). congruence. }
  cbn [Z.eqb]. exists (print (OFail (- EIO)) (add_handles (-1) s2)), (packets es), (- EIO).
  split; [reflexivity|]. simpl. rewrite B, P3, Hh, P4, Hp, P1, O, P2. simpl.
  split_and!; try done. by exists (active s1); rewrite El.
Qed.

(** Two packets with SIGINT between them, and an error at the end. *)
Definition two_packets (f : option string) (n : Z) : list levent * Z :=
  if n =? 0 then ([LPacket (Packet 1 2 60 [170; 187]); LSigint; LPacket (Packet 2 1 60 [204])], PCAP_ERROR)
  else ([], PCAP_ERROR).
Definition two_pcap : pcap := Pcap (fun _ => true) (fun _ => true) true two_packets.

Lemma two_laws : pcap_laws (fun _ _ => true) two_pcap.
Proof.
  split; intros f n; simpl; unfold two_packets; destruct (Z.eqb_spec n 0); simpl; try lia; auto;
    by repeat constructor.
Qed.

Lemma main_interrupt_ignored_witness :
  exists s', main two_pcap ["custom_tcpdump"; "eth0"]%string start = Some (1, s') /\
    broken s' = false /\
    printed (user s') = [OStart "eth0" None; OPacket 1 1 60 [170; 187]; OPacket 2 2 60 [204]; OFail (- EIO)].
Proof.
  destruct (main_interrupt_ignored (fun _ _ => true) two_pcap "custom_tcpdump" "eth0" []) as
    (s' & ps & code & E & B & _).
  - exact two_laws.
  - intros f s s' _ _ H. discriminate H.
  - intros f. vm_compute. reflexivity.
  - exists s'. split; [exact E|]. split; [exact B|]. vm_compute in E. by injection E as <-.
Defined.

End Main.
