(* ===== verification/SocketCalls.v ===== *)
(** * The socket layer: calls on open sockets (src/kvm/linux-5.15.178/net/socket.c)

    bind, listen, connect, getsockname, getpeername, sendto, recvfrom, setsockopt,
    getsockopt and shutdown, with the look-up of the descriptor and the copies of socket
    addresses between user memory and the kernel.  The state is the user memory and the
    trace of what the call did: references taken and given back, security hooks asked,
    operations of the protocol called.  Protocols, security hooks and the control group
    programs are parameters: what a protocol receives for recvfrom and what an option
    shows for getsockopt are answers of theirs, which the call writes to user memory; the
    data a protocol sends are not modelled.  User memory changes only by the call. *)

From S2P Require Import Prelude.
From S2P Require Import SockOpt.
From S2P Require Import SockOptSpec.
From S2P Require Import SockOptRead.

Definition SS_SIZE : Z := 128.  (* sizeof(struct sockaddr_storage) *)
Definition SOL_SOCKET : Z := 1.
Definition MSG_DONTWAIT : Z := 0x40.
Definition O_NONBLOCK : Z := 0x800.
Definition EIOCBQUEUED : Z := 529.
Definition MAX_RW_COUNT : Z := 0x7ffff000.
Definition SO_GET_FILTER_NR : Z := 26.

(** The operations of a socket that the calls reach, with their arguments. *)
Inductive sop :=
| OpBind (address : list Z) (addrlen : Z)
| OpListen (backlog : Z)
| OpConnect (address : list Z) (addrlen flags : Z)
| OpGetname (peer : bool)
| OpSend (name : option (list Z)) (namelen flags : Z)
| OpRecv (want_name : bool) (flags ubuf size : Z)
| OpSetsockopt (level optname : Z) (optval : option Z) (optlen : Z)
| OpGetsockopt (level optname optval optlen : Z)
| OpShutdown (how : Z).

(** The security hook of each. *)
Inductive kind :=
| KBind | KListen | KConnect | KGetsockname | KGetpeername | KSend | KRecv | KSetsockopt | KGetsockopt | KShutdown.
Definition kind_of (o : sop) : kind :=
  match o with
  | OpBind _ _ => KBind | OpListen _ => KListen | OpConnect _ _ _ => KConnect
  | OpGetname peer => if peer then KGetpeername else KGetsockname
  | OpSend _ _ _ => KSend | OpRecv _ _ _ _ => KRecv | OpSetsockopt _ _ _ _ => KSetsockopt
  | OpGetsockopt _ _ _ _ => KGetsockopt | OpShutdown _ => KShutdown
  end.
#[export] Instance kind_eq_dec : EqDecision kind.
Proof. solve_decision. Defined.

(** A call takes and gives back a reference to the file, asks a hook, calls an operation,
    gets an option value from a control group program and frees it. *)
Inductive ev := EvGet | EvPut | EvHook (k : kind) | EvOp (o : sop) | EvAlloc | EvFree.

(** What a descriptor is; [light]: fdget took a reference (FDPUT_FPUT). *)
Inductive fdres := NoFile | NotSock (light : bool) | IsSock (light : bool) (f_flags : Z).

(** What the calls meet.  [getname] and [recv] answer a length or an error, and what is in
    the address storage then, [recv_data] the bytes the protocol hands to the iterator;
    [bpf_set] the result and the arguments after the program, and whether it left a value
    in the kernel; [sol_get] answers for an option of the socket level and the user's
    length the result, the bytes to copy and the length to report; [proto_get] is the
    getsockopt of a protocol, which works on user memory itself; [bpf_get] answers for the
    result and the greatest length the result, and the value when the program gives one
    ([bpf_on]: there are such programs). *)
Record env := Env {
  fdtab : Z -> fdres;
  garbage : list Z;
  audit : Z;
  import_range : Z -> Z -> Z;
  sec : kind -> Z;
  somaxconn : Z;
  op_ret : sop -> Z;
  getname : bool -> Z * list Z;
  recv : Z * Z * list Z;
  compat : bool;
  bpf_set : Z -> Z -> Z -> Z * Z * Z * Z * bool;
  bpf_get : Z -> Z -> Z * option (list Z);
  custom_sol_socket : bool;
  has_setsockopt : bool; has_getsockopt : bool;
  recv_data : list Z;
  sol_get : Z -> Z -> Z * list Z * option Z;
  proto_get : Z -> Z -> Z -> Z -> gmap Z Z -> Z * gmap Z Z;
  bpf_on : bool
}.

(** ** User memory *)

(** copy_from_user: the bytes, padded with zeros from the first that cannot be read, and
    how many were not copied. *)
Fixpoint copy_from_user (m : gmap Z Z) (a : Z) (n : nat) : list Z * nat :=
  match n with
  | O => ([], O)
  | S n' => match m !! a with
            | Some b => let '(l, rest) := copy_from_user m (a + 1) n' in (b :: l, rest)
            | None => (replicate n 0, n)
            end
  end.

(** copy_to_user: up to the first byte that cannot be written. *)
Fixpoint copy_to_user (m : gmap Z Z) (a : Z) (bs : list Z) : gmap Z Z * nat :=
  match bs with
  | [] => (m, O)
  | b :: bs' => match m !! a with
                | Some _ => copy_to_user (<[a:=b]> m) (a + 1) bs'
                | None => (m, length bs)
                end
  end.

Definition get_user (m : gmap Z Z) (p : Z) : Z + Z :=
  match copy_from_user m p 4 with
  | (l, O) => inr (wraps 32 (le_value l))
  | _ => inl (- EFAULT)
  end.
Definition put_user (m : gmap Z Z) (p v : Z) : Z * gmap Z Z :=
  match copy_from_user m p 4 with
  | (_, O) => (0, fst (copy_to_user m p (le_bytes 4 v)))
  | _ => (- EFAULT, m)
  end.

Module Calls.

(** The user memory and the trace; [None]: BUG. *)
Record st := St { umem : gmap Z Z; trace : list ev }.
Definition K (A : Type) := st -> option (A * st).
#[export] Instance K_ret : MRet K := fun A a s => Some (a, s).
#[export] Instance K_bind : MBind K :=
  fun A B f m s => match m s with Some (a, s') => f a s' | None => None end.
Definition emit (e : ev) : K unit := fun s => Some (tt, St (umem s) (trace s ++ [e])).
Definition bug {A} : K A := fun _ => None.
Definition emit_if (b : bool) (e : ev) : K unit := if b then emit e else mret tt.

Section Syscalls.
Context (e : env).

Definition hook (k : kind) : K Z := emit (EvHook k);; mret (sec e k).
Definition call_op (o : sop) : K Z := emit (EvOp o);; mret (op_ret e o).

(** sockfd_lookup_light: an error, or whether the reference is to be given back and the
    flags of the file. *)
Definition sockfd_lookup_light (fd : Z) : K (Z + bool * Z) :=
  match fdtab e fd with
  | NoFile => mret (inl (- EBADF))
  | NotSock light => emit_if light EvGet;; emit_if light EvPut;; mret (inl (- ENOTSOCK))
  | IsSock light f_flags => emit_if light EvGet;; mret (inr (light, f_flags))
  end.
Definition fput_light (fput_needed : bool) : K unit := emit_if fput_needed EvPut.

(** The result and the address storage. *)
Definition move_addr_to_kernel (uaddr ulen : Z) (kaddr : list Z) : K (Z * list Z) :=
  if (ulen <? 0) || (SS_SIZE <? ulen) then mret (- EINVAL, kaddr)
  else if ulen =? 0 then mret (0, kaddr)
  else fun s =>
    let '(l, rest) := copy_from_user (umem s) uaddr (Z.to_nat ulen) in
    let kaddr := l ++ drop (length l) kaddr in
    Some (if (0 <? rest)%nat then (- EFAULT, kaddr) else (audit e, kaddr), s).

Definition move_addr_to_user (kaddr : list Z) (klen uaddr ulen : Z) : K Z := fun s =>
  if (klen <? 0) || (SS_SIZE <? klen) then None
  else match get_user (umem s) ulen with
  | inl err => Some (err, s)
  | inr len =>
      let len := if klen <? len then klen else len in
      if len <? 0 then Some (- EINVAL, s)
      else if ztrue len && ztrue (audit e) then Some (- ENOMEM, s)
      else
        let '(m, rest) := copy_to_user (umem s) uaddr (take (Z.to_nat len) kaddr) in
        if (0 <? rest)%nat then Some (- EFAULT, St m (trace s))
        else let '(err, m) := put_user m ulen klen in Some (err, St m (trace s))
  end.

(** The calls that begin with sockfd_lookup_light. *)
Definition with_sock (fd : Z) (body : Z -> K Z) : K Z :=
  r ← sockfd_lookup_light fd;
  match r with
  | inl err => mret err
  | inr (fput_needed, f_flags) => err ← body f_flags; fput_light fput_needed;; mret err
  end.

Definition __sys_bind (fd umyaddr addrlen : Z) : K Z :=
  with_sock fd (fun _ =>
    r ← move_addr_to_kernel umyaddr addrlen (garbage e);
    let '(err, address) := r in
    if ztrue err then mret err
    else
      err ← hook KBind;
      if ztrue err then mret err else call_op (OpBind address addrlen)).

Definition __sys_listen (fd backlog : Z) : K Z :=
  with_sock fd (fun _ =>
    let backlog := if wrapu 32 (somaxconn e) <? wrapu 32 backlog then somaxconn e else backlog in
    err ← hook KListen;
    if ztrue err then mret err else call_op (OpListen backlog)).

Definition __sys_connect_file (sock : option Z) (address : list Z) (addrlen : Z) : K Z :=
  match sock with
  | None => mret (- ENOTSOCK)
  | Some f_flags =>
      err ← hook KConnect;
      if ztrue err then mret err else call_op (OpConnect address addrlen (Z.lor f_flags 0))
  end.

(** connect copies the address before it asks whether the file is a socket. *)
Definition __sys_connect (fd uservaddr addrlen : Z) : K Z :=
  let go light sock :=
    emit_if light EvGet;;
    r ← move_addr_to_kernel uservaddr addrlen (garbage e);
    let '(ret, address) := r in
    ret ← (if ztrue ret then mret ret else __sys_connect_file sock address addrlen);
    emit_if light EvPut;; mret ret in
  match fdtab e fd with
  | NoFile => mret (- EBADF)
  | NotSock light => go light None
  | IsSock light f_flags => go light (Some f_flags)
  end.

(** getsockname and getpeername. *)
Definition name_of (peer : bool) (k : kind) (usockaddr usockaddr_len : Z) : K Z :=
  err ← hook k;
  if ztrue err then mret err
  else
    emit (EvOp (OpGetname peer));;
    let '(err, address) := getname e peer in
    if err <? 0 then mret err else move_addr_to_user address err usockaddr usockaddr_len.
Definition __sys_getsockname (fd usockaddr usockaddr_len : Z) : K Z :=
  with_sock fd (fun _ => name_of false KGetsockname usockaddr usockaddr_len).
Definition __sys_getpeername (fd usockaddr usockaddr_len : Z) : K Z :=
  with_sock fd (fun _ => name_of true KGetpeername usockaddr usockaddr_len).

(** sock_sendmsg_nosec with its BUG_ON, and __sock_sendmsg. *)
Definition sock_sendmsg_nosec (o : sop) : K Z :=
  ret ← call_op o;
  if ret =? - EIOCBQUEUED then bug else mret ret.
Definition __sock_sendmsg (o : sop) : K Z :=
  err ← hook KSend;
  if ztrue err then mret err else sock_sendmsg_nosec o.

Definition __sys_sendto (fd buff len flags addr addr_len : Z) : K Z :=
  let err := import_range e buff len in
  if ztrue err then mret err
  else with_sock fd (fun f_flags =>
    let flags := if flag f_flags O_NONBLOCK then Z.lor flags MSG_DONTWAIT else flags in
    if addr =? 0 then __sock_sendmsg (OpSend None 0 flags)
    else
      r ← move_addr_to_kernel addr addr_len (garbage e);
      let '(err, address) := r in
      if err <? 0 then mret err else __sock_sendmsg (OpSend (Some address) addr_len flags)).

(** Some bytes are written to user memory: how many are missing. *)
Definition write_user (a : Z) (bs : list Z) : K nat := fun s =>
  let '(m, rest) := copy_to_user (umem s) a bs in Some (rest, St m (trace s)).
Definition write_int (p v : Z) : K Z := fun s =>
  let '(err, m) := put_user (umem s) p v in Some (err, St m (trace s)).
Definition read_int (p : Z) : K (Z + Z) := fun s => Some (get_user (umem s) p, s).

(** sock_recvmsg with an iterator over [size] bytes at [ubuf]: the result, the length of
    the name and the storage; the data go through the iterator to the user. *)
Definition sock_recvmsg (want_name : bool) (flags ubuf size : Z) : K (Z * Z * list Z) :=
  err ← hook KRecv;
  if ztrue err then mret (err, 0, garbage e)
  else
    emit (EvOp (OpRecv want_name flags ubuf size));;
    write_user ubuf (take (Z.to_nat size) (recv_data e));;
    mret (recv e).

(** import_single_range makes the iterator, of at most MAX_RW_COUNT bytes. *)
Definition __sys_recvfrom (fd ubuf size flags addr addr_len : Z) : K Z :=
  let err := import_range e ubuf size in
  if ztrue err then mret err
  else with_sock fd (fun f_flags =>
    let flags := if flag f_flags O_NONBLOCK then Z.lor flags MSG_DONTWAIT else flags in
    r ← sock_recvmsg (negb (addr =? 0)) flags ubuf (Z.min size MAX_RW_COUNT);
    let '(err, namelen, address) := r in
    if (0 <=? err) && negb (addr =? 0) then
      err2 ← move_addr_to_user address namelen addr addr_len;
      mret (if err2 <? 0 then err2 else err)
    else mret err).

(** A program of the control group may change the arguments, put the value into the
    kernel, or end the call. *)
Definition __sys_setsockopt (fd level optname user_optval optlen : Z) : K Z :=
  if optlen <? 0 then mret (- EINVAL)
  else with_sock fd (fun _ =>
    err ← hook KSetsockopt;
    if ztrue err then mret err
    else
      let '(err, level, optname, optlen, kernel_optval) :=
        if compat e then (err, level, optname, optlen, false) else bpf_set e level optname optlen in
      emit_if kernel_optval EvAlloc;;
      if err <? 0 then mret err
      else if 0 <? err then mret 0
      else
        let optval := if kernel_optval then None else Some user_optval in
        err ← (if (level =? SOL_SOCKET) && negb (custom_sol_socket e)
               then call_op (OpSetsockopt level optname optval optlen)
               else if negb (has_setsockopt e) then mret (- EOPNOTSUPP)
               else call_op (OpSetsockopt level optname optval optlen));
        emit_if kernel_optval EvFree;; mret err).

(** sock_getsockopt: the length is read, the value copied, the length written. *)
Definition sock_getsockopt (level optname optval optlen : Z) : K Z :=
  emit (EvOp (OpGetsockopt level optname optval optlen));;
  len ← read_int optlen;
  match len with
  | inl err => mret err
  | inr len =>
      if len <? 0 then mret (- EINVAL)
      else
        let '(ret, val, newlen) := sol_get e optname len in
        rest ← write_user optval val;
        if (0 <? rest)%nat then mret (- EFAULT)
        else match newlen with
             | Some n => err ← write_int optlen n; mret (if ztrue err then err else ret)
             | None => mret ret
             end
  end.

(** The getsockopt of the protocol. *)
Definition ops_getsockopt (level optname optval optlen : Z) : K Z :=
  emit (EvOp (OpGetsockopt level optname optval optlen));;
  ((fun s => let '(ret, m) := proto_get e level optname optval optlen (umem s) in Some (ret, St m (trace s))) : K Z).

(** The programs of the control group after it: a value they give is copied, then its
    length. *)
Definition bpf_getsockopt (optval optlen max_optlen err : Z) : K Z :=
  match bpf_get e err max_optlen with
  | (ret, None) => mret ret
  | (ret, Some val) =>
      rest ← write_user optval val;
      if (0 <? rest)%nat then mret (- EFAULT)
      else err ← write_int optlen (Z.of_nat (length val)); mret (if ztrue err then - EFAULT else ret)
  end.

Definition __sys_getsockopt (fd level optname optval optlen : Z) : K Z :=
  with_sock fd (fun _ =>
    err ← hook KGetsockopt;
    if ztrue err then mret err
    else
      len ← read_int optlen;
      let max_optlen := match len with inr n => n | inl _ => 0 end in
      err ← (if level =? SOL_SOCKET then sock_getsockopt level optname optval optlen
             else if negb (has_getsockopt e) then mret (- EOPNOTSUPP)
             else ops_getsockopt level optname optval optlen);
      if negb (compat e) && bpf_on e then bpf_getsockopt optval optlen max_optlen err else mret err).

Definition __sys_shutdown_sock (how : Z) : K Z :=
  err ← hook KShutdown;
  if ztrue err then mret err else call_op (OpShutdown how).
Definition __sys_shutdown (fd how : Z) : K Z := with_sock fd (fun _ => __sys_shutdown_sock how).

(** The calls. *)
Inductive scall :=
| CBind (fd umyaddr addrlen : Z) | CListen (fd backlog : Z) | CConnect (fd uservaddr addrlen : Z)
| CGetsockname (fd usockaddr usockaddr_len : Z) | CGetpeername (fd usockaddr usockaddr_len : Z)
| CSendto (fd buff len flags addr addr_len : Z) | CRecvfrom (fd ubuf size flags addr addr_len : Z)
| CSetsockopt (fd level optname user_optval optlen : Z) | CGetsockopt (fd level optname optval optlen : Z)
| CShutdown (fd how : Z).
Definition run (c : scall) : K Z :=
  match c with
  | CBind fd a n => __sys_bind fd a n
  | CListen fd n => __sys_listen fd n
  | CConnect fd a n => __sys_connect fd a n
  | CGetsockname fd a p => __sys_getsockname fd a p
  | CGetpeername fd a p => __sys_getpeername fd a p
  | CSendto fd b n fl a l => __sys_sendto fd b n fl a l
  | CRecvfrom fd b n fl a p => __sys_recvfrom fd b n fl a p
  | CSetsockopt fd lv o v n => __sys_setsockopt fd lv o v n
  | CGetsockopt fd lv o v p => __sys_getsockopt fd lv o v p
  | CShutdown fd how => __sys_shutdown fd how
  end.
End Syscalls.

(** ** What the calls do *)

(** How much of its buffer a getsockopt of the socket level may fill for the length
    [len]: that many bytes; SO_GET_FILTER counts instructions of eight bytes. *)
Definition opt_bytes (optname len : Z) : Z := if optname =? SO_GET_FILTER_NR then 8 * len else len.

(** Documented behaviour: the storage is sockaddr_storage, the names protocols give fit
    in it, a protocol's sendmsg is synchronous, a control group program leaves a value
    only when the call goes on, and a value that is read is no longer than asked for. *)
Record env_ok (e : env) : Prop := EnvOk {
  ok_garbage : length (garbage e) = Z.to_nat SS_SIZE;
  ok_audit : audit e <= 0;
  ok_somaxconn : 0 <= somaxconn e < 2 ^ 31;
  ok_getname : forall peer, fst (getname e peer) <= SS_SIZE;
  ok_recv : 0 <= snd (fst (recv e)) <= SS_SIZE;
  ok_send : forall n l f, op_ret e (OpSend n l f) <> - EIOCBQUEUED;
  ok_bpf : forall l o n err l' o' n' k, bpf_set e l o n = (err, l', o', n', k) -> err <> 0 -> k = false;
  ok_sol : forall o len ret v n, 0 <= len -> sol_get e o len = (ret, v, n) -> Z.of_nat (length v) <= opt_bytes o len;
  ok_bpf_get : forall err mx ret v, bpf_get e err mx = (ret, Some v) -> Z.of_nat (length v) <= Z.max 0 mx
}.

Definition is_get (x : ev) : bool := match x with EvGet => true | _ => false end.
Definition is_put (x : ev) : bool := match x with EvPut => true | _ => false end.
Definition is_alloc (x : ev) : bool := match x with EvAlloc => true | _ => false end.
Definition is_free (x : ev) : bool := match x with EvFree => true | _ => false end.

(** Every reference and value is given back. *)
Definition balanced (es : list ev) : Prop :=
  countb is_get es = countb is_put es /\ countb is_alloc es = countb is_free es.

(** Every operation comes after its hook, which allowed it, and once only. *)
Fixpoint guarded (e : env) (allowed : option kind) (es : list ev) : bool :=
  match es with
  | [] => true
  | EvHook k :: es' => guarded e (if sec e k =? 0 then Some k else None) es'
  | EvOp o :: es' => bool_decide (allowed = Some (kind_of o)) && guarded e None es'
  | _ :: es' => guarded e allowed es'
  end.

(** An address in the kernel: [n] bytes of the storage are the user's at [u]. *)
Definition copied_addr (m : gmap Z Z) (u : Z) (a : list Z) (n : Z) : Prop :=
  0 <= n <= SS_SIZE /\ length a = Z.to_nat SS_SIZE /\
  forall i, (i < Z.to_nat n)%nat -> a !! i = m !! (u + Z.of_nat i).

Definition fd_of (c : scall) : Z :=
  match c with
  | CBind fd _ _ | CListen fd _ | CConnect fd _ _ | CGetsockname fd _ _ | CGetpeername fd _ _
  | CSendto fd _ _ _ _ _ | CRecvfrom fd _ _ _ _ _ | CSetsockopt fd _ _ _ _ | CGetsockopt fd _ _ _ _
  | CShutdown fd _ => fd
  end.

(** The arguments an operation gets. *)
Definition op_ok (e : env) (c : scall) (m : gmap Z Z) (o : sop) : Prop :=
  match c, o with
  | CBind _ u len, OpBind a n => n = len /\ copied_addr m u a n
  | CConnect _ u len, OpConnect a n _ => n = len /\ copied_addr m u a n
  | CSendto _ _ _ _ u len, OpSend (Some a) n _ => n = len /\ u <> 0 /\ copied_addr m u a n
  | CSendto _ _ _ _ u _, OpSend None n _ => n = 0 /\ u = 0
  | CListen _ b, OpListen n => 0 <= n <= somaxconn e /\ (0 <= b <= somaxconn e -> n = b)
  | CGetsockname _ _ _, OpGetname peer => peer = false
  | CGetpeername _ _ _, OpGetname peer => peer = true
  | CRecvfrom _ b n _ u _, OpRecv want _ b' n' => want = negb (u =? 0) /\ b' = b /\ n' = Z.min n MAX_RW_COUNT
  | CSetsockopt _ _ _ u _, OpSetsockopt _ _ v n =>
      (compat e = true -> 0 <= n /\ v = Some u) /\ (v = Some u \/ v = None)
  | CGetsockopt _ l o v p, OpGetsockopt l' o' v' p' => l' = l /\ o' = o /\ v' = v /\ p' = p
  | CShutdown _ how, OpShutdown how' => how' = how
  | _, _ => False
  end.

(** The user addresses a call may change.  A name: its length, and the buffer up to the
    length the user gave and the size of a name.  recvfrom: the data buffer, and the name
    when one is asked for (whose length is read when the data have been written).  An
    option: its length, and the buffer up to the length the user gave; and, beyond the
    socket level, what the getsockopt of the protocol changes by itself. *)
Definition name_area (m : gmap Z Z) (a p x : Z) : Prop :=
  p <= x < p + 4 \/ exists len, get_user m p = inr len /\ a <= x < a + Z.min len SS_SIZE.
Definition data_area (b n x : Z) : Prop := b <= x < b + Z.min n MAX_RW_COUNT.
Definition opt_area (m : gmap Z Z) (l o v p x : Z) : Prop :=
  p <= x < p + 4 \/
  exists len, get_user m p = inr len /\ v <= x < v + (if l =? SOL_SOCKET then opt_bytes o len else len).
Definition touched (e : env) (c : scall) (m : gmap Z Z) (x : Z) : Prop :=
  match c with
  | CGetsockname _ a p | CGetpeername _ a p => name_area m a p x
  | CRecvfrom _ b n _ a p =>
      data_area b n x \/
      a <> 0 /\ exists m1, (forall y, m1 !! y <> m !! y -> data_area b n y) /\ name_area m1 a p x
  | CGetsockopt _ l o v p =>
      opt_area m l o v p x \/
      l <> SOL_SOCKET /\ (proto_get e l o v p m).2 !! x <> m !! x
  | _ => False
  end.

Definition quiet (x : ev) : bool := match x with EvHook _ | EvOp _ => false | _ => true end.
Definition is_sock (r : fdres) : bool := match r with IsSock _ _ => true | _ => false end.

Definition good (e : env) (c : scall) (m : gmap Z Z) (es : list ev) (m' : gmap Z Z) : Prop :=
  balanced es /\ guarded e None es = true /\
  (forall o, EvOp o ∈ es -> op_ok e c m o) /\
  (forall x, m' !! x <> m !! x -> touched e c m x).

(** ** Lemmas: user memory *)

Lemma copy_from_user_all m a n l : copy_from_user m a n = (l, O) ->
  length l = n /\ forall i, (i < n)%nat -> l !! i = m !! (a + Z.of_nat i).
Proof.
  revert a l. induction n as [|n IH]; intros a l; simpl; [intros [= <-]; split; [done|lia]|].
  destruct (m !! a) as [b|] eqn:Ea; [|done].
  destruct (copy_from_user m (a + 1) n) as [l' k] eqn:E. intros [= <- ->].
  destruct (IH _ _ E) as [H1 H2]. split; [simpl; by f_equal|].
  intros [|i] Hi; simpl; [by rewrite Z.add_0_r|]. rewrite H2 by lia. f_equal. lia.
Qed.

Lemma copy_to_user_frame m a bs m' k x : copy_to_user m a bs = (m', k) ->
  ~ (a <= x < a + Z.of_nat (length bs)) -> m' !! x = m !! x.
Proof.
  revert m a. induction bs as [|b bs IH]; intros m a; simpl; [by intros [= <- _]|].
  destruct (m !! a); [|by intros [= <- _]]. intros H Hx.
  rewrite (IH _ _ H) by lia. apply lookup_insert_ne. lia.
Qed.

Lemma put_user_frame m p v err m' x : put_user m p v = (err, m') -> ~ (p <= x < p + 4) -> m' !! x = m !! x.
Proof.
  unfold put_user. destruct (copy_from_user m p 4) as [l [|k]]; [|by intros [= _ <-]].
  destruct (copy_to_user m p (le_bytes 4 v)) as [m1 k] eqn:E. intros [= _ <-]. intros Hx.
  by eapply copy_to_user_frame.
Qed.

Section Spec.
Context (e : env) (Hok : env_ok e).

Lemma to_kernel_spec u n s :
  exists err a, move_addr_to_kernel e u n (garbage e) s = Some ((err, a), s) /\ err <= 0 /\
    (err = 0 -> copied_addr (umem s) u a n).
Proof.
  destruct Hok as [Hg Ha _ _ _ _ _]. unfold move_addr_to_kernel.
  destruct ((n <? 0) || (SS_SIZE <? n))%bool eqn:E1; [by do 2 eexists|]. bool_prop.
  destruct (Z.eqb_spec n 0) as [->|].
  { do 2 eexists. split; [reflexivity|]. split; [done|]. intros _. split; [done|]. split; [done|].
    intros i Hi. simpl in Hi. lia. }
  destruct (copy_from_user (umem s) u (Z.to_nat n)) as [l k] eqn:E. destruct k as [|k]; simpl.
  2: { by do 2 eexists. }
  apply copy_from_user_all in E as [Hl Hi]. do 2 eexists. split; [reflexivity|]. split; [done|].
  intros _. split; [lia|]. split.
  - rewrite length_app, length_drop. unfold SS_SIZE in *. lia.
  - intros i Hin. rewrite lookup_app_l by lia. by apply Hi.
Qed.

Lemma to_user_spec a klen u p s :
  0 <= klen <= SS_SIZE ->
  exists err m', move_addr_to_user e a klen u p s = Some (err, St m' (trace s)) /\
    (forall x, m' !! x <> umem s !! x -> name_area (umem s) u p x).
Proof.
  intros Hk. unfold move_addr_to_user.
  assert (((klen <? 0) || (SS_SIZE <? klen))%bool = false) as ->.
  { apply orb_false_iff. split; apply Z.ltb_ge; lia. }
  destruct (get_user (umem s) p) as [err|len] eqn:Eg; [exists err, (umem s); by destruct s|].
  set (n := if klen <? len then klen else len).
  assert (n <= Z.min len SS_SIZE) as Hn by (unfold n; destruct (Z.ltb_spec klen len); lia).
  destruct (n <? 0) eqn:En; [exists (- EINVAL), (umem s); by destruct s|].
  destruct (ztrue n && ztrue (audit e))%bool; [exists (- ENOMEM), (umem s); by destruct s|].
  destruct (copy_to_user (umem s) u (take (Z.to_nat n) a)) as [m1 k] eqn:Ec.
  assert (forall x, ~ (u <= x < u + Z.min len SS_SIZE) -> m1 !! x = umem s !! x) as Hm1.
  { intros x Hx. eapply copy_to_user_frame; [exact Ec|]. rewrite length_take. bool_prop. lia. }
  assert (forall x, m1 !! x <> umem s !! x -> name_area (umem s) u p x) as Hm1'.
  { intros x Hx. right. exists len. split; [done|].
    destruct (decide (u <= x < u + Z.min len SS_SIZE)); [done|]. by rewrite Hm1 in Hx. }
  destruct (0 <? k)%nat; [by exists (- EFAULT), m1|].
  destruct (put_user m1 p klen) as [err m2] eqn:Ep. exists err, m2. split; [done|].
  intros x Hx. destruct (decide (p <= x < p + 4)); [by left|].
  apply Hm1'. by rewrite (put_user_frame _ _ _ _ _ _ Ep) in Hx.
Qed.

(** ** Lemmas: traces *)

Lemma guarded_put k es : guarded e k (es ++ [EvPut]) = guarded e k es.
Proof.
  revert k. induction es as [|x es IH]; intros k; [done|]. destruct x; simpl; try apply IH. by rewrite IH.
Qed.

(** The reference around a body. *)
Definition wrap (light : bool) (es : list ev) : list ev := if light then EvGet :: es ++ [EvPut] else es.
Lemma good_wrap c m m' light es : good e c m es m' -> good e c m (wrap light es) m'.
Proof.
  destruct light; [|done]. intros ([B1 B2] & G & O & T). unfold wrap. split; [split|split_and!].
  - cbn [countb is_get is_put]. rewrite !countb_app. simpl. lia.
  - cbn [countb is_alloc is_free]. rewrite !countb_app. simpl. lia.
  - cbn [guarded]. by rewrite guarded_put.
  - intros o. rewrite elem_of_cons, elem_of_app, list_elem_of_singleton. intros [?|[?|?]]; [done|auto|done].
  - done.
Qed.

Lemma good_same c m es : balanced es -> guarded e None es = true ->
  (forall o, EvOp o ∈ es -> op_ok e c m o) -> good e c m es m.
Proof. intros H1 H2 H3. split_and!; [done|done|done|]. by intros x []. Qed.
Lemma good_nil c m : good e c m [] m.
Proof. apply good_same; [done|done|]. intros o. by rewrite elem_of_nil. Qed.

(** A hook that refuses; a hook that allows an operation. *)
Lemma good_hook c m k : good e c m [EvHook k] m.
Proof. apply good_same; [done|done|]. intros o. rewrite elem_of_cons, elem_of_nil. by intros [?|?]. Qed.
Lemma good_op c m m' o : sec e (kind_of o) = 0 -> op_ok e c m o ->
  (forall x, m' !! x <> m !! x -> touched e c m x) ->
  good e c m [EvHook (kind_of o); EvOp o] m'.
Proof.
  intros Hs Ho Ht. split_and!; [done| |intros o'|done].
  - simpl. rewrite Hs. simpl. by rewrite bool_decide_true.
  - rewrite !elem_of_cons, elem_of_nil. by intros [?|[[= ->]|[]]].
Qed.

(** What a part of a call does after any trace. *)
Definition does (c : scall) (m : gmap Z Z) (b : K Z) : Prop :=
  forall pre, exists r es m', b (St m pre) = Some (r, St m' (pre ++ es)) /\ good e c m es m'.

Lemma does_ret c m r : does c m (mret r).
Proof. intros pre. exists r, [], m. split; [by rewrite app_nil_r|apply good_nil]. Qed.

Lemma wrap_run {A} (light : bool) (body : K A) m pre a es m' :
  body (St m (pre ++ if light then [EvGet] else [])) = Some (a, St m' ((pre ++ if light then [EvGet] else []) ++ es)) ->
  (emit_if light EvGet;; r ← body; emit_if light EvPut;; mret r) (St m pre) =
  Some (a, St m' (pre ++ wrap light es)).
Proof.
  intros Hb. unfold mbind, K_bind, emit_if, wrap. destruct light; cbn [emit mret K_ret umem trace].
  - rewrite Hb. cbn [emit umem trace]. by rewrite <- !app_assoc.
  - rewrite app_nil_r in Hb. by rewrite Hb.
Qed.

Lemma does_wrap c m (light : bool) (b : K Z) : does c m b ->
  does c m (emit_if light EvGet;; r ← b; emit_if light EvPut;; mret r).
Proof.
  intros Hb pre. destruct (Hb (pre ++ if light then [EvGet] else [])) as (r & es & m' & E & G).
  exists r, (wrap light es), m'. split; [by apply wrap_run|by apply good_wrap].
Qed.

(** A hook, then either its error or the rest. *)
Lemma does_hook c m k o (b : K Z) :
  kind_of o = k -> (forall pre, sec e k = 0 -> exists r m', b (St m (pre ++ [EvHook k])) =
     Some (r, St m' (pre ++ [EvHook k; EvOp o])) /\ (forall x, m' !! x <> m !! x -> touched e c m x)) ->
  op_ok e c m o ->
  does c m (err ← hook e k; if ztrue err then mret err else b).
Proof.
  intros Hk Hb Ho pre. unfold hook, ztrue, mbind, K_bind. cbn [emit mret K_ret umem trace].
  destruct (Z.eqb_spec (sec e k) 0) as [Hs|Hs]; cbn [negb].
  - destruct (Hb pre Hs) as (r & m' & E & T). rewrite E. exists r, [EvHook k; EvOp o], m'.
    split; [done|]. subst k. by apply good_op.
  - exists (sec e k), [EvHook k], m. split; [done|apply good_hook].
Qed.

Lemma does_call c m k o : kind_of o = k -> op_ok e c m o ->
  does c m (err ← hook e k; if ztrue err then mret err else call_op e o).
Proof.
  intros Hk Ho. apply (does_hook _ _ _ o); [done| |done]. intros pre _.
  exists (op_ret e o), m. split; [|by intros x []]. unfold call_op, mbind, K_bind, emit; simpl.
  by rewrite <- app_assoc.
Qed.

(** The look-up around a body, with what a descriptor that is no socket leads to. *)
Lemma with_sock_ok fd c m body : (forall f, does c m (body f)) -> does c m (with_sock e fd body).
Proof.
  intros Hb pre. unfold with_sock, sockfd_lookup_light. destruct (fdtab e fd) as [|light|light f].
  - exists (- EBADF), [], m. split; [by rewrite app_nil_r|apply good_nil].
  - exists (- ENOTSOCK), (wrap light []), m. split; [|apply good_wrap, good_nil].
    unfold mbind, K_bind, emit_if, wrap. destruct light; simpl; [by rewrite <- app_assoc|by rewrite app_nil_r].
  - destruct (does_wrap c m light (body f) (Hb f) pre) as (r & es & m' & E & G).
    exists r, es, m'. split; [|done]. rewrite <- E. by destruct light.
Qed.

(** An address is copied, then the call goes on or ends. *)
Lemma does_addr c m u n (b : list Z -> K Z) (stop : Z -> bool) (b0 : Z -> K Z) :
  (forall err, err <= 0 -> stop err = false -> err = 0) -> (forall err, b0 err = mret err) ->
  (forall a, copied_addr m u a n -> does c m (b a)) ->
  does c m (r ← move_addr_to_kernel e u n (garbage e);
            let '(err, a) := r in if stop err then b0 err else b a).
Proof.
  intros Hstop Hb0 Hb pre. destruct (to_kernel_spec u n (St m pre)) as (err & a & E & He & Ha).
  unfold mbind, K_bind. rewrite E. destruct (stop err) eqn:Es; [rewrite Hb0; apply does_ret|].
  apply Hb, Ha. by apply Hstop.
Qed.
Lemma ztrue_stop err : err <= 0 -> ztrue err = false -> err = 0.
Proof. intros _. unfold ztrue. intros H%negb_false_iff. by apply Z.eqb_eq. Qed.

Lemma bind_ok m fd u n : does (CBind fd u n) m (__sys_bind e fd u n).
Proof.
  apply with_sock_ok. intros _. apply (does_addr _ _ _ _ _ ztrue); [apply ztrue_stop|done|].
  intros a Ha. by apply does_call.
Qed.

Lemma listen_ok m fd b : in_s 32 b -> does (CListen fd b) m (__sys_listen e fd b).
Proof.
  intros Hb. apply with_sock_ok. intros _. apply does_call; [done|]. destruct Hok as [_ _ Hs _ _ _ _].
  unfold in_s in Hb. change (2 ^ (32 - 1)) with 2147483648 in Hb. simpl.
  rewrite (wrapu_id 32 (somaxconn e)) by (unfold in_u; lia).
  assert (wrapu 32 b = if b <? 0 then b + 2 ^ 32 else b) as ->.
  { unfold wrapu. destruct (Z.ltb_spec b 0).
    - rewrite <- (Z_mod_plus_full b 1), Z.mul_1_l. apply Z.mod_small. lia.
    - apply Z.mod_small. lia. }
  destruct (Z.ltb_spec b 0); destruct (Z.ltb_spec (somaxconn e) (if b <? 0 then b + 2 ^ 32 else b)) in *;
    repeat case_match; bool_prop; lia.
Qed.

Lemma connect_ok m fd u n : does (CConnect fd u n) m (__sys_connect e fd u n).
Proof.
  assert (forall light sock, does (CConnect fd u n) m
    (emit_if light EvGet;;
     r ← (r ← move_addr_to_kernel e u n (garbage e);
          let '(ret, address) := r in
          if ztrue ret then mret ret else __sys_connect_file e sock address n);
     emit_if light EvPut;; mret r)) as Hgo.
  { intros light sock. apply does_wrap, (does_addr _ _ _ _ _ ztrue); [apply ztrue_stop|done|].
    intros a Ha. destruct sock; [by apply does_call|apply does_ret]. }
  assert (forall light sock, does (CConnect fd u n) m
    (emit_if light EvGet;;
     r ← move_addr_to_kernel e u n (garbage e);
     let '(ret, address) := r in
     ret ← (if ztrue ret then mret ret else __sys_connect_file e sock address n);
     emit_if light EvPut;; mret ret)) as Hgo'.
  { intros light sock pre. destruct (Hgo light sock pre) as (r & es & m' & E & G). exists r, es, m'.
    split; [|done]. rewrite <- E. unfold mbind, K_bind. destruct (emit_if light EvGet _) as [[[] s1]|]; [|done].
    by destruct (move_addr_to_kernel e u n (garbage e) s1) as [[[ret a] s2]|]. }
  unfold __sys_connect. destruct (fdtab e fd); [apply does_ret|apply Hgo'|apply Hgo'].
Qed.

Lemma name_ok c m peer k a p :
  kind_of (OpGetname peer) = k -> op_ok e c m (OpGetname peer) ->
  (forall x, name_area m a p x -> touched e c m x) -> does c m (name_of e peer k a p).
Proof.
  intros Hk Ho Ht. apply (does_hook _ _ _ (OpGetname peer)); [done| |done]. intros pre _.
  unfold mbind, K_bind, emit; cbn [umem trace]. rewrite <- app_assoc.
  pose proof (ok_getname e Hok peer) as Hg. destruct (getname e peer) as [err address]. simpl in Hg.
  destruct (Z.ltb_spec err 0); [exists err, m; split; [done|by intros x []]|].
  destruct (to_user_spec address err a p (St m (pre ++ [EvHook k] ++ [EvOp (OpGetname peer)])))
    as (r & m' & E & T); [lia|]. exists r, m'. split; [exact E|]. auto.
Qed.

Lemma send_ok m fd b n fl u l : does (CSendto fd b n fl u l) m (__sys_sendto e fd b n fl u l).
Proof.
  unfold __sys_sendto. destruct (ztrue (import_range e b n)); [apply does_ret|].
  assert (forall o, op_ok e (CSendto fd b n fl u l) m o -> op_ret e o <> - EIOCBQUEUED -> kind_of o = KSend ->
    does (CSendto fd b n fl u l) m (__sock_sendmsg e o)) as Hsend.
  { intros o Ho Hr Hk. apply (does_hook _ _ _ o); [done| |done]. intros pre _. exists (op_ret e o), m.
    split; [|by intros x []]. unfold sock_sendmsg_nosec, call_op, mbind, K_bind, emit; simpl.
    rewrite (proj2 (Z.eqb_neq _ _) Hr). by rewrite <- app_assoc. }
  pose proof (ok_send e Hok) as Hs. apply with_sock_ok. intros f.
  destruct (Z.eqb_spec u 0); [by apply Hsend|].
  apply (does_addr _ _ _ _ _ (fun err => err <? 0)); [intros err ? ?%Z.ltb_ge; lia|done|].
  intros a Ha. by apply Hsend.
Qed.

(** The pieces of user memory a call writes. *)
Lemma write_user_run a bs m tr : exists rest m', write_user a bs (St m tr) = Some (rest, St m' tr) /\
  (forall x, m' !! x <> m !! x -> a <= x < a + Z.of_nat (length bs)).
Proof.
  unfold write_user. simpl. destruct (copy_to_user m a bs) as [m' rest] eqn:E. do 2 eexists. split; [done|].
  intros x Hx. destruct (decide (a <= x < a + Z.of_nat (length bs))) as [|Hn]; [done|].
  by rewrite (copy_to_user_frame _ _ _ _ _ _ E Hn) in Hx.
Qed.
Lemma write_int_run p v m tr : exists err m', write_int p v (St m tr) = Some (err, St m' tr) /\
  (forall x, m' !! x <> m !! x -> p <= x < p + 4).
Proof.
  unfold write_int. simpl. destruct (put_user m p v) as [err m'] eqn:E. do 2 eexists. split; [done|].
  intros x Hx. destruct (decide (p <= x < p + 4)) as [|Hn]; [done|].
  by rewrite (put_user_frame _ _ _ _ _ _ E Hn) in Hx.
Qed.
(** A byte that changed over two writes changed in one of them. *)
Lemma changed_by (m0 m1 m2 : gmap Z Z) x : m2 !! x <> m0 !! x -> m2 !! x <> m1 !! x \/ m1 !! x <> m0 !! x.
Proof. destruct (decide (m2 !! x = m1 !! x)) as [->|]; auto. Qed.

Lemma recv_ok m fd b n fl u p : does (CRecvfrom fd b n fl u p) m (__sys_recvfrom e fd b n fl u p).
Proof.
  unfold __sys_recvfrom. destruct (ztrue (import_range e b n)); [apply does_ret|].
  apply with_sock_ok. intros f pre. unfold sock_recvmsg, hook, ztrue, mbind, K_bind.
  cbn [emit mret K_ret umem trace]. set (o := OpRecv _ _ _ _).
  set (c := CRecvfrom fd b n fl u p).
  destruct (Z.eqb_spec (sec e KRecv) 0) as [Hs|Hs]; cbn [negb].
  2: { unfold mret, K_ret. cbv beta iota zeta. destruct ((0 <=? sec e KRecv) && negb (u =? 0))%bool eqn:Eu.
       - destruct (to_user_spec (garbage e) 0 u p (St m (pre ++ [EvHook KRecv]))) as (r & m' & E & T); [done|].
         rewrite E. do 3 eexists. split; [reflexivity|]. bool_prop.
         destruct (good_hook c m KRecv) as (? & ? & ? & _). split_and!; try done.
         intros x Hx. right. split; [done|]. exists m. split; [by intros y []|by apply T].
       - do 3 eexists. split; [reflexivity|apply good_hook]. }
  unfold mret, K_ret. cbn [umem trace]. pose proof (ok_recv e Hok) as Hr. rewrite <- app_assoc.
  destruct (write_user_run b (take (Z.to_nat (Z.min n MAX_RW_COUNT)) (recv_data e)) m (pre ++ [EvHook KRecv] ++ [EvOp o]))
    as (rest & m1 & E1 & T1). rewrite E1.
  assert (forall x, m1 !! x <> m !! x -> data_area b n x) as Hd.
  { intros x Hx. apply T1 in Hx. rewrite length_take in Hx. unfold data_area. lia. }
  destruct (recv e) as [[err namelen] address]. simpl in Hr.
  destruct ((0 <=? err) && negb (u =? 0))%bool eqn:Eu.
  - destruct (to_user_spec address namelen u p (St m1 (pre ++ [EvHook KRecv] ++ [EvOp o]))) as (r & m' & E & T); [done|].
    rewrite E. do 3 eexists. split; [reflexivity|]. apply (good_op c _ _ o); [done|by split_and!|].
    bool_prop. intros x [Hx|Hx]%(changed_by m m1); [|left; auto]. right. split; [done|]. exists m1. auto.
  - do 3 eexists. split; [reflexivity|]. apply (good_op c _ _ o); [done|by split_and!|]. intros x Hx. left. auto.
Qed.

(** An operation reached after the arguments of the option were worked out. *)
Lemma good_opt c m o (k : bool) : sec e (kind_of o) = 0 -> op_ok e c m o ->
  good e c m (EvHook (kind_of o) :: (if k then [EvAlloc; EvOp o; EvFree] else [EvOp o])) m.
Proof.
  intros Hs Ho. apply good_same.
  - by destruct k.
  - destruct k; simpl; rewrite Hs; simpl; by rewrite bool_decide_true.
  - intros o'. destruct k; rewrite !elem_of_cons, elem_of_nil; naive_solver.
Qed.
Lemma good_noop c m kd (k : bool) : good e c m (EvHook kd :: (if k then [EvAlloc; EvFree] else [])) m.
Proof.
  apply good_same; [by destruct k|by destruct k|].
  intros o'. destruct k; rewrite !elem_of_cons, elem_of_nil; naive_solver.
Qed.

Lemma setsockopt_ok m fd l o u n : does (CSetsockopt fd l o u n) m (__sys_setsockopt e fd l o u n).
Proof.
  unfold __sys_setsockopt. destruct (Z.ltb_spec n 0); [apply does_ret|]. apply with_sock_ok. intros f pre.
  unfold hook, ztrue, mbind, K_bind. cbn [emit mret K_ret umem trace].
  destruct (Z.eqb_spec (sec e KSetsockopt) 0) as [Hs|Hs]; cbn [negb];
    [|do 3 eexists; split; [reflexivity|apply good_hook]].
  destruct (if compat e then _ else _) as [[[[err l'] o'] n'] k] eqn:Eb.
  assert (err <> 0 -> k = false) as Hk.
  { destruct (compat e); [by injection Eb as <- <- <- <- <-|]. by apply (ok_bpf e Hok _ _ _ _ _ _ _ _ Eb). }
  set (v := if k then None else Some u).
  assert ((compat e = true -> 0 <= n' /\ v = Some u) /\ (v = Some u \/ v = None)) as Hn.
  { split; [|unfold v; destruct k; auto]. intros Hc. rewrite Hc in Eb. by injection Eb as <- <- <- <- <-. }
  destruct (Z.ltb_spec err 0).
  { rewrite Hk by lia. do 3 eexists. split; [reflexivity|apply good_hook]. }
  destruct (Z.ltb_spec 0 err).
  { rewrite Hk by lia. do 3 eexists. split; [reflexivity|apply good_hook]. }
  set (op := OpSetsockopt l' o' v n').
  assert (op_ok e (CSetsockopt fd l o u n) m op) as Ho by exact Hn.
  destruct ((l' =? SOL_SOCKET) && negb (custom_sol_socket e))%bool; [|destruct (has_setsockopt e); cbn [negb]].
  - do 3 eexists. split; [|by apply (good_opt _ _ op k)]. destruct k; simpl; rewrite <- !app_assoc; done.
  - do 3 eexists. split; [|by apply (good_opt _ _ op k)]. destruct k; simpl; rewrite <- !app_assoc; done.
  - do 3 eexists. split; [|by apply (good_noop _ _ KSetsockopt k)]. destruct k; simpl; rewrite <- ?app_assoc; done.
Qed.

(** Reading an option at the socket level. *)
Lemma sock_getsockopt_run l o v p m pre :
  exists r m', sock_getsockopt e l o v p (St m pre) = Some (r, St m' (pre ++ [EvOp (OpGetsockopt l o v p)])) /\
    (forall x, m' !! x <> m !! x -> opt_area m SOL_SOCKET o v p x).
Proof.
  unfold sock_getsockopt, read_int, mbind, K_bind, emit, mret, K_ret. cbn [umem trace].
  set (tr := pre ++ _). unfold opt_area. destruct (get_user m p) as [err|len] eqn:Eg; [exists err, m; by split; [|intros x []]|].
  destruct (Z.ltb_spec len 0); [exists (- EINVAL), m; by split; [|intros x []]|].
  destruct (sol_get e o len) as [[ret val] newlen] eqn:Es.
  pose proof (ok_sol e Hok _ _ _ _ _ H Es) as Hlen.
  destruct (write_user_run v val m tr) as (rest & m1 & -> & T1).
  assert (forall x, m1 !! x <> m !! x -> exists n, inr len = @inr Z Z n /\ v <= x < v + opt_bytes o n) as A1.
  { intros x Hx. apply T1 in Hx. exists len. split; [done|lia]. }
  destruct (0 <? rest)%nat; [exists (- EFAULT), m1; split; [done|]; intros; right; auto|].
  destruct newlen as [n|]; [|exists ret, m1; split; [done|]; intros; right; auto].
  destruct (write_int_run p n m1 tr) as (err & m2 & -> & T2). do 2 eexists. split; [done|].
  intros x [Hx|Hx]%(changed_by m m1); [left|right]; auto.
Qed.

(** What the programs add stays in the length and the buffer. *)
Lemma bpf_getsockopt_run v p mx err m tr :
  exists r m', bpf_getsockopt e v p mx err (St m tr) = Some (r, St m' tr) /\
    (forall x, m' !! x <> m !! x -> p <= x < p + 4 \/ v <= x < v + Z.max 0 mx).
Proof.
  unfold bpf_getsockopt, mbind, K_bind. destruct (bpf_get e err mx) as [ret [val|]] eqn:Eb;
    [|exists ret, m; by split; [|intros x []]]. apply (ok_bpf_get e Hok) in Eb.
  destruct (write_user_run v val m tr) as (rest & m1 & -> & T1).
  destruct (0 <? rest)%nat; [exists (- EFAULT), m1; split; [done|]; intros x Hx%T1; right; lia|].
  destruct (write_int_run p (Z.of_nat (length val)) m1 tr) as (err' & m2 & -> & T2). do 2 eexists. split; [done|].
  intros x [Hx|Hx]%(changed_by m m1); [left; auto|right]. apply T1 in Hx. lia.
Qed.

(** Both together, for any way the option itself was read. *)
Lemma bpf_after l o v p err m m1 tr (P : Z -> Prop) :
  (forall x, m1 !! x <> m !! x -> opt_area m l o v p x \/ P x) ->
  let mx := match get_user m p with inr n => n | inl _ => 0 end in
  exists r m', (if negb (compat e) && bpf_on e then bpf_getsockopt e v p mx err else mret err) (St m1 tr) =
      Some (r, St m' tr) /\
    (forall x, m' !! x <> m !! x -> opt_area m l o v p x \/ P x).
Proof.
  intros H1 mx. destruct (negb (compat e) && bpf_on e)%bool; [|by exists err, m1].
  destruct (bpf_getsockopt_run v p mx err m1 tr) as (r & m' & -> & T). exists r, m'. split; [done|].
  intros x [Hx|Hx]%(changed_by m m1); [|auto]. left. destruct (T x Hx) as [?|Hv]; [by left|right].
  unfold mx in Hv. destruct (get_user m p) as [|n]; [lia|]. exists n. split; [done|].
  unfold opt_bytes. destruct (l =? SOL_SOCKET), (o =? SO_GET_FILTER_NR); lia.
Qed.

Lemma getsockopt_ok m fd l o v p : does (CGetsockopt fd l o v p) m (__sys_getsockopt e fd l o v p).
Proof.
  apply with_sock_ok. intros f pre. unfold hook, ztrue, mbind, K_bind, read_int. cbn [emit mret K_ret umem trace].
  destruct (Z.eqb_spec (sec e KGetsockopt) 0) as [Hs|Hs]; cbn [negb];
    [|do 3 eexists; split; [reflexivity|apply good_hook]].
  set (op := OpGetsockopt l o v p). set (tr := pre ++ [EvHook KGetsockopt]).
  assert (forall err m1, (forall x, m1 !! x <> m !! x -> touched e (CGetsockopt fd l o v p) m x) ->
    forall es, good e (CGetsockopt fd l o v p) m es m -> exists r es' m',
    (if negb (compat e) && bpf_on e
     then bpf_getsockopt e v p (match get_user m p with inr n => n | inl _ => 0 end) err
     else mret err) (St m1 (pre ++ es)) = Some (r, St m' (pre ++ es')) /\
    good e (CGetsockopt fd l o v p) m es' m') as Hend.
  { intros err m1 H1 es (G1 & G2 & G3 & _).
    destruct (bpf_after l o v p err m m1 (pre ++ es) _ H1) as (r & m' & E & T). exists r, es, m'.
    split; [exact E|]. split_and!; done. }
  assert (good e (CGetsockopt fd l o v p) m [EvHook KGetsockopt; EvOp op] m) as Gop
    by (apply (good_op _ _ _ op); [done|done|by intros x []]).
  destruct (Z.eqb_spec l SOL_SOCKET) as [->|Hl]; [|destruct (has_getsockopt e); cbn [negb]].
  - destruct (sock_getsockopt_run SOL_SOCKET o v p m tr) as (r & m1 & -> & T1). unfold tr. rewrite <- app_assoc.
    apply Hend; [|done]. intros x Hx. left. auto.
  - unfold ops_getsockopt, mbind, K_bind, emit. cbn [umem trace].
    destruct (proto_get e l o v p m) as [r m1] eqn:Ep. unfold tr. rewrite <- app_assoc.
    apply Hend; [|done]. intros x Hx. right. split; [done|]. by rewrite Ep.
  - apply (Hend _ m); [by intros x []|apply good_hook].
Qed.

Lemma run_ok c m : (forall fd b, c = CListen fd b -> in_s 32 b) -> does c m (run e c).
Proof.
  intros Hl. destruct c; cbn [run].
  - apply bind_ok.
  - apply listen_ok. by eapply Hl.
  - apply connect_ok.
  - apply with_sock_ok. intros _. by apply name_ok.
  - apply with_sock_ok. intros _. by apply name_ok.
  - apply send_ok.
  - apply recv_ok.
  - apply setsockopt_ok.
  - apply getsockopt_ok.
  - apply with_sock_ok. intros _. by apply does_call.
Qed.

(** A descriptor that is no socket. *)
Lemma with_sock_quiet fd m body : is_sock (fdtab e fd) = false ->
  exists r es, with_sock e fd body (St m []) = Some (r, St m es) /\ forallb quiet es = true.
Proof.
  unfold with_sock, sockfd_lookup_light. intros H. destruct (fdtab e fd) as [|light|]; [| |done].
  - by do 2 eexists.
  - destruct light; by do 2 eexists.
Qed.

Lemma run_quiet c m : is_sock (fdtab e (fd_of c)) = false ->
  exists r es, run e c (St m []) = Some (r, St m es) /\ forallb quiet es = true.
Proof.
  destruct c; cbn [run fd_of]; intros H; try by apply with_sock_quiet.
  - unfold __sys_connect. destruct (fdtab e fd) as [|light|]; [by do 2 eexists| |done].
    unfold mbind, K_bind. set (s1 := St m (if light then [EvGet] else [])).
    assert (emit_if light EvGet (St m []) = Some (tt, s1)) as -> by by destruct light.
    destruct (to_kernel_spec uservaddr addrlen s1) as (err & a & -> & _). destruct (ztrue err), light; by do 2 eexists.
  - unfold __sys_sendto. destruct (ztrue _); [by do 2 eexists|by apply with_sock_quiet].
  - unfold __sys_recvfrom. destruct (ztrue _); [by do 2 eexists|by apply with_sock_quiet].
  - unfold __sys_setsockopt. destruct (_ <? 0); [by do 2 eexists|by apply with_sock_quiet].
Qed.

End Spec.


(** A socket of the modelled socket level: its groups, as sk_getsockopt shows them to a
    buffer of the length given. *)
Definition demo_sol (o len : Z) : Z * list Z * option Z :=
  let r := Options.sk_getsockopt (demo_oenv false) (Z.to_nat len) true SO_PEERGROUPS (Some len) (fun _ => 0) in
  (Options.g_ret r, Options.g_val r, Options.g_len r).
Lemma demo_sol_ok o len ret v n : 0 <= len -> demo_sol o len = (ret, v, n) -> Z.of_nat (length v) <= opt_bytes o len.
Proof.
  intros Hl E. unfold demo_sol in E. simplify_eq.
  assert (in_bounds (Z.to_nat len) len (fun _ => 0)
    (Options.sk_getsockopt (demo_oenv false) (Z.to_nat len) true SO_PEERGROUPS (Some len) (fun _ => 0)))
    as (_ & H & _) by (apply (getsockopt_bounded (demo_oenv false) (Z.to_nat len) true SO_PEERGROUPS len (fun _ => 0)
      (demo_read_ok false)); done).
  unfold opt_bytes. destruct (o =? SO_GET_FILTER_NR); lia.
Qed.

(** A datagram socket at descriptor 3 that gives every call what it wants. *)
Definition demo_env : env :=
  Env (fun fd => if fd =? 3 then IsSock true 0 else NoFile) (replicate 128 0) 0 (fun _ _ => 0) (fun _ => 0) 128
    (fun _ => 0) (fun _ => (4, [9; 8; 7; 6] ++ replicate 124 0)) (5, 4, [9; 8; 7; 6] ++ replicate 124 0) false
    (fun l o n => (0, l, o, n, true)) (fun r _ => (r, None)) false true true
    [5; 5; 5; 5; 5] demo_sol (fun _ _ _ _ m => (0, m)) true.
Lemma demo_env_ok : env_ok demo_env.
Proof. split; simpl; try done; [intros l o n err l' o' n' k [= <- _ _ _ _]; done|exact demo_sol_ok]. Qed.

(** User memory with a buffer of four bytes at 100, its length, 2, at 200, and a buffer of
    three bytes at 300. *)
Definition demo_mem : gmap Z Z :=
  {[100 := 1; 101 := 1; 102 := 1; 103 := 1; 200 := 2; 201 := 0; 202 := 0; 203 := 0; 300 := 1; 301 := 1; 302 := 1]}.


End Calls.
