(* ===== verification/SocketFile.v ===== *)
(** * The socket layer: sockets as files (src/kvm/linux-5.15.178/net/socket.c)

    [Ioctl]: the ioctl handlers, for native and for 32-bit callers, on user memory.
    [Async]: asynchronous notification.  [FileOps]: reading, writing, polling and the
    attributes of a socket's inode.  Protocol operations, device drivers, the wireless
    extensions, fcntl and the fasync helper are parameters. *)

From S2P Require Import Prelude SocketCalls.

Definition ENOTTY : Z := 25.
Definition ESPIPE : Z := 29.
Definition ENOPKG : Z := 65.
Definition ENOIOCTLCMD : Z := 515.

Module Ioctl.

Definition SIOCDEVPRIVATE : Z := 0x89f0.
Definition SIOCIWFIRST : Z := 0x8b00.
Definition SIOCIWLAST : Z := 0x8bff.
Definition FIOSETOWN : Z := 0x8901.
Definition SIOCSPGRP : Z := 0x8902.
Definition FIOGETOWN : Z := 0x8903.
Definition SIOCGPGRP : Z := 0x8904.
Definition SIOCATMARK : Z := 0x8905.
Definition SIOCGSTAMP_OLD : Z := 0x8906.
Definition SIOCGSTAMPNS_OLD : Z := 0x8907.
Definition SIOCGSTAMP_NEW : Z := 0x80108906.
Definition SIOCGSTAMPNS_NEW : Z := 0x80108907.
Definition SIOCGIFBR : Z := 0x8940.
Definition SIOCSIFBR : Z := 0x8941.
Definition SIOCBRADDBR : Z := 0x89a0.
Definition SIOCBRDELBR : Z := 0x89a1.
Definition SIOCGIFVLAN : Z := 0x8982.
Definition SIOCSIFVLAN : Z := 0x8983.
Definition SIOCGSKNS : Z := 0x894c.
Definition SIOCGIFCONF : Z := 0x8912.
Definition SIOCWANDEV : Z := 0x894a.
(** SIOCETHTOOL, SIOCBONDSLAVEINFOQUERY, SIOCBONDINFOQUERY, SIOCSHWTSTAMP, SIOCGHWTSTAMP. *)
Definition ifr_data_cmds : list Z := [0x8946; 0x8993; 0x8994; 0x89b0; 0x89b1].
(** SIOCGIFFLAGS to SIOCATMARK, as compat_sock_ioctl_trans lists them. *)
Definition plain_cmds : list Z :=
  [0x8913; 0x8914; 0x8970; 0x8971; 0x891d; 0x891e; 0x8921; 0x8922; 0x891f; 0x8920; 0x8927; 0x8924; 0x8931; 0x8932;
   0x8933; 0x8915; 0x8916; 0x8937; 0x8936; 0x8919; 0x891a; 0x8917; 0x8918; 0x891b; 0x891c; 0x8934; 0x8935; 0x8942;
   0x8943; 0x89a2; 0x89a3; 0x8910; 0x8923; 0x8947; 0x8948; 0x8949; 0x8990; 0x8991; 0x8992; 0x8995; 0x8955; 0x8954;
   0x8953; 0x5411; 0x894b; SIOCATMARK].
(** Those that it passes to sock_ioctl. *)
Definition shared_cmds : list Z :=
  [FIOSETOWN; SIOCSPGRP; FIOGETOWN; SIOCGPGRP; SIOCBRADDBR; SIOCBRDELBR; SIOCGIFVLAN; SIOCSIFVLAN; SIOCGSKNS;
   SIOCGSTAMP_NEW; SIOCGSTAMPNS_NEW; SIOCGIFCONF].
Definition BRCTL_GET_VERSION : Z := 0.
Definition BRCTL_VERSION : Z := 1.

(** struct ifreq is 40 bytes, 32 for a 32-bit caller; the pointer in it is at 16. *)
Definition IFREQ : nat := 40.
Definition COMPAT_IFREQ : nat := 32.

(** What a call did besides writing to user memory. *)
Inductive act :=
| AProto (cmd : Z) | ACompatProto (cmd : Z) | ADev (cmd : Z) (ifr : list Z) (data : Z) | AWext (cmd : Z)
| ASetOwn (pid : Z) | ABr (cmd : Z) | AVlan | AOpenNs | AStamp (timeval time32 : bool) | AIfconf | ALoad.

(** What a call meets: the protocol, the device (an error, the request after it, and whether it
    is to be copied out), the hooks of bridge and vlan before and after their module is loaded.
    [foreign] is what the handler of another part of the kernel that an act stands for does to
    user memory by itself (SIOCGIFCONF fills the caller's ifc_buf, a driver writes through the
    pointer in the request, a protocol to its own argument). *)
Record ienv := IEnv {
  in_compat : bool; proto_ioctl : Z -> Z; compat_ioctl : option (Z -> Z); has_gettstamp : bool; gettstamp : bool -> bool -> Z;
  dev_ioctl : Z -> list Z -> Z -> Z * list Z * bool; is_socket_ioctl_cmd : Z -> bool; wext : bool; wext_ioctl : Z -> Z;
  f_setown : Z -> Z; f_getown : Z; br_hook : option (Z -> Z); br_loaded : option (Z -> Z); vlan_hook : option Z; vlan_loaded : option Z;
  net_admin : bool; open_related_ns : Z; dev_ifconf : Z; compat_64bit_time : bool;
  foreign : act -> gmap Z Z -> gmap Z Z
}.
(** The result, the user memory and what was done. *)
Abbreviation out := (Z * gmap Z Z * list act)%type.

Section Ioctl.
Context (e : ienv).

(** User memory after an act; taking the owner, opening a namespace and loading a module leave
    it alone. *)
Definition apply_act (x : act) (m : gmap Z Z) : gmap Z Z :=
  match x with ASetOwn _ | AOpenNs | ALoad => m | _ => foreign e x m end.
Definition acted (r : Z) (m : gmap Z Z) (x : act) : out := (r, apply_act x m, [x]).

(** A request with the pointer in it, or an error. *)
Definition get_user_ifreq (m : gmap Z Z) (arg : Z) : Z + list Z * Z :=
  if in_compat e then
    match copy_from_user m arg COMPAT_IFREQ with
    | (l, O) => inr (l ++ replicate (IFREQ - COMPAT_IFREQ) 0, le_value (take 4 (drop 16 l)))
    | _ => inl (- EFAULT)
    end
  else
    match copy_from_user m arg IFREQ with
    | (l, O) => inr (l, le_value (take 8 (drop 16 l)))
    | _ => inl (- EFAULT)
    end.
Definition ifreq_size : nat := if in_compat e then COMPAT_IFREQ else IFREQ.
Definition put_user_ifreq (ifr : list Z) (m : gmap Z Z) (arg : Z) : Z * gmap Z Z :=
  match copy_to_user m arg (take ifreq_size ifr) with
  | (m, O) => (0, m)
  | (m, _) => (- EFAULT, m)
  end.

(** The request goes to the device and back, after [log]. *)
Definition dev_request (cmd argp : Z) (m : gmap Z Z) (log : list act) : out :=
  match get_user_ifreq m argp with
  | inl _ => (- EFAULT, m, log)
  | inr (ifr, data) =>
      let log := log ++ [ADev cmd ifr data] in
      let m := apply_act (ADev cmd ifr data) m in
      let '(err, ifr, need_copyout) := dev_ioctl e cmd ifr data in
      if (err =? 0) && need_copyout then
        match put_user_ifreq ifr m argp with
        | (0, m) => (err, m, log)
        | (_, m) => (- EFAULT, m, log)
        end
      else (err, m, log)
  end.

Definition sock_do_ioctl (cmd arg : Z) (m : gmap Z Z) : out :=
  let err := proto_ioctl e cmd in
  let m := apply_act (AProto cmd) m in
  if negb (err =? - ENOIOCTLCMD) then (err, m, [AProto cmd])
  else if negb (is_socket_ioctl_cmd e cmd) then (- ENOTTY, m, [AProto cmd])
  else dev_request cmd arg m [AProto cmd].

(** br_ioctl_call: the hook is read again under the mutex. *)
Definition br_ioctl_call (cmd : Z) (m : gmap Z Z) : out :=
  let '(hook, log) := match br_hook e with Some h => (Some h, []) | None => (br_loaded e, [ALoad]) end in
  match hook with Some h => (h cmd, apply_act (ABr cmd) m, log ++ [ABr cmd]) | None => (- ENOPKG, m, log) end.
Definition vlan_call (m : gmap Z Z) : out :=
  let '(hook, log) := match vlan_hook e with Some h => (Some h, []) | None => (vlan_loaded e, [ALoad]) end in
  match hook with Some h => (h, apply_act AVlan m, log ++ [AVlan]) | None => (- ENOPKG, m, log) end.
Definition stamp_call (timeval time32 : bool) (m : gmap Z Z) : out :=
  if has_gettstamp e then acted (gettstamp e timeval time32) m (AStamp timeval time32) else (- ENOIOCTLCMD, m, []).

Definition sock_ioctl (cmd arg : Z) (m : gmap Z Z) : out :=
  if (SIOCDEVPRIVATE <=? cmd) && (cmd <=? SIOCDEVPRIVATE + 15) then dev_request cmd arg m []
  else if wext e && (SIOCIWFIRST <=? cmd) && (cmd <=? SIOCIWLAST) then acted (wext_ioctl e cmd) m (AWext cmd)
  else if (cmd =? FIOSETOWN) || (cmd =? SIOCSPGRP) then
    match get_user m arg with
    | inl _ => (- EFAULT, m, [])
    | inr pid => (f_setown e pid, m, [ASetOwn pid])
    end
  else if (cmd =? FIOGETOWN) || (cmd =? SIOCGPGRP) then let '(err, m) := put_user m arg (f_getown e) in (err, m, [])
  else if (cmd =? SIOCGIFBR) || (cmd =? SIOCSIFBR) || (cmd =? SIOCBRADDBR) || (cmd =? SIOCBRDELBR) then br_ioctl_call cmd m
  else if (cmd =? SIOCGIFVLAN) || (cmd =? SIOCSIFVLAN) then vlan_call m
  else if cmd =? SIOCGSKNS then if net_admin e then (open_related_ns e, m, [AOpenNs]) else (- EPERM, m, [])
  else if (cmd =? SIOCGSTAMP_OLD) || (cmd =? SIOCGSTAMPNS_OLD) then stamp_call (cmd =? SIOCGSTAMP_OLD) false m
  else if (cmd =? SIOCGSTAMP_NEW) || (cmd =? SIOCGSTAMPNS_NEW) then stamp_call (cmd =? SIOCGSTAMP_NEW) false m
  else if cmd =? SIOCGIFCONF then acted (dev_ifconf e) m AIfconf
  else sock_do_ioctl cmd arg m.

(** *** 32-bit callers *)

Definition old_bridge_ioctl (argp : Z) (m : gmap Z Z) : out :=
  match get_user m argp with
  | inl _ => (- EFAULT, m, [])
  | inr tmp => (if tmp =? BRCTL_GET_VERSION then BRCTL_VERSION + 1 else - EINVAL, m, [])
  end.
(** The pointer of a WAN request, at 24, is replaced for the driver by the 32-bit pointer of the
    caller and put back before the request is copied out. *)
Definition set_at (at_ : nat) (v l : list Z) : list Z := take at_ l ++ v ++ drop (at_ + length v) l.
Definition compat_siocwandev (uifr : Z) (m : gmap Z Z) : out :=
  match get_user_ifreq m uifr with
  | inl _ => (- EFAULT, m, [])
  | inr (ifr, _) =>
      match copy_from_user m (uifr + 24) 4 with
      | (p, O) =>
          let saved := take 8 (drop 24 ifr) in
          let ifr := set_at 24 (le_bytes 8 (le_value p)) ifr in
          let '(err, ifr', _) := dev_ioctl e SIOCWANDEV ifr 0 in
          let log := [ADev SIOCWANDEV ifr 0] in
          let m := apply_act (ADev SIOCWANDEV ifr 0) m in
          if err =? 0 then
            match put_user_ifreq (set_at 24 saved ifr') m uifr with
            | (0, m) => (err, m, log)
            | (_, m) => (- EFAULT, m, log)
            end
          else (err, m, log)
      | _ => (- EFAULT, m, [])
      end
  end.
Definition compat_ifr_data_ioctl (cmd uifr : Z) (m : gmap Z Z) : out :=
  if negb (is_socket_ioctl_cmd e cmd) then (- ENOTTY, m, [])
  else match get_user_ifreq m uifr with
       | inl _ => (- EFAULT, m, [])
       | inr (ifr, data) =>
           let ifr := set_at 16 (le_bytes 8 data) ifr in
           acted (dev_ioctl e cmd ifr data).1.1 m (ADev cmd ifr data)
       end.
Definition compat_sock_ioctl_trans (cmd arg : Z) (m : gmap Z Z) : out :=
  let argp := wrapu 32 arg in
  if (SIOCDEVPRIVATE <=? cmd) && (cmd <=? SIOCDEVPRIVATE + 15) then sock_ioctl cmd argp m
  else if (cmd =? SIOCSIFBR) || (cmd =? SIOCGIFBR) then old_bridge_ioctl argp m
  else if cmd =? SIOCWANDEV then compat_siocwandev argp m
  else if (cmd =? SIOCGSTAMP_OLD) || (cmd =? SIOCGSTAMPNS_OLD) then stamp_call (cmd =? SIOCGSTAMP_OLD) (negb (compat_64bit_time e)) m
  else if bool_decide (cmd ∈ ifr_data_cmds) then compat_ifr_data_ioctl cmd argp m
  else if bool_decide (cmd ∈ shared_cmds) then sock_ioctl cmd arg m
  else if bool_decide (cmd ∈ plain_cmds) then sock_do_ioctl cmd arg m
  else (- ENOIOCTLCMD, m, []).
Definition compat_sock_ioctl (cmd arg : Z) (m : gmap Z Z) : out :=
  let '(ret, m, log) := match compat_ioctl e with
                        | Some f => acted (f cmd) m (ACompatProto cmd)
                        | None => (- ENOIOCTLCMD, m, [])
                        end in
  let '(ret, m, log) := if (ret =? - ENOIOCTLCMD) && ((SIOCIWFIRST <=? cmd) && (cmd <=? SIOCIWLAST))
                        then (wext_ioctl e cmd, apply_act (AWext cmd) m, log ++ [AWext cmd]) else (ret, m, log) in
  if ret =? - ENOIOCTLCMD then
    let '(ret, m, log') := compat_sock_ioctl_trans cmd arg m in (ret, m, log ++ log')
  else (ret, m, log).
End Ioctl.

(** ** What a call may touch *)

Definition is_dev (a : act) : Prop := match a with ADev _ _ _ => True | _ => False end.
#[export] Instance is_dev_dec a : Decision (is_dev a).
Proof. destruct a; simpl; apply _. Defined.

(** What the handlers that were called did to user memory, one after another. *)
Definition effects (e : ienv) (log : list act) (m : gmap Z Z) : gmap Z Z := foldl (fun m x => apply_act e x m) m log.

(** A call at [a] by [e]: outside the request, user memory is what the handlers that were
    called made of it; inside it the socket layer writes too, and only if a device accepted the
    request or the owner was asked for; a device is asked last and once at most, with a whole
    request that the caller has in memory then, under the interface name in it; the namespace
    is opened only with the capability. *)
Definition proper (e : ienv) (cmd a : Z) (m : gmap Z Z) (o : out) : Prop :=
  let '(r, m', log) := o in
  (forall x, ~ (a <= x < a + Z.of_nat (ifreq_size e)) -> m' !! x = effects e log m !! x) /\
  (AOpenNs ∈ log -> net_admin e = true) /\
  (forall pre c ifr d post, log = pre ++ ADev c ifr d :: post ->
     c = cmd /\ post = [] /\ length ifr = IFREQ /\
     exists l, copy_from_user (effects e pre m) a (ifreq_size e) = (l, O) /\ take 16 ifr = take 16 l) /\
  (m' <> effects e log m ->
     cmd = FIOGETOWN \/ cmd = SIOCGPGRP \/ exists c ifr d, ADev c ifr d ∈ log /\ (dev_ioctl e c ifr d).1.1 = 0).

Lemma effects_app e l1 l2 m : effects e (l1 ++ l2) m = effects e l2 (effects e l1 m).
Proof. unfold effects. apply foldl_app. Qed.

Lemma proper_quiet e cmd a m r log : (AOpenNs ∈ log -> net_admin e = true) -> Forall (fun x => ~ is_dev x) log ->
  proper e cmd a m (r, effects e log m, log).
Proof.
  intros Hn Hd. split; [done|]. split; [done|]. split; [|done].
  intros pre c ifr d post ->. rewrite Forall_app, Forall_cons in Hd. by destruct Hd as (_ & [] & _).
Qed.
Ltac quiet_by l := apply (proper_quiet _ _ _ _ _ l); [set_solver|repeat constructor; simpl; tauto].

Lemma get_user_ifreq_spec e m a ifr d : get_user_ifreq e m a = inr (ifr, d) ->
  length ifr = IFREQ /\ exists l, copy_from_user m a (ifreq_size e) = (l, O) /\ take 16 ifr = take 16 l.
Proof.
  unfold get_user_ifreq, ifreq_size. destruct (in_compat e).
  - destruct (copy_from_user m a COMPAT_IFREQ) as [l [|k]] eqn:E; intros H; [|done]. injection H as <- _.
    apply Calls.copy_from_user_all in E as [E _]. split; [by rewrite length_app, E|]. exists l. split; [done|].
    rewrite take_app_le; [done|]. rewrite E. unfold COMPAT_IFREQ. lia.
  - destruct (copy_from_user m a IFREQ) as [l [|k]] eqn:E; intros H; [|done]. injection H as <- _.
    apply Calls.copy_from_user_all in E as [E _]. split; [done|]. by exists l.
Qed.
Lemma put_user_ifreq_frame e ifr m a r m' x : put_user_ifreq e ifr m a = (r, m') ->
  ~ (a <= x < a + Z.of_nat (ifreq_size e)) -> m' !! x = m !! x.
Proof.
  unfold put_user_ifreq. destruct (copy_to_user m a (take (ifreq_size e) ifr)) as [m1 k] eqn:E. intros H Hx.
  assert (m' = m1) as -> by (destruct k; by injection H as _ <-).
  eapply Calls.copy_to_user_frame; [exact E|]. rewrite length_take. lia.
Qed.

(** In a log that ends with the only request to a device. *)
Lemma last_dev (pre : list act) x pre' y post :
  Forall (fun x => ~ is_dev x) pre -> pre ++ [x] = pre' ++ y :: post -> is_dev y -> pre' = pre /\ y = x /\ post = [].
Proof.
  intros Hp. revert pre'. induction Hp as [|z pre Hz Hp IH]; intros [|w pre'] E Hy; simpl in E; simplify_eq.
  - done.
  - by destruct pre'.
  - done.
  - destruct (IH pre') as (-> & -> & ->); done.
Qed.
Lemma first_dev (log log' : list act) pre y post :
  Forall (fun x => ~ is_dev x) log -> log ++ log' = pre ++ y :: post -> is_dev y ->
  exists pre', pre = log ++ pre' /\ log' = pre' ++ y :: post.
Proof.
  intros Hp. revert pre. induction Hp as [|z log Hz Hp IH]; intros pre E Hy; [by exists pre|].
  destruct pre as [|w pre]; simpl in E; simplify_eq; [done|].
  destruct (IH pre) as (pre' & -> & ->); [done|done|]. by exists pre'.
Qed.

(** A device is asked and its answer copied out. *)
Lemma proper_dev e cmd a m pre ifr d ifr' r m' dd :
  get_user_ifreq e (effects e pre m) a = inr (ifr', d) -> length ifr = IFREQ -> take 16 ifr = take 16 ifr' ->
  (AOpenNs ∈ pre -> net_admin e = true) -> Forall (fun x => ~ is_dev x) pre ->
  let m1 := apply_act e (ADev cmd ifr dd) (effects e pre m) in
  (m' = m1 \/ ((dev_ioctl e cmd ifr dd).1.1 = 0 /\ exists ifr1 r1, put_user_ifreq e ifr1 m1 a = (r1, m'))) ->
  proper e cmd a m (r, m', pre ++ [ADev cmd ifr dd]).
Proof.
  intros Hg Hl Ht Hn Hp m1 Hm. apply get_user_ifreq_spec in Hg as (_ & l & Hg & Hl').
  assert (effects e (pre ++ [ADev cmd ifr dd]) m = m1) as He by by rewrite effects_app.
  split; [|split; [|split]]; rewrite ?He.
  - intros x Hx. destruct Hm as [->|(_ & ifr1 & r1 & E)]; [done|]. by eapply put_user_ifreq_frame.
  - intros [H|H%list_elem_of_singleton]%elem_of_app; [by apply Hn|done].
  - intros pre' c i x post (-> & [= -> -> ->] & ->)%last_dev; [|done|done]. split_and!; try done.
    exists l. split; [done|]. congruence.
  - intros Hne. right. right. exists cmd, ifr, dd. split; [apply elem_of_app; right; by apply list_elem_of_singleton|].
    by destruct Hm as [->|[H _]].
Qed.
Lemma proper_request e cmd a m pre : (AOpenNs ∈ pre -> net_admin e = true) -> Forall (fun x => ~ is_dev x) pre ->
  proper e cmd a m (dev_request e cmd a (effects e pre m) pre).
Proof.
  intros Hn Hp. unfold dev_request.
  destruct (get_user_ifreq e (effects e pre m) a) as [err|[ifr d]] eqn:Eg; [by apply proper_quiet|].
  destruct (get_user_ifreq_spec e _ a ifr d Eg) as [Hl _].
  destruct (dev_ioctl e cmd ifr d) as [[err ifr1] need] eqn:Ed.
  set (m1 := apply_act e (ADev cmd ifr d) (effects e pre m)).
  destruct (Z.eqb_spec err 0) as [->|]; cbn [andb]; cycle 1.
  { eapply proper_dev; try done. by left. }
  destruct need; [|eapply proper_dev; try done; by left].
  destruct (put_user_ifreq e ifr1 m1 a) as [r1 m2] eqn:Ep.
  destruct r1; (eapply proper_dev; [done|done|done|done|done|]; right; rewrite Ed; split; [done|]; eauto).
Qed.

Lemma proper_do_ioctl e cmd a m : proper e cmd a m (sock_do_ioctl e cmd a m).
Proof.
  unfold sock_do_ioctl. destruct (negb (proto_ioctl e cmd =? - ENOIOCTLCMD)); [quiet_by [AProto cmd]|].
  destruct (negb (is_socket_ioctl_cmd e cmd)); [quiet_by [AProto cmd]|].
  apply (proper_request e cmd a m [AProto cmd]); [set_solver|repeat constructor; simpl; tauto].
Qed.
Lemma proper_stamp e cmd a m b1 b2 : proper e cmd a m (stamp_call e b1 b2 m).
Proof. unfold stamp_call. destruct (has_gettstamp e); [quiet_by [AStamp b1 b2]|quiet_by (@nil act)]. Qed.
Lemma proper_hooks e cmd a m : proper e cmd a m (br_ioctl_call e cmd m) /\ proper e cmd a m (vlan_call e m).
Proof.
  split.
  - unfold br_ioctl_call. destruct (br_hook e); [quiet_by [ABr cmd]|].
    destruct (br_loaded e); [quiet_by [ALoad; ABr cmd]|quiet_by [ALoad]].
  - unfold vlan_call. destruct (vlan_hook e); [quiet_by [AVlan]|].
    destruct (vlan_loaded e); [quiet_by [ALoad; AVlan]|quiet_by [ALoad]].
Qed.
Lemma proper_sock_ioctl e cmd a m : proper e cmd a m (sock_ioctl e cmd a m).
Proof.
  unfold sock_ioctl. destruct (_ && _)%bool; [apply (proper_request e cmd a m []); [set_solver|constructor]|].
  destruct (wext e && _ && _)%bool; [quiet_by [AWext cmd]|].
  destruct ((cmd =? FIOSETOWN) || _)%bool.
  { destruct (get_user m a) as [|pid]; [quiet_by (@nil act)|quiet_by [ASetOwn pid]]. }
  destruct ((cmd =? FIOGETOWN) || (cmd =? SIOCGPGRP))%bool eqn:Eo.
  { destruct (put_user m a (f_getown e)) as [err m1] eqn:E. split; [|split; [set_solver|]; split].
    - intros x Hx. eapply Calls.put_user_frame; [exact E|]. unfold ifreq_size, IFREQ, COMPAT_IFREQ in Hx. destruct (in_compat e); lia.
    - intros pre c ifr d post H. by destruct pre.
    - intros _. apply orb_true_iff in Eo as [Eo|Eo]; bool_prop; auto. }
  clear Eo. destruct (_ || _ || _ || _)%bool; [apply proper_hooks|].
  destruct (_ || _)%bool; [apply proper_hooks|].
  destruct (cmd =? SIOCGSKNS).
  { destruct (net_admin e) eqn:En; [|quiet_by (@nil act)].
    apply (proper_quiet _ _ _ _ _ [AOpenNs]); [done|repeat constructor; simpl; tauto]. }
  destruct ((cmd =? SIOCGSTAMP_OLD) || _)%bool; [apply proper_stamp|].
  destruct ((cmd =? SIOCGSTAMP_NEW) || _)%bool; [apply proper_stamp|].
  destruct (cmd =? SIOCGIFCONF); [quiet_by [AIfconf]|]. apply proper_do_ioctl.
Qed.

Lemma length_set_at n v l : (n + length v <= length l)%nat -> length (set_at n v l) = length l.
Proof. intros H. unfold set_at. rewrite !length_app, length_take, length_drop. lia. Qed.
Lemma take_set_at n k v l : (k <= n)%nat -> (n <= length l)%nat -> take k (set_at n v l) = take k l.
Proof. intros H1 H2. unfold set_at. rewrite take_app_le by (rewrite length_take; lia). rewrite take_take. f_equal. lia. Qed.
Lemma proper_wandev e a m : proper e SIOCWANDEV a m (compat_siocwandev e a m).
Proof.
  unfold compat_siocwandev. destruct (get_user_ifreq e m a) as [err|[ifr d]] eqn:Eg; [quiet_by (@nil act)|].
  destruct (copy_from_user m (a + 24) 4) as [p [|k]]; [|quiet_by (@nil act)].
  destruct (get_user_ifreq_spec e m a ifr d Eg) as [Hl _].
  set (ifr1 := set_at 24 (le_bytes 8 (le_value p)) ifr).
  assert (length ifr1 = IFREQ) as Hs.
  { unfold ifr1. rewrite length_set_at; [done|]. rewrite length_le_bytes, Hl. unfold IFREQ. lia. }
  assert (take 16 ifr1 = take 16 ifr) as Ht by (apply take_set_at; rewrite ?Hl; unfold IFREQ; lia).
  destruct (dev_ioctl e SIOCWANDEV ifr1 0) as [[err ifr'] need] eqn:Ed.
  destruct (Z.eqb_spec err 0) as [->|];
    [|apply (proper_dev e SIOCWANDEV a m [] _ d ifr); [done|done|done|set_solver|constructor|by left]].
  destruct (put_user_ifreq e _ _ a) as [r1 m1] eqn:Ep.
  destruct r1; (apply (proper_dev e SIOCWANDEV a m [] _ d ifr); [done|done|done|set_solver|constructor|];
    right; rewrite Ed; split; [done|]; eauto).
Qed.
Lemma proper_ifr_data e cmd a m : proper e cmd a m (compat_ifr_data_ioctl e cmd a m).
Proof.
  unfold compat_ifr_data_ioctl. destruct (negb (is_socket_ioctl_cmd e cmd)); [quiet_by (@nil act)|].
  destruct (get_user_ifreq e m a) as [err|[ifr d]] eqn:Eg; [quiet_by (@nil act)|].
  destruct (get_user_ifreq_spec e m a ifr d Eg) as [Hl _].
  apply (proper_dev e cmd a m [] _ d ifr); [done| | |set_solver|constructor|by left].
  - rewrite length_set_at; [done|]. rewrite length_le_bytes, Hl. unfold IFREQ. lia.
  - apply take_set_at; rewrite ?Hl; unfold IFREQ; lia.
Qed.
Lemma proper_trans e cmd a m : in_u 32 a -> proper e cmd a m (compat_sock_ioctl_trans e cmd a m).
Proof.
  intros Ha. unfold compat_sock_ioctl_trans. rewrite (wrapu_id 32 a Ha).
  destruct (_ && _)%bool; [apply proper_sock_ioctl|].
  destruct (_ || _)%bool; [unfold old_bridge_ioctl; destruct (get_user m a); quiet_by (@nil act)|].
  destruct (Z.eqb_spec cmd SIOCWANDEV) as [->|]; [apply proper_wandev|].
  destruct ((cmd =? SIOCGSTAMP_OLD) || _)%bool; [apply proper_stamp|].
  case_bool_decide; [apply proper_ifr_data|]. case_bool_decide; [apply proper_sock_ioctl|].
  case_bool_decide; [apply proper_do_ioctl|quiet_by (@nil act)].
Qed.
(** A handler of the protocol or of the wireless extensions is asked first. *)
Lemma proper_after e cmd a m log o : Forall (fun x => ~ is_dev x /\ x <> AOpenNs) log ->
  proper e cmd a (effects e log m) o -> proper e cmd a m (let '(r, m', log') := o in (r, m', log ++ log')).
Proof.
  destruct o as [[r m'] log']. intros Hl (H1 & H2 & H3 & H4). unfold proper. rewrite effects_app.
  split; [done|]. split; [|split].
  - rewrite Forall_forall in Hl. intros [H|H]%elem_of_app; [by destruct (Hl _ H)|by apply H2].
  - intros pre c ifr d post (pre' & -> & ->)%first_dev; [|by eapply Forall_impl; [exact Hl|]; intros ? []|done].
    rewrite effects_app. by apply (H3 pre' c ifr d post).
  - intros Hne. destruct (H4 Hne) as [H|[H|(c & ifr & d & H & H0)]]; [by left|by right; left|].
    right. right. exists c, ifr, d. split; [apply elem_of_app; by right|done].
Qed.
Lemma proper_compat e cmd a m : in_u 32 a -> proper e cmd a m (compat_sock_ioctl e cmd a m).
Proof.
  intros Ha. unfold compat_sock_ioctl.
  assert (forall log, Forall (fun x => ~ is_dev x /\ x <> AOpenNs) log ->
    proper e cmd a m (let '(r, m', log') := compat_sock_ioctl_trans e cmd a (effects e log m) in (r, m', log ++ log'))) as Hpre.
  { intros log Hl. by apply proper_after, proper_trans. }
  destruct (compat_ioctl e) as [f|]; unfold acted; destruct (_ && _)%bool; destruct (_ =? _); cbn [app].
  - apply (Hpre [ACompatProto cmd; AWext cmd]). repeat constructor; simpl; (tauto || done).
  - quiet_by [ACompatProto cmd; AWext cmd].
  - apply (Hpre [ACompatProto cmd]). repeat constructor; simpl; (tauto || done).
  - quiet_by [ACompatProto cmd].
  - apply (Hpre [AWext cmd]). repeat constructor; simpl; (tauto || done).
  - quiet_by [AWext cmd].
  - apply (Hpre []). constructor.
  - quiet_by (@nil act).
Qed.

(** (C34) An ioctl on a socket, by a native or a 32-bit caller.  Handlers of other parts of the
    kernel (the protocol, the wireless extensions, SIOCGIFCONF, the driver of a device, time
    stamps) may write to user memory themselves, also when they fail; beyond what the handlers
    that were called did, memory changes only inside the request that the caller passed, of the
    size that is right for the caller, and there only if the device accepted the request or the
    owner was asked for (a copy that meets a bad page on the way stays partly done).  The device
    is asked at most once, after all others, and only with a whole request read from the
    caller's memory, for the interface named in it; the network namespace is opened only with
    CAP_NET_ADMIN. *)
Theorem ioctl_contained e cmd a m :
  proper e cmd a m (sock_ioctl e cmd a m) /\ (in_u 32 a -> proper e cmd a m (compat_sock_ioctl e cmd a m)).
Proof. split; [apply proper_sock_ioctl|apply proper_compat]. Qed.

(** SIOCGIFCONF fills a buffer at 100 beside the request at 0; a private request of 32 bytes at
    0 is answered in place. *)
Definition ienv0 : ienv :=
  IEnv true (fun _ => - ENOIOCTLCMD) None true (fun _ _ => 0) (fun _ ifr _ => (0, map (fun _ => 1) ifr, true)) (fun _ => true)
    true (fun _ => 0) (fun _ => 0) 1 None None None None false 0 0 true
    (fun x m => match x with AIfconf => <[100:=7]> m | _ => m end).
Definition imem : gmap Z Z := list_to_map ((fun i => (Z.of_nat i, 9)) <$> seq 0 33) ∪ {[100 := 9]}.
Lemma ioctl_contained_witness :
  (compat_sock_ioctl ienv0 SIOCGIFCONF 0 imem).1.2 = <[100:=7]> imem /\
  (exists r m' log, compat_sock_ioctl ienv0 SIOCDEVPRIVATE 0 imem = (r, m', log) /\ m' !! 31 = Some 1 /\ m' !! 32 = Some 9 /\
    proper ienv0 SIOCDEVPRIVATE 0 imem (r, m', log)).
Proof.
  split; [vm_compute; reflexivity|].
  destruct (ioctl_contained ienv0 SIOCDEVPRIVATE 0 imem) as [_ H].
  destruct (compat_sock_ioctl ienv0 SIOCDEVPRIVATE 0 imem) as [[r m'] log] eqn:E.
  exists r, m', log. split; [reflexivity|].
  assert (m' = (compat_sock_ioctl ienv0 SIOCDEVPRIVATE 0 imem).1.2) as -> by (rewrite E; reflexivity).
  split; [vm_compute; reflexivity|]. split; [vm_compute; reflexivity|]. rewrite E. apply H. unfold in_u; lia.
Defined.

End Ioctl.

Module Async.

Definition SIGIO : Z := 29.
Definition SIGURG : Z := 23.
Inductive wake := SOCK_WAKE_WAITD | SOCK_WAKE_SPACE | SOCK_WAKE_IO | SOCK_WAKE_URG.
#[global] Instance wake_eq_dec : EqDecision wake.
Proof. solve_decision. Defined.

(** The wait queue of a socket: the files and descriptors to notify, the flag SOCK_FASYNC of the
    sock, the bits SOCKWQ_ASYNC_WAITDATA and SOCKWQ_ASYNC_NOSPACE; the signals sent, with the
    reason, and how often a sender noted that it lacks space. *)
Record wq := WQ {
  fasync_list : list (Z * Z); SOCK_FASYNC : bool; waitdata : bool; nospace : bool;
  signals : list (wake * Z * Z); noted : Z
}.

Section Async.
(** fasync_helper adds or removes the entry of a file. *)
Context (fasync_helper : Z -> Z -> bool -> list (Z * Z) -> list (Z * Z)).

Definition sock_fasync (has_sk : bool) (fd filp : Z) (on : bool) (q : wq) : Z * wq :=
  if negb has_sk then (- EINVAL, q)
  else
    let l := fasync_helper fd filp on (fasync_list q) in
    (0, WQ l (negb (bool_decide (l = []))) (waitdata q) (nospace q) (signals q) (noted q)).

Definition kill_fasync (how : wake) (sig band : Z) (q : wq) : wq :=
  WQ (fasync_list q) (SOCK_FASYNC q) (waitdata q) (nospace q) (signals q ++ [(how, sig, band)]) (noted q).
Definition clear_nospace (q : wq) : wq := WQ (fasync_list q) (SOCK_FASYNC q) (waitdata q) false (signals q) (noted q).
Definition sock_wake_async (q : option wq) (how : wake) (band : Z) : Z * option wq :=
  match q with
  | None => (-1, None)
  | Some q =>
      if bool_decide (fasync_list q = []) then (-1, Some q)
      else
        (0, Some match how with
                 | SOCK_WAKE_WAITD => if waitdata q then q else kill_fasync how SIGIO band q
                 | SOCK_WAKE_SPACE => if negb (nospace q) then q else kill_fasync how SIGIO band (clear_nospace q)
                 | SOCK_WAKE_IO => kill_fasync how SIGIO band q
                 | SOCK_WAKE_URG => kill_fasync how SIGURG band q
                 end)
  end.

(** Files ask for notification, senders note that they lack space, readers that they wait for
    data, the network wakes. *)
Inductive astep : wq -> wq -> Prop :=
| a_fasync b fd filp on q r q' : sock_fasync b fd filp on q = (r, q') -> astep q q'
| a_nospace q : astep q (WQ (fasync_list q) (SOCK_FASYNC q) (waitdata q) true (signals q) (noted q + 1))
| a_waitdata b q : astep q (WQ (fasync_list q) (SOCK_FASYNC q) b (nospace q) (signals q) (noted q))
| a_wake how band q r q' : sock_wake_async (Some q) how band = (r, Some q') -> astep q q'.

Definition idle : wq := WQ [] false false false [] 0.
(** The signals sent because of space. *)
Definition for_space (l : list (wake * Z * Z)) : Z := Z.of_nat (length (filter (fun s => s.1.1 = SOCK_WAKE_SPACE) l)).
Definition ainv (q : wq) : Prop :=
  (SOCK_FASYNC q = true <-> fasync_list q <> []) /\ for_space (signals q) + (if nospace q then 1 else 0) <= noted q /\
  Forall (fun s => s.1.2 = (if decide (s.1.1 = SOCK_WAKE_URG) then SIGURG else SIGIO)) (signals q).

Lemma for_space_app l how sig band : for_space (l ++ [(how, sig, band)]) = for_space l + (if decide (how = SOCK_WAKE_SPACE) then 1 else 0).
Proof.
  unfold for_space. rewrite filter_app, length_app. destruct (decide (how = SOCK_WAKE_SPACE)).
  - rewrite filter_cons_True by done. simpl. lia.
  - rewrite filter_cons_False by done. simpl. lia.
Qed.
Lemma ainv_kill how band q : how <> SOCK_WAKE_SPACE -> ainv q ->
  ainv (kill_fasync how (if decide (how = SOCK_WAKE_URG) then SIGURG else SIGIO) band q).
Proof.
  intros Hh (A1 & A2 & A3). split; [done|]. split; cbn [signals nospace noted kill_fasync].
  - rewrite for_space_app, decide_False by done. lia.
  - apply Forall_app. split; [done|]. by constructor.
Qed.
Lemma ainv_step q q' : astep q q' -> ainv q -> ainv q'.
Proof.
  intros Hst I. destruct Hst as [b fd filp on q r q' E|q|b q|how band q r q' E].
  - unfold sock_fasync in E. destruct b; cbn [negb] in E; injection E as <- <-; [|done]. destruct I as (A1 & A2 & A3).
    split; [|done]. cbn [SOCK_FASYNC fasync_list]. by case_bool_decide.
  - destruct I as (A1 & A2 & A3). split; [done|]. split; [|done]. cbn [signals nospace noted]. destruct (nospace q); lia.
  - by destruct I as (A1 & A2 & A3).
  - unfold sock_wake_async in E. case_bool_decide; [by injection E as _ <-|]. injection E as _ <-. destruct how.
    + destruct (waitdata q); [done|]. by apply (ainv_kill SOCK_WAKE_WAITD).
    + destruct (nospace q) eqn:En; cbn [negb]; [|done]. destruct I as (A1 & A2 & A3). rewrite En in A2. cbn iota in A2. split; [done|].
      split; cbn [signals nospace noted kill_fasync clear_nospace]; [rewrite for_space_app, decide_True by done; lia|].
      apply Forall_app. split; [done|]. by constructor.
    + by apply (ainv_kill SOCK_WAKE_IO).
    + by apply (ainv_kill SOCK_WAKE_URG).
Qed.
End Async.

(** Asynchronous notification: the flag of the sock says at any time whether a file asked
    for notification; a wake-up without one sends nothing and says so; urgent data is signalled
    as such and everything else as SIGIO; a sender that noted that it lacks space is signalled
    at most once for it, and never when it did not. *)
Theorem async_notified helper q : rtc (astep helper) idle q ->
  (SOCK_FASYNC q = true <-> fasync_list q <> []) /\ for_space (signals q) <= noted q /\
  Forall (fun s => s.1.2 = (if decide (s.1.1 = SOCK_WAKE_URG) then SIGURG else SIGIO)) (signals q) /\
  forall how band r q', sock_wake_async (Some q) how band = (r, Some q') ->
    (r = -1 <-> fasync_list q = []) /\ (r = -1 -> q' = q) /\
    (how = SOCK_WAKE_SPACE -> nospace q = false -> signals q' = signals q) /\
    (how = SOCK_WAKE_SPACE -> r = 0 -> nospace q' = false).
Proof.
  intros Hr. assert (ainv q) as (A1 & A2 & A3).
  { revert q Hr. apply (rtc_ind_r ainv); [|intros q1 q2 _; apply ainv_step]. split; [by split|]. split; [by vm_compute|constructor]. }
  split; [done|]. split; [destruct (nospace q); lia|]. split; [done|]. intros how band r q' E. unfold sock_wake_async in E.
  case_bool_decide as Hf; injection E as <- <-; [done|]. split; [split; [done|congruence]|]. split; [done|].
  split; intros ->; [by intros ->|]. intros _. by destruct (nospace q) eqn:En; [|cbn [negb]; rewrite ?En].
Qed.
Lemma async_notified_witness : exists q, rtc (astep (fun fd f (on : bool) l => if on then (f, fd) :: l else [])) idle q /\
  signals q = [(SOCK_WAKE_SPACE, SIGIO, 2)] /\ for_space (signals q) <= noted q.
Proof.
  assert (exists q, rtc (astep (fun fd f (on : bool) l => if on then (f, fd) :: l else [])) idle q /\
    signals q = [(SOCK_WAKE_SPACE, SIGIO, 2)]) as (q & Hq & Hs).
  { eexists. split.
    - eapply rtc_l; [eapply (a_fasync _ true 3 7 true); reflexivity|].
      eapply rtc_l; [apply a_nospace|].
      eapply rtc_l; [eapply (a_wake _ SOCK_WAKE_SPACE 2); vm_compute; reflexivity|].
      eapply rtc_l; [eapply (a_wake _ SOCK_WAKE_SPACE 2); vm_compute; reflexivity|]. apply rtc_refl.
    - vm_compute. reflexivity. }
  exists q. split; [done|]. split; [done|].
  exact (proj1 (proj2 (async_notified (fun fd f (on : bool) l => if on then (f, fd) :: l else []) q Hq))).
Defined.
End Async.

Module FileOps.

Definition SOCK_SEQPACKET : Z := 5.
Definition MSG_EOR : Z := 0x80.
Definition IOCB_NOWAIT : Z := 0x80000.
Definition POLL_BUSY_LOOP : Z := 0x8000.
Definition ATTR_UID : Z := 2.
(** XATTR_NAME_SOCKPROTONAME. *)
Definition protoname_attr : list Z := bytes_of_string "system.sockprotoname".

(** A file with its position in the request, the flags of both, and the bytes to move. *)
Record iocb := Iocb { f_flags : Z; ki_flags : Z; ki_pos : Z; iov_count : Z }.
Definition dontwait (i : iocb) : Z := if flag (f_flags i) O_NONBLOCK || flag (ki_flags i) IOCB_NOWAIT then MSG_DONTWAIT else 0.

Section FileOps.
(** sock_recvmsg and __sock_sendmsg with the flags of the message. *)
Context (sock_recvmsg __sock_sendmsg : Z -> Z).

(** The result, and the flags the protocol was called with if it was. *)
Definition sock_read_iter (i : iocb) : Z * option Z :=
  let fl := dontwait i in
  if negb (ki_pos i =? 0) then (- ESPIPE, None)
  else if iov_count i =? 0 then (0, None)
  else (sock_recvmsg fl, Some fl).
Definition sock_write_iter (type : Z) (i : iocb) : Z * option Z :=
  if negb (ki_pos i =? 0) then (- ESPIPE, None)
  else
    let fl := dontwait i in
    let fl := if type =? SOCK_SEQPACKET then Z.lor fl MSG_EOR else fl in
    (__sock_sendmsg fl, Some fl).
Definition sock_sendpage (kernel_sendpage : Z -> Z) (fflags more : Z) : Z :=
  kernel_sendpage (Z.lor (if flag fflags O_NONBLOCK then MSG_DONTWAIT else 0) more).
Definition sock_splice_read (ops_splice : option Z) (generic : Z) : Z := default generic ops_splice.
(** The events, and whether the socket was busy polled first. *)
Definition sock_poll (ops_poll : option Z) (can_busy_loop : bool) (events : Z) : Z * bool :=
  match ops_poll with
  | None => (0, false)
  | Some ev => if can_busy_loop then (Z.lor ev POLL_BUSY_LOOP, flag events POLL_BUSY_LOOP) else (ev, false)
  end.

(** The attributes of the inode; a buffer is the caller's bytes, [size] of them, or none. *)
Definition sockfs_xattr_get (name : list Z) (value : option (list Z)) (size : Z) : Z * option (list Z) :=
  let n := Z.of_nat (length name) + 1 in
  match value with
  | Some v => if size <? n then (- ERANGE, Some v) else (n, Some (Ioctl.set_at 0 (name ++ [0]) v))
  | None => (n, None)
  end.
(** security_inode_listsecurity: a length or an error, and the buffer after it. *)
Context (listsecurity : option (list Z) -> Z -> Z * option (list Z)).
Definition sockfs_listxattr (buffer : option (list Z)) (size : Z) : Z * option (list Z) :=
  let '(len, buffer) := listsecurity buffer size in
  if len <? 0 then (len, buffer)
  else
    let used := len in
    match buffer with
    | Some b =>
        if size <? used then (- ERANGE, Some b)
        else
          let used' := used + (Z.of_nat (length protoname_attr) + 1) in
          if size <? used' then (- ERANGE, Some b)
          else (used', Some (Ioctl.set_at (Z.to_nat used) (protoname_attr ++ [0]) b))
    | None => (used + (Z.of_nat (length protoname_attr) + 1), None)
    end.
(** sockfs_setattr: the owner of the sock, none without one. *)
Definition sockfs_setattr (simple_err ia_valid ia_uid : Z) (sk_uid : option Z) : Z * option Z :=
  if (simple_err =? 0) && flag ia_valid ATTR_UID then
    match sk_uid with Some _ => (0, Some ia_uid) | None => (- ENOENT, None) end
  else (simple_err, sk_uid).
End FileOps.

(** Reading and writing a socket as a file: no positions; the protocol is told not to wait
    exactly when the file or the request says so, and ends a record with every write exactly on
    a socket of records; an empty read does not reach it. *)
Theorem file_io_flags recv send type i :
  (ki_pos i <> 0 -> sock_read_iter recv i = (- ESPIPE, None) /\ sock_write_iter send type i = (- ESPIPE, None)) /\
  (ki_pos i = 0 -> exists fl, sock_write_iter send type i = (send fl, Some fl) /\
     (flag fl MSG_DONTWAIT = true <-> flag (f_flags i) O_NONBLOCK = true \/ flag (ki_flags i) IOCB_NOWAIT = true) /\
     (flag fl MSG_EOR = true <-> type = SOCK_SEQPACKET)) /\
  (ki_pos i = 0 -> iov_count i = 0 -> sock_read_iter recv i = (0, None)) /\
  (ki_pos i = 0 -> iov_count i <> 0 -> exists fl, sock_read_iter recv i = (recv fl, Some fl) /\
     (flag fl MSG_DONTWAIT = true <-> flag (f_flags i) O_NONBLOCK = true \/ flag (ki_flags i) IOCB_NOWAIT = true)).
Proof.
  unfold sock_read_iter, sock_write_iter, dontwait. split; [|split; [|split]].
  - intros H. destruct (Z.eqb_spec (ki_pos i) 0); [done|]. done.
  - intros ->. cbn [Z.eqb negb]. eexists. split; [done|].
    destruct (flag (f_flags i) O_NONBLOCK), (flag (ki_flags i) IOCB_NOWAIT), (Z.eqb_spec type SOCK_SEQPACKET); cbn [orb]; vm_compute; naive_solver.
  - intros -> ->. done.
  - intros -> H. cbn [Z.eqb negb]. destruct (Z.eqb_spec (iov_count i) 0); [done|]. eexists. split; [done|].
    destruct (flag (f_flags i) O_NONBLOCK), (flag (ki_flags i) IOCB_NOWAIT); cbn [orb]; vm_compute; naive_solver.
Qed.

Lemma set_at_spec n v l : (n + length v <= length l)%nat ->
  take n (Ioctl.set_at n v l) = take n l /\ take (length v) (drop n (Ioctl.set_at n v l)) = v /\
  drop (n + length v) (Ioctl.set_at n v l) = drop (n + length v) l /\ length (Ioctl.set_at n v l) = length l.
Proof.
  intros H. unfold Ioctl.set_at. assert (length (take n l) = n) as Hn by (rewrite length_take; lia).
  split; [rewrite take_app_le, take_ge by lia; done|]. split; [|split].
  - rewrite drop_app_ge, Hn, Nat.sub_diag, drop_0 by lia. apply take_app_length.
  - rewrite drop_app_ge, Hn by lia. replace (n + length v - n)%nat with (length v) by lia. by rewrite drop_app_length.
  - rewrite !length_app, length_drop, Hn. lia.
Qed.

(** Extended attributes of a socket: the size that a query without a buffer announces is
    enough for the call with one, which then fills in exactly the terminated name after what the
    security module wrote; a smaller buffer is refused; nothing is written past its end. *)
Theorem xattr_sizes name lsm v size :
  (forall b, lsm (Some b) size = (fst (lsm None 0), Some b) \/ fst (lsm (Some b) size) < 0 /\ exists b', snd (lsm (Some b) size) = Some b' /\ length b' = length b) ->
  size = Z.of_nat (length v) -> 0 <= fst (lsm None 0) -> snd (lsm None 0) = None ->
  let need := fst (sockfs_xattr_get name None 0) in
  let lneed := fst (sockfs_listxattr lsm None 0) in
  (let '(r, o) := sockfs_xattr_get name (Some v) size in
   (size < need -> r = - ERANGE /\ o = Some v) /\
   (need <= size -> r = need /\ exists v', o = Some v' /\ length v' = length v /\ take (Z.to_nat need) v' = name ++ [0] /\
      drop (Z.to_nat need) v' = drop (Z.to_nat need) v)) /\
  (let '(r, o) := sockfs_listxattr lsm (Some v) size in
   (exists v', o = Some v' /\ length v' = length v) /\ (0 <= r -> r = lneed /\ lneed <= size) /\
   (lsm (Some v) size = (fst (lsm None 0), Some v) -> lneed <= size -> r = lneed /\
      exists v', o = Some v' /\ take (length protoname_attr + 1) (drop (Z.to_nat (fst (lsm None 0))) v') = protoname_attr ++ [0])).
Proof.
  intros Hlsm Hsz Hlen Hnone need lneed.
  assert (need = Z.of_nat (length (name ++ [0]))) as En by (unfold need; simpl; rewrite length_app; simpl; lia).
  assert (lneed = fst (lsm None 0) + Z.of_nat (length (protoname_attr ++ [0]))) as El.
  { unfold lneed, sockfs_listxattr. destruct (lsm None 0) as [len o]. cbn [fst snd] in *. subst o. destruct (Z.ltb_spec len 0); [lia|].
    rewrite length_app. cbn [fst length]. lia. }
  split.
  - unfold sockfs_xattr_get. fold need. change (Z.of_nat (length name) + 1) with need.
    destruct (Z.ltb_spec size need); (split; [intros; try lia; done|]); [lia|]. intros _. split; [done|]. eexists. split; [done|].
    destruct (set_at_spec 0 (name ++ [0]) v) as (_ & H1 & H2 & H3); [lia|]. rewrite En, Nat2Z.id. simpl in *. done.
  - unfold sockfs_listxattr. destruct (Hlsm v) as [E|[Hneg (b' & Hb & Hbl)]]; cycle 1.
    { destruct (lsm (Some v) size) as [len o]. simpl in *. destruct (Z.ltb_spec len 0); [|lia].
      split; [eauto|]. split; [lia|]. intros [= -> _]. lia. }
    rewrite E. destruct (Z.ltb_spec (lsm None 0).1 0); [lia|].
    assert (Z.of_nat (length protoname_attr) + 1 = Z.of_nat (length (protoname_attr ++ [0]))) as Ea by (rewrite length_app; simpl; lia).
    rewrite Ea, <- El. destruct (Z.ltb_spec size (lsm None 0).1) as [Hs|Hs].
    { split; [eauto|]. split; [unfold ERANGE; lia|]. lia. }
    destruct (Z.ltb_spec size lneed) as [Hs2|Hs2]; [split; [eauto|]; split; [unfold ERANGE; lia|lia]|].
    destruct (set_at_spec (Z.to_nat (lsm None 0).1) (protoname_attr ++ [0]) v) as (_ & H1 & _ & H3); [lia|].
    split; [eauto|]. split; [done|]. intros _ _. split; [done|]. eexists. split; [done|].
    replace (length protoname_attr + 1)%nat with (length (protoname_attr ++ [0])) by (rewrite length_app; simpl; lia). exact H1.
Qed.
Lemma xattr_sizes_witness : fst (sockfs_xattr_get [84; 67; 80] (Some [1; 1; 1; 1; 9]) 5) = 4.
Proof.
  destruct (xattr_sizes [84; 67; 80] (fun b _ => (0, b)) [1; 1; 1; 1; 9] 5) as [H _]; [by left|done|done|done|].
  simpl in H. destruct H as [_ H]. destruct (H ltac:(lia)) as [_ _]. reflexivity.
Defined.
End FileOps.
