(* ===== verification/SocketMsg.v ===== *)
(** * The socket layer: messages (src/kvm/linux-5.15.178/net/socket.c)

    sendmsg, recvmsg, sendmmsg, recvmmsg and socketcall.  The state is the user memory, the
    pending error of the socket and the trace of the call; the calls of SocketCalls.v are
    lifted into it.  A protocol's answers, security hooks, allocations, the import of the
    iovec, the compatibility code of net/compat.c and the clock are parameters; answers are
    numbered, so that every question may have another one.  Message data are not modelled. *)

From S2P Require Import Prelude SocketCalls.

Definition MSG_OOB : Z := 1.
Definition MSG_EOR : Z := 0x80.
Definition MSG_ERRQUEUE : Z := 0x2000.
Definition MSG_WAITFORONE : Z := 0x10000.
Definition MSG_BATCH : Z := 0x40000.
Definition MSG_CMSG_CLOEXEC : Z := 0x40000000.
Definition MSG_CMSG_COMPAT : Z := 0x80000000.
Definition UIO_MAXIOV : Z := 1024.
Definition UINT_MAX : Z := 2 ^ 32 - 1.
Definition EMSGSIZE : Z := 90.
Definition CTL_SIZE : Z := 36.  (* sizeof(struct cmsghdr) + 20 *)

(** struct msghdr: the name (or NULL) and its length, the control pointer and length, the
    flags, and the bytes of data not yet taken. *)
Record kmsg := KMsg {
  k_name : option (list Z); k_namelen : Z; k_control : Z; k_controllen : Z; k_flags : Z; k_left : Z
}.

(** Where a message goes: the bytes of its name, or nowhere in particular. *)
Definition dest (msg : kmsg) : option (list Z) := take (Z.to_nat (k_namelen msg)) <$> k_name msg.

(** What a protocol's recvmsg answers. *)
Record rans := RAns { r_ret : Z; r_namelen : Z; r_addr : list Z; r_flags : Z; r_control : Z }.

(** [imports]: an error, or whether the iovec had to be allocated and how much data it has;
    [compat_hdr] is get_compat_msghdr, with the name pointer and the allocation;
    [compat_cmsg] cmsghdr_from_user_compat_to_kern; [deadline] poll_select_set_timeout. *)
Record menv := MEnv {
  base : env;
  imports : nat -> Z -> Z -> Z + bool * Z;
  compat_hdr : nat -> bool -> Z -> Z + kmsg * Z * bool;
  compat_cmsg : nat -> Z + bool * Z;
  kmalloc_ok : nat -> bool;
  hook_send : nat -> Z; hook_recv : nat -> Z;
  send : nat -> Z * Z;
  recv_ans : nat -> rans;
  deadline : Z -> Z -> option Z;
  clock : nat -> Z;
  get_timespec : bool -> gmap Z Z -> Z -> option (Z * Z);
  put_timespec : bool -> gmap Z Z -> Z -> Z -> option (gmap Z Z)
}.

Inductive mev :=
| MBase (e : ev)
| MHookSend (to : option (list Z)) (ret : Z) | MSend (to : option (list Z)) (flags ret : Z)
| MHookRecv (ret : Z) | MRecv (flags ret : Z)
| MAlloc (size : Z) | MFree (size : Z) | MIov | MIovFree.

Module Msg.

(** [asked] counts the questions; [None]: BUG. *)
Record st := St { mem : gmap Z Z; sk_error : Z; asked : nat; events : list mev }.
Definition K (A : Type) := st -> option (A * st).
#[export] Instance K_ret : MRet K := fun A a s => Some (a, s).
#[export] Instance K_bind : MBind K :=
  fun A B f m s => match m s with Some (a, s') => f a s' | None => None end.
Definition emit (e : mev) : K unit := fun s => Some (tt, St (mem s) (sk_error s) (asked s) (events s ++ [e])).
Definition emit_if (b : bool) (e : mev) : K unit := if b then emit e else mret tt.
Definition ask : K nat := fun s => Some (asked s, St (mem s) (sk_error s) (S (asked s)) (events s)).
Definition set_error (v : Z) : K unit := fun s => Some (tt, St (mem s) v (asked s) (events s)).
(** A step of SocketCalls.v. *)
Definition lift {A} (k : Calls.K A) : K A := fun s =>
  match k (Calls.St (mem s) []) with
  | Some (a, s') => Some (a, St (Calls.umem s') (sk_error s) (asked s) (events s ++ map MBase (Calls.trace s')))
  | None => None
  end.

(** __put_user of [n] bytes. *)
Definition put_n (n : nat) (p v : Z) : K Z := fun s =>
  match copy_from_user (mem s) p n with
  | (_, O) => Some (0, St (fst (copy_to_user (mem s) p (le_bytes n v))) (sk_error s) (asked s) (events s))
  | _ => Some (- EFAULT, s)
  end.

(** sock_error: the pending error, taken. *)
Definition take_sock_error : K Z := fun s =>
  Some (- sk_error s, St (mem s) 0 (asked s) (events s)).

Definition u64_at (l : list Z) (off : nat) : Z := le_value (take 8 (drop off l)).
Definition u32_at (l : list Z) (off : nat) : Z := le_value (take 4 (drop off l)).

(** Offsets in the two layouts: struct user_msghdr and compat_msghdr. *)
Definition off_namelen (flags : Z) : Z := if flag flags MSG_CMSG_COMPAT then 4 else 8.
Definition off_controllen (flags : Z) : Z := if flag flags MSG_CMSG_COMPAT then 20 else 40.
Definition off_flags (flags : Z) : Z := if flag flags MSG_CMSG_COMPAT then 24 else 48.
Definition off_len (flags : Z) : Z := if flag flags MSG_CMSG_COMPAT then 28 else 56.
Definition entry_size (flags : Z) : Z := if flag flags MSG_CMSG_COMPAT then 32 else 64.

Section Syscalls.
Context (e : menv).

(** *** The header *)

(** The message, the user's name pointer, and the iovec; [save_addr]: the name is an output. *)
Definition __copy_msghdr_from_user (umsg : Z) (save_addr : bool) : K (Z + kmsg * Z * Z * Z) := fun s =>
  match copy_from_user (mem s) umsg 56 with
  | (l, O) =>
      let msg_name := u64_at l 0 in
      let namelen := if msg_name =? 0 then 0 else wraps 32 (u32_at l 8) in
      if namelen <? 0 then Some (inl (- EINVAL), s)
      else
        let namelen := if SS_SIZE <? namelen then SS_SIZE else namelen in
        let named := negb (msg_name =? 0) && negb (namelen =? 0) in
        let finish (name : option (list Z)) :=
          if UIO_MAXIOV <? u64_at l 24 then inl (- EMSGSIZE)
          else inr (KMsg name (if named then namelen else 0) (u64_at l 32) (u64_at l 40) (u32_at l 48) 0,
                    msg_name, u64_at l 16, u64_at l 24) in
        if named && negb save_addr then
          match lift (Calls.move_addr_to_kernel (base e) msg_name namelen (garbage (base e))) s with
          | Some ((err, address), s') => Some (if err <? 0 then inl err else finish (Some address), s')
          | None => None
          end
        else Some (finish (if named then Some (garbage (base e)) else None), s)
  | _ => Some (inl (- EFAULT), s)
  end.

(** With the iovec: the message, the name pointer, whether the iovec was allocated. *)
Definition with_left (msg : kmsg) (left_ : Z) : kmsg :=
  KMsg (k_name msg) (k_namelen msg) (k_control msg) (k_controllen msg) (k_flags msg) left_.
Definition copy_msghdr_from_user (umsg : Z) (save_addr : bool) : K (Z + kmsg * Z * bool) :=
  r ← __copy_msghdr_from_user umsg save_addr;
  match r with
  | inl err => mret (inl err)
  | inr (msg, uaddr, iov, iovlen) =>
      n ← ask;
      match imports e n iov iovlen with
      | inl err => mret (inl err)
      | inr (allocated, len) => emit_if allocated MIov;; mret (inr (with_left msg len, uaddr, allocated))
      end
  end.
(** The header in either layout. *)
Definition copy_msghdr (umsg flags : Z) (save_addr : bool) : K (Z + kmsg * Z * bool) :=
  if flag flags MSG_CMSG_COMPAT then
    n ← ask;
    match compat_hdr e n save_addr umsg with
    | inl err => mret (inl err)
    | inr (msg, uaddr, allocated) => emit_if allocated MIov;; mret (inr (msg, uaddr, allocated))
    end
  else copy_msghdr_from_user umsg save_addr.

Definition sendmsg_copy_msghdr (umsg flags : Z) : K (Z + kmsg * Z * bool) := copy_msghdr umsg flags false.
Definition recvmsg_copy_msghdr (umsg flags : Z) : K (Z + kmsg * Z * bool) := copy_msghdr umsg flags true.

(** *** Sending *)

(** sock_sendmsg_nosec: the result and the data left. *)
Definition do_send (msg : kmsg) (flags : Z) : K (Z * Z) := fun s =>
  let '(ret, left_) := send e (asked s) in
  if ret =? - EIOCBQUEUED then None
  else Some ((ret, left_), St (mem s) (sk_error s) (S (asked s)) (events s ++ [MSend (dest msg) flags ret])).
Definition ask_send (msg : kmsg) : K Z :=
  n ← ask;
  emit (MHookSend (dest msg) (hook_send e n));; mret (hook_send e n).

(** The destination last sent to, for sendmmsg: the length and the storage. *)
Definition used_address := option (Z * list Z).
Definition same_address (used : used_address) (msg : kmsg) : bool :=
  match used, k_name msg with
  | Some (name_len, name), Some msg_name =>
      if name_len =? k_namelen msg
      then bool_decide (take (Z.to_nat name_len) name = take (Z.to_nat name_len) msg_name) else false
  | _, _ => false
  end.
Definition remember (used : used_address) (msg : kmsg) (err : Z) : used_address :=
  match used with
  | Some (name_len, name) =>
      if 0 <=? err
      then Some (k_namelen msg,
                 match k_name msg with
                 | Some msg_name => take (Z.to_nat (k_namelen msg)) msg_name ++ drop (Z.to_nat (k_namelen msg)) name
                 | None => name
                 end)
      else used
  | None => None
  end.

Definition copy_control_data (msg : kmsg) (big : bool) : K (Z + bool * Z) := fun s =>
  match snd (copy_from_user (mem s) (k_control msg) (Z.to_nat (k_controllen msg))) with
  | O => Some (inr (big, k_controllen msg), s)
  | _ => (emit_if big (MFree (k_controllen msg));; mret (inl (- EFAULT))) s
  end.
(** The control data: an error, or whether a buffer was allocated and its size. *)
Definition copy_control (msg : kmsg) (flags : Z) : K (Z + bool * Z) :=
  let ctl_len := k_controllen msg in
  if flag flags MSG_CMSG_COMPAT && ztrue ctl_len then
    n ← ask;
    match compat_cmsg e n with
    | inl err => mret (inl err)
    | inr (allocated, len) => emit_if allocated (MAlloc len);; mret (inr (allocated, len))
    end
  else if ztrue ctl_len then
    n ← ask;
    let big := CTL_SIZE <? ctl_len in
    if big && negb (kmalloc_ok e n) then mret (inl (- ENOBUFS))
    else
      emit_if big (MAlloc ctl_len);; copy_control_data msg big
  else mret (inr (false, 0)).

(** The result, the address to remember and the data left. *)
Definition ____sys_sendmsg (f_flags : Z) (msg : kmsg) (flags : Z) (used : used_address) (allowed : Z)
    : K (Z * used_address * Z) :=
  if 2 ^ 31 - 1 <? k_controllen msg then mret (- ENOBUFS, used, k_left msg)
  else
    let flags := Z.lor flags (Z.land (k_flags msg) allowed) in
    r ← copy_control msg flags;
    match r with
    | inl err => mret (err, used, k_left msg)
    | inr (allocated, ctl_len) =>
        let flags := if flag f_flags O_NONBLOCK then Z.lor flags MSG_DONTWAIT else flags in
        r ← (if same_address used msg then
               r ← do_send msg flags; mret (r.1, used, r.2)
             else
               err ← ask_send msg;
               r ← (if ztrue err then mret (err, k_left msg) else do_send msg flags);
               mret (r.1, remember used msg r.1, r.2));
        emit_if allocated (MFree ctl_len);; mret r
    end.

Definition ___sys_sendmsg (f_flags umsg flags : Z) (used : used_address) (allowed : Z)
    : K (Z * used_address * Z) :=
  r ← sendmsg_copy_msghdr umsg flags;
  match r with
  | inl err => mret (err, used, 0)
  | inr (msg, _, allocated) =>
      r ← ____sys_sendmsg f_flags msg flags used allowed;
      emit_if allocated MIovFree;; mret r
  end.

Definition with_fd {A} (fd : Z) (fail : Z -> A) (body : Z -> K A) : K A :=
  r ← lift (Calls.sockfd_lookup_light (base e) fd);
  match r with
  | inl err => mret (fail err)
  | inr (fput_needed, f_flags) => a ← body f_flags; lift (Calls.fput_light fput_needed);; mret a
  end.

Definition __sys_sendmsg (fd umsg flags : Z) (forbid_cmsg_compat : bool) : K Z :=
  if forbid_cmsg_compat && flag flags MSG_CMSG_COMPAT then mret (- EINVAL)
  else with_fd fd id (fun f_flags => r ← ___sys_sendmsg f_flags umsg flags None 0; mret r.1.1).

(** The loop of sendmmsg with [n] messages to go: the last error and the count. *)
Fixpoint send_loop (f_flags oflags : Z) (n : nat) (entry : Z) (used : used_address) (datagrams : Z) : K (Z * Z) :=
  match n with
  | O => mret (0, datagrams)
  | S n' =>
      let flags := match n' with O => oflags | _ => Z.lor oflags MSG_BATCH end in
      r ← ___sys_sendmsg f_flags entry flags used MSG_EOR;
      let '(err, used, left_) := r in
      if err <? 0 then mret (err, datagrams)
      else
        perr ← put_n 4 (entry + off_len flags) err;
        if ztrue perr then mret (perr, datagrams)
        else if ztrue left_ then mret (0, datagrams + 1)
        else send_loop f_flags oflags n' (entry + entry_size flags) used (datagrams + 1)
  end.
Definition __sys_sendmmsg (fd mmsg vlen flags : Z) (forbid_cmsg_compat : bool) : K Z :=
  if forbid_cmsg_compat && flag flags MSG_CMSG_COMPAT then mret (- EINVAL)
  else
    let vlen := if UIO_MAXIOV <? vlen then UIO_MAXIOV else vlen in
    with_fd fd id (fun f_flags =>
      r ← send_loop f_flags flags (Z.to_nat vlen) mmsg (Some (UINT_MAX, garbage (base e))) 0;
      mret (if negb (r.2 =? 0) then r.2 else r.1)).

(** *** Receiving *)

Definition do_recv (flags : Z) : K rans :=
  n ← ask;
  emit (MRecv flags (r_ret (recv_ans e n)));; mret (recv_ans e n).
Definition sock_recv (nosec : bool) (flags : Z) : K rans :=
  if nosec then do_recv flags
  else
    n ← ask;
    emit (MHookRecv (hook_recv e n));;
    if ztrue (hook_recv e n) then mret (RAns (hook_recv e n) 0 [] 0 0) else do_recv flags.

(** The result and the flags of the message received. *)
Definition ____sys_recvmsg (f_flags umsg uaddr flags : Z) (nosec : bool) : K (Z * Z) :=
  let rflags := if flag f_flags O_NONBLOCK then Z.lor flags MSG_DONTWAIT else flags in
  r ← sock_recv nosec rflags;
  if r_ret r <? 0 then mret (r_ret r, r_flags r)
  else
    err ← (if uaddr =? 0 then mret 0
           else lift (Calls.move_addr_to_user (base e) (r_addr r) (r_namelen r) uaddr (umsg + off_namelen flags)));
    if err <? 0 then mret (err, r_flags r)
    else
      err ← put_n 4 (umsg + off_flags flags) (Z.land (r_flags r) (Z.lnot MSG_CMSG_COMPAT));
      if ztrue err then mret (err, r_flags r)
      else
        err ← put_n (if flag flags MSG_CMSG_COMPAT then 4 else 8) (umsg + off_controllen flags) (r_control r);
        mret (if ztrue err then err else r_ret r, r_flags r).

Definition ___sys_recvmsg (f_flags umsg flags : Z) (nosec : bool) : K (Z * Z) :=
  r ← recvmsg_copy_msghdr umsg flags;
  match r with
  | inl err => mret (err, 0)
  | inr (_, uaddr, allocated) =>
      r ← ____sys_recvmsg f_flags umsg uaddr flags nosec;
      emit_if allocated MIovFree;; mret r
  end.

Definition __sys_recvmsg (fd umsg flags : Z) (forbid_cmsg_compat : bool) : K Z :=
  if forbid_cmsg_compat && flag flags MSG_CMSG_COMPAT then mret (- EINVAL)
  else with_fd fd id (fun f_flags => r ← ___sys_recvmsg f_flags umsg flags false; mret r.1).

(** The loop of recvmmsg: the last error, the count and the time left.  [err] is the value
    the variable has when the loop is entered, [end_time] the deadline. *)
Fixpoint recv_loop (f_flags : Z) (end_time : option Z) (n : nat) (entry flags err datagrams tleft : Z) : K (Z * Z * Z) :=
  match n with
  | O => mret (err, datagrams, tleft)
  | S n' =>
      r ← ___sys_recvmsg f_flags entry (Z.land flags (Z.lnot MSG_WAITFORONE)) (negb (datagrams =? 0));
      let '(err, msg_flags) := r in
      if err <? 0 then mret (err, datagrams, tleft)
      else
        err ← put_n 4 (entry + off_len flags) err;
        if ztrue err then mret (err, datagrams, tleft)
        else
          let flags' := if flag flags MSG_WAITFORONE then Z.lor flags MSG_DONTWAIT else flags in
          tleft ← match end_time with
                  | Some t => n ← ask; mret (t - clock e n)
                  | None => mret 1
                  end;
          if tleft <=? 0 then mret (0, datagrams + 1, 0)
          else if flag msg_flags MSG_OOB then mret (0, datagrams + 1, tleft)
          else recv_loop f_flags end_time n' (entry + entry_size flags) flags' 0 (datagrams + 1) tleft
  end.

(** What is returned, and the error kept for later. *)
Definition recv_result (err datagrams : Z) : K Z :=
  if err =? 0 then mret datagrams
  else if datagrams =? 0 then mret err
  else if negb (err =? - EAGAIN) then set_error (- err);; mret datagrams
  else mret datagrams.

(** The body of do_recvmmsg on an open socket: the result and the time left.
    sockfd_lookup_light leaves EBADF in [err]. *)
Definition recv_body (mmsg vlen flags : Z) (end_time : option Z) (f_flags : Z) : K (Z * Z) :=
  err ← (if negb (flag flags MSG_ERRQUEUE) then take_sock_error else mret (- EBADF));
  if negb (flag flags MSG_ERRQUEUE) && ztrue err then mret (err, 0)
  else
    r ← recv_loop f_flags end_time (Z.to_nat vlen) mmsg flags err 0 0;
    let '(err, datagrams, tleft) := r in
    ret ← recv_result err datagrams; mret (ret, tleft).
Definition do_recvmmsg (fd mmsg vlen flags : Z) (timeout : option (Z * Z)) : K (Z * Z) :=
  match timeout with
  | None => with_fd fd (fun err => (err, 0)) (recv_body mmsg vlen flags None)
  | Some (sec, nsec) =>
      match deadline e sec nsec with
      | None => mret (- EINVAL, 0)
      | Some t => with_fd fd (fun err => (err, 0)) (recv_body mmsg vlen flags (Some t))
      end
  end.

(** put_timespec64 or put_old_timespec32, when the pointer is given. *)
Definition put_ts (old32 : bool) (p t datagrams : Z) : K Z := fun s =>
  if p =? 0 then Some (datagrams, s)
  else match put_timespec e old32 (mem s) p t with
       | Some m => Some (datagrams, St m (sk_error s) (asked s) (events s))
       | None => Some (- EFAULT, s)
       end.
Definition __sys_recvmmsg (fd mmsg vlen flags timeout timeout32 : Z) : K Z := fun s =>
  let ts1 := if timeout =? 0 then Some None else Some <$> get_timespec e false (mem s) timeout in
  let ts2 := if timeout32 =? 0 then Some None else Some <$> get_timespec e true (mem s) timeout32 in
  match ts1, ts2 with
  | None, _ | _, None => Some (- EFAULT, s)
  | Some None, Some None => (r ← do_recvmmsg fd mmsg vlen flags None; mret r.1) s
  | Some t1, Some t2 =>
      (r ← do_recvmmsg fd mmsg vlen flags (match t2 with Some t => Some t | None => t1 end);
       let '(datagrams, tleft) := r in
       if datagrams <=? 0 then mret datagrams
       else
         datagrams ← put_ts false timeout tleft datagrams;
         put_ts true timeout32 tleft datagrams) s
  end.
Definition sys_recvmmsg (fd mmsg vlen flags timeout : Z) : K Z :=
  if flag flags MSG_CMSG_COMPAT then mret (- EINVAL) else __sys_recvmmsg fd mmsg vlen flags timeout 0.
Definition sys_recvmmsg_time32 (fd mmsg vlen flags timeout : Z) : K Z :=
  if flag flags MSG_CMSG_COMPAT then mret (- EINVAL) else __sys_recvmmsg fd mmsg vlen flags 0 timeout.

(** The message calls. *)
Inductive mcall :=
| CSendmsg (fd umsg flags : Z) (forbid : bool) | CRecvmsg (fd umsg flags : Z) (forbid : bool)
| CSendmmsg (fd mmsg vlen flags : Z) (forbid : bool) | CRecvmmsg (fd mmsg vlen flags timeout timeout32 : Z).
Definition mrun (c : mcall) : K Z :=
  match c with
  | CSendmsg fd m fl b => __sys_sendmsg fd m fl b
  | CRecvmsg fd m fl b => __sys_recvmsg fd m fl b
  | CSendmmsg fd m n fl b => __sys_sendmmsg fd m n fl b
  | CRecvmmsg fd m n fl t t32 => __sys_recvmmsg fd m n fl t t32
  end.

(** *** socketcall *)

(** The bytes of arguments of each call, and the calls by number. *)
Definition nargs : list Z :=
  map (Z.mul 8) [0; 3; 3; 3; 2; 3; 3; 3; 4; 4; 4; 6; 6; 2; 5; 5; 3; 3; 4; 5; 4].
Definition SYS_SENDMMSG : Z := 20.
Definition ARGS_SIZE : Z := 48.  (* six words, AUDITSC_ARGS *)

Inductive disp :=
| DSocket (family type protocol : Z) | DSocketpair (family type protocol usockvec : Z)
| DAccept (fd upeer_sockaddr upeer_addrlen flags : Z)
| DCall (c : Calls.scall) | DMsg (c : mcall).

Definition words (l : list Z) : list Z := map (fun i => u64_at l (8 * i)) (seq 0 (length l / 8)).
Definition int (x : Z) : Z := wraps 32 x.
Definition uint (x : Z) : Z := wrapu 32 x.

(** The switch; [None]: a word that was not copied would be read. *)
Definition dispatch (call : Z) (a : list Z) : option (Z + disp) :=
  a0 ← a !! 0%nat;
  a1 ← a !! 1%nat;
  match call with
  | 1 => a2 ← a !! 2%nat; Some (inr (DSocket (int a0) (int a1) (int a2)))
  | 2 => a2 ← a !! 2%nat; Some (inr (DCall (Calls.CBind (int a0) a1 (int a2))))
  | 3 => a2 ← a !! 2%nat; Some (inr (DCall (Calls.CConnect (int a0) a1 (int a2))))
  | 4 => Some (inr (DCall (Calls.CListen (int a0) (int a1))))
  | 5 => a2 ← a !! 2%nat; Some (inr (DAccept (int a0) a1 a2 0))
  | 6 => a2 ← a !! 2%nat; Some (inr (DCall (Calls.CGetsockname (int a0) a1 a2)))
  | 7 => a2 ← a !! 2%nat; Some (inr (DCall (Calls.CGetpeername (int a0) a1 a2)))
  | 8 => a2 ← a !! 2%nat; a3 ← a !! 3%nat; Some (inr (DSocketpair (int a0) (int a1) (int a2) a3))
  | 9 => a2 ← a !! 2%nat; a3 ← a !! 3%nat; Some (inr (DCall (Calls.CSendto (int a0) a1 a2 (uint a3) 0 0)))
  | 10 => a2 ← a !! 2%nat; a3 ← a !! 3%nat; Some (inr (DCall (Calls.CRecvfrom (int a0) a1 a2 (uint a3) 0 0)))
  | 11 => a2 ← a !! 2%nat; a3 ← a !! 3%nat; a4 ← a !! 4%nat; a5 ← a !! 5%nat;
          Some (inr (DCall (Calls.CSendto (int a0) a1 a2 (uint a3) a4 (int a5))))
  | 12 => a2 ← a !! 2%nat; a3 ← a !! 3%nat; a4 ← a !! 4%nat; a5 ← a !! 5%nat;
          Some (inr (DCall (Calls.CRecvfrom (int a0) a1 a2 (uint a3) a4 a5)))
  | 13 => Some (inr (DCall (Calls.CShutdown (int a0) (int a1))))
  | 14 => a2 ← a !! 2%nat; a3 ← a !! 3%nat; a4 ← a !! 4%nat;
          Some (inr (DCall (Calls.CSetsockopt (int a0) (int a1) (int a2) a3 (int a4))))
  | 15 => a2 ← a !! 2%nat; a3 ← a !! 3%nat; a4 ← a !! 4%nat;
          Some (inr (DCall (Calls.CGetsockopt (int a0) (int a1) (int a2) a3 a4)))
  | 16 => a2 ← a !! 2%nat; Some (inr (DMsg (CSendmsg (int a0) a1 (uint a2) true)))
  | 17 => a2 ← a !! 2%nat; Some (inr (DMsg (CRecvmsg (int a0) a1 (uint a2) true)))
  | 18 => a2 ← a !! 2%nat; a3 ← a !! 3%nat; Some (inr (DAccept (int a0) a1 a2 (int a3)))
  | 19 => a2 ← a !! 2%nat; a3 ← a !! 3%nat; a4 ← a !! 4%nat;
          Some (inr (DMsg (CRecvmmsg (int a0) a1 (uint a2) (uint a3) a4 0)))
  | 20 => a2 ← a !! 2%nat; a3 ← a !! 3%nat; Some (inr (DMsg (CSendmmsg (int a0) a1 (uint a2) (uint a3) true)))
  | _ => Some (inl (- EINVAL))
  end.

(** The error, or the call to make; [None]: undefined. *)
Definition socketcall (call args : Z) (s : st) : option (Z + disp) :=
  if (call <? 1) || (SYS_SENDMMSG <? call) then Some (inl (- EINVAL))
  else
    len ← nargs !! Z.to_nat call;
    if ARGS_SIZE <? len then Some (inl (- EINVAL))
    else match copy_from_user (mem s) args (Z.to_nat len) with
         | (l, O) => if ztrue (audit (base e)) then Some (inl (audit (base e))) else dispatch call (words l)
         | _ => Some (inl (- EFAULT))
         end.

End Syscalls.
End Msg.
