(* ===== verification/SocketMsgSpec.v ===== *)
(** * Messages: theorems

    References, buffers and iovecs are given back and no message is sent or received that
    the security hooks did not allow ([messages_vetted]); what sendmmsg reports is what was
    sent ([sendmmsg_counts]); an error after some messages is reported by the next call
    ([recvmmsg_error_kept]); socketcall reads the arguments its calls use
    ([socketcall_args]). *)

From S2P Require Import Prelude SocketCalls SocketMsg.
Import Msg.

(** ** What a trace says *)

(** [to_ok]: destinations a message was sent to; [pending]: the destination the last hook
    allowed; [recv_ok_]: a hook allowed to receive; counts of references, bytes and iovecs
    held; the lengths of the messages sent. *)
Record summary := Sum {
  valid : bool; to_ok : list (option (list Z)); pending : option (option (list Z)); recv_ok_ : bool;
  refs : Z; bytes : Z; iovs : Z; sent : list Z
}.
Definition in_list (d : option (list Z)) (l : list (option (list Z))) : bool := bool_decide (d ∈ l).

Definition step (g : summary) (x : mev) : summary :=
  match x with
  | MBase EvGet => Sum (valid g) (to_ok g) (pending g) (recv_ok_ g) (refs g + 1) (bytes g) (iovs g) (sent g)
  | MBase EvPut => Sum (valid g) (to_ok g) (pending g) (recv_ok_ g) (refs g - 1) (bytes g) (iovs g) (sent g)
  | MBase _ => g
  | MHookSend d ret =>
      Sum (valid g) (to_ok g) (if ret =? 0 then Some d else None) (recv_ok_ g) (refs g) (bytes g) (iovs g) (sent g)
  | MSend d _ ret =>
      Sum (valid g && (bool_decide (pending g = Some d) || in_list d (to_ok g)))
        (if 0 <=? ret then d :: to_ok g else to_ok g) None (recv_ok_ g) (refs g) (bytes g) (iovs g)
        (if 0 <=? ret then sent g ++ [ret] else sent g)
  | MHookRecv ret =>
      Sum (valid g) (to_ok g) (pending g) (ret =? 0) (refs g) (bytes g) (iovs g) (sent g)
  | MRecv _ _ =>
      Sum (valid g && recv_ok_ g) (to_ok g) (pending g) (recv_ok_ g) (refs g) (bytes g) (iovs g) (sent g)
  | MAlloc n => Sum (valid g) (to_ok g) (pending g) (recv_ok_ g) (refs g) (bytes g + n) (iovs g) (sent g)
  | MFree n => Sum (valid g) (to_ok g) (pending g) (recv_ok_ g) (refs g) (bytes g - n) (iovs g) (sent g)
  | MIov => Sum (valid g) (to_ok g) (pending g) (recv_ok_ g) (refs g) (bytes g) (iovs g + 1) (sent g)
  | MIovFree => Sum (valid g) (to_ok g) (pending g) (recv_ok_ g) (refs g) (bytes g) (iovs g - 1) (sent g)
  end.
Definition start : summary := Sum true [] None false 0 0 0 [].
Definition summarise (es : list mev) : summary := foldl step start es.
Definition ghost (s : st) : summary := summarise (events s).

(** What is held beside references. *)
Definition holds (g g' : summary) (d_bytes d_iovs : Z) : Prop :=
  refs g' = refs g /\ bytes g' = bytes g + d_bytes /\ iovs g' = iovs g + d_iovs.

(** ** Weakest preconditions *)

Definition wp {A} (m : K A) (Q : A -> st -> Prop) (s : st) : Prop :=
  match m s with Some (a, s') => Q a s' | None => False end.

Lemma wp_bind {A B} (m : K A) (f : A -> K B) (Q : B -> st -> Prop) s : wp m (fun a => wp (f a) Q) s -> wp (m ≫= f) Q s.
Proof. unfold wp, mbind, K_bind. by destruct (m s) as [[a s']|]. Qed.

Lemma wp_mono {A} (m : K A) (Q Q' : A -> st -> Prop) s : wp m Q s -> (forall a s', Q a s' -> Q' a s') -> wp m Q' s.
Proof. unfold wp. destruct (m s) as [[a s']|]; auto. Qed.

Lemma wp_ret {A} (a : A) (Q : A -> st -> Prop) s : Q a s -> wp (mret a) Q s.
Proof. done. Qed.

(** A state that differs in its trace only, by one event. *)
Definition after (s : st) (x : mev) : st := St (mem s) (sk_error s) (asked s) (events s ++ [x]).
Lemma ghost_after s x : ghost (after s x) = step (ghost s) x.
Proof. unfold ghost, summarise. simpl. by rewrite foldl_app. Qed.

Lemma wp_emit x (Q : unit -> st -> Prop) s : Q tt (after s x) -> wp (emit x) Q s.
Proof. done. Qed.

(** What a step keeps: the memory, the pending error; [asked] is free. *)
Definition keeps (s s' : st) : Prop := mem s' = mem s /\ sk_error s' = sk_error s.

Lemma wp_ask (Q : nat -> st -> Prop) s :
  (forall s', keeps s s' -> ghost s' = ghost s -> Q (asked s) s') -> wp ask Q s.
Proof. intros H. apply H; done. Qed.

Lemma wp_emit_if (b : bool) x (Q : unit -> st -> Prop) s :
  (forall s', keeps s s' -> ghost s' = (if b then step (ghost s) x else ghost s) -> Q tt s') -> wp (emit_if b x) Q s.
Proof. intros H. destruct b; apply H; try done. apply ghost_after. Qed.

(** Progress of a trace: still valid, more destinations, these messages sent. *)
Definition advances (g g' : summary) (ls : list Z) : Prop :=
  valid g' = true /\ (forall d, d ∈ to_ok g -> d ∈ to_ok g') /\ sent g' = sent g ++ ls.

Lemma advances_refl g : valid g = true -> advances g g [].
Proof. intros H. split_and!; [done|done|by rewrite app_nil_r]. Qed.

Ltac msg_tac :=
  first [ done | congruence | by (unfold keeps in *; intuition congruence)
        | by (intros ?; unfold advances; simpl; rewrite ?app_nil_r) | unfold holds; simpl; lia ].


(** ** The environment

    Documented behaviour: errors are negative, hooks answer 0 or an error, a protocol's
    sendmsg is synchronous, the names it gives fit the storage, and the compatibility code
    leaves a name only with its length, in storage of the right size. *)
Definition msg_ok (msg : kmsg) : Prop :=
  match k_name msg with
  | Some nm => 0 < k_namelen msg <= SS_SIZE /\ length nm = Z.to_nat SS_SIZE
  | None => k_namelen msg = 0
  end.
Record menv_ok (e : menv) : Prop := {
  base_ok : Calls.env_ok (base e);
  imports_ok : forall n i l err, imports e n i l = inl err -> err < 0;
  hdr_err : forall n b u err, compat_hdr e n b u = inl err -> err < 0;
  hdr_ok : forall n b u msg ua al, compat_hdr e n b u = inr (msg, ua, al) -> msg_ok msg;
  cmsg_err : forall n err, compat_cmsg e n = inl err -> err < 0;
  hooks_ok : forall n, hook_send e n <= 0 /\ hook_recv e n <= 0;
  sends_ok : forall n, (send e n).1 <> - EIOCBQUEUED;
  recvs_ok : forall n, 0 <= r_namelen (recv_ans e n) <= SS_SIZE
}.

Section Spec.
Context (e : menv) (Hok : menv_ok e).

(** *** The header *)

Lemma wp_copy_hdr umsg save_addr s :
  wp (__copy_msghdr_from_user e umsg save_addr) (fun r s' => keeps s s' /\ ghost s' = ghost s /\
    match r with inl err => err < 0 | inr (msg, _, _, _) => msg_ok msg end) s.
Proof.
  unfold __copy_msghdr_from_user, wp. destruct (copy_from_user (mem s) umsg 56) as [l [|k]]; [|done]. cbv zeta.
  set (name := u64_at l 0). set (nl := if name =? 0 then 0 else wraps 32 (u32_at l 8)).
  destruct (Z.ltb_spec nl 0); [done|].
  set (len := if SS_SIZE <? nl then SS_SIZE else nl).
  assert (0 <= len <= SS_SIZE) as Hlen by (unfold len; destruct (Z.ltb_spec SS_SIZE nl); unfold SS_SIZE in *; lia).
  destruct (negb (name =? 0) && negb (len =? 0)) eqn:En; cbn [andb].
  - apply andb_true_iff in En as [_ En]. apply negb_true_iff, Z.eqb_neq in En. destruct save_addr; cbn [negb].
    + destruct (UIO_MAXIOV <? u64_at l 24); [done|]. split; [done|]. split; [done|].
      split; [simpl; lia|]. apply (Calls.ok_garbage _ (base_ok e Hok)).
    + destruct (Calls.to_kernel_spec (base e) (base_ok e Hok) name len (Calls.St (mem s) [])) as (err & a & E & He & Hcp).
      unfold lift. rewrite E. simpl. split_and!; try done; [unfold ghost; simpl; by rewrite app_nil_r|].
      destruct (Z.ltb_spec err 0); [done|]. destruct (UIO_MAXIOV <? u64_at l 24); [done|].
      assert (err = 0) as Herr by lia. split; [split; [simpl; lia|apply Hlen]|]. by apply Hcp.
  - destruct (UIO_MAXIOV <? u64_at l 24); [done|]. split_and!; try done.
Qed.

(** The message copied, with the iovec it holds. *)
Lemma wp_copy_msghdr umsg flags save_addr s :
  wp (copy_msghdr e umsg flags save_addr) (fun r s' => keeps s s' /\
    match r with
    | inl err => err < 0 /\ ghost s' = ghost s
    | inr (msg, _, allocated) => msg_ok msg /\ ghost s' = (if allocated then step (ghost s) MIov else ghost s)
    end) s.
Proof.
  unfold copy_msghdr. destruct (flag flags MSG_CMSG_COMPAT).
  - apply wp_bind, wp_ask. intros s1 Hk1 Hg. destruct (compat_hdr e (asked s) save_addr umsg) as [err|[[msg ua] al]] eqn:E.
    + apply wp_ret. split; [done|]. split; [by eapply hdr_err|done].
    + apply wp_bind, wp_emit_if. intros s2 Hk2 Hg2. apply wp_ret. split; [msg_tac|].
      split; [by eapply hdr_ok|]. by rewrite Hg2, Hg.
  - unfold copy_msghdr_from_user. apply wp_bind. eapply wp_mono; [apply wp_copy_hdr|].
    intros [err|[[[msg ua] iov] iovlen]] s1 (Hk1 & Hg & Hm); [by apply wp_ret|].
    apply wp_bind, wp_ask. intros s2 Hk2 Hg2.
    destruct (imports e (asked s1) iov iovlen) as [err|[al len]] eqn:E.
    + apply wp_ret. split; [msg_tac|]. split; [by eapply imports_ok|congruence].
    + apply wp_bind, wp_emit_if. intros s3 Hk3 Hg3. apply wp_ret. split; [msg_tac|].
      split; [exact Hm|]. by rewrite Hg3, Hg2, Hg.
Qed.

(** *** Sending *)

(** The address remembered is one a message was sent to. *)
Definition used_ok (used : used_address) (g : summary) : Prop :=
  match used with
  | None => True
  | Some (name_len, name) => name_len = UINT_MAX \/ name_len = 0 \/ Some (take (Z.to_nat name_len) name) ∈ to_ok g
  end.

Lemma wp_copy_control msg flags s :
  wp (copy_control e msg flags) (fun r s' => keeps s s' /\ pending (ghost s') = pending (ghost s) /\
    (valid (ghost s) = true -> advances (ghost s) (ghost s') []) /\ recv_ok_ (ghost s') = recv_ok_ (ghost s) /\
    match r with
    | inl err => err < 0 /\ holds (ghost s) (ghost s') 0 0
    | inr (allocated, len) => holds (ghost s) (ghost s') (if (allocated : bool) then len else 0) 0
    end) s.
Proof.
  unfold copy_control. cbv zeta.
  destruct (flag flags MSG_CMSG_COMPAT && ztrue (k_controllen msg)).
  - apply wp_bind, wp_ask. intros s1 Hk1 Hg. destruct (compat_cmsg e (asked s)) as [err|[al len]] eqn:E.
    + apply wp_ret. rewrite Hg. split_and!; try done; [by apply advances_refl|by eapply cmsg_err|].
      unfold holds. lia.
    + apply wp_bind, wp_emit_if. intros s2 Hk2 Hg2. apply wp_ret. rewrite Hg2, Hg.
      destruct al; simpl; split_and!; msg_tac.
  - destruct (ztrue (k_controllen msg)); [|apply wp_ret; split_and!; try done; [by apply advances_refl|unfold holds; lia]].
    apply wp_bind, wp_ask. intros s1 Hk1 Hg. set (big := CTL_SIZE <? k_controllen msg).
    destruct (big && negb (kmalloc_ok e (asked s))).
    { apply wp_ret. rewrite Hg. split_and!; try done; [by apply advances_refl|unfold holds; lia]. }
    apply wp_bind, wp_emit_if. intros s2 Hk2 Hg2. rewrite Hg in Hg2. unfold copy_control_data, wp.
    destruct (snd _) as [|k].
    + rewrite Hg2. destruct big; simpl; split_and!; msg_tac.
    + assert (wp (emit_if big (MFree (k_controllen msg));; mret (inl (- EFAULT) : Z + bool * Z)) (fun r s' =>
        keeps s s' /\ pending (ghost s') = pending (ghost s) /\
        (valid (ghost s) = true -> advances (ghost s) (ghost s') []) /\ recv_ok_ (ghost s') = recv_ok_ (ghost s) /\
        match r with inl err => err < 0 /\ holds (ghost s) (ghost s') 0 0 | _ => False end) s2) as Hw.
      { apply wp_bind, wp_emit_if. intros s3 Hk3 Hg3. apply wp_ret. rewrite Hg3, Hg2.
        destruct big; simpl; split_and!; msg_tac. }
      unfold wp in Hw. destruct ((emit_if big _;; _) s2) as [[[err|?] s3]|]; [exact Hw|tauto|done].
Qed.

Lemma used_ok_mono used g g' ls : used_ok used g -> advances g g' ls -> used_ok used g'.
Proof. destruct used as [[l nm]|]; [|done]. intros [?|[?|H]] (_ & Hsub & _); simpl; auto. Qed.

(** One message to the protocol, when its destination was allowed. *)
Lemma wp_do_send msg flags (Q : Z * Z -> st -> Prop) s :
  (forall s' ret left_, keeps s s' -> ret <> - EIOCBQUEUED ->
     ghost s' = step (ghost s) (MSend (dest msg) flags ret) -> Q (ret, left_) s') ->
  wp (do_send e msg flags) Q s.
Proof.
  intros HQ. unfold do_send, wp. pose proof (sends_ok e Hok (asked s)) as Hs.
  destruct (send e (asked s)) as [ret left_]. simpl in Hs. destruct (Z.eqb_spec ret (- EIOCBQUEUED)); [done|].
  apply HQ; [done|done|]. unfold ghost, summarise. simpl. by rewrite foldl_app.
Qed.

Definition sent_of (err : Z) : list Z := if 0 <=? err then [err] else [].

Lemma send_step g d flags ret : valid g = true -> pending g = Some d \/ d ∈ to_ok g ->
  advances g (step g (MSend d flags ret)) (sent_of ret) /\ holds g (step g (MSend d flags ret)) 0 0 /\
  (0 <= ret -> d ∈ to_ok (step g (MSend d flags ret))).
Proof.
  intros Hv Hd. unfold advances, holds, sent_of. simpl. rewrite Hv. cbn [andb]. split_and!; try lia.
  - apply orb_true_iff. destruct Hd; [left|right]; by apply bool_decide_eq_true_2.
  - intros d' Hd'. destruct (0 <=? ret); [by right|done].
  - destruct (0 <=? ret); [done|by rewrite app_nil_r].
  - intros Hr. destruct (Z.leb_spec 0 ret); [left|lia].
Qed.

(** The address of the message is the one remembered. *)
Lemma same_address_ok used msg g : msg_ok msg -> used_ok used g -> same_address used msg = true -> dest msg ∈ to_ok g.
Proof.
  unfold same_address, used_ok, dest. destruct used as [[l nm]|]; [|done]. destruct (k_name msg) as [name|] eqn:En; [|done].
  intros Hm Hu. destruct (Z.eqb_spec l (k_namelen msg)) as [Hl|]; [|done]. intros Ht%bool_decide_eq_true.
  unfold msg_ok in Hm. rewrite En in Hm.
  destruct Hu as [Hu|[Hu|Hu]]; [unfold UINT_MAX, SS_SIZE in *; lia|lia|]. simpl. by rewrite <- Hl, <- Ht.
Qed.

Lemma remember_ok used msg err g g' : msg_ok msg -> used_ok used g -> advances g g' (sent_of err) ->
  (0 <= err -> dest msg ∈ to_ok g') -> used_ok (remember used msg err) g'.
Proof.
  intros Hm Hu Ha Hd. unfold remember. destruct used as [[l nm]|]; [|done].
  destruct (Z.leb_spec 0 err); [|by eapply used_ok_mono]. specialize (Hd ltac:(done)).
  unfold dest, msg_ok in *. destruct (k_name msg) as [name|]; simpl in *; [|by auto].
  right; right. destruct Hm as [Hn Hlen]. rewrite take_app, take_take, Nat.min_id, length_take, Nat.min_l by lia.
  by rewrite Nat.sub_diag, take_0, app_nil_r.
Qed.

(** The hook, unless the destination is the last one, and the message. *)
Lemma wp_send_checked msg fl used s :
  msg_ok msg -> valid (ghost s) = true -> used_ok used (ghost s) ->
  wp (if same_address used msg then r ← do_send e msg fl; mret (r.1, used, r.2)
      else err ← ask_send e msg;
           r ← (if ztrue err then mret (err, k_left msg) else do_send e msg fl);
           mret (r.1, remember used msg r.1, r.2)) (fun r s' => keeps s s' /\
    advances (ghost s) (ghost s') (sent_of r.1.1) /\ holds (ghost s) (ghost s') 0 0 /\ used_ok r.1.2 (ghost s')) s.
Proof.
  intros Hm Hv Hu. destruct (same_address used msg) eqn:Es.
  - pose proof (same_address_ok used msg _ Hm Hu Es) as Hd. apply wp_bind, wp_do_send.
    intros s1 ret left_ Hk1 _ Hg1. apply wp_ret. rewrite Hg1. cbn [fst snd].
    destruct (send_step (ghost s) (dest msg) fl ret Hv (or_intror Hd)) as (H1 & H2 & _).
    split_and!; try done. by eapply used_ok_mono.
  - apply wp_bind. unfold ask_send. apply wp_bind, wp_ask. intros s1 Hk1 Hg1. set (ret := hook_send e (asked s)).
    assert (ret <= 0) by apply (hooks_ok e Hok). apply wp_bind, wp_emit, wp_ret, wp_bind.
    pose proof (ghost_after s1 (MHookSend (dest msg) ret)) as Hg2. rewrite Hg1 in Hg2.
    set (s2 := after s1 _) in *. assert (keeps s s2) as Hk2 by exact Hk1.
    assert (advances (ghost s) (ghost s2) [] /\ holds (ghost s) (ghost s2) 0 0) as [Ha2 Hh2].
    { rewrite Hg2. split; [|unfold holds; simpl; lia]. by apply (advances_refl (ghost s)). }
    unfold ztrue. destruct (Z.eqb_spec ret 0) as [Hr|Hr]; cbn [negb].
    + apply wp_do_send. intros s3 r left_ Hk3 _ Hg3. apply wp_ret. cbn [fst snd].
      destruct (send_step (ghost s2) (dest msg) fl r) as (H1 & H2 & H3); [apply Ha2|left; rewrite Hg2; simpl; by rewrite Hr|].
      rewrite <- Hg3 in *. assert (advances (ghost s) (ghost s3) (sent_of r)) as Ha3.
      { destruct Ha2 as (A1 & A2 & A3), H1 as (B1 & B2 & B3). rewrite app_nil_r in A3.
        split_and!; [done|by auto|congruence]. }
      split_and!; [msg_tac|done|unfold holds in *; lia|]. by eapply remember_ok.
    + apply wp_ret, wp_ret. cbn [fst snd]. assert (sent_of ret = []) as Hs by (unfold sent_of; destruct (Z.leb_spec 0 ret); [lia|done]).
      rewrite Hs. split_and!; try done. eapply remember_ok; [done|done|by rewrite Hs|lia].
Qed.

Lemma wp_sys4_sendmsg f_flags msg flags used allowed s :
  msg_ok msg -> valid (ghost s) = true -> used_ok used (ghost s) ->
  wp (____sys_sendmsg e f_flags msg flags used allowed) (fun r s' => keeps s s' /\
    advances (ghost s) (ghost s') (sent_of r.1.1) /\ holds (ghost s) (ghost s') 0 0 /\
    used_ok r.1.2 (ghost s')) s.
Proof.
  intros Hm Hv Hu. unfold ____sys_sendmsg. destruct (_ <? k_controllen msg).
  { apply wp_ret. split_and!; try done; [by apply advances_refl|unfold holds; lia]. }
  cbv zeta. apply wp_bind. eapply wp_mono; [apply wp_copy_control|].
  intros [err|[al len]] s1 (Hk1 & _ & Ha1 & _ & Hr); specialize (Ha1 Hv).
  { destruct Hr as [He Hh]. apply wp_ret. cbn [fst snd]. split_and!; try done.
    - unfold sent_of. destruct (Z.leb_spec 0 err); [lia|done].
    - by eapply used_ok_mono. }
  assert (valid (ghost s1) = true) as Hv1 by apply Ha1. assert (used_ok used (ghost s1)) as Hu1 by (by eapply used_ok_mono).
  set (fl := if flag f_flags O_NONBLOCK then _ else _). apply wp_bind.
  assert (wp (if same_address used msg then r ← do_send e msg fl; mret (r.1, used, r.2)
              else err ← ask_send e msg;
                   r ← (if ztrue err then mret (err, k_left msg) else do_send e msg fl);
                   mret (r.1, remember used msg r.1, r.2)) (fun r s' => keeps s1 s' /\
    advances (ghost s1) (ghost s') (sent_of r.1.1) /\ holds (ghost s1) (ghost s') 0 0 /\ used_ok r.1.2 (ghost s')) s1) as Hsend.
  { by apply wp_send_checked. }
  eapply wp_mono; [exact Hsend|]. intros r s2 (Hk2 & Ha2 & Hh2 & Hu2). apply wp_bind, wp_emit_if.
  intros s3 Hk3 Hg3. apply wp_ret. rewrite Hg3. split_and!.
  - msg_tac.
  - destruct Ha1 as (A1 & A2 & A3), Ha2 as (B1 & B2 & B3). rewrite app_nil_r in A3.
    destruct al; unfold advances; simpl; split_and!; try done; try (intros; by auto); congruence.
  - unfold holds in *. destruct al; simpl; lia.
  - destruct al; [|done]. destruct r as [[? [[??]|]] ?]; exact Hu2.
Qed.

Lemma wp_sys3_sendmsg f_flags umsg flags used allowed s :
  valid (ghost s) = true -> used_ok used (ghost s) ->
  wp (___sys_sendmsg e f_flags umsg flags used allowed) (fun r s' => keeps s s' /\
    advances (ghost s) (ghost s') (sent_of r.1.1) /\ holds (ghost s) (ghost s') 0 0 /\
    used_ok r.1.2 (ghost s')) s.
Proof.
  intros Hv Hu. unfold ___sys_sendmsg. apply wp_bind. eapply wp_mono; [apply wp_copy_msghdr|].
  intros [err|[[msg ua] al]] s1 [Hk1 Hr].
  - destruct Hr as [He Hg]. apply wp_ret. rewrite Hg. cbn [fst snd]. unfold sent_of.
    destruct (Z.leb_spec 0 err); [lia|]. split_and!; try done; [by apply advances_refl|unfold holds; lia].
  - destruct Hr as [Hm Hg]. assert (advances (ghost s) (ghost s1) [] /\ holds (ghost s) (ghost s1) 0 (if al then 1 else 0)) as [Ha1 Hh1].
    { rewrite Hg. destruct al; split; try (by apply (advances_refl (ghost s))); unfold holds; simpl; lia. }
    apply wp_bind. eapply wp_mono; [apply wp_sys4_sendmsg; [done|apply Ha1|by eapply used_ok_mono]|].
    intros r s2 (Hk2 & Ha2 & Hh2 & Hu2). apply wp_bind, wp_emit_if. intros s3 Hk3 Hg3. apply wp_ret. rewrite Hg3.
    destruct Ha1 as (A1 & A2 & A3), Ha2 as (B1 & B2 & B3). rewrite app_nil_r in A3. split_and!.
    + msg_tac.
    + destruct al; unfold advances; simpl; split_and!; try done; try (intros; by auto); congruence.
    + unfold holds in *. destruct al; simpl; lia.
    + destruct al; [|done]. destruct r as [[? [[??]|]] ?]; exact Hu2.
Qed.

(** The descriptor: a reference is held while the body runs. *)
Lemma wp_with_fd {A} fd (fail : Z -> A) body s (Q : A -> st -> Prop) :
  (forall err s', err < 0 -> keeps s s' -> ghost s' = ghost s -> Q (fail err) s') ->
  (forall f_flags light s1, keeps s s1 ->
     ghost s1 = (if (light : bool) then step (ghost s) (MBase EvGet) else ghost s) ->
     wp (body f_flags) (fun a s2 => forall s3, keeps s2 s3 ->
       ghost s3 = (if light then step (ghost s2) (MBase EvPut) else ghost s2) -> Q a s3) s1) ->
  wp (with_fd e fd fail body) Q s.
Proof.
  intros Hf Hb. unfold with_fd. apply wp_bind. unfold wp at 1, lift, Calls.sockfd_lookup_light.
  assert (forall s0 light x, ghost (St (mem s0) (sk_error s0) (asked s0) (events s0 ++ map MBase (if (light : bool) then [x] else []))) =
    if light then step (ghost s0) (MBase x) else ghost s0) as Hl.
  { intros s0 [] x; unfold ghost, summarise; simpl; rewrite foldl_app; done. }
  destruct (fdtab (base e) fd) as [|light|light f].
  - simpl. apply Hf; [unfold EBADF; lia|done|]. unfold ghost; simpl. by rewrite app_nil_r.
  - destruct light; simpl; (apply Hf; [unfold ENOTSOCK; lia|done|]);
      unfold ghost, summarise; simpl; rewrite foldl_app; simpl; [|done]. destruct (foldl step start (events s)); simpl. f_equal; lia.
  - specialize (Hb f light (St (mem s) (sk_error s) (asked s) (events s ++ map MBase (if light then [EvGet] else [])))).
    specialize (Hb ltac:(done) (Hl _ _ _)).
    assert ((Calls.emit_if light EvGet;; mret (inr (light, f) : Z + bool * Z)) (Calls.St (mem s) []) =
      Some (inr (light, f), Calls.St (mem s) (if light then [EvGet] else []))) as -> by (by destruct light). simpl.
    apply wp_bind. eapply wp_mono; [exact Hb|]. intros a s2 HQ. apply wp_bind. unfold wp at 1, lift, Calls.fput_light.
    assert (Calls.emit_if light EvPut (Calls.St (mem s2) []) = Some (tt, Calls.St (mem s2) (if light then [EvPut] else []))) as ->
      by (by destruct light). simpl. apply wp_ret. apply HQ; [done|apply Hl].
Qed.

End Spec.

(** ** Words in memory *)

Definition word_at (m : gmap Z Z) (p v : Z) : Prop := copy_from_user m p 4 = (le_bytes 4 v, O).

Lemma copy_from_ext m m' a n : (forall x, a <= x < a + Z.of_nat n -> m' !! x = m !! x) ->
  copy_from_user m' a n = copy_from_user m a n.
Proof.
  revert a. induction n as [|n IH]; intros a H; simpl; [done|]. rewrite (H a) by lia.
  destruct (m !! a); [|done]. rewrite IH; [done|]. intros x Hx. apply H. lia.
Qed.

Lemma copy_to_from bs : forall m p l, copy_from_user m p (length bs) = (l, O) ->
  copy_from_user (fst (copy_to_user m p bs)) p (length bs) = (bs, O).
Proof.
  induction bs as [|b bs IH]; intros m p l H; [done|]. simpl in *. destruct (m !! p) as [c|] eqn:Ep; [|done].
  destruct (copy_from_user m (p + 1) (length bs)) as [l' [|k]] eqn:E; [|done].
  assert (copy_from_user (<[p:=b]> m) (p + 1) (length bs) = (l', O)) as E'.
  { rewrite <- E. apply copy_from_ext. intros x Hx. rewrite lookup_insert_ne; [done|lia]. }
  specialize (IH _ _ _ E'). destruct (copy_to_user (<[p:=b]> m) (p + 1) bs) as [m' k'] eqn:Ec. simpl in *.
  rewrite (Calls.copy_to_user_frame _ _ _ _ _ p Ec) by lia. by rewrite lookup_insert_eq, IH.
Qed.

Lemma wp_put_n n p v s (Q : Z -> st -> Prop) :
  (forall s' err, ghost s' = ghost s -> sk_error s' = sk_error s ->
     (err = 0 /\ copy_from_user (mem s') p n = (le_bytes n v, O) /\
      forall x, ~ (p <= x < p + Z.of_nat n) -> mem s' !! x = mem s !! x) \/
     (err = - EFAULT /\ mem s' = mem s) -> Q err s') ->
  wp (put_n n p v) Q s.
Proof.
  intros HQ. unfold put_n, wp. destruct (copy_from_user (mem s) p n) as [l [|k]] eqn:E; [|apply HQ; auto].
  apply HQ; [done|done|]. left. split; [done|]. simpl. split.
  - pose proof (copy_to_from (le_bytes n v) (mem s) p) as H. rewrite length_le_bytes in H. by eapply H.
  - intros x Hx. destruct (copy_to_user (mem s) p (le_bytes n v)) as [m k] eqn:Ec.
    eapply Calls.copy_to_user_frame; [exact Ec|]. by rewrite length_le_bytes.
Qed.

Lemma word_frame m m' p v : (forall x, p <= x < p + 4 -> m' !! x = m !! x) -> word_at m p v -> word_at m' p v.
Proof. intros H. unfold word_at. by rewrite (copy_from_ext m m' p 4). Qed.

Lemma compat_batch flags : flag (Z.lor flags MSG_BATCH) MSG_CMSG_COMPAT = flag flags MSG_CMSG_COMPAT.
Proof. unfold flag. rewrite Z.land_lor_distr_l. change (Z.land MSG_BATCH MSG_CMSG_COMPAT) with 0. by rewrite Z.lor_0_r. Qed.

Section Send.
Context (e : menv) (Hok : menv_ok e) (oflags : Z).

(** Where the length of message [i] goes. *)
Definition len_at (entry : Z) (i : nat) : Z := entry + entry_size oflags * Z.of_nat i + off_len oflags.

Lemma len_at_S entry i : len_at (entry + entry_size oflags) i = len_at entry (S i).
Proof. unfold len_at. lia. Qed.

(** The words of different messages are apart. *)
Lemma len_at_apart entry i j : (i < j)%nat -> len_at entry i + 4 <= len_at entry j.
Proof. intros H. unfold len_at, entry_size. destruct (flag oflags MSG_CMSG_COMPAT); lia. Qed.

(** [ls]: lengths reported; [extra]: at most one message sent whose length could not be
    written. *)
Record loop_post (n : nat) (entry d : Z) (s : st) (r : Z * Z) (s' : st) (ls extra : list Z) : Prop := {
  lp_adv : advances (ghost s) (ghost s') (ls ++ extra);
  lp_holds : holds (ghost s) (ghost s') 0 0;
  lp_err : sk_error s' = sk_error s;
  lp_count : r.2 = d + Z.of_nat (length ls);
  lp_max : (length ls <= n)%nat;
  lp_extra : extra = [] \/ (exists x, extra = [x]) /\ r.1 = - EFAULT;
  lp_neg : r.1 <= 0 /\ (ls = [] -> n = O \/ r.1 < 0);
  lp_words : forall i v, ls !! i = Some v -> word_at (mem s') (len_at entry i) v;
  lp_frame : forall x, (forall i, (i < length ls)%nat -> ~ (len_at entry i <= x < len_at entry i + 4)) ->
    mem s' !! x = mem s !! x
}.

Lemma advances_trans g1 g2 g3 l1 l2 : advances g1 g2 l1 -> advances g2 g3 l2 -> advances g1 g3 (l1 ++ l2).
Proof. intros (A1 & A2 & A3) (B1 & B2 & B3). split_and!; [done|by auto|]. by rewrite B3, A3, app_assoc. Qed.

Lemma wp_send_loop f_flags n : forall entry used d s,
  valid (ghost s) = true -> used_ok used (ghost s) ->
  wp (send_loop e f_flags oflags n entry used d) (fun r s' => exists ls extra, loop_post n entry d s r s' ls extra) s.
Proof.
  induction n as [|n IH]; intros entry used d s Hv Hu; cbn [send_loop].
  { apply wp_ret. exists [], []. split; simpl; try done; [by apply advances_refl|unfold holds; lia|lia|by left|split; [lia|by left]]. }
  set (flags := match n with O => oflags | _ => _ end).
  assert (off_len flags = off_len oflags /\ entry_size flags = entry_size oflags) as [-> ->].
  { unfold off_len, entry_size, flags. destruct n; [done|]. by rewrite compat_batch. }
  assert (entry + off_len oflags = len_at entry 0) as Ep by (unfold len_at; lia).
  cbv zeta. apply wp_bind. eapply wp_mono; [apply wp_sys3_sendmsg; done|].
  intros [[err used'] left_] s1 ([Hm1 He1] & Ha1 & Hh1 & Hu1). cbn [fst snd] in *.
  destruct (Z.ltb_spec err 0).
  { apply wp_ret. exists [], []. unfold sent_of in Ha1. destruct (Z.leb_spec 0 err); [lia|].
    split; simpl; try done; [lia|lia|by left|split; [lia|auto]|by rewrite Hm1]. }
  unfold sent_of in Ha1. destruct (Z.leb_spec 0 err); [|lia].
  apply wp_bind, wp_put_n. rewrite Ep. intros s2 perr Hg2 He2 Hput. unfold ztrue.
  destruct Hput as [(-> & Hw & Hfr)|[-> Hm2]].
  - change (negb (0 =? 0)) with false. cbv iota. change (Z.of_nat 4) with 4 in Hfr. rewrite Hm1 in Hfr.
    destruct (Z.eqb_spec left_ 0) as [->|Hl]; cbn [negb].
    + eapply wp_mono; [apply IH; rewrite Hg2; [apply Ha1|done]|].
      intros r s3 (ls & extra & [A B C D E F G W R]). exists (err :: ls), extra. rewrite Hg2 in A, B.
      split; cbn [length]; try done; try lia.
      * by apply (advances_trans _ _ _ [err] (ls ++ extra) Ha1).
      * unfold holds in *. lia.
      * split; [apply G|done].
      * intros [|i] v Hi; simplify_eq/=.
        { apply (word_frame (mem s2)); [|exact Hw]. intros x Hx. apply R. intros i _.
          rewrite len_at_S. pose proof (len_at_apart entry 0 (S i)). lia. }
        rewrite <- len_at_S. by apply W.
      * intros x Hx. rewrite R; [apply Hfr, (Hx O); lia|]. intros i Hi. rewrite len_at_S. apply Hx. lia.
    + apply wp_ret. exists [err], []. split; simpl; try done; try lia.
      * by rewrite Hg2.
      * by rewrite Hg2.
      * by left.
      * intros [|i] v Hi; simplify_eq/=. exact Hw.
      * intros x Hx. apply Hfr, (Hx O). lia.
  - change (negb (- EFAULT =? 0)) with true. cbv iota. apply wp_ret. exists [], [err].
    split; simpl; try done; try lia.
    + by rewrite Hg2.
    + by rewrite Hg2.
    + right. split; [by exists err|done].
    + unfold EFAULT. split; [lia|]. right. lia.
    + intros x _. by rewrite Hm2, Hm1.
Qed.

End Send.

Section Recv.
Context (e : menv) (Hok : menv_ok e).

Lemma wp_do_recv flags s (Q : rans -> st -> Prop) :
  (forall s' r, keeps s s' -> 0 <= r_namelen r <= SS_SIZE ->
     ghost s' = step (ghost s) (MRecv flags (r_ret r)) -> Q r s') -> wp (do_recv e flags) Q s.
Proof.
  intros HQ. unfold do_recv. apply wp_bind, wp_ask. intros s1 Hk1 Hg1. apply wp_bind, wp_emit, wp_ret.
  apply HQ; [exact Hk1|apply (recvs_ok e Hok)|]. by rewrite ghost_after, Hg1.
Qed.

(** Progress of a receiving call; [ok]: a message was received. *)
Definition received (s s' : st) (ok : bool) : Prop :=
  sk_error s' = sk_error s /\ advances (ghost s) (ghost s') [] /\ holds (ghost s) (ghost s') 0 0 /\
  (ok = true -> recv_ok_ (ghost s') = true).

Lemma received_mono s s' ok ok' : received s s' ok -> (ok' = true -> ok = true) -> received s s' ok'.
Proof. intros (H1 & H2 & H3 & H4) H. split_and!; auto. Qed.

Lemma received_trans s1 s2 s3 ok : sk_error s2 = sk_error s1 -> ghost s2 = ghost s1 -> received s2 s3 ok -> received s1 s3 ok.
Proof. intros He Hg (H1 & H2 & H3 & H4). rewrite Hg in *. split_and!; try done. congruence. Qed.

Lemma received_then s1 s2 s3 ok : received s1 s2 ok -> sk_error s3 = sk_error s2 -> ghost s3 = ghost s2 -> received s1 s3 ok.
Proof. intros (H1 & H2 & H3 & H4) He Hg. unfold received. rewrite Hg, He. by split_and!. Qed.

Lemma wp_sock_recv (nosec : bool) flags s (Q : rans -> st -> Prop) :
  valid (ghost s) = true -> (nosec = true -> recv_ok_ (ghost s) = true) ->
  (forall r s', 0 <= r_namelen r <= SS_SIZE -> keeps s s' -> received s s' (0 <=? r_ret r) -> Q r s') ->
  wp (sock_recv e nosec flags) Q s.
Proof.
  intros Hv Hn HQ. unfold sock_recv. destruct nosec.
  - apply wp_do_recv. intros s1 r Hk1 Hr Hg1. apply HQ; [done|done|]. specialize (Hn eq_refl).
    unfold received. rewrite Hg1. split_and!; try done; try apply Hk1; [|unfold holds; simpl; lia].
    split_and!; simpl; [by rewrite Hv, Hn|done|by rewrite app_nil_r].
  - apply wp_bind, wp_ask. intros s1 Hk1 Hg1. set (ret := hook_recv e (asked s)).
    assert (ret <= 0) by apply (hooks_ok e Hok). apply wp_bind, wp_emit.
    pose proof (ghost_after s1 (MHookRecv ret)) as Hg2. rewrite Hg1 in Hg2.
    set (s2 := after s1 _) in *. assert (keeps s s2) as Hk2 by exact Hk1.
    unfold ztrue. destruct (Z.eqb_spec ret 0) as [Hr|Hr]; cbn [negb].
    + apply wp_do_recv. intros s3 r Hk3 Hrn Hg3. rewrite Hg2 in Hg3. apply HQ; [done|msg_tac|].
      unfold received. rewrite Hg3, Hr. split_and!; try done; [unfold keeps in *; intuition congruence| |unfold holds; simpl; lia].
      split_and!; simpl; [by rewrite Hv|done|by rewrite app_nil_r].
    + apply wp_ret. apply HQ; [unfold SS_SIZE; simpl; lia|done|]. unfold received. rewrite Hg2.
      split_and!; try apply Hk2; [by apply (advances_refl (ghost s))|unfold holds; simpl; lia|].
      simpl. destruct (Z.leb_spec 0 ret); [lia|done].
Qed.

Lemma wp_to_user a klen u p s (Q : Z -> st -> Prop) : 0 <= klen <= SS_SIZE ->
  (forall err s', sk_error s' = sk_error s -> ghost s' = ghost s -> Q err s') ->
  wp (lift (Calls.move_addr_to_user (base e) a klen u p)) Q s.
Proof.
  intros Hk HQ. unfold wp, lift.
  destruct (Calls.to_user_spec (base e) a klen u p (Calls.St (mem s) []) Hk) as (err & m' & -> & _). simpl.
  apply HQ; [done|]. unfold ghost. simpl. by rewrite app_nil_r.
Qed.

Lemma wp_sys4_recvmsg f_flags umsg uaddr flags nosec s :
  valid (ghost s) = true -> (nosec = true -> recv_ok_ (ghost s) = true) ->
  wp (____sys_recvmsg e f_flags umsg uaddr flags nosec) (fun r s' => received s s' (0 <=? r.1)) s.
Proof.
  intros Hv Hn. unfold ____sys_recvmsg. cbv zeta. apply wp_bind, wp_sock_recv; [done|done|].
  intros r s1 Hr _ H1. destruct (Z.ltb_spec (r_ret r) 0) as [Hneg|Hpos]; [by apply wp_ret|].
  assert (forall err, received s s1 (0 <=? err)) as Hany.
  { intros err. eapply received_mono; [exact H1|]. intros _. apply Z.leb_le. lia. }
  assert (forall (Q : Z -> st -> Prop), (forall err s', sk_error s' = sk_error s1 -> ghost s' = ghost s1 -> Q err s') ->
    wp (if uaddr =? 0 then mret 0
        else lift (Calls.move_addr_to_user (base e) (r_addr r) (r_namelen r) uaddr (umsg + off_namelen flags))) Q s1) as Hto.
  { intros Q HQ. destruct (uaddr =? 0); [apply wp_ret; by apply HQ|by apply wp_to_user]. }
  apply wp_bind, Hto. intros err s2 He2 Hg2. destruct (err <? 0); [apply wp_ret; by eapply received_then|].
  apply wp_bind, wp_put_n. intros s3 err3 Hg3 He3 _. destruct (ztrue err3).
  { apply wp_ret. eapply received_then; [apply Hany|congruence|congruence]. }
  apply wp_bind, wp_put_n. intros s4 err4 Hg4 He4 _. apply wp_ret. eapply received_then; [apply Hany|congruence|congruence].
Qed.

Lemma wp_sys3_recvmsg f_flags umsg flags nosec s :
  valid (ghost s) = true -> (nosec = true -> recv_ok_ (ghost s) = true) ->
  wp (___sys_recvmsg e f_flags umsg flags nosec) (fun r s' => received s s' (0 <=? r.1)) s.
Proof.
  intros Hv Hn. unfold ___sys_recvmsg. apply wp_bind. eapply wp_mono; [by apply wp_copy_msghdr|].
  intros [err|[[msg ua] al]] s1 [Hk1 Hr].
  - destruct Hr as [He Hg]. apply wp_ret. unfold received. rewrite Hg. cbn [fst].
    split_and!; [apply Hk1|by apply advances_refl|unfold holds; lia|]. destruct (Z.leb_spec 0 err); [lia|done].
  - destruct Hr as [_ Hg]. apply wp_bind. eapply wp_mono; [apply wp_sys4_recvmsg|].
    + rewrite Hg. by destruct al.
    + rewrite Hg. by destruct al.
    + intros r s2 (H1 & H2 & H3 & H4). apply wp_bind, wp_emit_if. intros s3 Hk3 Hg3. apply wp_ret.
      unfold received. rewrite Hg3. unfold advances, holds in *. rewrite Hg in *.
      destruct al; simpl in *; rewrite app_nil_r in *; (split_and!; [unfold keeps in *; intuition congruence|try tauto..]); lia.
Qed.

Lemma received_seq s1 s2 s3 ok ok' : received s1 s2 ok -> received s2 s3 ok' -> received s1 s3 ok'.
Proof.
  intros (A1 & A2 & A3 & A4) (B1 & B2 & B3 & B4). split_and!; [congruence| |unfold holds in *; lia|done].
  by apply (advances_trans _ _ _ [] [] A2).
Qed.

Lemma wp_recv_loop f_flags end_time n : forall entry flags err d tleft s,
  valid (ghost s) = true -> (d <> 0 -> recv_ok_ (ghost s) = true) -> 0 <= d -> err <= 0 ->
  wp (recv_loop e f_flags end_time n entry flags err d tleft) (fun r s' => received s s' false /\
    r.1.1 <= 0 /\ d <= r.1.2 <= d + Z.of_nat n) s.
Proof.
  induction n as [|n IH]; intros entry flags err d tleft s Hv Hd H0 He; cbn [recv_loop].
  { apply wp_ret. split; [|simpl; lia]. split_and!; try done; [by apply advances_refl|unfold holds; lia]. }
  apply wp_bind. eapply wp_mono; [apply wp_sys3_recvmsg; [done|]|].
  { intros H. apply Hd. by apply negb_true_iff, Z.eqb_neq in H. }
  intros [ret mflags] s1 H1. cbn [fst] in H1. assert (received s s1 false) as H1' by (by eapply received_mono).
  destruct (Z.ltb_spec ret 0); [apply wp_ret; split; [done|simpl; lia]|].
  apply wp_bind, wp_put_n. intros s2 perr Hg2 He2 Hp. unfold ztrue.
  assert (received s s2 (0 <=? ret)) as H2 by (by eapply received_then).
  assert (perr <= 0) as Hpe by (destruct Hp as [(-> & _)|[-> _]]; unfold EFAULT; lia).
  destruct (Z.eqb_spec perr 0); cbn [negb]; [|apply wp_ret; split; [by eapply received_mono|simpl; lia]].
  apply wp_bind. cbv zeta. assert (forall (Q : Z -> st -> Prop), (forall t s', keeps s2 s' -> ghost s' = ghost s2 -> Q t s') ->
    wp (match end_time with Some t => n ← ask; mret (t - clock e n) | None => mret 1 end) Q s2) as Hclk.
  { intros Q HQ. destruct end_time; [|by apply HQ]. apply wp_bind, wp_ask. intros s3 Hk3 Hg3. apply wp_ret. by apply HQ. }
  apply Hclk. intros t s3 [_ Hk3] Hg3. assert (received s s3 (0 <=? ret)) as H3 by (by eapply received_then).
  assert (received s s3 false) as H3' by (by eapply received_mono).
  destruct (t <=? 0); [apply wp_ret; split; [done|simpl; lia]|].
  destruct (flag mflags MSG_OOB); [apply wp_ret; split; [done|simpl; lia]|].
  eapply wp_mono; [apply IH; [apply H3'|intros _; apply H3; by apply Z.leb_le|lia|lia]|].
  intros r s4 [H4 H5]. split; [by eapply received_seq|lia].
Qed.

Lemma wp_recv_body mmsg vlen flags end_time f_flags s :
  valid (ghost s) = true -> 0 <= sk_error s -> 0 <= vlen ->
  wp (recv_body e mmsg vlen flags end_time f_flags) (fun r s' =>
    advances (ghost s) (ghost s') [] /\ holds (ghost s) (ghost s') 0 0 /\ r.1 <= vlen) s.
Proof.
  intros Hv Hse Hvl. unfold recv_body. apply wp_bind.
  set (m := if negb (flag flags MSG_ERRQUEUE) then take_sock_error else mret (- EBADF)).
  assert (exists err s2, m s = Some (err, s2) /\ ghost s2 = ghost s /\ err <= 0) as (err & s2 & Em & Hg2 & He2).
  { unfold m. destruct (flag flags MSG_ERRQUEUE); cbn [negb]; eexists _, _; (split; [reflexivity|]);
      split; try done; unfold EBADF; lia. }
  unfold wp at 1. rewrite Em. rewrite <- Hg2 in *. destruct (negb (flag flags MSG_ERRQUEUE) && ztrue err).
  { apply wp_ret. split_and!; [by apply advances_refl|unfold holds; lia|simpl; lia]. }
  apply wp_bind. eapply wp_mono; [apply wp_recv_loop; [done|done|lia|done]|].
  intros [[err' d] t] s3 ((_ & H2 & H3 & _) & H4 & H5). cbn [fst snd] in *. unfold recv_result. apply wp_bind.
  assert (forall r s4, r <= vlen -> ghost s4 = ghost s3 -> wp (mret (r, t)) (fun a s5 =>
    advances (ghost s2) (ghost s5) [] /\ holds (ghost s2) (ghost s5) 0 0 /\ a.1 <= vlen) s4) as Hend.
  { intros r s4 Hr Hg4. apply wp_ret. by rewrite Hg4. }
  repeat case_match; apply Hend; done || lia.
Qed.

(** A body that gives back what it takes, with its descriptor. *)
Lemma wp_with_fd_clean {A} fd (fail : Z -> A) body s (P : A -> Prop) ls0 :
  valid (ghost s) = true -> (forall err, err < 0 -> P (fail err) /\ ls0 (fail err) = []) ->
  (forall f_flags s1, keeps s s1 -> valid (ghost s1) = true -> to_ok (ghost s1) = to_ok (ghost s) ->
     wp (body f_flags) (fun a s2 => advances (ghost s1) (ghost s2) (ls0 a) /\ holds (ghost s1) (ghost s2) 0 0 /\ P a) s1) ->
  wp (with_fd e fd fail body) (fun a s' => advances (ghost s) (ghost s') (ls0 a) /\ holds (ghost s) (ghost s') 0 0 /\ P a) s.
Proof.
  intros Hv Hf Hb. apply wp_with_fd.
  - intros err s1 Herr _ Hg. destruct (Hf err Herr) as [HP Hl]. rewrite Hg, Hl.
    split_and!; [by apply advances_refl|unfold holds; lia|done].
  - intros f_flags light s1 Hk1 Hg1. eapply wp_mono; [apply Hb|].
    + done.
    + rewrite Hg1. by destruct light.
    + rewrite Hg1. by destruct light.
    + intros a s2 ((A1 & A2 & A3) & Hh & HP) s3 _ Hg3. rewrite Hg1, Hg3 in *. unfold advances, holds in *.
      destruct light; simpl in *; split_and!; try done; lia.
Qed.

Lemma wp_do_recvmmsg fd mmsg vlen flags timeout s :
  valid (ghost s) = true -> 0 <= sk_error s -> 0 <= vlen ->
  wp (do_recvmmsg e fd mmsg vlen flags timeout) (fun r s' =>
    advances (ghost s) (ghost s') [] /\ holds (ghost s) (ghost s') 0 0 /\ r.1 <= vlen) s.
Proof.
  intros Hv Hse Hvl. assert (forall end_time, wp (with_fd e fd (fun err => (err, 0)) (recv_body e mmsg vlen flags end_time))
    (fun r s' => advances (ghost s) (ghost s') [] /\ holds (ghost s) (ghost s') 0 0 /\ r.1 <= vlen) s) as Hgo.
  { intros end_time. apply (wp_with_fd_clean _ _ _ _ (fun r => r.1 <= vlen) (fun _ => [])); [done| |].
    - intros err Herr. simpl. split; [lia|done].
    - intros f_flags s1 [_ Hk] Hv1 _. apply wp_recv_body; [done|congruence|done]. }
  unfold do_recvmmsg. destruct timeout as [[sec nsec]|]; [|apply Hgo]. destruct (deadline e sec nsec); [apply Hgo|].
  apply wp_ret. split_and!; [by apply advances_refl|unfold holds; lia|unfold EINVAL; simpl; lia].
Qed.
End Recv.

(** ** The calls *)

(** No message goes to a destination that the hook did not allow, or that a message of this
    call was not sent to before; none is received before a hook allowed it; and nothing is
    held at the end. *)
Definition clean (g : summary) : Prop := valid g = true /\ refs g = 0 /\ bytes g = 0 /\ iovs g = 0.

Lemma clean_after s s' ls : ghost s = start -> advances (ghost s) (ghost s') ls -> holds (ghost s) (ghost s') 0 0 -> clean (ghost s').
Proof. intros -> (H1 & _) (H2 & H3 & H4). simpl in *. split_and!; [done|lia..]. Qed.

Section Vetted.
Context (e : menv) (Hok : menv_ok e).

Lemma sendmsg_clean fd m fl b s : ghost s = start -> wp (__sys_sendmsg e fd m fl b) (fun _ s' => clean (ghost s')) s.
Proof.
  intros Hg. assert (valid (ghost s) = true) as Hv by (by rewrite Hg). unfold __sys_sendmsg.
  destruct (b && _); [apply wp_ret; by rewrite Hg|]. eapply wp_mono.
  - apply (wp_with_fd_clean e fd id _ s (fun _ => True) sent_of Hv).
    + intros err Herr. split; [done|]. unfold sent_of, id. destruct (Z.leb_spec 0 err); [lia|done].
    + intros f s1 _ Hv1 _. apply wp_bind. eapply wp_mono; [by apply (wp_sys3_sendmsg e Hok)|].
      intros r s2 (_ & H1 & H2 & _). by apply wp_ret.
  - intros r s' (H1 & H2 & _). by eapply clean_after.
Qed.

Lemma recvmsg_clean fd m fl b s : ghost s = start -> wp (__sys_recvmsg e fd m fl b) (fun _ s' => clean (ghost s')) s.
Proof.
  intros Hg. assert (valid (ghost s) = true) as Hv by (by rewrite Hg). unfold __sys_recvmsg.
  destruct (b && _); [apply wp_ret; by rewrite Hg|]. eapply wp_mono.
  - apply (wp_with_fd_clean e fd id _ s (fun _ => True) (fun _ => []) Hv); [done|].
    intros f s1 _ Hv1 _. apply wp_bind. eapply wp_mono; [by apply (wp_sys3_recvmsg e Hok)|].
    intros r s2 (_ & H1 & H2 & _). by apply wp_ret.
  - intros r s' (H1 & H2 & _). by eapply clean_after.
Qed.

Lemma recvmmsg_clean fd m n fl t t32 s : ghost s = start -> 0 <= sk_error s -> 0 <= n ->
  wp (__sys_recvmmsg e fd m n fl t t32) (fun r s' => clean (ghost s') /\ r <= n) s.
Proof.
  intros Hg Hse Hn. assert (valid (ghost s) = true) as Hv by (by rewrite Hg). unfold __sys_recvmmsg.
  assert (clean (ghost s)) as H0 by (by rewrite Hg).
  pose proof (fun ts => wp_do_recvmmsg e Hok fd m n fl ts s Hv Hse Hn) as Hdo.
  assert (forall b p v r s1, clean (ghost s1) -> r <= n -> wp (put_ts e b p v r) (fun r s' => clean (ghost s') /\ r <= n) s1) as Hput.
  { intros b p v r s1 Hc Hr. unfold put_ts, wp. destruct (p =? 0); [done|].
    destruct (put_timespec e b (mem s1) p v); split; try done. unfold EFAULT. lia. }
  assert (forall ts, wp (r ← do_recvmmsg e fd m n fl ts; let '(d, tl) := r in if d <=? 0 then mret d
     else d ← put_ts e false t tl d; put_ts e true t32 tl d) (fun r s' => clean (ghost s') /\ r <= n) s) as Hts.
  { intros ts. apply wp_bind. eapply wp_mono; [apply Hdo|]. intros [d tl] s1 (H1 & H2 & H3). cbn [fst] in H3.
    assert (clean (ghost s1)) as Hc by (by eapply clean_after). destruct (d <=? 0); [by apply wp_ret|].
    apply wp_bind. eapply wp_mono; [by apply Hput|]. intros d' s2 [Hc2 Hd2]. by apply Hput. }
  assert (wp (r ← do_recvmmsg e fd m n fl None; mret r.1) (fun r s' => clean (ghost s') /\ r <= n) s) as Hno.
  { apply wp_bind. eapply wp_mono; [apply Hdo|]. intros r s1 (H1 & H2 & H3). apply wp_ret. split; [by eapply clean_after|done]. }
  assert (clean (ghost s) /\ - EFAULT <= n) as Hfault by (split; [done|unfold EFAULT; lia]).
  unfold wp. cbv zeta. destruct (if t =? 0 then Some None else _) as [t1|]; [|exact Hfault].
  destruct (if t32 =? 0 then Some None else _) as [t2|]; [|by destruct t1].
  destruct t1 as [t1|], t2 as [t2|]; [apply (Hts (Some t2))|apply (Hts (Some t1))|apply (Hts (Some t2))|exact Hno].
Qed.
End Vetted.

(** What sendmmsg reports: [ls] the messages counted, [extra] one sent but not counted. *)
Record reported (n m fl : Z) (s : st) (r : Z) (s' : st) (ls extra : list Z) : Prop := {
  rp_sent : sent (ghost s') = ls ++ extra;
  rp_extra : extra = [] \/ exists x, extra = [x];
  rp_some : ls <> [] -> r = Z.of_nat (length ls) /\ r <= Z.min n UIO_MAXIOV;
  rp_none : ls = [] -> r <= 0;
  rp_words : forall i v, ls !! i = Some v -> word_at (mem s') (len_at fl m i) v;
  rp_frame : forall x, (forall i, (i < length ls)%nat -> ~ (len_at fl m i <= x < len_at fl m i + 4)) ->
    mem s' !! x = mem s !! x
}.

Lemma sendmmsg_post e fd m n fl b s : menv_ok e -> ghost s = start -> 0 <= n ->
  wp (__sys_sendmmsg e fd m n fl b) (fun r s' => clean (ghost s') /\ exists ls extra, reported n m fl s r s' ls extra) s.
Proof.
  intros Hok Hg Hn. assert (valid (ghost s) = true) as Hv by (by rewrite Hg). unfold __sys_sendmmsg.
  destruct (b && _).
  { apply wp_ret. split; [by rewrite Hg|]. exists [], []. split; simpl; try done; [by rewrite Hg|by left]. }
  set (v := if UIO_MAXIOV <? n then UIO_MAXIOV else n).
  assert (v = Z.min n UIO_MAXIOV) as Ev by (unfold v; destruct (Z.ltb_spec UIO_MAXIOV n); lia).
  apply wp_with_fd.
  - intros err s1 Herr Hk Hg1. rewrite Hg1, Hg. split; [done|]. exists [], [].
    split; simpl; try done; [by rewrite Hg1, Hg|by left|unfold id; lia|]. intros x _. by rewrite (proj1 Hk).
  - intros f light s1 Hk1 Hg1. apply wp_bind.
    eapply wp_mono; [apply (wp_send_loop e Hok fl); [rewrite Hg1, Hg; by destruct light|by left]|].
    intros [err d] s2 (ls & extra & [A B C D E F G W R]). apply wp_ret. cbn [fst snd] in *. intros s3 Hk3 Hg3.
    assert (clean (ghost s3) /\ sent (ghost s3) = ls ++ extra) as [Hc Hs].
    { rewrite Hg3. destruct A as (A1 & _ & A3), B as (B1 & B2 & B3). rewrite Hg1, Hg in *.
      unfold clean. destruct light; simpl in *; split_and!; try done; lia. }
    split; [done|]. exists ls, extra. unfold UIO_MAXIOV in *. split; try done.
    + destruct F as [F|[F _]]; auto.
    + intros Hne. assert (0 < length ls)%nat by (destruct ls; [done|simpl; lia]).
      destruct (Z.eqb_spec d 0); cbn [negb]; unfold UIO_MAXIOV; lia.
    + intros ->. simpl in D. rewrite D. simpl. apply G.
    + intros i w Hi. rewrite (proj1 Hk3). by apply W.
    + intros x Hx. rewrite (proj1 Hk3), R, (proj1 Hk1); done.
Qed.

(** (C20) Every message call, whatever user memory holds, whatever faults, refusals and answers
    it meets and whatever the protocol does, completes without BUG, gives back every
    reference, control buffer and iovec it took, sends no message to a destination that
    neither the security hook allowed just before nor a message of the same call was sent
    to, and receives none before a hook allowed it. *)
Theorem messages_vetted e c s :
  menv_ok e -> events s = [] -> 0 <= sk_error s ->
  (forall fd m n fl b, c = CSendmmsg fd m n fl b -> 0 <= n) ->
  (forall fd m n fl t t32, c = CRecvmmsg fd m n fl t t32 -> 0 <= n) ->
  exists r s', mrun e c s = Some (r, s') /\ clean (summarise (events s')).
Proof.
  intros Hok He Hse Hn1 Hn2. assert (ghost s = start) as Hg by (unfold ghost; by rewrite He).
  assert (wp (mrun e c) (fun _ s' => clean (ghost s')) s) as Hw.
  { destruct c as [fd m fl b|fd m fl b|fd m n fl b|fd m n fl t t32]; simpl.
    - by apply sendmsg_clean.
    - by apply recvmsg_clean.
    - eapply wp_mono; [apply sendmmsg_post; [done|done|by eapply Hn1]|]. by intros r s' [H _].
    - eapply wp_mono; [apply recvmmsg_clean; [done|done|done|by eapply Hn2]|]. by intros r s' [H _]. }
  unfold wp in Hw. destruct (mrun e c s) as [[r s']|]; [by exists r, s'|done].
Qed.

(** sendmmsg reports what was sent: if it returns a positive count, that many messages
    went out, at most the number asked for and 1024, the length of each is in its entry of
    the caller's array, and no other byte of user memory changed; otherwise none is
    reported.  The one message it can leave uncounted is the last, when its length could
    not be written. *)
Theorem sendmmsg_counts e fd mmsg vlen flags forbid s r s' :
  menv_ok e -> events s = [] -> 0 <= vlen ->
  __sys_sendmmsg e fd mmsg vlen flags forbid s = Some (r, s') ->
  exists ls extra, reported vlen mmsg flags s r s' ls extra.
Proof.
  intros Hok He Hn E. assert (ghost s = start) as Hg by (unfold ghost; by rewrite He).
  pose proof (sendmmsg_post e fd mmsg vlen flags forbid s Hok Hg Hn) as Hw. unfold wp in Hw. rewrite E in Hw. apply Hw.
Qed.

(** An error after some messages is not lost: when recvmmsg stops at an error other than
    EAGAIN with some messages received, it returns their number and keeps the error in the
    socket, and the next recvmmsg on it, unless for the error queue, returns that error at
    once without receiving. *)
Theorem recvmmsg_error_kept e mmsg vlen flags end_time f_flags s err d t s1 :
  flag flags MSG_ERRQUEUE = false -> sk_error s = 0 ->
  recv_loop e f_flags end_time (Z.to_nat vlen) mmsg flags 0 0 0 s = Some ((err, d, t), s1) ->
  0 < d -> err < 0 -> err <> - EAGAIN ->
  exists s2, recv_body e mmsg vlen flags end_time f_flags s = Some ((d, t), s2) /\ sk_error s2 = - err /\
    forall mmsg' vlen' flags' end', flag flags' MSG_ERRQUEUE = false ->
      exists s3, recv_body e mmsg' vlen' flags' end' f_flags s2 = Some ((err, 0), s3) /\
        sk_error s3 = 0 /\ events s3 = events s2.
Proof.
  intros Hf Hse Hl Hd He Hea. exists (St (mem s1) (- err) (asked s1) (events s1)).
  assert (St (mem s) 0 (asked s) (events s) = s) as Hs by (destruct s; simpl in *; by subst).
  split; [|split; [done|]].
  - unfold recv_body, mbind, K_bind, take_sock_error. rewrite Hf. cbn [negb]. rewrite Hse. simpl. change (- 0) with 0. rewrite Hs, Hl.
    unfold recv_result. destruct (Z.eqb_spec err 0); [lia|]. destruct (Z.eqb_spec d 0); [lia|].
    destruct (Z.eqb_spec err (- EAGAIN)); [done|]. done.
  - intros m' v' fl' end' Hf'. unfold recv_body, mbind, K_bind, take_sock_error. rewrite Hf'. cbn [negb]. simpl.
    rewrite Z.opp_involutive. unfold ztrue. destruct (Z.eqb_spec err 0); [lia|]. simpl. by eexists.
Qed.

(** recvmmsg for no messages answers EBADF for a good socket when it is asked for the
    error queue: the look-up leaves EBADF in the variable that the loop never sets; without
    the flag, the answer is 0 when no error is pending. *)
Theorem recvmmsg_empty e fd mmsg flags light f_flags s :
  fdtab (base e) fd = IsSock light f_flags -> sk_error s = 0 ->
  exists s', do_recvmmsg e fd mmsg 0 flags None s =
    Some ((if flag flags MSG_ERRQUEUE then - EBADF else 0, 0), s').
Proof.
  intros Hfd Hse. unfold do_recvmmsg, with_fd, lift, Calls.sockfd_lookup_light, Calls.fput_light, recv_body, recv_result.
  rewrite Hfd. unfold mbind, K_bind. destruct (flag flags MSG_ERRQUEUE); simpl.
  - destruct light; simpl; by eexists.
  - destruct light; simpl; rewrite Hse; simpl; by eexists.
Qed.

(** *** An environment: every descriptor is a socket, the protocol takes all it is given. *)
Definition demo_env : env :=
  Env (fun _ => IsSock true 0) (replicate 128 0) 0 (fun _ _ => 0) (fun _ => 0) 128 (fun _ => 0)
    (fun _ => (0, replicate 128 0)) (0, 0, replicate 128 0) false (fun l o n => (0, l, o, n, false))
    (fun r _ => (r, None)) false true true [] (fun _ _ => (0, [], None)) (fun _ _ _ _ m => (0, m)) false.
(** The third question of a receiving call has an answer, the later ones fail with EPIPE. *)
Definition demo_menv : menv :=
  MEnv demo_env (fun _ _ _ => inr (true, 10)) (fun _ _ _ => inl (- EFAULT)) (fun _ => inl (- EINVAL)) (fun _ => true)
    (fun _ => 0) (fun _ => 0) (fun _ => (10, 0))
    (fun n => if (n <=? 3)%nat then RAns 10 0 (replicate 128 0) 0 0 else RAns (- 32) 0 [] 0 0)
    (fun sec nsec => Some (sec * 1000000000 + nsec)) (fun _ => 0) (fun _ _ _ => None) (fun _ _ _ _ => None).

Lemma demo_menv_ok : menv_ok demo_menv.
Proof.
  split; simpl; try done.
  - split; simpl; try done; unfold SS_SIZE; try lia.
    + intros l o n err l' o' n' k [= <- <- <- <- <-]. done.
    + intros o len ret v n Hl [= <- <- <-]. unfold Calls.opt_bytes. simpl. case_match; lia.
  - intros n b u err [= <-]. unfold EFAULT. lia.
  - intros n err [= <-]. unfold EINVAL. lia.
  - intros n. case_match; unfold SS_SIZE; simpl; lia.
Qed.

(** Two headers, 64 bytes apart, with a name of 16 bytes at 2000. *)
Definition demo_hdr : list Z :=
  le_bytes 8 2000 ++ le_bytes 8 16 ++ le_bytes 8 0 ++ le_bytes 8 1 ++ le_bytes 8 0 ++ le_bytes 8 0 ++ le_bytes 8 0 ++ le_bytes 8 0.
Definition demo_mem : gmap Z Z :=
  list_to_map (imap (fun i b => (1000 + Z.of_nat i, b)) (demo_hdr ++ demo_hdr) ++
               imap (fun i b => (2000 + Z.of_nat i, b)) (replicate 16 7)).
Definition demo_st : st := St demo_mem 0 0 [].

Definition is_hook_send (x : mev) : bool := match x with MHookSend _ _ => true | _ => false end.

(** Two messages to one destination: the hook is asked once. *)
Lemma messages_vetted_witness :
  exists r s', mrun demo_menv (CSendmmsg 3 1000 2 0 true) demo_st = Some (r, s') /\
    clean (summarise (events s')) /\ r = 2 /\ countb is_hook_send (events s') = 1%nat.
Proof.
  assert (forall fd m n fl b, CSendmmsg 3 1000 2 0 true = CSendmmsg fd m n fl b -> 0 <= n) as H0
    by (intros ? ? ? ? ? [= _ _ <- _ _]; lia).
  pose proof (messages_vetted demo_menv (CSendmmsg 3 1000 2 0 true) demo_st demo_menv_ok eq_refl (Z.le_refl 0) H0
    ltac:(intros; discriminate)) as (r & s' & E & H).
  assert (match mrun demo_menv (CSendmmsg 3 1000 2 0 true) demo_st with
          | Some (r, s') => r = 2 /\ countb is_hook_send (events s') = 1%nat | None => False end) as H2
    by (vm_compute; auto).
  rewrite E in H2. exists r, s'. split; [exact E|]. split; [exact H|exact H2].
Defined.

Lemma sendmmsg_counts_witness :
  exists s' ls extra, __sys_sendmmsg demo_menv 3 1000 2 0 true demo_st = Some (2, s') /\
    reported 2 1000 0 demo_st 2 s' ls extra.
Proof.
  destruct (__sys_sendmmsg demo_menv 3 1000 2 0 true demo_st) as [[r s']|] eqn:E.
  - assert (r = 2) as ->.
    { assert (option_map fst (__sys_sendmmsg demo_menv 3 1000 2 0 true demo_st) = Some 2) as H2 by (vm_compute; reflexivity).
      rewrite E in H2. by injection H2. }
    destruct (sendmmsg_counts demo_menv 3 1000 2 0 true demo_st 2 s' demo_menv_ok) as (ls & extra & H);
      [exact eq_refl|lia|exact E|]. exists s', ls, extra. by split.
  - exfalso. assert (option_map fst (__sys_sendmmsg demo_menv 3 1000 2 0 true demo_st) = Some 2) as H2 by (vm_compute; reflexivity).
    by rewrite E in H2.
Defined.

(** The first message comes, the second meets EPIPE. *)
Lemma recvmmsg_error_kept_witness :
  exists s2 t, recv_body demo_menv 1000 2 0 None 0 demo_st = Some ((1, t), s2) /\ sk_error s2 = 32 /\
    exists s3, recv_body demo_menv 1000 2 0 None 0 s2 = Some ((- 32, 0), s3).
Proof.
  destruct (recv_loop demo_menv 0 None (Z.to_nat 2) 1000 0 0 0 0 demo_st) as [[[[err d] t] s1]|] eqn:E.
  - assert (option_map (fun x => x.1.1) (recv_loop demo_menv 0 None (Z.to_nat 2) 1000 0 0 0 0 demo_st) = Some (- 32, 1)) as H
      by (vm_compute; reflexivity).
    rewrite E in H. injection H as -> ->.
    destruct (recvmmsg_error_kept demo_menv 1000 2 0 None 0 demo_st (- 32) 1 t s1) as (s2 & H1 & H2 & H3);
      [exact eq_refl|exact eq_refl|exact E|lia|lia|unfold EAGAIN; lia|].
    exists s2, t. split; [exact H1|]. split; [exact H2|].
    destruct (H3 1000 2 0 None) as (s3 & H4 & _); [reflexivity|]. exists s3. exact H4.
  - exfalso. assert (option_map (fun x => x.1.1) (recv_loop demo_menv 0 None (Z.to_nat 2) 1000 0 0 0 0 demo_st) = Some (- 32, 1)) as H
      by (vm_compute; reflexivity). by rewrite E in H.
Defined.

Lemma recvmmsg_empty_witness :
  exists s', do_recvmmsg demo_menv 3 1000 0 MSG_ERRQUEUE None demo_st = Some ((- EBADF, 0), s').
Proof.
  apply (recvmmsg_empty demo_menv 3 1000 MSG_ERRQUEUE true 0 demo_st); exact eq_refl.
Defined.

(** ** socketcall *)

Lemma words_length n l : length l = (8 * n)%nat -> length (words l) = n.
Proof. intros H. unfold words. rewrite length_map, length_seq, H, Nat.mul_comm. by apply Nat.div_mul. Qed.

(** A call that names one of the twenty finds all the words it reads. *)
Lemma dispatch_defined call n a : 1 <= call <= SYS_SENDMMSG -> nargs !! Z.to_nat call = Some (8 * Z.of_nat n) ->
  length a = n -> exists d, dispatch call a = Some (inr d).
Proof.
  intros Hc Hn Ha. unfold SYS_SENDMMSG in Hc.
  assert (call = 1 \/ call = 2 \/ call = 3 \/ call = 4 \/ call = 5 \/ call = 6 \/ call = 7 \/ call = 8 \/ call = 9 \/
    call = 10 \/ call = 11 \/ call = 12 \/ call = 13 \/ call = 14 \/ call = 15 \/ call = 16 \/ call = 17 \/
    call = 18 \/ call = 19 \/ call = 20) as Hcases by lia.
  repeat destruct Hcases as [->|Hcases]; try subst call; cbn in Hn;
    (assert (n = 2 \/ n = 3 \/ n = 4 \/ n = 5 \/ n = 6)%nat as Hns by (injection Hn; lia));
    repeat destruct Hns as [->|Hns]; try subst n; try (exfalso; injection Hn; lia);
    repeat (destruct a as [|? a]; try done); by eexists.
Qed.

(** socketcall reads only the argument words it copied: for each of the twenty calls the
    table gives the number of words the call uses, at most six; a call number out of range
    is refused with EINVAL, memory that cannot be read with EFAULT, and otherwise a call is
    made, unless the audit of the arguments fails. *)
Theorem socketcall_args e call args s :
  exists r, socketcall e call args s = Some r /\
    (call < 1 \/ 20 < call -> r = inl (- EINVAL)) /\
    (1 <= call <= 20 -> exists n, nargs !! Z.to_nat call = Some (8 * Z.of_nat n) /\ (n <= 6)%nat /\
       match copy_from_user (mem s) args (8 * n) with
       | (l, O) => if audit (base e) =? 0 then exists d, r = inr d /\ dispatch call (words l) = Some r
                   else r = inl (audit (base e))
       | _ => r = inl (- EFAULT)
       end).
Proof.
  unfold socketcall. destruct (Z.ltb_spec call 1); [exists (inl (- EINVAL)); split_and!; [done|done|lia]|].
  destruct (Z.ltb_spec SYS_SENDMMSG call); unfold SYS_SENDMMSG in *;
    [exists (inl (- EINVAL)); split_and!; [done|done|lia]|]. cbn [orb].
  assert (exists n, nargs !! Z.to_nat call = Some (8 * Z.of_nat n) /\ (n <= 6)%nat) as (n & Hn & Hn6).
  { destruct (nargs !! Z.to_nat call) as [len|] eqn:E.
    - apply list_elem_of_lookup_2, list_elem_of_In, in_map_iff in E as (k & <- & Hk).
      exists (Z.to_nat k). simpl in Hk. split; [f_equal|]; lia.
    - apply lookup_ge_None in E. change (length nargs) with 21%nat in E. lia. }
  rewrite Hn. cbn [mbind option_bind]. unfold ARGS_SIZE. destruct (Z.ltb_spec 48 (8 * Z.of_nat n)); [lia|].
  replace (Z.to_nat (8 * Z.of_nat n)) with (8 * n)%nat by lia.
  destruct (copy_from_user (mem s) args (8 * n)) as [l [|k]] eqn:Ec.
  - pose proof (Calls.copy_from_user_all _ _ _ _ Ec) as [Hl _]. unfold ztrue.
    destruct (Z.eqb_spec (audit (base e)) 0) as [e0|]; cbn [negb].
    + destruct (dispatch_defined call n (words l)) as [d Hd]; [unfold SYS_SENDMMSG; lia|done|by apply words_length|].
      exists (inr d). split_and!; [done|lia|]. intros _. exists n. rewrite Ec. split_and!; try done. by exists d.
    + exists (inl (audit (base e))). split_and!; [done|lia|]. intros _. exists n. rewrite Ec. done.
  - exists (inl (- EFAULT)). split_and!; [done|lia|]. intros _. exists n. by rewrite Ec.
Qed.
