(* ===== verification/SockDefaults.v ===== *)
(** * Routes, counters, time stamps and default operations of sockets
    (src/kvm/linux-5.15.178/net/core/sock.c)

    [Route]: the route a socket caches and the references to it.  [Inuse]: the counters of
    sockets per processor and the tables they are kept in.  [Stamp]: the time of the last
    packet.  [Callbacks]: the default operations and the wake-ups.  [Release]:
    sk_common_release and the memory report.  [Orphan]: packets that leave their sender's
    account early.  [ProtoFile]: /proc/net/protocols. *)

From stdpp Require Import gmultiset.
From S2P Require Import Prelude SockOpt ProcStatus.

Module Route.

(** What sk_setup_caps sets, and the bits it works with (include/linux/netdev_features.h). *)
Record bits := Bits { GSO : Z; GSO_SOFTWARE : Z; GSO_MASK : Z; SG : Z; HW_CSUM : Z }.
Record caps := Caps { route_caps : Z; gso_max_size : Z; gso_max_segs : Z }.

(** A socket's route: the cache, whether a confirmation is pending, the transmit queue; and
    the references that exist to routes, by route. *)
Record rworld := RWorld {
  sk_dst_cache : option nat;
  sk_dst_pending_confirm : bool;
  sk_tx_queue_mapping : option Z;
  refs : gmultiset nat
}.

Definition cache_refs (o : option nat) : gmultiset nat :=
  match o with Some d => {[+ d +]} | None => ∅ end.

(** The reference conventions of include/net/dst.h and include/net/sock.h: a route is used
    with a reference, which dst_release gives back; [None] is a release without one. *)
Class DstOps := {
  dst_release : nat -> rworld -> option rworld;
  sk_dst_get : rworld -> option nat * rworld;
  sk_dst_set : option nat -> rworld -> option rworld
}.
Class DstLaws `{DstOps} := {
  release_held : forall d w, d ∈ refs w -> exists w', dst_release d w = Some w' /\
    w' = RWorld (sk_dst_cache w) (sk_dst_pending_confirm w) (sk_tx_queue_mapping w)
           (refs w ∖ {[+ d +]});
  get_refs : forall w, sk_dst_get w =
    (sk_dst_cache w, RWorld (sk_dst_cache w) (sk_dst_pending_confirm w) (sk_tx_queue_mapping w)
                       (refs w ⊎ cache_refs (sk_dst_cache w)));
  set_cache : forall o w, cache_refs (sk_dst_cache w) ⊆ refs w ->
    sk_dst_set o w = Some (RWorld o false None (refs w ∖ cache_refs (sk_dst_cache w)))
}.

Section Route.
Context `{DstLaws}.
(** [obsolete d]: dst->obsolete; [check d cookie]: dst->ops->check finds a valid route. *)
Context (obsolete : nat -> bool) (check : nat -> Z -> bool).

(** __sk_dst_check *)
Definition __sk_dst_check (cookie : Z) (w : rworld) : option (option nat * rworld) :=
  match sk_dst_cache w with
  | Some d =>
      if obsolete d && negb (check d cookie) then
        w' ← dst_release d (RWorld None false None (refs w)); Some (None, w')
      else Some (Some d, w)
  | None => Some (None, w)
  end.

(** sk_dst_check; sk_dst_reset sets the cache to no route. *)
Definition sk_dst_check (cookie : Z) (w : rworld) : option (option nat * rworld) :=
  match sk_dst_get w with
  | (Some d, w) =>
      if obsolete d && negb (check d cookie) then
        w ← sk_dst_set None w; w ← dst_release d w; Some (None, w)
      else Some (Some d, w)
  | (None, w) => Some (None, w)
  end.

(** sk_setup_caps: the capabilities for the route, whose device has [features]. *)
Definition setup_route_caps (b : bits) (features forced nocaps max_size max_segs : Z)
    (can_gso : Z -> bool) (header_len : Z) (offload_ok : bool) (c : caps) : caps :=
  let rc := Z.lor features forced in
  let rc := if flag rc (GSO b) then Z.lor rc (GSO_SOFTWARE b) else rc in
  let rc := Z.land rc (Z.lnot nocaps) in
  if can_gso rc then
    if ztrue header_len && negb offload_ok
    then Caps (Z.land rc (Z.lnot (GSO_MASK b))) (gso_max_size c) 1
    else Caps (Z.lor rc (Z.lor (SG b) (HW_CSUM b))) max_size (Z.max max_segs 1)
  else Caps rc (gso_max_size c) 1.

Definition sk_setup_caps (b : bits) (features forced nocaps max_size max_segs : Z)
    (can_gso : Z -> bool) (header_len : Z) (offload_ok : bool) (d : nat) (c : caps) (w : rworld)
    : option (caps * rworld) :=
  let c := setup_route_caps b features forced nocaps max_size max_segs can_gso header_len offload_ok c in
  w ← sk_dst_set (Some d) w; Some (c, w).

(** ** References in any order of calls *)

(** What the users of a socket do: find a route (with a reference to it), give it to the
    socket, ask for the cached one with or without a reference of their own, give a
    reference back.  [held] are the references of the users. *)
Inductive rcall := CLookup (d : nat) | CSetup (d : nat) | CCheck (cookie : Z) | CCheckLocked (cookie : Z) | CPut (d : nat).

Definition rexec (c : rcall) (s : rworld * gmultiset nat) : option (rworld * gmultiset nat) :=
  let '(w, held) := s in
  match c with
  | CLookup d =>
      Some (RWorld (sk_dst_cache w) (sk_dst_pending_confirm w) (sk_tx_queue_mapping w)
              (refs w ⊎ {[+ d +]}), held ⊎ {[+ d +]})
  | CSetup d => w ← sk_dst_set (Some d) w; Some (w, held ∖ {[+ d +]})
  | CCheck k => '(o, w) ← sk_dst_check k w; Some (w, held ⊎ cache_refs o)
  | CCheckLocked k => '(_, w) ← __sk_dst_check k w; Some (w, held)
  | CPut d => w ← dst_release d w; Some (w, held ∖ {[+ d +]})
  end.

(** Users give away only references they have. *)
Definition allowed (c : rcall) (held : gmultiset nat) : Prop :=
  match c with CSetup d | CPut d => d ∈ held | _ => True end.

Inductive rruns : list rcall -> rworld * gmultiset nat -> option (rworld * gmultiset nat) -> Prop :=
| rr_nil s : rruns [] s (Some s)
| rr_ok c cs s s' o : allowed c s.2 -> rexec c s = Some s' -> rruns cs s' o -> rruns (c :: cs) s o
| rr_bad c cs s : allowed c s.2 -> rexec c s = None -> rruns (c :: cs) s None.

(** Every reference is the socket's or a user's. *)
Definition counted (s : rworld * gmultiset nat) : Prop :=
  refs s.1 = cache_refs (sk_dst_cache s.1) ⊎ s.2.

Lemma release_eq d cache p q (r : gmultiset nat) :
  d ∈ r -> dst_release d (RWorld cache p q r) = Some (RWorld cache p q (r ∖ {[+ d +]})).
Proof. intros Hd. by destruct (release_held d (RWorld cache p q r) Hd) as (? & -> & ->). Qed.

Lemma rexec_counted c s :
  allowed c s.2 -> counted s -> exists s', rexec c s = Some s' /\ counted s'.
Proof.
  destruct s as [[cache p q r] held]. unfold counted. simpl. intros Ha ->.
  destruct c as [d|d|k|k|d]; simpl in *.
  - eexists. split; [done|]. simpl. multiset_solver.
  - rewrite set_cache by (simpl; multiset_solver). eexists. split; [done|]. simpl. multiset_solver.
  - unfold sk_dst_check. rewrite get_refs. simpl. destruct cache as [d|]; simpl.
    + destruct (obsolete d && negb (check d k)); simpl; [|eexists; split; [done|]; simpl; multiset_solver].
      rewrite set_cache by (simpl; multiset_solver). simpl.
      rewrite release_eq by multiset_solver. eexists. split; [done|]. simpl. multiset_solver.
    + eexists. split; [done|]. simpl. multiset_solver.
  - unfold __sk_dst_check. simpl. destruct cache as [d|]; simpl; [|by eexists].
    destruct (obsolete d && negb (check d k)); simpl; [|by eexists].
    rewrite release_eq by multiset_solver. eexists. split; [done|]. simpl. multiset_solver.
  - rewrite release_eq by multiset_solver. eexists. split; [done|]. simpl. multiset_solver.
Qed.

(** References to routes balance: however the checks of the cached route, new routes
    and releases are interleaved, no release is made without a reference, and the
    references that exist are the socket's one for its cached route and those its users
    still hold; when they hold none and the cache is empty, none is left. *)
Theorem route_references_balanced cs o :
  rruns cs (RWorld None false None ∅, ∅) o ->
  exists w held, o = Some (w, held) /\ refs w = cache_refs (sk_dst_cache w) ⊎ held /\
  (sk_dst_cache w = None -> held = ∅ -> refs w = ∅).
Proof.
  intros Hr. remember (RWorld None false None ∅, ∅) as s eqn:Es.
  assert (counted s) as Hc by (subst; unfold counted; simpl; multiset_solver). clear Es.
  induction Hr as [[w held]|c cs s s' o Ha He Hr IH|c cs s Ha He].
  - exists w, held. unfold counted in Hc. simpl in Hc. split_and!; [done..|].
    intros E ->. rewrite Hc, E. multiset_solver.
  - destruct (rexec_counted c s Ha Hc) as (s1 & E & Hc1). simplify_eq. by apply IH.
  - destruct (rexec_counted c s Ha Hc) as (s1 & E & Hc1). congruence.
Qed.
End Route.

(** A capability the socket refuses is offered after sk_setup_caps only if it is one of the
    two that segmentation switches on, and then only if the socket can segment; the number
    of segments is at least one. *)
Theorem refused_caps b features forced nocaps max_size max_segs can_gso header_len offload_ok c :
  let c' := setup_route_caps b features forced nocaps max_size max_segs can_gso header_len offload_ok c in
  1 <= gso_max_segs c' /\
  forall n, 0 <= n -> Z.testbit (route_caps c') n = true -> Z.testbit nocaps n = true ->
    (exists rc, can_gso rc = true) /\ (Z.testbit (SG b) n || Z.testbit (HW_CSUM b) n = true).
Proof.
  simpl. unfold setup_route_caps. cbv zeta. set (rc0 := if flag _ _ then _ else _).
  destruct (can_gso (Z.land rc0 (Z.lnot nocaps))) eqn:G; [destruct (_ && _)|]; cbn [gso_max_segs route_caps];
    (split; [lia|]); intros n Hn H1 H2; revert H1;
    rewrite ?Z.lor_spec, ?Z.land_spec, ?Z.lnot_spec, ?H2, ?andb_false_r by done; cbn [negb];
    rewrite ?andb_false_r; cbn [orb andb]; intros H1; try discriminate. by eauto.
Qed.

(** Routes as a heap of counters meet the conventions. *)
Definition map_release (d : nat) (w : rworld) : option rworld :=
  if decide (d ∈ refs w) then
    Some (RWorld (sk_dst_cache w) (sk_dst_pending_confirm w) (sk_tx_queue_mapping w) (refs w ∖ {[+ d +]}))
  else None.
#[export] Instance map_dst : DstOps := {
  dst_release := map_release;
  sk_dst_get w := (sk_dst_cache w, RWorld (sk_dst_cache w) (sk_dst_pending_confirm w)
                     (sk_tx_queue_mapping w) (refs w ⊎ cache_refs (sk_dst_cache w)));
  sk_dst_set o w :=
    match sk_dst_cache w with
    | Some d => map_release d (RWorld o false None (refs w))
    | None => Some (RWorld o false None (refs w))
    end
}.
#[export] Instance map_dst_laws : DstLaws.
Proof.
  split.
  - intros d w Hd. simpl. unfold map_release. rewrite decide_True by done. by eexists.
  - done.
  - intros o w Hc. simpl. unfold map_release. destruct (sk_dst_cache w) as [d|]; simpl in *.
    + rewrite decide_True by multiset_solver. done.
    + f_equal. f_equal. multiset_solver.
Qed.

(** A route is found and cached; a user asks for it, then it becomes invalid and the next
    check drops it. *)
Lemma route_references_balanced_witness :
  exists w held, rruns (fun _ => true) (fun _ k => k =? 0)
    [CLookup 7; CSetup 7; CCheck 0; CCheck 1] (RWorld None false None ∅, ∅) (Some (w, held)) /\
  sk_dst_cache w = None /\ refs w = cache_refs (sk_dst_cache w) ⊎ held.
Proof.
  assert (exists w held, rruns (fun _ => true) (fun _ k => k =? 0)
    [CLookup 7; CSetup 7; CCheck 0; CCheck 1] (RWorld None false None ∅, ∅) (Some (w, held)) /\
    sk_dst_cache w = None) as (w & held & Hr & Hc).
  { eexists _, _. split.
    - eapply rr_ok; [exact I|reflexivity|]. eapply rr_ok; [|reflexivity|]; [simpl; multiset_solver|].
      eapply rr_ok; [exact I|reflexivity|]. eapply rr_ok; [exact I|vm_compute; reflexivity|].
      apply rr_nil.
    - reflexivity. }
  exists w, held. split_and!; [exact Hr|exact Hc|].
  destruct (route_references_balanced (fun _ => true) (fun _ k => k =? 0) _ _ Hr)
    as (w' & h' & E & B & _). injection E as <- <-. exact B.
Defined.
End Route.

Module Inuse.

(** sock_inuse_get: the counters of all processors, added as int. *)
Fixpoint sum_cpus (cpus : list Z) (res : Z) : Z :=
  match cpus with [] => res | v :: cpus => sum_cpus cpus (wraps 32 (res + v)) end.
Definition sock_inuse_get (cpus : list Z) : Z := sum_cpus cpus 0.

(** The two per-processor tables of a namespace, and how many such tables are allocated. *)
Record net := Net { prot_inuse : bool; sock_inuse : bool; percpu : Z }.

Definition sock_inuse_init_net (prot_ok sock_ok : bool) (n : net) : Z * net :=
  if negb prot_ok then (- ENOMEM, Net false (sock_inuse n) (percpu n))
  else if negb sock_ok then (- ENOMEM, Net true false (percpu n + 1 - 1))
  else (0, Net true true (percpu n + 2)).
Definition sock_inuse_exit_net (n : net) : net :=
  Net (prot_inuse n) (sock_inuse n) (percpu n - b2z (prot_inuse n) - b2z (sock_inuse n)).

(** Sockets come and go on any processor: each adds 1 or -1 to its own counter, an int. *)
Inductive isteps (n : nat) : Z -> list Z -> Prop :=
| i_init : isteps n 0 (replicate n 0)
| i_add live cpus i v d : isteps n live cpus -> cpus !! i = Some v -> d = 1 \/ d = -1 ->
    isteps n (live + d) (<[i := wraps 32 (v + d)]> cpus).

Lemma sum_cpus_mod cpus : forall res, sum_cpus cpus (wraps 32 res) = wraps 32 (res + foldr Z.add 0 cpus).
Proof.
  induction cpus as [|v cpus IH]; intros res; simpl; [by rewrite Z.add_0_r|].
  rewrite wraps_add_l by lia. rewrite IH. f_equal. lia.
Qed.

Lemma sum_insert cpus : forall i v x, cpus !! i = Some v ->
  foldr Z.add 0 (<[i := x]> cpus) = foldr Z.add 0 cpus - v + x.
Proof.
  induction cpus as [|w cpus IH]; intros [|i] v x E; simplify_eq/=; [lia|]. rewrite (IH i v x E). lia.
Qed.

(** The number of sockets in use is exact: although sockets are counted on one
    processor and uncounted on another, so that single counters go negative or wrap, the
    sum is the number of sockets that exist, as long as that fits an int. *)
Theorem inuse_exact n live cpus :
  isteps n live cpus -> in_s 32 live -> sock_inuse_get cpus = live.
Proof.
  intros Hs Hl. unfold sock_inuse_get. change 0 with (wraps 32 0) at 1. rewrite sum_cpus_mod.
  rewrite <- (wraps_id 32 live) by (done || lia). clear Hl. rewrite Z.add_0_l.
  induction Hs as [|live cpus i v d Hs IH E _].
  - f_equal. clear. induction n as [|n IH]; simpl; [done|]. by rewrite IH.
  - rewrite (sum_insert _ _ _ _ E). 
    replace (foldr Z.add 0 cpus - v + wraps 32 (v + d)) with (wraps 32 (v + d) + (foldr Z.add 0 cpus - v)) by lia.
    rewrite wraps_add_l by lia. replace (v + d + (foldr Z.add 0 cpus - v)) with (foldr Z.add 0 cpus + d) by lia.
    rewrite <- (wraps_add_l 32 (foldr Z.add 0 cpus)), IH, wraps_add_l by lia. done.
Qed.

(** A socket made on processor 0 and freed on processor 1, and one more: counters 2 and -1. *)
Lemma inuse_exact_witness : sock_inuse_get [2; -1] = 1.
Proof.
  apply (inuse_exact 2 1 [2; -1]); [|unfold in_s; lia].
  change [2; -1] with (<[1%nat := wraps 32 (0 + -1)]> [2; 0]). change 1 with (2 + -1) at 1.
  eapply i_add; [|done|by right].
  change [2; 0] with (<[0%nat := wraps 32 (1 + 1)]> [1; 0]). change 2 with (1 + 1) at 1.
  eapply i_add; [|done|by left].
  change [1; 0] with (<[0%nat := wraps 32 (0 + 1)]> [0; 0]). change 1 with (0 + 1) at 1.
  eapply i_add; [|done|by left]. apply (i_init 2).
Defined.

(** A namespace that cannot be set up keeps no table, one that is taken down none either. *)
Theorem inuse_tables prot_ok sock_ok n :
  let '(r, n') := sock_inuse_init_net prot_ok sock_ok n in
  (r = 0 /\ percpu n' = percpu n + 2 /\ percpu (sock_inuse_exit_net n') = percpu n) \/
  (r = - ENOMEM /\ percpu n' = percpu n).
Proof.
  unfold sock_inuse_init_net, sock_inuse_exit_net.
  destruct prot_ok, sock_ok; simpl; [left|right..]; split_and!; lia.
Qed.
End Inuse.

Module Stamp.
Import Options.
Definition ENOENT : Z := 2.
Definition NSEC_PER_SEC : Z := 1000000000.

Section Stamp.
(** ktime_to_timespec64 (kernel/time): seconds and the nanoseconds within the second. *)
Context (ktime_to_timespec64 : Z -> Z * Z).
Context (Htime : forall t, let '(sec, nsec) := ktime_to_timespec64 t in
  t = sec * NSEC_PER_SEC + nsec /\ 0 <= nsec < NSEC_PER_SEC).

(** What is written for the user, by put_old_timespec32 or put_timespec64. *)
Record put := Put { old32 : bool; tv_sec : Z; tv_nsec : Z }.

(** sock_gettstamp, with the socket and its sk_stamp; [put_result] is the result of the
    write, [now] that of ktime_get_real, [compat32] is CONFIG_COMPAT_32BIT_TIME. *)
Definition sock_gettstamp (compat32 : bool) (now : Z) (put_result : put -> Z) (timeval time32 : bool)
    (sk : sock) (sk_stamp : Z) : Z * option put * sock * Z :=
  let sk := sock_enable_timestamp SOCK_TIMESTAMP sk in
  let '(sec, nsec) := ktime_to_timespec64 sk_stamp in
  if sec =? -1 then (- ENOENT, None, sk, sk_stamp)
  else
  let stamp := if sec =? 0 then now else sk_stamp in
  let '(sec, nsec) := ktime_to_timespec64 stamp in
  let nsec := if timeval then Z.quot nsec 1000 else nsec in
  let p := Put (compat32 && time32) sec nsec in
  (put_result p, Some p, sk, stamp).

Lemma enable_twice sk :
  sock_enable_timestamp SOCK_TIMESTAMP (sock_enable_timestamp SOCK_TIMESTAMP sk) =
  sock_enable_timestamp SOCK_TIMESTAMP sk.
Proof.
  assert (ztrue (sock_enable_timestamp SOCK_TIMESTAMP sk SOCK_TIMESTAMP) = true) as E.
  { unfold sock_enable_timestamp. destruct (ztrue (sk SOCK_TIMESTAMP)) eqn:F; cbn [negb]; [done|].
    by destruct (_ && _). }
  unfold sock_enable_timestamp at 1. by rewrite E.
Qed.

Lemma sec_of t sec : fst (ktime_to_timespec64 t) = sec <-> sec * NSEC_PER_SEC <= t < (sec + 1) * NSEC_PER_SEC.
Proof.
  specialize (Htime t). destruct (ktime_to_timespec64 t) as [s n]. simpl. unfold NSEC_PER_SEC in *.
  split; [intros ->|intros]; lia.
Qed.

(** The time of the last packet: asking for it turns time stamps on; a socket that was
    never stamped answers -ENOENT; a stamp of zero is replaced by the time of the call, once;
    otherwise the answer is the stamp, the fraction within a second, and asking again gives
    the same answer and changes nothing. *)
Theorem gettstamp_stable compat32 now now' put_result timeval time32 sk stamp :
  NSEC_PER_SEC <= now ->
  let '(r, o, sk', stamp') := sock_gettstamp compat32 now put_result timeval time32 sk stamp in
  sk' = sock_enable_timestamp SOCK_TIMESTAMP sk /\
  match o with
  | None => - NSEC_PER_SEC <= stamp < 0 /\ r = - ENOENT /\ stamp' = stamp
  | Some p =>
      r = put_result p /\ stamp' = (if 0 <=? stamp then if stamp <? NSEC_PER_SEC then now else stamp else stamp) /\
      stamp' = tv_sec p * NSEC_PER_SEC + (stamp' mod NSEC_PER_SEC) /\
      0 <= tv_nsec p < (if timeval then 1000000 else NSEC_PER_SEC) /\
      sock_gettstamp compat32 now' put_result timeval time32 sk' stamp' = (r, o, sk', stamp')
  end.
Proof.
  intros Hnow. unfold sock_gettstamp at 1.
  pose proof (sec_of stamp (-1)) as Em. pose proof (sec_of stamp 0) as Ez. pose proof (Htime stamp) as Hs.
  destruct (ktime_to_timespec64 stamp) as [sec nsec] eqn:Es. simpl in Em, Ez.
  destruct (Z.eqb_spec sec (-1)) as [->|Hm].
  { split; [done|]. unfold NSEC_PER_SEC in *. split_and!; [lia..|done|done]. }
  set (st := if sec =? 0 then now else stamp).
  pose proof (Htime st) as Ht. pose proof (sec_of st (-1)) as Tm. pose proof (sec_of st 0) as Tz.
  assert (st = if 0 <=? stamp then if stamp <? NSEC_PER_SEC then now else stamp else stamp) as Est.
  { unfold st. destruct (Z.eqb_spec sec 0), (Z.leb_spec 0 stamp), (Z.ltb_spec stamp NSEC_PER_SEC);
      unfold NSEC_PER_SEC in *; lia. }
  assert (fst (ktime_to_timespec64 st) <> -1 /\ fst (ktime_to_timespec64 st) <> 0) as [N1 N0].
  { rewrite Est in *. unfold NSEC_PER_SEC in *. split; intros E; [apply Tm in E|apply Tz in E];
      destruct (Z.leb_spec 0 stamp), (Z.ltb_spec stamp 1000000000); lia. }
  destruct (ktime_to_timespec64 st) as [s n] eqn:Et. simpl in N1, N0. split; [done|]. split; [done|].
  split; [done|]. cbn [tv_sec tv_nsec]. split_and!.
  - destruct Ht as [-> Hn]. rewrite Z.add_comm at 2. rewrite Z.mod_add, Z.mod_small by (done || lia). lia.
  - unfold NSEC_PER_SEC in *. destruct timeval; [|lia]. apply Z.quot_pos; lia.
  - unfold NSEC_PER_SEC in *. destruct timeval; [|lia]. apply Z.quot_lt_upper_bound; lia.
  - unfold sock_gettstamp. rewrite enable_twice, Et. destruct (Z.eqb_spec s (-1)); [done|].
    destruct (Z.eqb_spec s 0); [done|]. by rewrite Et.
Qed.
End Stamp.

Definition floor_time (t : Z) : Z * Z := (t / NSEC_PER_SEC, t mod NSEC_PER_SEC).

Lemma gettstamp_stable_witness :
  sock_gettstamp floor_time true (5 * NSEC_PER_SEC) (fun _ => 0) true false (fun _ => 0) 0 =
    (0, Some (Put false 5 0), sock_enable_timestamp SOCK_TIMESTAMP (fun _ => 0), 5 * NSEC_PER_SEC) /\
  sock_gettstamp floor_time true (9 * NSEC_PER_SEC) (fun _ => 0) true false
    (sock_enable_timestamp SOCK_TIMESTAMP (fun _ => 0)) (5 * NSEC_PER_SEC) =
    (0, Some (Put false 5 0), sock_enable_timestamp SOCK_TIMESTAMP (fun _ => 0), 5 * NSEC_PER_SEC).
Proof.
  assert (forall t, let '(sec, nsec) := floor_time t in
    t = sec * NSEC_PER_SEC + nsec /\ 0 <= nsec < NSEC_PER_SEC) as Hf.
  { intros t. simpl. pose proof (Z.div_mod t NSEC_PER_SEC). pose proof (Z.mod_pos_bound t NSEC_PER_SEC).
    unfold NSEC_PER_SEC in *. lia. }
  split; [done|].
  exact (proj2 (proj2 (proj2 (proj2 (proj2 (gettstamp_stable floor_time Hf true (5 * NSEC_PER_SEC)
    (9 * NSEC_PER_SEC) (fun _ => 0) true false (fun _ => 0) 0 ltac:(unfold NSEC_PER_SEC; lia))))))).
Defined.
End Stamp.

Module Callbacks.

(** The default operations that only refuse. *)
Inductive sock_op :=
| OpBind | OpConnect | OpSocketpair | OpAccept | OpGetname | OpIoctl | OpListen | OpShutdown
| OpSendmsg | OpSendmsgLocked | OpRecvmsg | OpMmap.
Definition EOPNOTSUPP : Z := 95.
Definition ENODEV : Z := 19.
Definition sock_no (o : sock_op) : Z :=
  match o with OpMmap => - ENODEV | _ => - EOPNOTSUPP end.

(** sock_no_sendpage: the page is mapped while the message is sent from it; [mapped] counts
    mappings, [kernel_sendmsg] sends the bytes at an address. *)
Definition sock_no_sendpage (kernel_sendmsg : Z -> Z -> Z -> Z) (kmap : Z) (offset size flags : Z)
    (mapped : Z) : Z * Z :=
  let mapped := mapped + 1 in
  let res := kernel_sendmsg flags (wrapu 64 (kmap + offset)) size in
  (res, mapped - 1).

(** Wake-ups: of all sleepers, of those polling for some events, and signals. *)
Inductive band := POLL_IN | POLL_OUT | POLL_ERR.
Inductive how := SOCK_WAKE_IO | SOCK_WAKE_WAITD | SOCK_WAKE_SPACE.
Inductive wake := WakeAll | WakePoll (events : Z) | WakeAsync (h : how) (b : band).

Definition EPOLLIN : Z := 0x1.
Definition EPOLLPRI : Z := 0x2.
Definition EPOLLOUT : Z := 0x4.
Definition EPOLLERR : Z := 0x8.
Definition EPOLLRDNORM : Z := 0x40.
Definition EPOLLRDBAND : Z := 0x80.
Definition EPOLLWRNORM : Z := 0x100.
Definition EPOLLWRBAND : Z := 0x200.

Definition sock_def_wakeup (sleeper : bool) : list wake := if sleeper then [WakeAll] else [].
Definition sock_def_error_report (sleeper : bool) : list wake :=
  (if sleeper then [WakePoll EPOLLERR] else []) ++ [WakeAsync SOCK_WAKE_IO POLL_ERR].
Definition sock_def_readable (sleeper : bool) : list wake :=
  (if sleeper then [WakePoll (Z.lor EPOLLIN (Z.lor EPOLLPRI (Z.lor EPOLLRDNORM EPOLLRDBAND)))] else [])
  ++ [WakeAsync SOCK_WAKE_WAITD POLL_IN].

Section WriteSpace.
(** sock_writeable (include/net/sock.h) *)
Context (sock_writeable : Z -> Z -> bool).

(** sock_def_write_space: the doubled count is an unsigned int, with which sk_sndbuf, an
    int, is compared as unsigned. *)
Definition write_events : Z := Z.lor EPOLLOUT (Z.lor EPOLLWRNORM EPOLLWRBAND).
Definition sock_def_write_space (sleeper : bool) (wmem_alloc sndbuf : Z) : list wake :=
  if wrapu 32 (Z.shiftl wmem_alloc 1) <=? wrapu 32 sndbuf then
    (if sleeper then [WakePoll write_events] else []) ++
    (if sock_writeable wmem_alloc sndbuf then [WakeAsync SOCK_WAKE_SPACE POLL_OUT] else [])
  else [].

(** ** Writers that sleep

    Any number of writers and of processors that free packets, one access to the count
    after the other.  A writer (sock_alloc_send_pskb and sock_wait_for_wmem) compares the
    count with the buffer, allocates and charges its packet, or puts itself on the wait
    queue, compares again, and sleeps; a wake-up between the two makes it go round once
    more.  A freeing processor (sock_wfree with the default callback) has subtracted all
    but one byte of its packet ([Sub]), has read the count and compared it ([Seen]), or
    has woken the queue and has the last byte to subtract ([Last]). *)
Inductive wphase := Run | Alloc | Want | Queued | Woken | Asleep.
Inductive fphase := Sub | Seen (wakes : bool) | Last.
Record wstate := WState { count : Z; flight : list Z; freers : list fphase; writers : gmap Z wphase }.

Definition woken (l : list wake) : bool := existsb (fun w => match w with WakePoll _ => true | _ => false end) l.
(** Waking the queue; nobody is woken when nobody is on it, so the test for sleepers and
    the wake-up are one step. *)
Definition wake_one (p : wphase) : wphase := match p with Queued => Woken | Asleep => Want | _ => p end.
Definition set_writer (t : Z) (p : wphase) (s : wstate) : wstate :=
  WState (count s) (flight s) (freers s) (<[t:=p]> (writers s)).

(** What a writer does next, alone; [charge] is the size of the packet it allocates, if it
    can.  sk_wmem_alloc_get leaves out the reference of the socket itself, refcount_read
    does not. *)
Definition writer_step (sndbuf : Z) (charge : option Z) (t : Z) (s : wstate) : option wstate :=
  match writers s !! t with
  | None => None
  | Some Run => Some (set_writer t (if count s - 1 <? sndbuf then Alloc else Want) s)
  | Some Alloc =>
      match charge with
      | Some z => Some (WState (count s + z) (z :: flight s) (freers s) (<[t:=Run]> (writers s)))
      | None => Some (set_writer t Run s)
      end
  | Some Want => Some (set_writer t Queued s)
  | Some Queued => Some (set_writer t (if count s <? sndbuf then Run else Asleep) s)
  | Some Woken => Some (set_writer t (if count s <? sndbuf then Run else Want) s)
  | Some Asleep => None
  end.
(** What the freeing processor between [f1] and [f2] does next. *)
Definition freer_step (sndbuf : Z) (f1 : list fphase) (p : fphase) (f2 : list fphase) (s : wstate) : wstate :=
  match p with
  | Sub => WState (count s) (flight s) (f1 ++ Seen (woken (sock_def_write_space true (count s) sndbuf)) :: f2) (writers s)
  | Seen wakes => WState (count s) (flight s) (f1 ++ Last :: f2) (if wakes then wake_one <$> writers s else writers s)
  | Last => WState (count s - 1) (flight s) (f1 ++ f2) (writers s)
  end.

(** At most [K] processors free packets at the same time. *)
Inductive wstep (K : nat) (sndbuf : Z) : wstate -> wstate -> Prop :=
| w_writer t charge s s' :
    (forall z, charge = Some z -> 1 <= z /\ count s + z < 2 ^ 31) ->
    writer_step sndbuf charge t s = Some s' -> wstep K sndbuf s s'
| w_signal t s : writers s !! t = Some Asleep -> wstep K sndbuf s (set_writer t Run s)
| w_free z l1 l2 s : flight s = l1 ++ z :: l2 -> (length (freers s) < K)%nat ->
    wstep K sndbuf s (WState (count s - (z - 1)) (l1 ++ l2) (Sub :: freers s) (writers s))
| w_freer f1 p f2 s : freers s = f1 ++ p :: f2 -> wstep K sndbuf s (freer_step sndbuf f1 p f2 s).

(** Some processor is still to wake the queue, or to find out whether it must. *)
Definition pending (s : wstate) : Prop := Exists (fun p => p = Sub \/ p = Seen true) (freers s).
Definition in_flight (s : wstate) : Z := foldr Z.add 0 (flight s).

Record winv (K : nat) (sndbuf : Z) (s : wstate) : Prop := WInv {
  wi_sizes : Forall (fun t => 1 <= t) (flight s);
  wi_count : count s = 1 + in_flight s + Z.of_nat (length (freers s));
  wi_bound : count s < 2 ^ 31;
  wi_freers : (length (freers s) <= K)%nat;
  wi_sleep : forall t, writers s !! t = Some Asleep ->
    pending s \/ sndbuf < 2 * (1 + in_flight s + Z.of_nat K)
}.

Lemma sum_pos l : Forall (fun t => 1 <= t) l -> 0 <= foldr Z.add 0 l.
Proof. induction 1; simpl; lia. Qed.

Lemma write_space_wakes w sndbuf :
  0 <= w < 2 ^ 31 -> 0 <= sndbuf < 2 ^ 31 ->
  woken (sock_def_write_space true w sndbuf) = (2 * w <=? sndbuf).
Proof.
  intros Hw Hs. unfold sock_def_write_space. rewrite Z.shiftl_mul_pow2 by lia.
  rewrite !wrapu_id by (unfold in_u; lia). replace (w * 2 ^ 1) with (2 * w) by lia.
  destruct (2 * w <=? sndbuf); [|done]. by destruct (sock_writeable w sndbuf).
Qed.

(** A writer changes phase: only going to sleep matters. *)
Lemma set_writer_inv K sndbuf t p s : winv K sndbuf s -> 0 <= sndbuf ->
  (p = Asleep -> sndbuf <= count s) -> winv K sndbuf (set_writer t p s).
Proof.
  intros [Hs Hc Hb Hf Hl] Hsnd Hp. pose proof (sum_pos _ Hs) as Hpos. unfold in_flight in *.
  split; try done. intros u Hu. simpl in Hu.
  apply lookup_insert_Some in Hu as [[<- ->]|[_ Hu]]; [|by eapply Hl].
  right. unfold in_flight. simpl. specialize (Hp eq_refl). lia.
Qed.

Lemma writer_step_inv K sndbuf charge t s s' : 0 <= sndbuf ->
  (forall z, charge = Some z -> 1 <= z /\ count s + z < 2 ^ 31) ->
  writer_step sndbuf charge t s = Some s' -> winv K sndbuf s -> winv K sndbuf s'.
Proof.
  intros Hsnd Hz E I. unfold writer_step in E. destruct (writers s !! t) as [[]|]; simplify_eq.
  - apply set_writer_inv; [done..|]. by destruct (_ <? _).
  - destruct charge as [z|]; simplify_eq; [|by apply set_writer_inv].
    destruct I as [Hs Hc Hb Hf Hl], (Hz z eq_refl). split; unfold in_flight in *; simpl in *; [by constructor|lia|lia|done|].
    intros u [[_ ?]|[_ Hu]]%lookup_insert_Some; [done|]. destruct (Hl u Hu) as [?|?]; [by left|right]. lia.
  - by apply set_writer_inv.
  - apply set_writer_inv; [done..|]. destruct (Z.ltb_spec (count s) sndbuf); [done|lia].
  - apply set_writer_inv; [done..|]. by destruct (_ <? _).
Qed.

Lemma freer_step_inv K sndbuf f1 p f2 s : 0 <= sndbuf < 2 ^ 31 -> freers s = f1 ++ p :: f2 ->
  winv K sndbuf s -> winv K sndbuf (freer_step sndbuf f1 p f2 s).
Proof.
  intros Hsnd Ef [Hs Hc Hb Hf Hl]. pose proof (sum_pos _ Hs) as Hpos. unfold pending in Hl. rewrite Ef in *.
  rewrite length_app in Hc, Hf. simpl in Hc, Hf. unfold in_flight in *.
  destruct p as [|wakes|]; simpl; split; unfold in_flight; simpl; rewrite ?length_app; simpl; try done; try lia.
  - intros t Ht. rewrite write_space_wakes by lia. unfold pending, in_flight; simpl.
    destruct (Z.leb_spec (2 * count s) sndbuf); [|right; lia].
    left. apply Exists_app. right. apply Exists_cons. left. by right.
  - intros t Ht. unfold pending, in_flight; simpl. destruct wakes.
    + rewrite lookup_fmap in Ht. destruct (writers s !! t) as [[]|]; simplify_eq/=.
    + destruct (Hl t Ht) as [H|H]; [left|by right]. rewrite Exists_app, Exists_cons in *. naive_solver.
  - intros t Ht. unfold pending, in_flight; simpl. destruct (Hl t Ht) as [H|H]; [left|by right].
    rewrite Exists_app in *. rewrite Exists_cons in H. naive_solver.
Qed.

Lemma sum_middle l1 z l2 : foldr Z.add 0 (l1 ++ z :: l2) = foldr Z.add 0 (l1 ++ l2) + z.
Proof. induction l1 as [|x l1 IH]; simpl in *; lia. Qed.

Lemma wstep_inv K sndbuf s s' : 0 <= sndbuf < 2 ^ 31 -> wstep K sndbuf s s' -> winv K sndbuf s -> winv K sndbuf s'.
Proof.
  intros Hsnd Hst I. destruct Hst as [t charge s s' Hz E|t s Ht|z l1 l2 s Ez HK|f1 p f2 s Ef].
  - eapply writer_step_inv; [lia|done..].
  - apply set_writer_inv; [done|lia|done].
  - destruct I as [Hs Hc Hb Hf Hl]. unfold in_flight in *. rewrite Ez in *. rewrite sum_middle in Hc.
    apply Forall_app in Hs as [H1 H2]. inv H2 as [|? ? Ht H2'].
    split; unfold in_flight; simpl; [by apply Forall_app|lia|lia|lia|].
    intros t _. left. unfold pending. simpl. apply Exists_cons. left. by left.
  - by apply freer_step_inv.
Qed.

(** The writers [ws], and nothing sent yet. *)
Definition new_socket (ws : list Z) : wstate := WState 1 [] [] (list_to_map ((fun t => (t, Run)) <$> ws)).

Lemma new_socket_inv K sndbuf ws : winv K sndbuf (new_socket ws).
Proof.
  split; unfold in_flight; simpl; [constructor|done|lia|lia|]. intros t Ht.
  apply elem_of_list_to_map_2 in Ht. apply list_elem_of_fmap in Ht as (u & [=] & _).
Qed.

(** With two processors and a buffer of 5 a wake-up is lost: packets of 3 and 2 bytes are
    freed at the same time, each processor still sees the last byte of the other. *)
Lemma small_buffer_lost : exists s, rtc (wstep 2 5) (new_socket [1; 2]) s /\
  writers s !! 1 = Some Asleep /\ flight s = [] /\ freers s = [].
Proof.
  eexists. split.
  - do 2 (eapply rtc_l; [apply (w_writer _ _ 2 (Some 3)); [intros z [= <-]; simpl; lia|vm_compute; reflexivity]|]).
    do 2 (eapply rtc_l; [apply (w_writer _ _ 2 (Some 2)); [intros z [= <-]; simpl; lia|vm_compute; reflexivity]|]).
    do 3 (eapply rtc_l; [apply (w_writer _ _ 1 None); [done|vm_compute; reflexivity]|]).
    eapply rtc_l; [apply (w_free _ _ 2 [] [3]); [reflexivity|simpl; lia]|].
    eapply rtc_l; [apply (w_free _ _ 3 [] []); [reflexivity|simpl; lia]|].
    eapply rtc_l; [apply (w_freer _ _ [] Sub [Sub]); reflexivity|].
    eapply rtc_l; [apply (w_freer _ _ [Seen false] Sub []); vm_compute; reflexivity|].
    eapply rtc_l; [apply (w_freer _ _ [] (Seen false) [Seen false]); vm_compute; reflexivity|].
    eapply rtc_l; [apply (w_freer _ _ [Last] (Seen false) []); vm_compute; reflexivity|].
    eapply rtc_l; [apply (w_freer _ _ [] Last [Last]); vm_compute; reflexivity|].
    eapply rtc_l; [apply (w_freer _ _ [] Last []); vm_compute; reflexivity|]. apply rtc_refl.
  - vm_compute. done.
Qed.

(** (C39) No writer sleeps for ever, when the buffer is large enough for the processors:
    with a send buffer of at least 2 (1 + K) bytes and at most K processors freeing packets
    at the same time (a socket has at least SOCK_MIN_SNDBUF bytes, thousands), in any
    interleaving of the accesses of any number of writers and freeing processors, while a
    writer sleeps a packet is in flight or a processor is still to wake the queue, and
    unless one is, about half of the buffer is in use; so when everything sent has been
    freed nobody sleeps.  The bound is sharp: with a buffer of 5 and two processors, two
    packets that are freed together leave a writer asleep with nothing in flight. *)
Theorem writers_woken :
  (forall K sndbuf ws s, 2 * (1 + Z.of_nat K) <= sndbuf < 2 ^ 31 ->
     rtc (wstep K sndbuf) (new_socket ws) s ->
     forall t, writers s !! t = Some Asleep ->
       (flight s <> [] \/ pending s) /\
       (pending s \/ sndbuf < 2 * (1 + in_flight s + Z.of_nat K))) /\
  (exists s, rtc (wstep 2 5) (new_socket [1; 2]) s /\
     writers s !! 1 = Some Asleep /\ flight s = [] /\ freers s = []).
Proof.
  split; [|exact small_buffer_lost]. intros K sndbuf ws s Hb Hr t Ht. assert (winv K sndbuf s) as I.
  { clear Ht. revert s Hr. apply (rtc_ind_r (winv K sndbuf)); [apply new_socket_inv|].
    intros s1 s2 _ Hst. apply (wstep_inv K sndbuf s1 s2); [lia|done]. }
  pose proof (wi_sleep _ _ _ I t Ht) as Hs. split; [|done]. destruct Hs as [?|Hs]; [by right|left].
  intros E. unfold in_flight in Hs. rewrite E in Hs. simpl in Hs. lia.
Qed.
End WriteSpace.

(** A packet fills the buffer and the writer sleeps: the packet is still there. *)
Lemma writers_woken_witness :
  exists s, rtc (wstep (fun w b => w <? b / 2) 3 8) (new_socket [1]) s /\ writers s !! 1 = Some Asleep /\
    (flight s <> [] \/ pending s).
Proof.
  assert (exists s, rtc (wstep (fun w b => w <? b / 2) 3 8) (new_socket [1]) s /\ writers s !! 1 = Some Asleep)
    as (s & Hr & Ha).
  { eexists. split.
    - do 2 (eapply rtc_l; [apply (w_writer _ _ _ 1 (Some 10)); [intros z [= <-]; simpl; lia|vm_compute; reflexivity]|]).
      do 3 (eapply rtc_l; [apply (w_writer _ _ _ 1 None); [done|vm_compute; reflexivity]|]). apply rtc_refl.
    - vm_compute. reflexivity. }
  exists s. split; [exact Hr|]. split; [exact Ha|].
  exact (proj1 (proj1 (writers_woken (fun w b => w <? b / 2)) 3%nat 8 [1] s ltac:(lia) Hr 1 Ha)).
Defined.
End Callbacks.

Module Release.

(** A socket that can be found in the hash tables of its protocol: its references, whether
    it is hashed, whether its struct socket still points to it, and what is left to do. *)
Inductive phase := Open | Destroyed | Unhashed | Detached | Orphaned | PolicyFreed | Released.
Record rsock := RSock {
  refcnt : Z; hashed : bool; socket_sk : bool; orphan : bool; policy : bool; freed : Z; at_ : phase
}.
Record who := Who { users : Z; rs : rsock }.

(** sock_put: the last reference frees the socket. *)
Definition sock_put (s : rsock) : rsock :=
  let n := refcnt s - 1 in
  RSock n (hashed s) (socket_sk s) (orphan s) (policy s) (if n =? 0 then freed s + 1 else freed s) (at_ s).

(** sk_common_release, one step after the other: destroy (if the protocol has it), unhash,
    sk_socket->sk = NULL, sock_orphan, xfrm_sk_free_policy, sock_put. *)
Definition sk_common_release (s : rsock) : option rsock :=
  match at_ s with
  | Open => Some (RSock (refcnt s) (hashed s) (socket_sk s) (orphan s) (policy s) (freed s) Destroyed)
  | Destroyed => Some (RSock (refcnt s) false (socket_sk s) (orphan s) (policy s) (freed s) Unhashed)
  | Unhashed => Some (RSock (refcnt s) (hashed s) false (orphan s) (policy s) (freed s) Detached)
  | Detached => Some (RSock (refcnt s) (hashed s) (socket_sk s) true (policy s) (freed s) Orphaned)
  | Orphaned => Some (RSock (refcnt s) (hashed s) (socket_sk s) (orphan s) false (freed s) PolicyFreed)
  | PolicyFreed =>
      Some (sock_put (RSock (refcnt s) (hashed s) (socket_sk s) (orphan s) (policy s) (freed s) Released))
  | Released => None
  end.

(** Meanwhile receivers on other processors find the socket while it is hashed and take a
    reference, and give it back later. *)
Inductive relstep : who -> who -> Prop :=
| c_release u s s' : sk_common_release s = Some s' -> relstep (Who u s) (Who u s')
| c_lookup u s : hashed s = true ->
    relstep (Who u s) (Who (u + 1) (RSock (refcnt s + 1) (hashed s) (socket_sk s) (orphan s) (policy s) (freed s) (at_ s)))
| c_put u s : 0 < u -> relstep (Who u s) (Who (u - 1) (sock_put s)).

Definition past (p : phase) : nat :=
  match p with Open => 0 | Destroyed => 1 | Unhashed => 2 | Detached => 3 | Orphaned => 4 | PolicyFreed => 5 | Released => 6 end.

(** The references are the users' and, until the end, the owner's. *)
Record rinv (w : who) : Prop := RInv {
  ri_users : 0 <= users w;
  ri_count : refcnt (rs w) = users w + b2z (past (at_ (rs w)) <? 6)%nat;
  ri_hashed : hashed (rs w) = (past (at_ (rs w)) <? 2)%nat;
  ri_socket : socket_sk (rs w) = (past (at_ (rs w)) <? 3)%nat;
  ri_orphan : orphan (rs w) = negb (past (at_ (rs w)) <? 4)%nat;
  ri_policy : policy (rs w) = (past (at_ (rs w)) <? 5)%nat;
  ri_freed : freed (rs w) = if refcnt (rs w) =? 0 then 1 else 0
}.

Lemma relstep_inv w w' : relstep w w' -> rinv w -> rinv w'.
Proof.
  intros Hst [Hu Hc Hh Hs Ho Hp Hf]. destruct Hst as [u s s' E|u s Hh'|u s Hlt]; simpl in *.
  - unfold sk_common_release in E. destruct s as [n h so o p f a]; destruct a; simpl in *; simplify_eq;
      split; simpl; try done; unfold b2z in *; simpl in *; try lia.
    destruct (Z.eqb_spec (u + 1) 0); [lia|]. by destruct (u + 1 - 1 =? 0).
  - split; simpl; try done; try lia.
    destruct (Z.eqb_spec (refcnt s) 0), (Z.eqb_spec (refcnt s + 1) 0); try lia.
    all: exfalso; rewrite Hh in Hh'; destruct (at_ s); simpl in *; try done; unfold b2z in *; lia.
  - unfold sock_put. split; simpl; try done; try lia. unfold b2z in *.
    assert (refcnt s <> 0) by (destruct (past (at_ s) <? 6)%nat; lia).
    destruct (Z.eqb_spec (refcnt s) 0); [done|]. by destruct (refcnt s - 1 =? 0); rewrite Hf.
Qed.

Definition fresh : rsock := RSock 1 true true false true 0 Open.

(** Releasing a socket while receivers still find it: it is freed at most once, exactly
    when the release is done and the last receiver has let go; then it is in no table, its
    struct socket does not point to it, it is orphaned and its policy is freed.  It is never
    freed before, and never found again afterwards. *)
Theorem socket_released_once w :
  rtc relstep (Who 0 fresh) w ->
  (freed (rs w) = 0 \/ freed (rs w) = 1) /\
  (freed (rs w) = 1 <-> at_ (rs w) = Released /\ users w = 0) /\
  (freed (rs w) = 1 -> hashed (rs w) = false /\ socket_sk (rs w) = false /\
     orphan (rs w) = true /\ policy (rs w) = false).
Proof.
  intros Hr. assert (rinv w) as [Hu Hc Hh Hs Ho Hp Hf].
  { revert w Hr. apply (rtc_ind_r rinv); [by split|]. intros w1 w2 _ Hst. by apply relstep_inv. }
  unfold b2z in Hc. destruct (Z.eqb_spec (refcnt (rs w)) 0) as [E0|E0]; rewrite Hf.
  - assert (at_ (rs w) = Released) as Ea by (destruct (at_ (rs w)); simpl in Hc; (lia || done)).
    rewrite Ea in *. simpl in *. split_and!; [by right|split; [split; [done|lia]|done]|done].
  - split_and!; [by left|split; [done|]|done]. intros [Ea Eu]. rewrite Ea in Hc. simpl in Hc. lia.
Qed.

(** A receiver finds the socket before it is unhashed and lets go last. *)
Lemma socket_released_once_witness :
  exists w, rtc relstep (Who 0 fresh) w /\ freed (rs w) = 1 /\ hashed (rs w) = false.
Proof.
  assert (exists w, rtc relstep (Who 0 fresh) w /\ at_ (rs w) = Released /\ users w = 0) as (w & Hr & Ha).
  { eexists. split.
    - eapply rtc_l; [by apply c_lookup|]. do 6 (eapply rtc_l; [by apply c_release|]).
      eapply rtc_l; [by apply c_put|]. apply rtc_refl.
    - split; reflexivity. }
  destruct (socket_released_once w Hr) as (_ & H1 & H2).
  exists w. split; [exact Hr|]. split; [by apply H1|]. apply H2. by apply H1.
Defined.

(** sk_get_meminfo: the nine numbers shown by SO_MEMINFO, each as u32. *)
Record meminfo := MemInfo {
  rmem_alloc : Z; rcvbuf : Z; wmem_alloc : Z; sndbuf : Z; forward_alloc : Z; wmem_queued : Z;
  omem_alloc : Z; backlog_len : Z; drops : Z
}.
Definition sk_get_meminfo (sk_wmem_alloc_get : Z -> Z) (m : meminfo) : list Z :=
  wrapu 32 <$> [rmem_alloc m; rcvbuf m; sk_wmem_alloc_get (wmem_alloc m); sndbuf m; forward_alloc m;
                wmem_queued m; omem_alloc m; backlog_len m; drops m].
End Release.

Module Orphan.

(** The destructors of packets, and a packet: its charge, its socket, its destructor. *)
Inductive destructor := NoDestructor | sock_wfree | tcp_wfree | sock_efree | sock_pfree.
#[global] Instance destructor_eq_dec : EqDecision destructor.
Proof. solve_decision. Defined.
Record skb := Skb { truesize : Z; skb_sk : bool; dtor : destructor; decrypted : bool; pure_ack : bool }.
(** The socket: the charge of its packets and its references. *)
Record account := Account { wmem : Z; refcnt : Z }.

(** What the destructors do to the socket: sock_wfree and tcp_wfree give back the charge,
    sock_efree the reference, sock_pfree the reference of a socket that is counted. *)
Definition run_dtor (refcounted : bool) (b : skb) (a : account) : account :=
  match dtor b with
  | NoDestructor => a
  | sock_wfree | tcp_wfree => Account (wmem a - truesize b) (refcnt a)
  | sock_efree => Account (wmem a) (refcnt a - 1)
  | sock_pfree => Account (wmem a) (refcnt a - b2z refcounted)
  end.

Definition can_skb_orphan_partial (tls_device inet : bool) (b : skb) : bool :=
  if tls_device && decrypted b then false
  else bool_decide (dtor b = sock_wfree) || (inet && bool_decide (dtor b = tcp_wfree)).

Section Orphan.
Context (refcounted : bool).
(** skb_orphan (include/linux/skbuff.h) runs the destructor and forgets the socket;
    skb_set_owner_sk_safe (include/net/sock.h) keeps the socket by a reference, if it has
    one and is not being freed. *)
Context (skb_orphan : skb -> account -> skb * account).
Context (skb_set_owner_sk_safe : skb -> account -> bool * skb * account).
Context (orphan_law : forall b a, skb_orphan b a =
  (Skb (truesize b) false NoDestructor (decrypted b) (pure_ack b), run_dtor refcounted b a)).
Context (owner_law : forall b a, skb_set_owner_sk_safe b a =
  if skb_sk b && negb (refcnt a =? 0) then
    let a' := run_dtor refcounted b a in
    (true, Skb (truesize b) true sock_efree (decrypted b) (pure_ack b), Account (wmem a') (refcnt a' + 1))
  else (false, b, a)).

Definition skb_orphan_partial (tls_device inet : bool) (b : skb) (a : account) : skb * account :=
  if pure_ack b then (b, a)
  else if can_skb_orphan_partial tls_device inet b then
    let '(ok, b', a') := skb_set_owner_sk_safe b a in
    if ok then (b', a') else skb_orphan b' a'
  else skb_orphan b a.

(** Orphaning a packet early gives its whole charge back to the sender, at once and
    once: a packet to be sent charges nothing afterwards, and freeing it later leaves the
    charge of the socket as it is and the references as they were before; the socket stays
    known to the packet exactly when a reference could be had. *)
Theorem orphan_partial_balanced tls_device inet b a :
  pure_ack b = false -> dtor b = sock_wfree -> decrypted b = false ->
  let '(b', a') := skb_orphan_partial tls_device inet b a in
  wmem a' = wmem a - truesize b /\
  run_dtor refcounted b' a' = Account (wmem a - truesize b) (refcnt a) /\
  skb_sk b' = skb_sk b && negb (refcnt a =? 0).
Proof.
  intros Hp Hd Hc. unfold skb_orphan_partial, can_skb_orphan_partial. rewrite Hp, Hc, andb_false_r, Hd.
  rewrite bool_decide_true by done. cbn [orb]. rewrite owner_law.
  destruct (skb_sk b && negb (refcnt a =? 0)).
  - unfold run_dtor. rewrite Hd. simpl. split_and!; [done| |done]. f_equal. lia.
  - rewrite orphan_law. unfold run_dtor. rewrite Hd. simpl. done.
Qed.
End Orphan.
End Orphan.

Module ProtoFile.
Import Status.

(** A protocol as the file shows it; [methods] says which of the nineteen are there. *)
Record proto_info := ProtoInfo {
  name : list Z; obj_size : Z; inuse : Z; memory_allocated : option Z; memory_pressure : option bool;
  max_header : Z; has_slab : bool; module_name : list Z; methods : list bool
}.

Definition text (s : string) : list Z := bytes_of_string s.
Definition blanks (n : nat) : list Z := replicate n 32.
(** %-9s and %6d: padded on the right and on the left. *)
Definition padr (n : nat) (l : list Z) : list Z := l ++ blanks (n - length l).
Definition padl (n : nat) (l : list Z) : list Z := blanks (n - length l) ++ l.

Definition proto_method_implemented (m : bool) : list Z := text (if m then "y" else "n").
Definition sock_prot_memory_allocated (p : proto_info) : Z := default (-1) (memory_allocated p).
Definition sock_prot_memory_pressure (p : proto_info) : list Z :=
  match memory_pressure p with Some true => text "yes" | Some false => text "no" | None => text "NI" end.

(** proto_seq_printf without its newline. *)
Definition proto_text (p : proto_info) : list Z :=
  padr 9 (name p) ++ blanks 1 ++ padl 4 (fmt_d (obj_size p)) ++ blanks 1 ++ padl 6 (fmt_d (inuse p)) ++
  blanks 2 ++ padl 6 (fmt_d (sock_prot_memory_allocated p)) ++ blanks 3 ++
  padr 3 (sock_prot_memory_pressure p) ++ blanks 1 ++ padl 6 (fmt_d (max_header p)) ++ blanks 3 ++
  padr 3 (text (if has_slab p then "yes" else "no")) ++ blanks 2 ++ padr 10 (module_name p) ++
  concat ((fun m => blanks 1 ++ padl 2 (proto_method_implemented m)) <$> methods p).
Definition proto_seq_printf (p : proto_info) : list Z := proto_text p ++ [nl].

Definition heading : list Z :=
  padr 9 (text "protocol") ++ blanks 1 ++ padr 4 (text "size") ++ blanks 1 ++ padr 8 (text "sockets") ++
  blanks 1 ++ padr 6 (text "memory") ++ blanks 1 ++ padr 5 (text "press") ++ blanks 1 ++
  padr 7 (text "maxhdr") ++ blanks 1 ++ padr 4 (text "slab") ++ blanks 1 ++ padr 10 (text "module") ++
  blanks 1 ++ text "cl co di ac io in de sh ss gs se re sp bi br ha uh gp em".
(** proto_seq_show: the head of proto_list is the heading, [None] here. *)
Definition proto_seq_show (v : option proto_info) : list Z :=
  match v with None => heading ++ [nl] | Some p => proto_seq_printf p end.

(** A read of the file: proto_seq_start locks the list, the entries from [pos] on are shown
    one by one (0 is the heading), proto_seq_stop unlocks.  The text and the locks held. *)
Definition proto_seq_read (pos : nat) (l : list proto_info) (locks : Z) : list Z * Z :=
  (concat (proto_seq_show <$> drop pos (None :: (Some <$> l))), locks + 1 - 1).

Lemma blanks_plain n : plain (blanks n).
Proof. by apply Forall_replicate. Qed.
Lemma padr_plain n l : plain l -> plain (padr n l).
Proof. intros H. apply Forall_app. split; [done|apply blanks_plain]. Qed.
Lemma padl_plain n l : plain l -> plain (padl n l).
Proof. intros H. apply Forall_app. split; [apply blanks_plain|done]. Qed.
#[local] Hint Resolve blanks_plain padr_plain padl_plain fmt_d_plain : oshm.

Lemma proto_text_plain p : plain (name p) -> plain (module_name p) -> plain (proto_text p).
Proof.
  intros Hn Hm. assert (plain (sock_prot_memory_pressure p)) as H1.
  { unfold sock_prot_memory_pressure. repeat case_match; repeat constructor; done. }
  assert (plain (text (if has_slab p then "yes" else "no"))) as H2.
  { destruct (has_slab p); repeat constructor; done. }
  assert (plain (concat ((fun m => blanks 1 ++ padl 2 (proto_method_implemented m)) <$> methods p))) as H3.
  { induction (methods p) as [|m l IH]; [constructor|]. apply Forall_app. split; [|done].
    destruct m; repeat constructor; done. }
  unfold proto_text. repeat first [solve [auto with oshm]|apply plain_app].
Qed.

(** Reading the file from any position gives whole lines: the heading once, then one line
    for every registered protocol in the order of the list, and leaves the list unlocked;
    the names of protocols and modules cannot make lines of their own. *)
Theorem protocols_file pos l locks :
  Forall (fun p => plain (name p) /\ plain (module_name p)) l ->
  split_nl [] (proto_seq_read pos l locks).1 = drop pos (heading :: (proto_text <$> l)) /\
  (proto_seq_read pos l locks).2 = locks.
Proof.
  intros Hl. split; [|simpl; lia].
  assert (Forall plain (heading :: (proto_text <$> l))) as Hp.
  { constructor; [by vm_compute; repeat constructor|].
    apply Forall_fmap. eapply Forall_impl; [exact Hl|]. intros p [? ?]. by apply proto_text_plain. }
  rewrite <- (split_join (drop pos (heading :: (proto_text <$> l)))) by (by apply Forall_drop).
  f_equal. unfold proto_seq_read, join. cbn [fst]. f_equal.
  change (map (fun t => t ++ [nl])) with (fmap (M := list) (fun t : list Z => t ++ [nl])).
  rewrite !fmap_drop. f_equal. rewrite !fmap_cons, <- !list_fmap_compose. done.
Qed.
End ProtoFile.

Module Copy.

(** sock_copy on the bytes of two socks: all but the part from sk_dontcopy_begin to
    sk_dontcopy_end and the security pointer (of eight bytes at [sec]) is copied, up to the
    size of the protocol's sock. *)
Definition overwrite (off : nat) (l whole : list Z) : list Z :=
  take off whole ++ l ++ drop (off + length l) whole.
Definition sock_copy (security : bool) (dontcopy_begin dontcopy_end obj_size sec : nat) (osk nsk : list Z)
    : list Z :=
  let sptr := take 8 (drop sec nsk) in
  let nsk := overwrite 0 (take dontcopy_begin osk) nsk in
  let nsk := overwrite dontcopy_end (take (obj_size - dontcopy_end) (drop dontcopy_end osk)) nsk in
  if security then overwrite sec sptr nsk else nsk.

Lemma overwrite_lookup off l whole i :
  (off + length l <= length whole)%nat ->
  overwrite off l whole !! i =
  if decide (off <= i < off + length l)%nat then l !! (i - off)%nat else whole !! i.
Proof.
  intros H. unfold overwrite. case_decide as Hi.
  - rewrite lookup_app_r by (rewrite length_take; lia). rewrite length_take, Nat.min_l by lia.
    by rewrite lookup_app_l by lia.
  - destruct (decide (i < off)%nat).
    + rewrite lookup_app_l by (rewrite length_take; lia). by rewrite lookup_take_lt.
    + rewrite lookup_app_r by (rewrite length_take; lia). rewrite length_take, Nat.min_l by lia.
      rewrite lookup_app_r by lia. rewrite lookup_drop. f_equal. lia.
Qed.
Lemma length_overwrite off l whole :
  (off + length l <= length whole)%nat -> length (overwrite off l whole) = length whole.
Proof. intros H. unfold overwrite. rewrite !length_app, length_take, length_drop. lia. Qed.

(** A cloned sock takes over every byte of the old one except those that lookups
    without a lock may be reading (the part marked not to be copied, with the reference
    count) and its own security pointer; nothing outside the two objects is touched. *)
Theorem sock_copy_bytes security b e size sec osk nsk i :
  (b <= e <= size)%nat -> (size <= length osk)%nat -> (size <= length nsk)%nat -> (sec + 8 <= size)%nat ->
  length (sock_copy security b e size sec osk nsk) = length nsk /\
  sock_copy security b e size sec osk nsk !! i =
  if bool_decide (b <= i < e)%nat || bool_decide (size <= i)%nat || security && bool_decide (sec <= i < sec + 8)%nat
  then nsk !! i else osk !! i.
Proof.
  intros Hbe Ho Hn Hs. unfold sock_copy. cbv zeta.
  assert (length (take 8 (drop sec nsk)) = 8%nat) as L8 by (rewrite length_take, length_drop; lia).
  assert (length (take b osk) = b) as Lb by (rewrite length_take; lia).
  assert (length (take (size - e) (drop e osk)) = (size - e)%nat) as Le
    by (rewrite length_take, length_drop; lia).
  set (n1 := overwrite 0 (take b osk) nsk).
  assert (length n1 = length nsk) as H1 by (apply length_overwrite; lia).
  set (n2 := overwrite e (take (size - e) (drop e osk)) n1).
  assert (length n2 = length nsk) as H2 by (unfold n2; rewrite length_overwrite; lia).
  assert (n2 !! i = if bool_decide (b <= i < e)%nat || bool_decide (size <= i)%nat then nsk !! i else osk !! i) as E2.
  { unfold n2. rewrite overwrite_lookup by lia. rewrite Le. unfold n1. rewrite overwrite_lookup by lia. rewrite Lb.
    repeat case_decide; repeat case_bool_decide; try lia; cbn [orb]; try done.
    all: first [rewrite lookup_take_lt, lookup_drop by lia; f_equal; lia
               |rewrite lookup_take_lt by lia; f_equal; lia]. }
  destruct security; cbn [andb]; [|by rewrite orb_false_r].
  split; [by rewrite length_overwrite by lia|]. rewrite overwrite_lookup by lia. rewrite L8, E2.
  destruct (decide (sec <= i < sec + 8)%nat) as [Hi|Hi].
  - rewrite (bool_decide_true (sec <= i < sec + 8)%nat) by lia. rewrite orb_true_r.
    rewrite lookup_take_lt, lookup_drop by lia. f_equal. lia.
  - rewrite (bool_decide_false (sec <= i < sec + 8)%nat) by lia. by rewrite orb_false_r.
Qed.

(** sk_ns_capable, sk_capable and sk_net_capable: a capability counts only if the opener of
    the socket had it and the caller has it; namespaces are numbers, 0 the first. *)
Definition sk_ns_capable (file_ns_capable ns_capable : Z -> Z -> bool) (user_ns cap : Z) : bool :=
  file_ns_capable user_ns cap && ns_capable user_ns cap.
Definition sk_capable (file_ns_capable ns_capable : Z -> Z -> bool) (cap : Z) : bool :=
  sk_ns_capable file_ns_capable ns_capable 0 cap.
Definition sk_net_capable (file_ns_capable ns_capable : Z -> Z -> bool) (net_user_ns cap : Z) : bool :=
  sk_ns_capable file_ns_capable ns_capable net_user_ns cap.

(** Sockets that may use the emergency reserves: the flag, the allocation mode, the count
    of such sockets; __sk_backlog_rcv marks the task while it handles a packet for one, and
    a packet for another is a BUG ([None]). *)
Record reserve := Reserve { sock_memalloc : bool; sk_allocation : Z; memalloc_socks : Z }.
Definition sk_set_memalloc (GFP_MEMALLOC : Z) (r : reserve) : reserve :=
  Reserve true (Z.lor (sk_allocation r) GFP_MEMALLOC) (memalloc_socks r + 1).
Definition sk_clear_memalloc (GFP_MEMALLOC : Z) (sk_mem_reclaim : reserve -> reserve) (r : reserve) : reserve :=
  sk_mem_reclaim (Reserve false (Z.land (sk_allocation r) (Z.lnot GFP_MEMALLOC)) (memalloc_socks r - 1)).
Definition __sk_backlog_rcv (backlog_rcv : bool -> Z) (noreclaim : bool) (r : reserve) : option (Z * bool) :=
  if negb (sock_memalloc r) then None else Some (backlog_rcv true, noreclaim).

(** sock_i_uid and sock_i_ino: of the socket's inode, or 0 for a sock without a socket. *)
Definition sock_i_uid (inode : option (Z * Z)) : Z := match inode with Some (uid, _) => uid | None => 0 end.
Definition sock_i_ino (inode : option (Z * Z)) : Z := match inode with Some (_, ino) => ino | None => 0 end.
End Copy.
