(* ===== verification/SocketKernel.v ===== *)
(** * Sockets used by the kernel itself (src/kvm/linux-5.15.178/net/socket.c)

    [KernAccept]: sock_create_lite and kernel_accept on the sockets of Socket.v.  [KernAddr]:
    calls with an address in kernel memory, which is copied before the protocol sees it, and
    sockfd_lookup.  [Hooks]: the handlers of other modules for ioctl, as a step relation.
    [Boot]: sock_init.  [Overhead]: kernel_sock_ip_overhead. *)

From stdpp Require Import gmultiset.
From S2P Require Import Prelude SocketAttrs Socket.

Module KernAccept.
Import Layer.

(** What sock_create_lite meets: the two security hooks and the allocation. *)
Record lite_env := LiteEnv { sec_create : Z; lite_alloc_ok : bool; sec_post_create : Z }.

(** sock_create_lite: the result and the new socket; no limit of the thread is looked at. *)
Definition sock_create_lite (e : lite_env) (type : Z) (w : world) : Z * option Z * world :=
  if ztrue (sec_create e) then (sec_create e, None, w)
  else
    match sock_alloc (lite_alloc_ok e) w with
    | (None, w) => (- ENOMEM, None, w)
    | (Some sock, w) =>
        let w := set_socks (alter (fun s => Sock type (s_ops s) (s_sk s) (s_file s)) sock) w in
        if ztrue (sec_post_create e) then (sec_post_create e, None, sock_release sock w)
        else (0, Some sock, w)
    end.

(** kernel_accept on the socket number [sock], whose sk has the type [sk_type]; the
    protocol's accept gives the new socket its sk when it succeeds.  [None]: a listening
    socket without operations. *)
Definition kernel_accept (e : lite_env) (ops_accept : Z) (sock sk_type : Z) (w : world)
    : option (Z * option Z * world) :=
  match sock_create_lite e sk_type w with
  | (err, newsock, w) =>
      if err <? 0 then Some (err, newsock, w)
      else
        n ← newsock;
        if ops_accept <? 0 then Some (ops_accept, None, sock_release n w)
        else
          s ← socks w !! sock;
          owner ← s_ops s;
          let w := add_sks 1 (set_socks (alter (fun x => Sock (s_type x) (Some owner) true (s_file x)) n) w) in
          Some (ops_accept, Some n, module_get owner w)
  end.

(** What a failed call leaves: everything but the number of the next socket. *)
Definition unchanged (w w' : world) : Prop :=
  socks w' = socks w /\ sfiles w' = sfiles w /\ fds w' = fds w /\ mods w' = mods w /\
  sks w' = sks w /\ cur w' = cur w.

Lemma create_lite_spec e type w :
  wf w -> sec_create e <= 0 -> sec_post_create e <= 0 ->
  let '(r, o, w') := sock_create_lite e type w in
  (r < 0 /\ o = None /\ unchanged w w') \/
  (r = 0 /\ o = Some (next_sock w) /\ plus_sock (Sock type None false None) w w' /\
   mods w' = mods w /\ sks w' = sks w /\ cur w' = cur w).
Proof.
  intros (Hn & _) Hc Hp. unfold sock_create_lite, ztrue.
  destruct (Z.eqb_spec (sec_create e) 0) as [E|E]; cbn [negb]; [|left; split_and!; try done; lia].
  unfold sock_alloc. destruct (lite_alloc_ok e); [|left; split_and!; done].
  assert (alter (fun s => Sock type (s_ops s) (s_sk s) (s_file s)) (next_sock w)
    (<[next_sock w := Sock 0 None false None]> (socks w)) = <[next_sock w := Sock type None false None]> (socks w))
    as Ea by by rewrite alter_insert_eq.
  destruct (Z.eqb_spec (sec_post_create e) 0) as [E2|E2]; cbn [negb].
  - right. unfold set_socks, plus_sock; simpl. by rewrite Ea.
  - left. split; [lia|]. split; [done|].
    rewrite (sock_release_new (next_sock w) (Sock type None false None) (socks w));
      [by split_and!| |by apply Hn|done]. unfold set_socks; simpl. by rewrite Ea.
Qed.

(** kernel_accept is all or nothing, and not limited: it returns 0 or more with one new
    socket of the type asked for, bound to the operations of the listening one with a
    reference to their module and a protocol sock, or an error with no socket and nothing
    changed; either way the thread's count and limit are what they were. *)
Theorem kernel_accept_atomic e acc sock sk_type w s owner :
  wf w -> sec_create e <= 0 -> sec_post_create e <= 0 ->
  socks w !! sock = Some s -> s_ops s = Some owner ->
  exists r o w', kernel_accept e acc sock sk_type w = Some (r, o, w') /\ cur w' = cur w /\
  ((r < 0 /\ o = None /\ unchanged w w') \/
   (0 <= r /\ o = Some (next_sock w) /\ plus_sock (Sock sk_type (Some owner) true None) w w' /\
    mods w' = {[+ owner +]} ⊎ mods w /\ sks w' = sks w + 1)).
Proof.
  intros Hw Hc Hp Hs Ho. pose proof (create_lite_spec e sk_type w Hw Hc Hp) as H.
  unfold kernel_accept. destruct (sock_create_lite e sk_type w) as [[r o] w1].
  destruct H as [(Hr & -> & U)|(-> & -> & P & Hm & Hk & Hcur)].
  { destruct (Z.ltb_spec r 0); [|lia]. eexists _, _, _. split; [done|]. split; [apply U|]. by left. }
  destruct P as (P1 & P2 & P3 & P4 & P5). destruct Hw as (Hn & _).
  assert (socks w !! next_sock w = None) as Hnew by (apply Hn; lia).
  change (0 <? 0) with false. cbn [mbind option_bind]. destruct (Z.ltb_spec acc 0).
  - eexists _, _, _. split; [done|].
    rewrite (sock_release_new _ _ _ _ P1 Hnew eq_refl). simpl. split; [done|]. left. by split_and!.
  - assert (sock <> next_sock w) as Hne by congruence.
    rewrite P1, lookup_insert_ne, Hs by done. simpl. rewrite Ho. simpl.
    eexists _, _, _. split; [done|]. split; [done|]. right. split; [done|]. split; [done|].
    unfold plus_sock, module_get, set_mods, add_sks, set_socks; simpl.
    rewrite P1, alter_insert_eq, Hm, Hk. by split_and!.
Qed.

Definition listening : world :=
  World {[1 := Sock 1 (Some 5) true None]} 2 ∅ 1 ∅ {[+ 5 +]} 1 (Attrs.Task 1000 1000 1 1 1 0).

(** A thread at its limit of one socket still accepts inside the kernel. *)
Lemma kernel_accept_atomic_witness :
  limit_reached (cur listening) = true /\
  exists w', kernel_accept (LiteEnv 0 true 0) 0 1 1 listening = Some (0, Some 2, w') /\
  plus_sock (Sock 1 (Some 5) true None) listening w'.
Proof.
  split; [reflexivity|].
  assert (wf listening) as Hw.
  { split_and!; simpl.
    - intros k Hk. apply lookup_singleton_None. lia.
    - intros f _. apply lookup_empty.
    - intros f k Hf. by rewrite lookup_empty in Hf. }
  destruct (kernel_accept_atomic (LiteEnv 0 true 0) 0 1 1 listening (Sock 1 (Some 5) true None) 5 Hw
    ltac:(simpl; lia) ltac:(simpl; lia) eq_refl eq_refl) as (r & o & w' & E & _ & H).
  assert (r = 0 /\ o = Some 2) as [-> ->] by (vm_compute in E; by simplify_eq).
  exists w'. split; [exact E|]. destruct H as [(Hr & _)|(_ & _ & P & _)]; [lia|exact P].
Defined.
End KernAccept.

Module KernAddr.

Definition SS_SIZE : Z := 128.  (* sizeof(struct sockaddr_storage) *)
Abbreviation mem := (gmap Z Z).

Fixpoint load (m : mem) (a : Z) (n : nat) : option (list Z) :=
  match n with
  | O => Some []
  | S k => b ← m !! a; l ← load m (a + 1) k; Some (b :: l)
  end.
Fixpoint store (m : mem) (a : Z) (l : list Z) : mem :=
  match l with [] => m | b :: l => store (<[a := b]> m) (a + 1) l end.

(** memcpy of [n] bytes, an int made size_t, into a struct sockaddr_storage; [None]: bytes
    that are not there are read, or the storage is overrun. *)
Definition copy_address (storage src n : Z) (m : mem) : option mem :=
  if (0 <=? n) && (n <=? SS_SIZE) then l ← load m src (Z.to_nat n); Some (store m storage l) else None.

(** An operation of the protocol: it is given the address of a name and its length. *)
Abbreviation op := (Z -> Z -> mem -> Z * mem).

Section KernAddr.
(** Where the storage of the call is on the stack. *)
Context (storage : Z).

Definition kernel_bind (ops_bind : op) (addr addrlen : Z) (m : mem) : option (Z * mem) :=
  m ← copy_address storage addr addrlen m; Some (ops_bind storage addrlen m).
Definition kernel_connect (ops_connect : Z -> op) (addr addrlen flags : Z) (m : mem) : option (Z * mem) :=
  m ← copy_address storage addr addrlen m; Some (ops_connect flags storage addrlen m).

(** struct msghdr: the name, and whether control data is the user's; the rest of it and the
    data to send are [rest]. *)
Record msghdr := Msg { msg_name : Z; msg_namelen : Z; msg_control_is_user : bool; rest : Z }.

(** sock_sendmsg; [send] is __sock_sendmsg, the security hook and the protocol, which may
    change the message and the memory of the name. *)
Definition sock_sendmsg (send : msghdr -> mem -> Z * msghdr * mem) (msg : msghdr) (m : mem)
    : option (Z * msghdr * mem) :=
  m ← (if msg_name msg =? 0 then Some m else copy_address storage (msg_name msg) (msg_namelen msg) m);
  let msg' := if msg_name msg =? 0 then msg
              else Msg storage (msg_namelen msg) (msg_control_is_user msg) (rest msg) in
  let '(ret, msg', m) := send msg' m in
  Some (ret, Msg (msg_name msg) (msg_namelen msg) (msg_control_is_user msg') (rest msg'), m).
(** kernel_sendmsg and kernel_recvmsg: the data is set to the kernel's, the latter also
    marks the control data as the kernel's. *)
Definition kernel_sendmsg (send : msghdr -> mem -> Z * msghdr * mem) (kvec : Z) (msg : msghdr) (m : mem) :=
  sock_sendmsg send (Msg (msg_name msg) (msg_namelen msg) (msg_control_is_user msg) kvec) m.
Definition kernel_recvmsg (recv : msghdr -> mem -> Z * msghdr * mem) (kvec : Z) (msg : msghdr) (m : mem) :=
  recv (Msg (msg_name msg) (msg_namelen msg) false kvec) m.

(** kernel_sendmsg_locked: the default refuses, a protocol that can is given the data. *)
Definition kernel_sendmsg_locked (sendmsg_locked : option (msghdr -> mem -> Z * msghdr * mem)) (kvec : Z)
    (msg : msghdr) (m : mem) : Z * msghdr * mem :=
  match sendmsg_locked with
  | None => (- 95, msg, m)
  | Some send => send (Msg (msg_name msg) (msg_namelen msg) (msg_control_is_user msg) kvec) m
  end.

(** Calls that pass their arguments on to the operations of the socket, as they are; a
    socket without sendpage sends the page as a message (sock_no_sendpage). *)
Definition kernel_listen (ops_listen : Z -> Z) (backlog : Z) : Z := ops_listen backlog.
Definition kernel_getsockname (ops_getname : Z -> Z -> Z) (addr : Z) : Z := ops_getname addr 0.
Definition kernel_getpeername (ops_getname : Z -> Z -> Z) (addr : Z) : Z := ops_getname addr 1.
Definition kernel_sock_shutdown (ops_shutdown : Z -> Z) (how : Z) : Z := ops_shutdown how.
Definition kernel_sendpage (ops_sendpage : option (Z -> Z -> Z -> Z -> Z)) (no_sendpage : Z -> Z -> Z -> Z -> Z)
    (sendpage_ok : Z -> bool) (page offset size flags : Z) (warned : bool) : Z * bool :=
  match ops_sendpage with
  | Some f => (f page offset size flags, warned || negb (sendpage_ok page))
  | None => (no_sendpage page offset size flags, warned)
  end.
Definition kernel_sendpage_locked (ops_sendpage : option (Z -> Z -> Z -> Z -> Z))
    (no_sendpage : Z -> Z -> Z -> Z -> Z) (page offset size flags : Z) : Z :=
  match ops_sendpage with
  | Some f => f page offset size flags
  | None => no_sendpage page offset size flags
  end.

Definition in_storage (x : Z) : Prop := storage <= x < storage + SS_SIZE.
Definition outside_same (m m' : mem) : Prop := forall x, ~ in_storage x -> m' !! x = m !! x.

Lemma store_outside l : forall m a x, ~ a <= x < a + Z.of_nat (length l) -> store m a l !! x = m !! x.
Proof.
  induction l as [|b l IH]; intros m a x Hx; cbn [store]; [done|]. cbn [length] in Hx.
  rewrite IH by lia. by rewrite lookup_insert_ne by lia.
Qed.
Lemma load_store l : forall m a, load (store m a l) a (length l) = Some l.
Proof.
  induction l as [|b l IH]; intros m a; cbn [store load length]; [done|].
  rewrite store_outside by lia. rewrite lookup_insert_eq. cbn [mbind option_bind].
  by rewrite IH.
Qed.
Lemma load_length m n : forall a l, load m a n = Some l -> length l = n.
Proof.
  induction n as [|n IH]; intros a l; cbn [load]; [by intros [= <-]|].
  intros (b & _ & (l' & Hl & [= <-])%bind_Some)%bind_Some. simpl. by rewrite (IH _ _ Hl).
Qed.

Lemma copy_address_spec src n m l :
  0 <= n <= SS_SIZE -> load m src (Z.to_nat n) = Some l ->
  exists m', copy_address storage src n m = Some m' /\ load m' storage (Z.to_nat n) = Some l /\
  outside_same m m'.
Proof.
  intros Hn Hl. unfold copy_address. rewrite (proj2 (Z.leb_le 0 n)), (proj2 (Z.leb_le n SS_SIZE)) by lia.
  rewrite Hl. cbn [andb mbind option_bind]. pose proof (load_length _ _ _ _ Hl) as HL.
  exists (store m storage l). split_and!; [done| |].
  - rewrite <- HL. apply load_store.
  - intros x Hx. apply store_outside. unfold in_storage in Hx. lia.
Qed.

(** The kernel's own calls protect the address they are given: for any protocol that
    changes memory only in the storage it is handed, bind, connect and send give it exactly
    the caller's bytes in a copy, and whatever it does to the copy or to the message, the
    caller's memory and the name in its message are afterwards what they were.  A length
    over the size of the storage is not survived. *)
Theorem kernel_address_kept ops_bind ops_connect send addr n flags msg m l :
  (forall f p k m, outside_same m (ops_connect f p k m).2) -> (forall p k m, outside_same m (ops_bind p k m).2) ->
  (forall g m, outside_same m (send g m).2) ->
  0 <= n <= SS_SIZE -> load m addr (Z.to_nat n) = Some l ->
  msg_name msg = addr -> msg_namelen msg = n ->
  (exists mc, load mc storage (Z.to_nat n) = Some l /\
     kernel_bind ops_bind addr n m = Some (ops_bind storage n mc) /\
     kernel_connect ops_connect addr n flags m = Some (ops_connect flags storage n mc) /\
     outside_same m (ops_bind storage n mc).2 /\ outside_same m (ops_connect flags storage n mc).2) /\
  (exists ret msg' m', sock_sendmsg send msg m = Some (ret, msg', m') /\
     msg_name msg' = addr /\ msg_namelen msg' = n /\ outside_same m m') /\
  (forall k, SS_SIZE < k -> kernel_bind ops_bind addr k m = None /\
     kernel_connect ops_connect addr k flags m = None).
Proof.
  intros Hcon Hbind Hsend Hn Hl Hname Hlen.
  destruct (copy_address_spec addr n m l Hn Hl) as (mc & Ec & Lc & Oc).
  assert (forall m2, outside_same mc m2 -> outside_same m m2) as Tr.
  { intros m2 H x Hx. rewrite H by done. by apply Oc. }
  split_and!.
  - exists mc. unfold kernel_bind, kernel_connect. rewrite Ec. split_and!; try done; apply Tr; auto.
  - unfold sock_sendmsg. rewrite Hname, Hlen, Ec. destruct (Z.eqb_spec addr 0) as [E0|E0]; cbn [mbind option_bind].
    + pose proof (Hsend msg m) as Hs. destruct (send msg m) as [[r g] m']. by eexists _, _, _.
    + set (msg1 := Msg storage n (msg_control_is_user msg) (rest msg)).
      pose proof (Hsend msg1 mc) as Hs. destruct (send msg1 mc) as [[r g] m']. eexists _, _, _.
      split_and!; try done. by apply Tr.
  - intros k Hk. unfold kernel_bind, kernel_connect, copy_address.
    destruct (Z.leb_spec k SS_SIZE); [lia|]. by rewrite andb_false_r.
Qed.
End KernAddr.

(** A protocol that overwrites the first byte of the name it is given. *)
Definition scribble : op := fun p k m => (0, if (1000 <=? p) && (p <? 1128) then <[p := 99]> m else m).
Lemma scribble_inside p k m : outside_same 1000 m (scribble p k m).2.
Proof.
  intros x Hx. unfold scribble. destruct (_ && _) eqn:E; [|done]. bool_prop. simpl.
  apply lookup_insert_ne. intros ->. apply Hx. unfold in_storage, SS_SIZE. lia.
Qed.

Lemma kernel_address_kept_witness :
  exists m', kernel_bind 1000 scribble 8 2 {[8 := 2; 9 := 0]} = Some (0, m') /\
  m' !! 1000 = Some 99 /\ m' !! 8 = Some 2 /\ m' !! 9 = Some 0.
Proof.
  set (m := {[8 := 2; 9 := 0]} : gmap Z Z).
  destruct (kernel_address_kept 1000 scribble (fun _ => scribble) (fun g m => (0, g, m)) 8 2 0
    (Msg 8 2 false 0) m [2; 0] (fun _ => scribble_inside) scribble_inside (fun _ _ _ _ => eq_refl)
    ltac:(unfold SS_SIZE; lia) eq_refl eq_refl eq_refl) as ((mc & _ & E & _ & O & _) & _ & _).
  exists (scribble 1000 2 mc).2. split; [exact E|]. split_and!.
  - apply lookup_insert_eq.
  - rewrite O by (unfold in_storage; lia). reflexivity.
  - rewrite O by (unfold in_storage; lia). reflexivity.
Defined.
End KernAddr.

(** ** Handlers of other modules (br_ioctl_call, brioctl_set, vlan_ioctl_set) *)
Module Hooks.

(** The mutex, the hook (the module it is in), and where each thread is: asking for a call,
    holding the mutex, inside the handler of a module, or setting the hook. *)
Inductive hpc := HIdle | HCall | HLocked | HInside (m : nat) | HSet (new : option nat) | HDone.
Record hooks := HWorld { mutex : option nat; hook : option nat; pcs : gmap nat hpc }.

Inductive hstep (t : nat) : hooks -> hooks -> Prop :=
| h_call w : pcs w !! t = Some HIdle -> hstep t w (HWorld (mutex w) (hook w) (<[t := HCall]> (pcs w)))
| h_lock w : pcs w !! t = Some HCall -> mutex w = None ->
    hstep t w (HWorld (Some t) (hook w) (<[t := HLocked]> (pcs w)))
| h_run w m : pcs w !! t = Some HLocked -> hook w = Some m ->
    hstep t w (HWorld (mutex w) (hook w) (<[t := HInside m]> (pcs w)))
| h_none w : pcs w !! t = Some HLocked -> hook w = None ->
    hstep t w (HWorld None (hook w) (<[t := HIdle]> (pcs w)))
| h_return w m : pcs w !! t = Some (HInside m) ->
    hstep t w (HWorld None (hook w) (<[t := HIdle]> (pcs w)))
| h_set w new : pcs w !! t = Some HIdle -> hstep t w (HWorld (mutex w) (hook w) (<[t := HSet new]> (pcs w)))
| h_store w new : pcs w !! t = Some (HSet new) -> mutex w = None ->
    hstep t w (HWorld (Some t) new (<[t := HDone]> (pcs w)))
| h_unlock w : pcs w !! t = Some HDone -> hstep t w (HWorld None (hook w) (<[t := HIdle]> (pcs w))).
Definition hany (w w' : hooks) : Prop := exists t, hstep t w w'.

Definition owns (p : hpc) : bool := match p with HLocked | HInside _ | HDone => true | _ => false end.

(** Who is past the lock holds it, and a handler runs only while it is the hook. *)
Record hinv (w : hooks) : Prop := HInv {
  hi_mutex : forall t p, pcs w !! t = Some p -> owns p = true -> mutex w = Some t;
  hi_inside : forall t m, pcs w !! t = Some (HInside m) -> hook w = Some m
}.

Lemma hinv_step w w' : hany w w' -> hinv w -> hinv w'.
Proof.
  intros [t Hst] [H1 H2].
  assert (forall p u, pcs w !! t = Some p -> owns p = true -> u <> t ->
    forall q, pcs w !! u = Some q -> owns q = false) as X.
  { intros p u Hp Ho Hne q Hq. destruct (owns q) eqn:E; [|done].
    pose proof (H1 _ _ Hp Ho). pose proof (H1 _ _ Hq E). congruence. }
  assert (forall u q, mutex w = None -> pcs w !! u = Some q -> owns q = false) as N.
  { intros u q Hn Hq. destruct (owns q) eqn:E; [|done]. specialize (H1 _ _ Hq E). congruence. }
  destruct Hst; split; simpl; intros u q;
    (destruct (decide (u = t)) as [->|Hne];
      [rewrite lookup_insert_eq; intros [= <-]|rewrite lookup_insert_ne by done; intros Hq]);
    try done; try congruence; try (intros; by eauto);
    try (intros; exfalso; match goal with
         | Hp : pcs w !! t = Some ?p, Hn : mutex w = None |- _ => pose proof (N _ _ Hn Hq); by simpl in *; congruence
         | Hp : pcs w !! t = Some ?p |- _ => pose proof (X _ u Hp eq_refl Hne _ Hq); by simpl in *; congruence
         end).
Qed.

(** Setting the hooks is atomic: a thread is inside the handler of a module only while the
    hook is that module's, so when a module has taken its hook back no thread is inside it
    any more, and it can be unloaded; and at most one thread is inside a handler. *)
Theorem hooks_atomic threads h w :
  rtc hany (HWorld None h (gset_to_gmap HIdle threads)) w ->
  (forall t m, pcs w !! t = Some (HInside m) -> hook w = Some m) /\
  (forall t u m n, pcs w !! t = Some (HInside m) -> pcs w !! u = Some (HInside n) -> t = u).
Proof.
  intros Hr. assert (hinv w) as [H1 H2].
  { revert w Hr. apply (rtc_ind_r hinv).
    - split; simpl; intros t p Hp; apply lookup_gset_to_gmap_Some in Hp as [_ E]; by simplify_eq.
    - intros w1 w2 _ Hst. by apply hinv_step. }
  split; [exact H2|]. intros t u m n Ht Hu.
  pose proof (H1 _ _ Ht eq_refl). pose proof (H1 _ _ Hu eq_refl). congruence.
Qed.
End Hooks.

(** ** Start-up *)
Module Boot.

(** What is set up: caches, the registered file system, its mount, the packet filter. *)
Record booted := Booted { caches : bool; fs_registered : bool; fs_mounted : bool; filter_up : bool }.

(** sock_init; the arguments are the results of its calls. *)
Definition sock_init (netfilter : bool) (sysctl_err register_err mount_err netfilter_err : Z) (b : booted)
    : Z * booted :=
  if ztrue sysctl_err then (sysctl_err, b)
  else
    let b := Booted true (fs_registered b) (fs_mounted b) (filter_up b) in
    if ztrue register_err then (register_err, b)
    else
      let b := Booted true true (fs_mounted b) (filter_up b) in
      if mount_err <? 0 then (mount_err, Booted true false (fs_mounted b) (filter_up b))
      else
        let b := Booted true true true (filter_up b) in
        if netfilter && ztrue netfilter_err then (netfilter_err, b)
        else (0, Booted true true true netfilter).

(** The file system of sockets is registered exactly when it is mounted: after success, and
    also after a failure of the packet filter, which is not undone. *)
Theorem sock_init_outcome netfilter e1 e2 e3 e4 r b :
  sock_init netfilter e1 e2 e3 e4 (Booted false false false false) = (r, b) ->
  fs_registered b = fs_mounted b /\ (r = 0 -> fs_mounted b = true /\ filter_up b = netfilter) /\
  (fs_mounted b = true -> r = 0 \/ (netfilter = true /\ r = e4)).
Proof.
  unfold sock_init, ztrue. intros H. repeat case_match; simplify_eq; simpl; bool_prop;
    split_and!; try done; try (by right); try (by left); try lia; intros; exfalso; lia.
Qed.
End Boot.

(** ** kernel_sock_ip_overhead *)
Module Overhead.
Definition AF_INET : Z := 2.
Definition AF_INET6 : Z := 10.
Definition sizeof_iphdr : Z := 20.
Definition sizeof_ipv6hdr : Z := 40.

(** The options of an IPv4 socket (a length of one byte) and of an IPv6 socket (two lengths
    of 16 bits), where it has them. *)
Definition kernel_sock_ip_overhead (ipv6 : bool) (sk_family : option Z) (optlen : option Z)
    (opt6 : option (Z * Z)) : Z :=
  match sk_family with
  | None => 0
  | Some f =>
      if f =? AF_INET then wrapu 32 (sizeof_iphdr + default 0 optlen)
      else if ipv6 && (f =? AF_INET6) then
        match opt6 with
        | Some (flen, nflen) => wrapu 32 (sizeof_ipv6hdr + (flen + nflen))
        | None => sizeof_ipv6hdr
        end
      else 0
  end.

(** The overhead does not wrap: it is the header and the options, less than 2^18 bytes. *)
Theorem ip_overhead_bounded ipv6 f optlen opt6 :
  (forall n, optlen = Some n -> in_u 8 n) -> (forall a b, opt6 = Some (a, b) -> in_u 16 a /\ in_u 16 b) ->
  0 <= kernel_sock_ip_overhead ipv6 f optlen opt6 < 2 ^ 18 /\
  (f = Some AF_INET -> kernel_sock_ip_overhead ipv6 f optlen opt6 = sizeof_iphdr + default 0 optlen).
Proof.
  intros H4 H6. unfold kernel_sock_ip_overhead, sizeof_iphdr, sizeof_ipv6hdr, in_u in *.
  assert (0 <= default 0 optlen < 2 ^ 8) as Ho by (destruct optlen as [n|]; simpl; [by apply H4|lia]).
  rewrite (wrapu_id 32 (20 + default 0 optlen)) by (unfold in_u; lia).
  destruct f as [f|]; [|split; [lia|done]]. destruct (Z.eqb_spec f AF_INET) as [->|]; [split; [lia|done]|].
  split; [|intros [= ->]; done]. destruct (ipv6 && (f =? AF_INET6)); [|lia].
  destruct opt6 as [[a b]|]; [|lia]. destruct (H6 a b eq_refl). rewrite wrapu_id by (unfold in_u; lia). lia.
Qed.
End Overhead.
