(* ===== verification/ForkRest.v ===== *)
(** * More of task creation (src/kvm/linux-5.15.178/kernel/fork.c)

    [Seccomp]: the filters a new thread inherits while other threads change them.  [Oom]: the
    oom score of processes that share memory.  [KernelTasks]: idle tasks and io threads.
    [OwnFiles]: unshare_files.  [StartUp]: the limits set at boot, the areas and the checks
    of an address space. *)

From stdpp Require Import gmultiset.
From S2P Require Import Prelude Fork ForkTask.

Module Seccomp.

(** The state of a task: mode and filter, no_new_privs, and the work flag that makes its
    system calls pass through the filter. *)
Record sec := Sec { mode : Z; filter : option nat }.
Record stask := STask { seccomp : sec; nnp : bool; work : bool }.
Definition SECCOMP_MODE_DISABLED : Z := 0.

Definition refs_of (o : option nat) : gmultiset nat := match o with Some f => {[+ f +]} | None => ∅ end.

(** dup_task_struct copies the task but for the filter, which it has no reference to. *)
Definition dup_seccomp (current : stask) : stask :=
  STask (Sec (mode (seccomp current)) None) (nnp current) (work current).

(** copy_seccomp: the new task and the references to filters. *)
Definition copy_seccomp (current p : stask) (refs : gmultiset nat) : stask * gmultiset nat :=
  (STask (seccomp current) (nnp p || nnp current)
     (work p || negb (mode (seccomp current) =? SECCOMP_MODE_DISABLED)),
   refs ⊎ refs_of (filter (seccomp current))).

(** A thread that creates another: before the copy, duplicated, or linked into the group.
    Other threads of the group may at any time put a filter on all its linked threads
    (under the lock that copy_seccomp is called with). *)
Inductive child := NotYet | Duplicated (p : stask) | Linked (p : stask).
Record swork := SWork { cur : stask; new : child; refs : gmultiset nat }.

(** A thread after the filter [f] is put on it; [n]: the installing thread has
    no_new_privs, which it passes on. *)
Definition filtered (m : Z) (f : nat) (n : bool) (t : stask) : stask := STask (Sec m (Some f)) (nnp t || n) true.
Inductive sstep : swork -> swork -> Prop :=
| s_dup c r : sstep (SWork c NotYet r) (SWork c (Duplicated (dup_seccomp c)) r)
| s_copy c p p' r r' : copy_seccomp c p r = (p', r') ->
    sstep (SWork c (Duplicated p) r) (SWork c (Linked p') r')
| s_sync c n r m f b : m <> SECCOMP_MODE_DISABLED ->
    sstep (SWork c n r)
      (match n with
       | Linked p => SWork (filtered m f b c) (Linked (filtered m f b p))
           (r ∖ refs_of (filter (seccomp c)) ∖ refs_of (filter (seccomp p)) ⊎ {[+ f +]} ⊎ {[+ f +]})
       | _ => SWork (filtered m f b c) n (r ∖ refs_of (filter (seccomp c)) ⊎ {[+ f +]})
       end).

Definition task_ok (t : stask) : Prop := mode (seccomp t) <> SECCOMP_MODE_DISABLED -> work t = true.
Record sinv (w : swork) : Prop := SInv {
  si_cur : task_ok (cur w);
  si_new : forall p, new w = Linked p ->
    seccomp p = seccomp (cur w) /\ (nnp (cur w) = true -> nnp p = true) /\ task_ok p;
  si_refs : refs w = refs_of (filter (seccomp (cur w))) ⊎
    match new w with Linked p => refs_of (filter (seccomp p)) | _ => ∅ end
}.

Lemma sstep_inv w w' : sstep w w' -> sinv w -> sinv w'.
Proof.
  intros Hst [Hc Hn Hr]. destruct Hst as [c r|c p p' r r' E|c n r m f b Hm]; simpl in *.
  - by split.
  - unfold copy_seccomp in E. simplify_eq. split; simpl; [done| |multiset_solver].
    intros q [= <-]. simpl. split_and!; [done|intros ->; by rewrite orb_true_r|].
    unfold task_ok; simpl. intros Hm. rewrite (proj2 (Z.eqb_neq _ _) Hm). apply orb_true_r.
  - assert (forall t, task_ok (filtered m f b t)) as Hf by done.
    assert (forall p, n = Linked p -> nnp (filtered m f b c) = true -> nnp (filtered m f b p) = true) as Hk.
    { intros p ->. destruct (Hn p eq_refl) as (_ & Hnn & _). simpl.
      intros [H|H]%orb_true_iff; apply orb_true_iff; auto. }
    destruct n as [|p|p]; (split; [apply Hf| |simpl; multiset_solver]); simpl; intros q Hq; [done|done|].
    injection Hq as <-. split; [done|]. split; [by apply Hk|apply Hf].
Qed.

(** (C31) A new thread cannot escape a filter: whatever filters other threads of its group
    install while it is being created, once it is linked it has the mode and filter of its
    creator, no_new_privs if the creator has it, and the flag that makes its system calls
    pass through the filter whenever there is one; and every task holds exactly one
    reference to its filter. *)
Theorem seccomp_inherited c r w p :
  task_ok c -> r = refs_of (filter (seccomp c)) ->
  rtc sstep (SWork c NotYet r) w -> new w = Linked p ->
  seccomp p = seccomp (cur w) /\ (nnp (cur w) = true -> nnp p = true) /\
  (mode (seccomp p) <> SECCOMP_MODE_DISABLED -> work p = true) /\
  refs w = refs_of (filter (seccomp (cur w))) ⊎ refs_of (filter (seccomp p)).
Proof.
  intros Hc -> Hr Hp. assert (sinv w) as [H1 H2 H3].
  { clear Hp p. revert w Hr. apply (rtc_ind_r sinv).
    - split; simpl; [done|done|multiset_solver].
    - intros w1 w2 _ Hst. by apply sstep_inv. }
  destruct (H2 p Hp) as (E & N & T). rewrite Hp in H3. by split_and!.
Qed.

(** Another thread installs a filter between the duplication and the copy. *)
Lemma seccomp_inherited_witness :
  exists w p, rtc sstep (SWork (STask (Sec 0 None) false false) NotYet ∅) w /\ new w = Linked p /\
  seccomp p = Sec 2 (Some 7%nat) /\ work p = true.
Proof.
  set (c := STask (Sec 0 None) false false).
  assert (exists w, rtc sstep (SWork c NotYet ∅) w /\ new w = Linked (filtered 2 7 true c) /\
    seccomp (cur w) = Sec 2 (Some 7%nat)) as (w & Hr & Hp & Hc).
  { eexists. split.
    - eapply rtc_l; [apply s_dup|]. eapply rtc_l; [by apply (s_sync _ _ _ 2 7 true)|].
      eapply rtc_l; [by apply s_copy|]. apply rtc_refl.
    - by split. }
  exists w, (filtered 2 7 true c). split_and!; [exact Hr|exact Hp|..];
    destruct (seccomp_inherited c ∅ w _ (fun H => False_ind _ (H eq_refl)) eq_refl Hr Hp) as (E & _ & W & _);
    [by rewrite E|by apply W].
Defined.
End Seccomp.

Module Oom.

(** The score of a process and the least it may be set to; whether the address space is
    marked as used by several processes. *)
Record score := Score { oom_score_adj : Z; oom_score_adj_min : Z }.

(** copy_oom_score_adj: the mark and the score of the new task. *)
Definition copy_oom_score_adj (clone_flags : Z) (has_mm : bool) (current tsk : score) (multiprocess : bool)
    : score * bool :=
  if negb has_mm then (tsk, multiprocess)
  else if negb (Z.land clone_flags (Z.lor CLONE_VM (Z.lor CLONE_THREAD CLONE_VFORK)) =? CLONE_VM)
  then (tsk, multiprocess)
  else (Score (oom_score_adj current) (oom_score_adj_min current), true).

(** A process that creates one that shares its memory: duplicated, then copied.  Scores are
    set under the same mutex; setting one in a marked address space sets those of all
    processes in it. *)
Inductive ophase := OBefore | ODuplicated (s : score) | OCopied (s : score).
Record oworld := OWorld { parent : score; kid : ophase; marked : bool }.
Inductive ostep (fl : Z) : oworld -> oworld -> Prop :=
| o_dup p m : ostep fl (OWorld p OBefore m) (OWorld p (ODuplicated p) m)
| o_copy p s s' m m' : copy_oom_score_adj fl true p s m = (s', m') ->
    ostep fl (OWorld p (ODuplicated s) m) (OWorld p (OCopied s') m')
| o_set_parent p k m v : ostep fl (OWorld p k m)
    (OWorld v (match k with OCopied s => OCopied (if m then v else s) | k => k end) m)
| o_set_kid p s m v : ostep fl (OWorld p (OCopied s) m) (OWorld (if m then v else p) (OCopied v) m).

(** Processes that share memory without being threads or a vfork have one oom score:
    from the moment the new one is complete the two agree, whatever is set for either before
    or after, because the address space is marked. *)
Theorem oom_scores_agree fl w s m0 p0 :
  Z.land fl (Z.lor CLONE_VM (Z.lor CLONE_THREAD CLONE_VFORK)) = CLONE_VM ->
  rtc (ostep fl) (OWorld p0 OBefore m0) w -> kid w = OCopied s -> s = parent w /\ marked w = true.
Proof.
  intros Hf Hr. revert s.
  refine (rtc_ind_r (fun w => forall s, kid w = OCopied s -> s = parent w /\ marked w = true) _ _ _ _ Hr); [done|].
  intros w1 w2 _ Hst IH. destruct Hst as [p m|p s s' m m' E|p k m v|p s m v]; simpl in *; intros s2 H2.
  - done.
  - unfold copy_oom_score_adj in E. rewrite Hf in E. simpl in E. simplify_eq. by destruct p.
  - destruct k as [|s|s]; simplify_eq. destruct (IH s eq_refl) as [_ ->]. done.
  - simplify_eq. destruct (IH s eq_refl) as [_ ->]. done.
Qed.

Lemma oom_scores_agree_witness :
  exists w, rtc (ostep CLONE_VM) (OWorld (Score 0 0) OBefore false) w /\
  kid w = OCopied (Score 9 0) /\ parent w = Score 9 0 /\ marked w = true.
Proof.
  assert (exists w, rtc (ostep CLONE_VM) (OWorld (Score 0 0) OBefore false) w /\
    kid w = OCopied (Score 9 0)) as (w & Hr & Hk).
  { eexists. split.
    - eapply rtc_l; [apply o_dup|]. eapply rtc_l; [apply (o_set_parent _ _ _ _ (Score 5 0))|].
      eapply rtc_l; [by apply o_copy|]. eapply rtc_l; [apply (o_set_kid _ _ _ _ (Score 9 0))|]. apply rtc_refl.
    - done. }
  exists w. split_and!; [exact Hr|exact Hk|..];
    destruct (oom_scores_agree CLONE_VM w (Score 9 0) false (Score 0 0) eq_refl Hr Hk) as [E M]; [by rewrite <- E|exact M].
Defined.
End Oom.

Module KernelTasks.
Import CopyProcess Clone.

(** create_io_thread: the arguments, and the task that copy_process makes. *)
Definition io_flags : Z :=
  Z.lor CLONE_FS (Z.lor CLONE_FILES (Z.lor CLONE_SIGHAND (Z.lor CLONE_THREAD CLONE_IO))).
Definition io_thread_args (fn arg : Z) : kernel_clone_args := kernel_thread_args fn arg io_flags.
Definition create_io_thread (env : cp_env) (current : ptask) (fn arg : Z) : F (Z + ptask) :=
  let a := io_thread_args fn arg in copy_process env (flags a) current false (exit_signal a).

(** init_task_pid and init_idle_pids: pids by type, PIDTYPE_PID being 0; fork_idle gives an
    idle task the pid of the first task for every type. *)
Definition PIDTYPE_MAX : nat := 4.
Record pids := Pids { thread_pid : Z; signal_pids : gmap nat Z }.
Definition init_task_pid (type : nat) (pid : Z) (p : pids) : pids :=
  if (type =? 0)%nat then Pids pid (signal_pids p) else Pids (thread_pid p) (<[type := pid]> (signal_pids p)).
Definition init_idle_pids (init_struct_pid : Z) (p : pids) : pids :=
  foldl (fun p t => init_task_pid t init_struct_pid p) p (seq 0 PIDTYPE_MAX).
Definition fork_idle (env : cp_env) (current : ptask) (init_struct_pid : Z) (p : pids)
    : F (Z + (ptask * pids)) :=
  r ← copy_process env CLONE_VM current true 0;
  mret (match r with inl e => inl e | inr t => inr (t, init_idle_pids init_struct_pid p) end).

(** set_tid_address: the address noted, and the pid the caller sees. *)
Definition set_tid_address (pid_vnr tidptr clear_child_tid : Z) : Z * Z := (pid_vnr, tidptr).

(** An io thread shares everything a thread shares and sends no signal; its flags pass the
    checks of copy_process in any namespace that may have threads; an idle task passes them
    too, and has the pid of the first task for every type. *)
Theorem kernel_tasks_accepted env fn arg pid p :
  ns_differs env = false -> time_ns_differs env = false ->
  let fl := flags (io_thread_args fn arg) in
  bad_clone_flags env fl = false /\ bad_clone_flags env CLONE_VM = false /\
  exit_signal (io_thread_args fn arg) = 0 /\
  Forall (fun m => flag fl m = true)
    [CLONE_VM; CLONE_FS; CLONE_FILES; CLONE_SIGHAND; CLONE_THREAD; CLONE_IO; CLONE_UNTRACED] /\
  (forall t, (1 <= t < PIDTYPE_MAX)%nat -> signal_pids (init_idle_pids pid p) !! t = Some pid) /\
  thread_pid (init_idle_pids pid p) = pid.
Proof.
  intros Hn Ht fl. split_and!.
  - unfold bad_clone_flags. rewrite Hn, Ht. vm_compute. by destruct (unkillable env).
  - unfold bad_clone_flags. rewrite Hn, Ht. vm_compute. by destruct (unkillable env).
  - reflexivity.
  - repeat constructor.
  - intros t Ht'. unfold init_idle_pids, PIDTYPE_MAX in *. cbn [seq foldl]. unfold init_task_pid.
    cbn [Nat.eqb signal_pids].
    assert (t = 1 \/ t = 2 \/ t = 3)%nat as [->|[->| ->]] by lia;
      rewrite ?lookup_insert_eq; rewrite ?(lookup_insert_ne _ 3%nat), ?(lookup_insert_ne _ 2%nat) by done;
      by rewrite ?lookup_insert_eq.
  - done.
Qed.
End KernelTasks.

Module OwnFiles.
Import CopyProcess Unshare.

(** unshare_files: exec gives the caller a file table of its own. *)
Definition unshare_files (env : unshare_env) (cur : utask) : F (Z * utask) :=
  r ← unshare_fd env cur CLONE_FILES;
  match r with
  | inl error => mret (error, cur)
  | inr copy =>
      if copy =? 0 then mret (0, cur)
      else
        put_obj (u_files cur);;
        mret (0, UTask (u_fs cur) copy (u_cred cur) (u_ns cur) (u_sem_exited cur) (u_shm_exited cur))
  end.

(** After unshare_files returns 0 nobody else uses the caller's file table: a table that
    was its own is kept, a shared one is replaced by a new one with one reference and loses
    exactly the caller's reference; on an error nothing has changed. *)
Theorem unshare_files_owned env cur s n :
  fd_err env <= 0 -> u_files cur <> 0 -> refs s !! u_files cur = Some n -> 1 <= n ->
  exists r t s', unshare_files env cur s = Some ((r, t), s') /\
  ((r < 0 /\ t = cur /\ s' = s) \/
   (r = 0 /\ refs s' !! u_files t = Some 1 /\ held s' = held s /\ cnt s' = cnt s /\
    (n = 1 -> t = cur /\ s' = s) /\
    (1 < n -> refs s !! u_files t = None /\ refs s' !! u_files cur = Some (n - 1)))).
Proof.
  intros He Hf Hn H1. unfold unshare_files, unshare_fd, mbind, F_bind.
  change (flag CLONE_FILES CLONE_FILES) with true. rewrite (proj2 (Z.eqb_neq _ _) Hf). cbn [andb negb].
  rewrite Hn. cbn [default from_option]. unfold id, ztrue. case_bool_decide as Hs; cycle 1.
  { cbn. eexists _, _, _. split; [done|]. right. assert (n = 1) as -> by lia. split_and!; try done; intros; lia. }
  destruct (Z.eqb_spec (fd_err env) 0); cbn [negb]; cycle 1.
  { cbn. eexists _, _, _. split; [done|]. left. split_and!; [lia|done..]. }
  destruct (fresh_obj_new s) as [Hnew H0]. unfold new_obj. cbn [mret F_ret].
  rewrite (proj2 (Z.eqb_neq _ _) H0). unfold put_obj. cbn [refs].
  assert (u_files cur <> fresh_obj s) as Hne by congruence.
  rewrite lookup_insert_ne, Hn by done. cbn. destruct (Z.eqb_spec n 1); [lia|].
  eexists _, _, _. split; [done|]. right. cbn. split_and!; try done.
  - rewrite lookup_insert_ne by done. apply lookup_insert_eq.
  - intros _. split; [done|]. apply lookup_insert_eq.
Qed.

Lemma unshare_files_owned_witness :
  exists t s', unshare_files (UEnv true false true true 0 (fun _ => inr false) (fun _ _ _ => inr false) 0)
    (UTask 1 2 3 4 false false) unshare_wit_state = Some ((0, t), s') /\
  refs s' !! u_files t = Some 1 /\ refs s' !! 2 = Some 1.
Proof.
  destruct (unshare_files_owned (UEnv true false true true 0 (fun _ => inr false) (fun _ _ _ => inr false) 0)
    (UTask 1 2 3 4 false false) unshare_wit_state 2 ltac:(simpl; lia) ltac:(simpl; lia) eq_refl ltac:(lia))
    as (r & t & s' & E & H).
  assert (r = 0) as -> by (vm_compute in E; by simplify_eq).
  exists t, s'. split; [exact E|]. destruct H as [(Hr & _)|(_ & H1 & _ & _ & _ & H2)]; [lia|].
  split; [exact H1|]. apply H2. lia.
Defined.
End OwnFiles.

Module StartUp.
Import Limits.

(** fork_init: the limits of the first task and of the first user namespace, from
    max_threads; a ucount limit is [None] for RLIM_INFINITY. *)
Record init_limits := InitLimits {
  nproc_cur : Z; nproc_max : Z; sigpending : Z * Z; ucount_max : list Z; ucount_rlimits : list (option Z)
}.
Definition fork_init (max_per_namespace : nat) (max_threads : Z) : init_limits :=
  let half := Z.quot max_threads 2 in
  InitLimits half half (half, half) (replicate max_per_namespace half) (replicate 4 None).

(** coredump_filter_setup, with the shift and mask of include/linux/sched/coredump.h. *)
Definition coredump_filter_setup (simple_strtoul : list Z -> Z) (shift mask : Z) (s : list Z) : Z * Z :=
  (Z.land (wrapu 64 (Z.shiftl (simple_strtoul s) shift)) mask, 1).

(** task_struct_whitelist: the part of a task_struct that may be copied to the user, from
    that of its thread_struct. *)
Definition task_struct_whitelist (offsetof_thread : Z) (arch : Z * Z) : Z * Z :=
  let '(offset, size) := arch in
  if size =? 0 then (0, size) else (offset + offsetof_thread, size).

(** check_mm: the alerts printed for an address space that is freed: the counters that are
    not zero, and the page tables left. *)
Definition check_mm (rss : list Z) (pgtables_bytes : Z) : list (nat * Z) * option Z :=
  (omap (fun q => if ztrue q.2 then Some q else None) (imap pair rss),
   if ztrue pgtables_bytes then Some pgtables_bytes else None).

(** The limits at boot: the first task may have half of all threads, at least ten, and as
    many pending signals; the part of a task_struct open to the user lies within its
    thread_struct; check_mm is silent exactly when nothing is left. *)
Theorem boot_limits page thread fls nr_pages k arch off_thread size_thread rss bytes :
  let l := fork_init k (set_max_threads page thread fls nr_pages MAX_THREADS) in
  (10 <= nproc_cur l < 2 ^ 29 /\ nproc_max l = nproc_cur l /\ sigpending l = (nproc_cur l, nproc_cur l) /\
   Forall (fun u => u = nproc_cur l) (ucount_max l)) /\
  (0 <= arch.1 -> 0 < arch.2 -> arch.1 + arch.2 <= size_thread ->
   let '(o, n) := task_struct_whitelist off_thread arch in off_thread <= o /\ o + n <= off_thread + size_thread) /\
  (check_mm rss bytes = ([], None) <-> Forall (fun x => x = 0) rss /\ bytes = 0).
Proof.
  simpl. split_and!.
  - unfold set_max_threads. set (th := Z.max _ _). assert (20 <= Z.min th MAX_THREADS <= MAX_THREADS) as H
      by (unfold th, MIN_THREADS, MAX_THREADS; lia). unfold MAX_THREADS in *.
    assert (10 <= Z.quot (Z.min th 0x3fffffff) 2) by (apply Z.quot_le_lower_bound; lia).
    apply H0.
  - unfold set_max_threads. set (th := Z.max _ _). assert (20 <= Z.min th MAX_THREADS <= MAX_THREADS) as H
      by (unfold th, MIN_THREADS, MAX_THREADS; lia). unfold MAX_THREADS in *.
    apply Z.quot_lt_upper_bound; lia.
  - done.
  - done.
  - by apply Forall_replicate.
  - destruct arch as [o n]. simpl. intros. destruct (Z.eqb_spec n 0); lia.
  - unfold check_mm, ztrue. split.
    + intros [= H1 H2]. split; [|by destruct (Z.eqb_spec bytes 0)].
      apply Forall_lookup. intros i x Hx. destruct (Z.eqb_spec x 0) as [|Hne]; [done|]. exfalso.
      assert ((i, x) ∈ omap (fun q : nat * Z => if negb (q.2 =? 0) then Some q else None) (imap pair rss)) as Hin.
      { apply list_elem_of_omap. exists (i, x). split; [|simpl; by rewrite (proj2 (Z.eqb_neq x 0) Hne)].
        apply list_elem_of_lookup. exists i. rewrite list_lookup_imap, Hx. done. }
      rewrite H1 in Hin. by apply not_elem_of_nil in Hin.
    + intros [Hz ->]. f_equal.
      destruct (omap _ _) as [|q l] eqn:E; [done|]. exfalso.
      assert (q ∈ q :: l) as Hq by by left. rewrite <- E in Hq.
      apply list_elem_of_omap in Hq as ([i x] & Hin & Hx). apply list_elem_of_lookup in Hin as [j Hj].
      rewrite list_lookup_imap in Hj. destruct (rss !! j) as [y|] eqn:Ey; [|done]. simplify_eq/=.
      rewrite Forall_lookup in Hz. specialize (Hz _ _ Ey). by subst.
Qed.
End StartUp.
