(* ===== verification/SyscallTables.v ===== *)
(** * The tables of system calls

    Four sources, transcribed line by line into data:
    - include/uapi/asm-generic/unistd.h: the numbers and the entries of the generic table
      ([unistd_h], in parts), with its preprocessor conditions;
    - kernel/sys_ni.c: the calls that may be left out of a kernel ([sys_ni_c], in parts);
    - include/linux/syscalls.h: the prototypes of the handlers ([syscalls_h], in parts),
      with the conditions; a parameter is its type, every pointer being [Ptr];
    - arch/x86/entry/syscalls/syscall_64.tbl: the table of x86-64 ([syscall_64_tbl]).
    What the lines mean is in Syscalls.v. *)

From S2P Require Import Prelude.

(** ** Preprocessor lines

    A file is a sequence of lines and conditional blocks; [A] is the type of its lines.  A
    part of a file takes the rest of the file as its argument. *)
Inductive cond :=
| Defined (x : string)
| BitsPerLong (n : Z)
| CNot (c : cond)
| COr (c d : cond)
| CAnd (c d : cond).

Inductive pp (A : Type) :=
| End
| Line (a : A) (k : pp A)
| If (c : cond) (t e k : pp A).
Arguments End {A}.
Arguments Line {A} a k.
Arguments If {A} c t e k.

Declare Scope pp_scope.
Delimit Scope pp_scope with pp.
Bind Scope pp_scope with pp.
Notation "a ;; k" := (Line a k) : pp_scope.
Notation "'#if' c '#then' t '#endif' k" := (If c t End k)
  (at level 100, k at level 200, right associativity) : pp_scope.
Notation "'#if' c '#then' t '#else' e '#endif' k" := (If c t e k)
  (at level 100, k at level 200, right associativity) : pp_scope.

(** ** include/uapi/asm-generic/unistd.h *)

(** The lines of unistd.h: a numeric macro, a macro that stands for another, a macro taken
    back, and the four macros that make entries. *)
Inductive unistd_line :=
| DEFINE (x : string) (n : Z)
| ALIAS (x y : string)
| UNDEF (x : string)
| SYSCALL (nr sym : string)
| SC_3264 (nr s32 s64 : string)
| SC_COMP (nr sys comp : string)
| SC_COMP_3264 (nr s32 s64 comp : string).


(** Lines 33 to 180. *)
Definition unistd_h_1 (k : pp unistd_line) : pp unistd_line := (
  DEFINE "__NR_io_setup" 0 ;;
  SC_COMP "__NR_io_setup" "sys_io_setup" "compat_sys_io_setup" ;;
  DEFINE "__NR_io_destroy" 1 ;;
  SYSCALL "__NR_io_destroy" "sys_io_destroy" ;;
  DEFINE "__NR_io_submit" 2 ;;
  SC_COMP "__NR_io_submit" "sys_io_submit" "compat_sys_io_submit" ;;
  DEFINE "__NR_io_cancel" 3 ;;
  SYSCALL "__NR_io_cancel" "sys_io_cancel" ;;
  #if (COr (Defined "__ARCH_WANT_TIME32_SYSCALLS") (CNot (BitsPerLong 32))) #then
    DEFINE "__NR_io_getevents" 4 ;;
    SC_3264 "__NR_io_getevents" "sys_io_getevents_time32" "sys_io_getevents" ;; End
  #endif
  DEFINE "__NR_setxattr" 5 ;;
  SYSCALL "__NR_setxattr" "sys_setxattr" ;;
  DEFINE "__NR_lsetxattr" 6 ;;
  SYSCALL "__NR_lsetxattr" "sys_lsetxattr" ;;
  DEFINE "__NR_fsetxattr" 7 ;;
  SYSCALL "__NR_fsetxattr" "sys_fsetxattr" ;;
  DEFINE "__NR_getxattr" 8 ;;
  SYSCALL "__NR_getxattr" "sys_getxattr" ;;
  DEFINE "__NR_lgetxattr" 9 ;;
  SYSCALL "__NR_lgetxattr" "sys_lgetxattr" ;;
  DEFINE "__NR_fgetxattr" 10 ;;
  SYSCALL "__NR_fgetxattr" "sys_fgetxattr" ;;
  DEFINE "__NR_listxattr" 11 ;;
  SYSCALL "__NR_listxattr" "sys_listxattr" ;;
  DEFINE "__NR_llistxattr" 12 ;;
  SYSCALL "__NR_llistxattr" "sys_llistxattr" ;;
  DEFINE "__NR_flistxattr" 13 ;;
  SYSCALL "__NR_flistxattr" "sys_flistxattr" ;;
  DEFINE "__NR_removexattr" 14 ;;
  SYSCALL "__NR_removexattr" "sys_removexattr" ;;
  DEFINE "__NR_lremovexattr" 15 ;;
  SYSCALL "__NR_lremovexattr" "sys_lremovexattr" ;;
  DEFINE "__NR_fremovexattr" 16 ;;
  SYSCALL "__NR_fremovexattr" "sys_fremovexattr" ;;
  DEFINE "__NR_getcwd" 17 ;;
  SYSCALL "__NR_getcwd" "sys_getcwd" ;;
  DEFINE "__NR_lookup_dcookie" 18 ;;
  SC_COMP "__NR_lookup_dcookie" "sys_lookup_dcookie" "compat_sys_lookup_dcookie" ;;
  DEFINE "__NR_eventfd2" 19 ;;
  SYSCALL "__NR_eventfd2" "sys_eventfd2" ;;
  DEFINE "__NR_epoll_create1" 20 ;;
  SYSCALL "__NR_epoll_create1" "sys_epoll_create1" ;;
  DEFINE "__NR_epoll_ctl" 21 ;;
  SYSCALL "__NR_epoll_ctl" "sys_epoll_ctl" ;;
  DEFINE "__NR_epoll_pwait" 22 ;;
  SC_COMP "__NR_epoll_pwait" "sys_epoll_pwait" "compat_sys_epoll_pwait" ;;
  DEFINE "__NR_dup" 23 ;;
  SYSCALL "__NR_dup" "sys_dup" ;;
  DEFINE "__NR_dup3" 24 ;;
  SYSCALL "__NR_dup3" "sys_dup3" ;;
  DEFINE "__NR3264_fcntl" 25 ;;
  SC_COMP_3264 "__NR3264_fcntl" "sys_fcntl64" "sys_fcntl" "compat_sys_fcntl64" ;;
  DEFINE "__NR_inotify_init1" 26 ;;
  SYSCALL "__NR_inotify_init1" "sys_inotify_init1" ;;
  DEFINE "__NR_inotify_add_watch" 27 ;;
  SYSCALL "__NR_inotify_add_watch" "sys_inotify_add_watch" ;;
  DEFINE "__NR_inotify_rm_watch" 28 ;;
  SYSCALL "__NR_inotify_rm_watch" "sys_inotify_rm_watch" ;;
  DEFINE "__NR_ioctl" 29 ;;
  SC_COMP "__NR_ioctl" "sys_ioctl" "compat_sys_ioctl" ;;
  DEFINE "__NR_ioprio_set" 30 ;;
  SYSCALL "__NR_ioprio_set" "sys_ioprio_set" ;;
  DEFINE "__NR_ioprio_get" 31 ;;
  SYSCALL "__NR_ioprio_get" "sys_ioprio_get" ;;
  DEFINE "__NR_flock" 32 ;;
  SYSCALL "__NR_flock" "sys_flock" ;;
  DEFINE "__NR_mknodat" 33 ;;
  SYSCALL "__NR_mknodat" "sys_mknodat" ;;
  DEFINE "__NR_mkdirat" 34 ;;
  SYSCALL "__NR_mkdirat" "sys_mkdirat" ;;
  DEFINE "__NR_unlinkat" 35 ;;
  SYSCALL "__NR_unlinkat" "sys_unlinkat" ;;
  DEFINE "__NR_symlinkat" 36 ;;
  SYSCALL "__NR_symlinkat" "sys_symlinkat" ;;
  DEFINE "__NR_linkat" 37 ;;
  SYSCALL "__NR_linkat" "sys_linkat" ;;
  #if (Defined "__ARCH_WANT_RENAMEAT") #then
    DEFINE "__NR_renameat" 38 ;;
    SYSCALL "__NR_renameat" "sys_renameat" ;; End
  #endif
  DEFINE "__NR_umount2" 39 ;;
  SYSCALL "__NR_umount2" "sys_umount" ;;
  DEFINE "__NR_mount" 40 ;;
  SYSCALL "__NR_mount" "sys_mount" ;;
  DEFINE "__NR_pivot_root" 41 ;;
  SYSCALL "__NR_pivot_root" "sys_pivot_root" ;;
  DEFINE "__NR_nfsservctl" 42 ;;
  SYSCALL "__NR_nfsservctl" "sys_ni_syscall" ;;
  DEFINE "__NR3264_statfs" 43 ;;
  SC_COMP_3264 "__NR3264_statfs" "sys_statfs64" "sys_statfs" "compat_sys_statfs64" ;;
  DEFINE "__NR3264_fstatfs" 44 ;;
  SC_COMP_3264 "__NR3264_fstatfs" "sys_fstatfs64" "sys_fstatfs" "compat_sys_fstatfs64" ;;
  DEFINE "__NR3264_truncate" 45 ;;
  SC_COMP_3264 "__NR3264_truncate" "sys_truncate64" "sys_truncate" "compat_sys_truncate64" ;;
  DEFINE "__NR3264_ftruncate" 46 ;;
  SC_COMP_3264 "__NR3264_ftruncate" "sys_ftruncate64" "sys_ftruncate" "compat_sys_ftruncate64" ;;
  DEFINE "__NR_fallocate" 47 ;;
  SC_COMP "__NR_fallocate" "sys_fallocate" "compat_sys_fallocate" ;;
  DEFINE "__NR_faccessat" 48 ;;
  SYSCALL "__NR_faccessat" "sys_faccessat" ;;
  DEFINE "__NR_chdir" 49 ;;
  SYSCALL "__NR_chdir" "sys_chdir" ;;
  DEFINE "__NR_fchdir" 50 ;;
  SYSCALL "__NR_fchdir" "sys_fchdir" ;;
  DEFINE "__NR_chroot" 51 ;;
  SYSCALL "__NR_chroot" "sys_chroot" ;;
  DEFINE "__NR_fchmod" 52 ;;
  SYSCALL "__NR_fchmod" "sys_fchmod" ;;
  DEFINE "__NR_fchmodat" 53 ;;
  SYSCALL "__NR_fchmodat" "sys_fchmodat" ;;
  DEFINE "__NR_fchownat" 54 ;;
  SYSCALL "__NR_fchownat" "sys_fchownat" ;; k)%pp.

(** Lines 181 to 329. *)
Definition unistd_h_2 (k : pp unistd_line) : pp unistd_line := (
  DEFINE "__NR_fchown" 55 ;;
  SYSCALL "__NR_fchown" "sys_fchown" ;;
  DEFINE "__NR_openat" 56 ;;
  SYSCALL "__NR_openat" "sys_openat" ;;
  DEFINE "__NR_close" 57 ;;
  SYSCALL "__NR_close" "sys_close" ;;
  DEFINE "__NR_vhangup" 58 ;;
  SYSCALL "__NR_vhangup" "sys_vhangup" ;;
  DEFINE "__NR_pipe2" 59 ;;
  SYSCALL "__NR_pipe2" "sys_pipe2" ;;
  DEFINE "__NR_quotactl" 60 ;;
  SYSCALL "__NR_quotactl" "sys_quotactl" ;;
  DEFINE "__NR_getdents64" 61 ;;
  SYSCALL "__NR_getdents64" "sys_getdents64" ;;
  DEFINE "__NR3264_lseek" 62 ;;
  SC_3264 "__NR3264_lseek" "sys_llseek" "sys_lseek" ;;
  DEFINE "__NR_read" 63 ;;
  SYSCALL "__NR_read" "sys_read" ;;
  DEFINE "__NR_write" 64 ;;
  SYSCALL "__NR_write" "sys_write" ;;
  DEFINE "__NR_readv" 65 ;;
  SC_COMP "__NR_readv" "sys_readv" "sys_readv" ;;
  DEFINE "__NR_writev" 66 ;;
  SC_COMP "__NR_writev" "sys_writev" "sys_writev" ;;
  DEFINE "__NR_pread64" 67 ;;
  SC_COMP "__NR_pread64" "sys_pread64" "compat_sys_pread64" ;;
  DEFINE "__NR_pwrite64" 68 ;;
  SC_COMP "__NR_pwrite64" "sys_pwrite64" "compat_sys_pwrite64" ;;
  DEFINE "__NR_preadv" 69 ;;
  SC_COMP "__NR_preadv" "sys_preadv" "compat_sys_preadv" ;;
  DEFINE "__NR_pwritev" 70 ;;
  SC_COMP "__NR_pwritev" "sys_pwritev" "compat_sys_pwritev" ;;
  DEFINE "__NR3264_sendfile" 71 ;;
  SYSCALL "__NR3264_sendfile" "sys_sendfile64" ;;
  #if (COr (Defined "__ARCH_WANT_TIME32_SYSCALLS") (CNot (BitsPerLong 32))) #then
    DEFINE "__NR_pselect6" 72 ;;
    SC_COMP_3264 "__NR_pselect6" "sys_pselect6_time32" "sys_pselect6" "compat_sys_pselect6_time32" ;;
    DEFINE "__NR_ppoll" 73 ;;
    SC_COMP_3264 "__NR_ppoll" "sys_ppoll_time32" "sys_ppoll" "compat_sys_ppoll_time32" ;; End
  #endif
  DEFINE "__NR_signalfd4" 74 ;;
  SC_COMP "__NR_signalfd4" "sys_signalfd4" "compat_sys_signalfd4" ;;
  DEFINE "__NR_vmsplice" 75 ;;
  SYSCALL "__NR_vmsplice" "sys_vmsplice" ;;
  DEFINE "__NR_splice" 76 ;;
  SYSCALL "__NR_splice" "sys_splice" ;;
  DEFINE "__NR_tee" 77 ;;
  SYSCALL "__NR_tee" "sys_tee" ;;
  DEFINE "__NR_readlinkat" 78 ;;
  SYSCALL "__NR_readlinkat" "sys_readlinkat" ;;
  #if (COr (Defined "__ARCH_WANT_NEW_STAT") (Defined "__ARCH_WANT_STAT64")) #then
    DEFINE "__NR3264_fstatat" 79 ;;
    SC_3264 "__NR3264_fstatat" "sys_fstatat64" "sys_newfstatat" ;;
    DEFINE "__NR3264_fstat" 80 ;;
    SC_3264 "__NR3264_fstat" "sys_fstat64" "sys_newfstat" ;; End
  #endif
  DEFINE "__NR_sync" 81 ;;
  SYSCALL "__NR_sync" "sys_sync" ;;
  DEFINE "__NR_fsync" 82 ;;
  SYSCALL "__NR_fsync" "sys_fsync" ;;
  DEFINE "__NR_fdatasync" 83 ;;
  SYSCALL "__NR_fdatasync" "sys_fdatasync" ;;
  #if (Defined "__ARCH_WANT_SYNC_FILE_RANGE2") #then
    DEFINE "__NR_sync_file_range2" 84 ;;
    SC_COMP "__NR_sync_file_range2" "sys_sync_file_range2" "compat_sys_sync_file_range2" ;; End
  #else
    DEFINE "__NR_sync_file_range" 84 ;;
    SC_COMP "__NR_sync_file_range" "sys_sync_file_range" "compat_sys_sync_file_range" ;; End
  #endif
  DEFINE "__NR_timerfd_create" 85 ;;
  SYSCALL "__NR_timerfd_create" "sys_timerfd_create" ;;
  #if (COr (Defined "__ARCH_WANT_TIME32_SYSCALLS") (CNot (BitsPerLong 32))) #then
    DEFINE "__NR_timerfd_settime" 86 ;;
    SC_3264 "__NR_timerfd_settime" "sys_timerfd_settime32" "sys_timerfd_settime" ;;
    DEFINE "__NR_timerfd_gettime" 87 ;;
    SC_3264 "__NR_timerfd_gettime" "sys_timerfd_gettime32" "sys_timerfd_gettime" ;; End
  #endif
  #if (COr (Defined "__ARCH_WANT_TIME32_SYSCALLS") (CNot (BitsPerLong 32))) #then
    DEFINE "__NR_utimensat" 88 ;;
    SC_3264 "__NR_utimensat" "sys_utimensat_time32" "sys_utimensat" ;; End
  #endif
  DEFINE "__NR_acct" 89 ;;
  SYSCALL "__NR_acct" "sys_acct" ;;
  DEFINE "__NR_capget" 90 ;;
  SYSCALL "__NR_capget" "sys_capget" ;;
  DEFINE "__NR_capset" 91 ;;
  SYSCALL "__NR_capset" "sys_capset" ;;
  DEFINE "__NR_personality" 92 ;;
  SYSCALL "__NR_personality" "sys_personality" ;;
  DEFINE "__NR_exit" 93 ;;
  SYSCALL "__NR_exit" "sys_exit" ;;
  DEFINE "__NR_exit_group" 94 ;;
  SYSCALL "__NR_exit_group" "sys_exit_group" ;;
  DEFINE "__NR_waitid" 95 ;;
  SC_COMP "__NR_waitid" "sys_waitid" "compat_sys_waitid" ;;
  DEFINE "__NR_set_tid_address" 96 ;;
  SYSCALL "__NR_set_tid_address" "sys_set_tid_address" ;;
  DEFINE "__NR_unshare" 97 ;;
  SYSCALL "__NR_unshare" "sys_unshare" ;;
  #if (COr (Defined "__ARCH_WANT_TIME32_SYSCALLS") (CNot (BitsPerLong 32))) #then
    DEFINE "__NR_futex" 98 ;;
    SC_3264 "__NR_futex" "sys_futex_time32" "sys_futex" ;; End
  #endif
  DEFINE "__NR_set_robust_list" 99 ;;
  SC_COMP "__NR_set_robust_list" "sys_set_robust_list" "compat_sys_set_robust_list" ;;
  DEFINE "__NR_get_robust_list" 100 ;;
  SC_COMP "__NR_get_robust_list" "sys_get_robust_list" "compat_sys_get_robust_list" ;; k)%pp.

(** Lines 332 to 479. *)
Definition unistd_h_3 (k : pp unistd_line) : pp unistd_line := (
  #if (COr (Defined "__ARCH_WANT_TIME32_SYSCALLS") (CNot (BitsPerLong 32))) #then
    DEFINE "__NR_nanosleep" 101 ;;
    SC_3264 "__NR_nanosleep" "sys_nanosleep_time32" "sys_nanosleep" ;; End
  #endif
  DEFINE "__NR_getitimer" 102 ;;
  SC_COMP "__NR_getitimer" "sys_getitimer" "compat_sys_getitimer" ;;
  DEFINE "__NR_setitimer" 103 ;;
  SC_COMP "__NR_setitimer" "sys_setitimer" "compat_sys_setitimer" ;;
  DEFINE "__NR_kexec_load" 104 ;;
  SC_COMP "__NR_kexec_load" "sys_kexec_load" "compat_sys_kexec_load" ;;
  DEFINE "__NR_init_module" 105 ;;
  SYSCALL "__NR_init_module" "sys_init_module" ;;
  DEFINE "__NR_delete_module" 106 ;;
  SYSCALL "__NR_delete_module" "sys_delete_module" ;;
  DEFINE "__NR_timer_create" 107 ;;
  SC_COMP "__NR_timer_create" "sys_timer_create" "compat_sys_timer_create" ;;
  #if (COr (Defined "__ARCH_WANT_TIME32_SYSCALLS") (CNot (BitsPerLong 32))) #then
    DEFINE "__NR_timer_gettime" 108 ;;
    SC_3264 "__NR_timer_gettime" "sys_timer_gettime32" "sys_timer_gettime" ;; End
  #endif
  DEFINE "__NR_timer_getoverrun" 109 ;;
  SYSCALL "__NR_timer_getoverrun" "sys_timer_getoverrun" ;;
  #if (COr (Defined "__ARCH_WANT_TIME32_SYSCALLS") (CNot (BitsPerLong 32))) #then
    DEFINE "__NR_timer_settime" 110 ;;
    SC_3264 "__NR_timer_settime" "sys_timer_settime32" "sys_timer_settime" ;; End
  #endif
  DEFINE "__NR_timer_delete" 111 ;;
  SYSCALL "__NR_timer_delete" "sys_timer_delete" ;;
  #if (COr (Defined "__ARCH_WANT_TIME32_SYSCALLS") (CNot (BitsPerLong 32))) #then
    DEFINE "__NR_clock_settime" 112 ;;
    SC_3264 "__NR_clock_settime" "sys_clock_settime32" "sys_clock_settime" ;;
    DEFINE "__NR_clock_gettime" 113 ;;
    SC_3264 "__NR_clock_gettime" "sys_clock_gettime32" "sys_clock_gettime" ;;
    DEFINE "__NR_clock_getres" 114 ;;
    SC_3264 "__NR_clock_getres" "sys_clock_getres_time32" "sys_clock_getres" ;;
    DEFINE "__NR_clock_nanosleep" 115 ;;
    SC_3264 "__NR_clock_nanosleep" "sys_clock_nanosleep_time32" "sys_clock_nanosleep" ;; End
  #endif
  DEFINE "__NR_syslog" 116 ;;
  SYSCALL "__NR_syslog" "sys_syslog" ;;
  DEFINE "__NR_ptrace" 117 ;;
  SYSCALL "__NR_ptrace" "sys_ptrace" ;;
  DEFINE "__NR_sched_setparam" 118 ;;
  SYSCALL "__NR_sched_setparam" "sys_sched_setparam" ;;
  DEFINE "__NR_sched_setscheduler" 119 ;;
  SYSCALL "__NR_sched_setscheduler" "sys_sched_setscheduler" ;;
  DEFINE "__NR_sched_getscheduler" 120 ;;
  SYSCALL "__NR_sched_getscheduler" "sys_sched_getscheduler" ;;
  DEFINE "__NR_sched_getparam" 121 ;;
  SYSCALL "__NR_sched_getparam" "sys_sched_getparam" ;;
  DEFINE "__NR_sched_setaffinity" 122 ;;
  SC_COMP "__NR_sched_setaffinity" "sys_sched_setaffinity" "compat_sys_sched_setaffinity" ;;
  DEFINE "__NR_sched_getaffinity" 123 ;;
  SC_COMP "__NR_sched_getaffinity" "sys_sched_getaffinity" "compat_sys_sched_getaffinity" ;;
  DEFINE "__NR_sched_yield" 124 ;;
  SYSCALL "__NR_sched_yield" "sys_sched_yield" ;;
  DEFINE "__NR_sched_get_priority_max" 125 ;;
  SYSCALL "__NR_sched_get_priority_max" "sys_sched_get_priority_max" ;;
  DEFINE "__NR_sched_get_priority_min" 126 ;;
  SYSCALL "__NR_sched_get_priority_min" "sys_sched_get_priority_min" ;;
  #if (COr (Defined "__ARCH_WANT_TIME32_SYSCALLS") (CNot (BitsPerLong 32))) #then
    DEFINE "__NR_sched_rr_get_interval" 127 ;;
    SC_3264 "__NR_sched_rr_get_interval" "sys_sched_rr_get_interval_time32" "sys_sched_rr_get_interval" ;; End
  #endif
  DEFINE "__NR_restart_syscall" 128 ;;
  SYSCALL "__NR_restart_syscall" "sys_restart_syscall" ;;
  DEFINE "__NR_kill" 129 ;;
  SYSCALL "__NR_kill" "sys_kill" ;;
  DEFINE "__NR_tkill" 130 ;;
  SYSCALL "__NR_tkill" "sys_tkill" ;;
  DEFINE "__NR_tgkill" 131 ;;
  SYSCALL "__NR_tgkill" "sys_tgkill" ;;
  DEFINE "__NR_sigaltstack" 132 ;;
  SC_COMP "__NR_sigaltstack" "sys_sigaltstack" "compat_sys_sigaltstack" ;;
  DEFINE "__NR_rt_sigsuspend" 133 ;;
  SC_COMP "__NR_rt_sigsuspend" "sys_rt_sigsuspend" "compat_sys_rt_sigsuspend" ;;
  DEFINE "__NR_rt_sigaction" 134 ;;
  SC_COMP "__NR_rt_sigaction" "sys_rt_sigaction" "compat_sys_rt_sigaction" ;;
  DEFINE "__NR_rt_sigprocmask" 135 ;;
  SC_COMP "__NR_rt_sigprocmask" "sys_rt_sigprocmask" "compat_sys_rt_sigprocmask" ;;
  DEFINE "__NR_rt_sigpending" 136 ;;
  SC_COMP "__NR_rt_sigpending" "sys_rt_sigpending" "compat_sys_rt_sigpending" ;;
  #if (COr (Defined "__ARCH_WANT_TIME32_SYSCALLS") (CNot (BitsPerLong 32))) #then
    DEFINE "__NR_rt_sigtimedwait" 137 ;;
    SC_COMP_3264 "__NR_rt_sigtimedwait" "sys_rt_sigtimedwait_time32" "sys_rt_sigtimedwait" "compat_sys_rt_sigtimedwait_time32" ;; End
  #endif
  DEFINE "__NR_rt_sigqueueinfo" 138 ;;
  SC_COMP "__NR_rt_sigqueueinfo" "sys_rt_sigqueueinfo" "compat_sys_rt_sigqueueinfo" ;;
  DEFINE "__NR_rt_sigreturn" 139 ;;
  SC_COMP "__NR_rt_sigreturn" "sys_rt_sigreturn" "compat_sys_rt_sigreturn" ;;
  DEFINE "__NR_setpriority" 140 ;;
  SYSCALL "__NR_setpriority" "sys_setpriority" ;;
  DEFINE "__NR_getpriority" 141 ;;
  SYSCALL "__NR_getpriority" "sys_getpriority" ;;
  DEFINE "__NR_reboot" 142 ;;
  SYSCALL "__NR_reboot" "sys_reboot" ;;
  DEFINE "__NR_setregid" 143 ;;
  SYSCALL "__NR_setregid" "sys_setregid" ;;
  DEFINE "__NR_setgid" 144 ;;
  SYSCALL "__NR_setgid" "sys_setgid" ;;
  DEFINE "__NR_setreuid" 145 ;;
  SYSCALL "__NR_setreuid" "sys_setreuid" ;;
  DEFINE "__NR_setuid" 146 ;;
  SYSCALL "__NR_setuid" "sys_setuid" ;;
  DEFINE "__NR_setresuid" 147 ;;
  SYSCALL "__NR_setresuid" "sys_setresuid" ;;
  DEFINE "__NR_getresuid" 148 ;;
  SYSCALL "__NR_getresuid" "sys_getresuid" ;;
  DEFINE "__NR_setresgid" 149 ;;
  SYSCALL "__NR_setresgid" "sys_setresgid" ;;
  DEFINE "__NR_getresgid" 150 ;;
  SYSCALL "__NR_getresgid" "sys_getresgid" ;;
  DEFINE "__NR_setfsuid" 151 ;;
  SYSCALL "__NR_setfsuid" "sys_setfsuid" ;;
  DEFINE "__NR_setfsgid" 152 ;;
  SYSCALL "__NR_setfsgid" "sys_setfsgid" ;;
  DEFINE "__NR_times" 153 ;;
  SC_COMP "__NR_times" "sys_times" "compat_sys_times" ;;
  DEFINE "__NR_setpgid" 154 ;;
  SYSCALL "__NR_setpgid" "sys_setpgid" ;;
  DEFINE "__NR_getpgid" 155 ;;
  SYSCALL "__NR_getpgid" "sys_getpgid" ;;
  DEFINE "__NR_getsid" 156 ;;
  SYSCALL "__NR_getsid" "sys_getsid" ;; k)%pp.

(** Lines 480 to 627. *)
Definition unistd_h_4 (k : pp unistd_line) : pp unistd_line := (
  DEFINE "__NR_setsid" 157 ;;
  SYSCALL "__NR_setsid" "sys_setsid" ;;
  DEFINE "__NR_getgroups" 158 ;;
  SYSCALL "__NR_getgroups" "sys_getgroups" ;;
  DEFINE "__NR_setgroups" 159 ;;
  SYSCALL "__NR_setgroups" "sys_setgroups" ;;
  DEFINE "__NR_uname" 160 ;;
  SYSCALL "__NR_uname" "sys_newuname" ;;
  DEFINE "__NR_sethostname" 161 ;;
  SYSCALL "__NR_sethostname" "sys_sethostname" ;;
  DEFINE "__NR_setdomainname" 162 ;;
  SYSCALL "__NR_setdomainname" "sys_setdomainname" ;;
  #if (Defined "__ARCH_WANT_SET_GET_RLIMIT") #then
    DEFINE "__NR_getrlimit" 163 ;;
    SC_COMP "__NR_getrlimit" "sys_getrlimit" "compat_sys_getrlimit" ;;
    DEFINE "__NR_setrlimit" 164 ;;
    SC_COMP "__NR_setrlimit" "sys_setrlimit" "compat_sys_setrlimit" ;; End
  #endif
  DEFINE "__NR_getrusage" 165 ;;
  SC_COMP "__NR_getrusage" "sys_getrusage" "compat_sys_getrusage" ;;
  DEFINE "__NR_umask" 166 ;;
  SYSCALL "__NR_umask" "sys_umask" ;;
  DEFINE "__NR_prctl" 167 ;;
  SYSCALL "__NR_prctl" "sys_prctl" ;;
  DEFINE "__NR_getcpu" 168 ;;
  SYSCALL "__NR_getcpu" "sys_getcpu" ;;
  #if (COr (Defined "__ARCH_WANT_TIME32_SYSCALLS") (CNot (BitsPerLong 32))) #then
    DEFINE "__NR_gettimeofday" 169 ;;
    SC_COMP "__NR_gettimeofday" "sys_gettimeofday" "compat_sys_gettimeofday" ;;
    DEFINE "__NR_settimeofday" 170 ;;
    SC_COMP "__NR_settimeofday" "sys_settimeofday" "compat_sys_settimeofday" ;;
    DEFINE "__NR_adjtimex" 171 ;;
    SC_3264 "__NR_adjtimex" "sys_adjtimex_time32" "sys_adjtimex" ;; End
  #endif
  DEFINE "__NR_getpid" 172 ;;
  SYSCALL "__NR_getpid" "sys_getpid" ;;
  DEFINE "__NR_getppid" 173 ;;
  SYSCALL "__NR_getppid" "sys_getppid" ;;
  DEFINE "__NR_getuid" 174 ;;
  SYSCALL "__NR_getuid" "sys_getuid" ;;
  DEFINE "__NR_geteuid" 175 ;;
  SYSCALL "__NR_geteuid" "sys_geteuid" ;;
  DEFINE "__NR_getgid" 176 ;;
  SYSCALL "__NR_getgid" "sys_getgid" ;;
  DEFINE "__NR_getegid" 177 ;;
  SYSCALL "__NR_getegid" "sys_getegid" ;;
  DEFINE "__NR_gettid" 178 ;;
  SYSCALL "__NR_gettid" "sys_gettid" ;;
  DEFINE "__NR_sysinfo" 179 ;;
  SC_COMP "__NR_sysinfo" "sys_sysinfo" "compat_sys_sysinfo" ;;
  DEFINE "__NR_mq_open" 180 ;;
  SC_COMP "__NR_mq_open" "sys_mq_open" "compat_sys_mq_open" ;;
  DEFINE "__NR_mq_unlink" 181 ;;
  SYSCALL "__NR_mq_unlink" "sys_mq_unlink" ;;
  #if (COr (Defined "__ARCH_WANT_TIME32_SYSCALLS") (CNot (BitsPerLong 32))) #then
    DEFINE "__NR_mq_timedsend" 182 ;;
    SC_3264 "__NR_mq_timedsend" "sys_mq_timedsend_time32" "sys_mq_timedsend" ;;
    DEFINE "__NR_mq_timedreceive" 183 ;;
    SC_3264 "__NR_mq_timedreceive" "sys_mq_timedreceive_time32" "sys_mq_timedreceive" ;; End
  #endif
  DEFINE "__NR_mq_notify" 184 ;;
  SC_COMP "__NR_mq_notify" "sys_mq_notify" "compat_sys_mq_notify" ;;
  DEFINE "__NR_mq_getsetattr" 185 ;;
  SC_COMP "__NR_mq_getsetattr" "sys_mq_getsetattr" "compat_sys_mq_getsetattr" ;;
  DEFINE "__NR_msgget" 186 ;;
  SYSCALL "__NR_msgget" "sys_msgget" ;;
  DEFINE "__NR_msgctl" 187 ;;
  SC_COMP "__NR_msgctl" "sys_msgctl" "compat_sys_msgctl" ;;
  DEFINE "__NR_msgrcv" 188 ;;
  SC_COMP "__NR_msgrcv" "sys_msgrcv" "compat_sys_msgrcv" ;;
  DEFINE "__NR_msgsnd" 189 ;;
  SC_COMP "__NR_msgsnd" "sys_msgsnd" "compat_sys_msgsnd" ;;
  DEFINE "__NR_semget" 190 ;;
  SYSCALL "__NR_semget" "sys_semget" ;;
  DEFINE "__NR_semctl" 191 ;;
  SC_COMP "__NR_semctl" "sys_semctl" "compat_sys_semctl" ;;
  #if (COr (Defined "__ARCH_WANT_TIME32_SYSCALLS") (CNot (BitsPerLong 32))) #then
    DEFINE "__NR_semtimedop" 192 ;;
    SC_3264 "__NR_semtimedop" "sys_semtimedop_time32" "sys_semtimedop" ;; End
  #endif
  DEFINE "__NR_semop" 193 ;;
  SYSCALL "__NR_semop" "sys_semop" ;;
  DEFINE "__NR_shmget" 194 ;;
  SYSCALL "__NR_shmget" "sys_shmget" ;;
  DEFINE "__NR_shmctl" 195 ;;
  SC_COMP "__NR_shmctl" "sys_shmctl" "compat_sys_shmctl" ;;
  DEFINE "__NR_shmat" 196 ;;
  SC_COMP "__NR_shmat" "sys_shmat" "compat_sys_shmat" ;;
  DEFINE "__NR_shmdt" 197 ;;
  SYSCALL "__NR_shmdt" "sys_shmdt" ;;
  DEFINE "__NR_socket" 198 ;;
  SYSCALL "__NR_socket" "sys_socket" ;;
  DEFINE "__NR_socketpair" 199 ;;
  SYSCALL "__NR_socketpair" "sys_socketpair" ;;
  DEFINE "__NR_bind" 200 ;;
  SYSCALL "__NR_bind" "sys_bind" ;;
  DEFINE "__NR_listen" 201 ;;
  SYSCALL "__NR_listen" "sys_listen" ;;
  DEFINE "__NR_accept" 202 ;;
  SYSCALL "__NR_accept" "sys_accept" ;;
  DEFINE "__NR_connect" 203 ;;
  SYSCALL "__NR_connect" "sys_connect" ;;
  DEFINE "__NR_getsockname" 204 ;;
  SYSCALL "__NR_getsockname" "sys_getsockname" ;;
  DEFINE "__NR_getpeername" 205 ;;
  SYSCALL "__NR_getpeername" "sys_getpeername" ;;
  DEFINE "__NR_sendto" 206 ;;
  SYSCALL "__NR_sendto" "sys_sendto" ;;
  DEFINE "__NR_recvfrom" 207 ;;
  SC_COMP "__NR_recvfrom" "sys_recvfrom" "compat_sys_recvfrom" ;;
  DEFINE "__NR_setsockopt" 208 ;;
  SC_COMP "__NR_setsockopt" "sys_setsockopt" "sys_setsockopt" ;;
  DEFINE "__NR_getsockopt" 209 ;;
  SC_COMP "__NR_getsockopt" "sys_getsockopt" "sys_getsockopt" ;;
  DEFINE "__NR_shutdown" 210 ;;
  SYSCALL "__NR_shutdown" "sys_shutdown" ;;
  DEFINE "__NR_sendmsg" 211 ;;
  SC_COMP "__NR_sendmsg" "sys_sendmsg" "compat_sys_sendmsg" ;;
  DEFINE "__NR_recvmsg" 212 ;;
  SC_COMP "__NR_recvmsg" "sys_recvmsg" "compat_sys_recvmsg" ;;
  DEFINE "__NR_readahead" 213 ;;
  SC_COMP "__NR_readahead" "sys_readahead" "compat_sys_readahead" ;;
  DEFINE "__NR_brk" 214 ;;
  SYSCALL "__NR_brk" "sys_brk" ;;
  DEFINE "__NR_munmap" 215 ;;
  SYSCALL "__NR_munmap" "sys_munmap" ;; k)%pp.

(** Lines 628 to 772. *)
Definition unistd_h_5 (k : pp unistd_line) : pp unistd_line := (
  DEFINE "__NR_mremap" 216 ;;
  SYSCALL "__NR_mremap" "sys_mremap" ;;
  DEFINE "__NR_add_key" 217 ;;
  SYSCALL "__NR_add_key" "sys_add_key" ;;
  DEFINE "__NR_request_key" 218 ;;
  SYSCALL "__NR_request_key" "sys_request_key" ;;
  DEFINE "__NR_keyctl" 219 ;;
  SC_COMP "__NR_keyctl" "sys_keyctl" "compat_sys_keyctl" ;;
  DEFINE "__NR_clone" 220 ;;
  SYSCALL "__NR_clone" "sys_clone" ;;
  DEFINE "__NR_execve" 221 ;;
  SC_COMP "__NR_execve" "sys_execve" "compat_sys_execve" ;;
  DEFINE "__NR3264_mmap" 222 ;;
  SC_3264 "__NR3264_mmap" "sys_mmap2" "sys_mmap" ;;
  DEFINE "__NR3264_fadvise64" 223 ;;
  SC_COMP "__NR3264_fadvise64" "sys_fadvise64_64" "compat_sys_fadvise64_64" ;;
  #if (CNot (Defined "__ARCH_NOMMU")) #then
    DEFINE "__NR_swapon" 224 ;;
    SYSCALL "__NR_swapon" "sys_swapon" ;;
    DEFINE "__NR_swapoff" 225 ;;
    SYSCALL "__NR_swapoff" "sys_swapoff" ;;
    DEFINE "__NR_mprotect" 226 ;;
    SYSCALL "__NR_mprotect" "sys_mprotect" ;;
    DEFINE "__NR_msync" 227 ;;
    SYSCALL "__NR_msync" "sys_msync" ;;
    DEFINE "__NR_mlock" 228 ;;
    SYSCALL "__NR_mlock" "sys_mlock" ;;
    DEFINE "__NR_munlock" 229 ;;
    SYSCALL "__NR_munlock" "sys_munlock" ;;
    DEFINE "__NR_mlockall" 230 ;;
    SYSCALL "__NR_mlockall" "sys_mlockall" ;;
    DEFINE "__NR_munlockall" 231 ;;
    SYSCALL "__NR_munlockall" "sys_munlockall" ;;
    DEFINE "__NR_mincore" 232 ;;
    SYSCALL "__NR_mincore" "sys_mincore" ;;
    DEFINE "__NR_madvise" 233 ;;
    SYSCALL "__NR_madvise" "sys_madvise" ;;
    DEFINE "__NR_remap_file_pages" 234 ;;
    SYSCALL "__NR_remap_file_pages" "sys_remap_file_pages" ;;
    DEFINE "__NR_mbind" 235 ;;
    SYSCALL "__NR_mbind" "sys_mbind" ;;
    DEFINE "__NR_get_mempolicy" 236 ;;
    SYSCALL "__NR_get_mempolicy" "sys_get_mempolicy" ;;
    DEFINE "__NR_set_mempolicy" 237 ;;
    SYSCALL "__NR_set_mempolicy" "sys_set_mempolicy" ;;
    DEFINE "__NR_migrate_pages" 238 ;;
    SYSCALL "__NR_migrate_pages" "sys_migrate_pages" ;;
    DEFINE "__NR_move_pages" 239 ;;
    SYSCALL "__NR_move_pages" "sys_move_pages" ;; End
  #endif
  DEFINE "__NR_rt_tgsigqueueinfo" 240 ;;
  SC_COMP "__NR_rt_tgsigqueueinfo" "sys_rt_tgsigqueueinfo" "compat_sys_rt_tgsigqueueinfo" ;;
  DEFINE "__NR_perf_event_open" 241 ;;
  SYSCALL "__NR_perf_event_open" "sys_perf_event_open" ;;
  DEFINE "__NR_accept4" 242 ;;
  SYSCALL "__NR_accept4" "sys_accept4" ;;
  #if (COr (Defined "__ARCH_WANT_TIME32_SYSCALLS") (CNot (BitsPerLong 32))) #then
    DEFINE "__NR_recvmmsg" 243 ;;
    SC_COMP_3264 "__NR_recvmmsg" "sys_recvmmsg_time32" "sys_recvmmsg" "compat_sys_recvmmsg_time32" ;; End
  #endif
  DEFINE "__NR_arch_specific_syscall" 244 ;;
  #if (COr (Defined "__ARCH_WANT_TIME32_SYSCALLS") (CNot (BitsPerLong 32))) #then
    DEFINE "__NR_wait4" 260 ;;
    SC_COMP "__NR_wait4" "sys_wait4" "compat_sys_wait4" ;; End
  #endif
  DEFINE "__NR_prlimit64" 261 ;;
  SYSCALL "__NR_prlimit64" "sys_prlimit64" ;;
  DEFINE "__NR_fanotify_init" 262 ;;
  SYSCALL "__NR_fanotify_init" "sys_fanotify_init" ;;
  DEFINE "__NR_fanotify_mark" 263 ;;
  SYSCALL "__NR_fanotify_mark" "sys_fanotify_mark" ;;
  DEFINE "__NR_name_to_handle_at" 264 ;;
  SYSCALL "__NR_name_to_handle_at" "sys_name_to_handle_at" ;;
  DEFINE "__NR_open_by_handle_at" 265 ;;
  SYSCALL "__NR_open_by_handle_at" "sys_open_by_handle_at" ;;
  #if (COr (Defined "__ARCH_WANT_TIME32_SYSCALLS") (CNot (BitsPerLong 32))) #then
    DEFINE "__NR_clock_adjtime" 266 ;;
    SC_3264 "__NR_clock_adjtime" "sys_clock_adjtime32" "sys_clock_adjtime" ;; End
  #endif
  DEFINE "__NR_syncfs" 267 ;;
  SYSCALL "__NR_syncfs" "sys_syncfs" ;;
  DEFINE "__NR_setns" 268 ;;
  SYSCALL "__NR_setns" "sys_setns" ;;
  DEFINE "__NR_sendmmsg" 269 ;;
  SC_COMP "__NR_sendmmsg" "sys_sendmmsg" "compat_sys_sendmmsg" ;;
  DEFINE "__NR_process_vm_readv" 270 ;;
  SYSCALL "__NR_process_vm_readv" "sys_process_vm_readv" ;;
  DEFINE "__NR_process_vm_writev" 271 ;;
  SYSCALL "__NR_process_vm_writev" "sys_process_vm_writev" ;;
  DEFINE "__NR_kcmp" 272 ;;
  SYSCALL "__NR_kcmp" "sys_kcmp" ;;
  DEFINE "__NR_finit_module" 273 ;;
  SYSCALL "__NR_finit_module" "sys_finit_module" ;;
  DEFINE "__NR_sched_setattr" 274 ;;
  SYSCALL "__NR_sched_setattr" "sys_sched_setattr" ;;
  DEFINE "__NR_sched_getattr" 275 ;;
  SYSCALL "__NR_sched_getattr" "sys_sched_getattr" ;;
  DEFINE "__NR_renameat2" 276 ;;
  SYSCALL "__NR_renameat2" "sys_renameat2" ;;
  DEFINE "__NR_seccomp" 277 ;;
  SYSCALL "__NR_seccomp" "sys_seccomp" ;;
  DEFINE "__NR_getrandom" 278 ;;
  SYSCALL "__NR_getrandom" "sys_getrandom" ;;
  DEFINE "__NR_memfd_create" 279 ;;
  SYSCALL "__NR_memfd_create" "sys_memfd_create" ;;
  DEFINE "__NR_bpf" 280 ;;
  SYSCALL "__NR_bpf" "sys_bpf" ;;
  DEFINE "__NR_execveat" 281 ;;
  SC_COMP "__NR_execveat" "sys_execveat" "compat_sys_execveat" ;;
  DEFINE "__NR_userfaultfd" 282 ;;
  SYSCALL "__NR_userfaultfd" "sys_userfaultfd" ;;
  DEFINE "__NR_membarrier" 283 ;;
  SYSCALL "__NR_membarrier" "sys_membarrier" ;;
  DEFINE "__NR_mlock2" 284 ;;
  SYSCALL "__NR_mlock2" "sys_mlock2" ;;
  DEFINE "__NR_copy_file_range" 285 ;;
  SYSCALL "__NR_copy_file_range" "sys_copy_file_range" ;;
  DEFINE "__NR_preadv2" 286 ;;
  SC_COMP "__NR_preadv2" "sys_preadv2" "compat_sys_preadv2" ;;
  DEFINE "__NR_pwritev2" 287 ;;
  SC_COMP "__NR_pwritev2" "sys_pwritev2" "compat_sys_pwritev2" ;;
  DEFINE "__NR_pkey_mprotect" 288 ;;
  SYSCALL "__NR_pkey_mprotect" "sys_pkey_mprotect" ;;
  DEFINE "__NR_pkey_alloc" 289 ;;
  SYSCALL "__NR_pkey_alloc" "sys_pkey_alloc" ;;
  DEFINE "__NR_pkey_free" 290 ;;
  SYSCALL "__NR_pkey_free" "sys_pkey_free" ;;
  DEFINE "__NR_statx" 291 ;;
  SYSCALL "__NR_statx" "sys_statx" ;; k)%pp.

(** Lines 773 to 892. *)
Definition unistd_h_6 (k : pp unistd_line) : pp unistd_line := (
  #if (COr (Defined "__ARCH_WANT_TIME32_SYSCALLS") (CNot (BitsPerLong 32))) #then
    DEFINE "__NR_io_pgetevents" 292 ;;
    SC_COMP_3264 "__NR_io_pgetevents" "sys_io_pgetevents_time32" "sys_io_pgetevents" "compat_sys_io_pgetevents" ;; End
  #endif
  DEFINE "__NR_rseq" 293 ;;
  SYSCALL "__NR_rseq" "sys_rseq" ;;
  DEFINE "__NR_kexec_file_load" 294 ;;
  SYSCALL "__NR_kexec_file_load" "sys_kexec_file_load" ;;
  #if (BitsPerLong 32) #then
    DEFINE "__NR_clock_gettime64" 403 ;;
    SYSCALL "__NR_clock_gettime64" "sys_clock_gettime" ;;
    DEFINE "__NR_clock_settime64" 404 ;;
    SYSCALL "__NR_clock_settime64" "sys_clock_settime" ;;
    DEFINE "__NR_clock_adjtime64" 405 ;;
    SYSCALL "__NR_clock_adjtime64" "sys_clock_adjtime" ;;
    DEFINE "__NR_clock_getres_time64" 406 ;;
    SYSCALL "__NR_clock_getres_time64" "sys_clock_getres" ;;
    DEFINE "__NR_clock_nanosleep_time64" 407 ;;
    SYSCALL "__NR_clock_nanosleep_time64" "sys_clock_nanosleep" ;;
    DEFINE "__NR_timer_gettime64" 408 ;;
    SYSCALL "__NR_timer_gettime64" "sys_timer_gettime" ;;
    DEFINE "__NR_timer_settime64" 409 ;;
    SYSCALL "__NR_timer_settime64" "sys_timer_settime" ;;
    DEFINE "__NR_timerfd_gettime64" 410 ;;
    SYSCALL "__NR_timerfd_gettime64" "sys_timerfd_gettime" ;;
    DEFINE "__NR_timerfd_settime64" 411 ;;
    SYSCALL "__NR_timerfd_settime64" "sys_timerfd_settime" ;;
    DEFINE "__NR_utimensat_time64" 412 ;;
    SYSCALL "__NR_utimensat_time64" "sys_utimensat" ;;
    DEFINE "__NR_pselect6_time64" 413 ;;
    SC_COMP "__NR_pselect6_time64" "sys_pselect6" "compat_sys_pselect6_time64" ;;
    DEFINE "__NR_ppoll_time64" 414 ;;
    SC_COMP "__NR_ppoll_time64" "sys_ppoll" "compat_sys_ppoll_time64" ;;
    DEFINE "__NR_io_pgetevents_time64" 416 ;;
    SC_COMP "__NR_io_pgetevents_time64" "sys_io_pgetevents" "compat_sys_io_pgetevents_time64" ;;
    DEFINE "__NR_recvmmsg_time64" 417 ;;
    SC_COMP "__NR_recvmmsg_time64" "sys_recvmmsg" "compat_sys_recvmmsg_time64" ;;
    DEFINE "__NR_mq_timedsend_time64" 418 ;;
    SYSCALL "__NR_mq_timedsend_time64" "sys_mq_timedsend" ;;
    DEFINE "__NR_mq_timedreceive_time64" 419 ;;
    SYSCALL "__NR_mq_timedreceive_time64" "sys_mq_timedreceive" ;;
    DEFINE "__NR_semtimedop_time64" 420 ;;
    SYSCALL "__NR_semtimedop_time64" "sys_semtimedop" ;;
    DEFINE "__NR_rt_sigtimedwait_time64" 421 ;;
    SC_COMP "__NR_rt_sigtimedwait_time64" "sys_rt_sigtimedwait" "compat_sys_rt_sigtimedwait_time64" ;;
    DEFINE "__NR_futex_time64" 422 ;;
    SYSCALL "__NR_futex_time64" "sys_futex" ;;
    DEFINE "__NR_sched_rr_get_interval_time64" 423 ;;
    SYSCALL "__NR_sched_rr_get_interval_time64" "sys_sched_rr_get_interval" ;; End
  #endif
  DEFINE "__NR_pidfd_send_signal" 424 ;;
  SYSCALL "__NR_pidfd_send_signal" "sys_pidfd_send_signal" ;;
  DEFINE "__NR_io_uring_setup" 425 ;;
  SYSCALL "__NR_io_uring_setup" "sys_io_uring_setup" ;;
  DEFINE "__NR_io_uring_enter" 426 ;;
  SYSCALL "__NR_io_uring_enter" "sys_io_uring_enter" ;;
  DEFINE "__NR_io_uring_register" 427 ;;
  SYSCALL "__NR_io_uring_register" "sys_io_uring_register" ;;
  DEFINE "__NR_open_tree" 428 ;;
  SYSCALL "__NR_open_tree" "sys_open_tree" ;;
  DEFINE "__NR_move_mount" 429 ;;
  SYSCALL "__NR_move_mount" "sys_move_mount" ;;
  DEFINE "__NR_fsopen" 430 ;;
  SYSCALL "__NR_fsopen" "sys_fsopen" ;;
  DEFINE "__NR_fsconfig" 431 ;;
  SYSCALL "__NR_fsconfig" "sys_fsconfig" ;;
  DEFINE "__NR_fsmount" 432 ;;
  SYSCALL "__NR_fsmount" "sys_fsmount" ;;
  DEFINE "__NR_fspick" 433 ;;
  SYSCALL "__NR_fspick" "sys_fspick" ;;
  DEFINE "__NR_pidfd_open" 434 ;;
  SYSCALL "__NR_pidfd_open" "sys_pidfd_open" ;;
  #if (Defined "__ARCH_WANT_SYS_CLONE3") #then
    DEFINE "__NR_clone3" 435 ;;
    SYSCALL "__NR_clone3" "sys_clone3" ;; End
  #endif
  DEFINE "__NR_close_range" 436 ;;
  SYSCALL "__NR_close_range" "sys_close_range" ;;
  DEFINE "__NR_openat2" 437 ;;
  SYSCALL "__NR_openat2" "sys_openat2" ;;
  DEFINE "__NR_pidfd_getfd" 438 ;;
  SYSCALL "__NR_pidfd_getfd" "sys_pidfd_getfd" ;;
  DEFINE "__NR_faccessat2" 439 ;;
  SYSCALL "__NR_faccessat2" "sys_faccessat2" ;;
  DEFINE "__NR_process_madvise" 440 ;;
  SYSCALL "__NR_process_madvise" "sys_process_madvise" ;;
  DEFINE "__NR_epoll_pwait2" 441 ;;
  SC_COMP "__NR_epoll_pwait2" "sys_epoll_pwait2" "compat_sys_epoll_pwait2" ;;
  DEFINE "__NR_mount_setattr" 442 ;;
  SYSCALL "__NR_mount_setattr" "sys_mount_setattr" ;;
  DEFINE "__NR_quotactl_fd" 443 ;;
  SYSCALL "__NR_quotactl_fd" "sys_quotactl_fd" ;;
  DEFINE "__NR_landlock_create_ruleset" 444 ;;
  SYSCALL "__NR_landlock_create_ruleset" "sys_landlock_create_ruleset" ;;
  DEFINE "__NR_landlock_add_rule" 445 ;;
  SYSCALL "__NR_landlock_add_rule" "sys_landlock_add_rule" ;;
  DEFINE "__NR_landlock_restrict_self" 446 ;;
  SYSCALL "__NR_landlock_restrict_self" "sys_landlock_restrict_self" ;;
  #if (Defined "__ARCH_WANT_MEMFD_SECRET") #then
    DEFINE "__NR_memfd_secret" 447 ;;
    SYSCALL "__NR_memfd_secret" "sys_memfd_secret" ;; End
  #endif
  DEFINE "__NR_process_mrelease" 448 ;;
  SYSCALL "__NR_process_mrelease" "sys_process_mrelease" ;;
  DEFINE "__NR_write_kv" 449 ;;
  SYSCALL "__NR_write_kv" "sys_write_kv" ;;
  DEFINE "__NR_read_kv" 450 ;;
  SYSCALL "__NR_read_kv" "sys_read_kv" ;;
  DEFINE "__NR_set_thread_socket_attrs" 451 ;;
  SYSCALL "__NR_set_thread_socket_attrs" "sys_set_thread_socket_attrs" ;;
  UNDEF "__NR_syscalls" ;;
  DEFINE "__NR_syscalls" 452 ;; k)%pp.

(** Lines 904 to 940. *)
Definition unistd_h_7 (k : pp unistd_line) : pp unistd_line := (
  #if (CAnd (BitsPerLong 64) (CNot (Defined "__SYSCALL_COMPAT"))) #then
    ALIAS "__NR_fcntl" "__NR3264_fcntl" ;;
    ALIAS "__NR_statfs" "__NR3264_statfs" ;;
    ALIAS "__NR_fstatfs" "__NR3264_fstatfs" ;;
    ALIAS "__NR_truncate" "__NR3264_truncate" ;;
    ALIAS "__NR_ftruncate" "__NR3264_ftruncate" ;;
    ALIAS "__NR_lseek" "__NR3264_lseek" ;;
    ALIAS "__NR_sendfile" "__NR3264_sendfile" ;;
    #if (COr (Defined "__ARCH_WANT_NEW_STAT") (Defined "__ARCH_WANT_STAT64")) #then
      ALIAS "__NR_newfstatat" "__NR3264_fstatat" ;;
      ALIAS "__NR_fstat" "__NR3264_fstat" ;; End
    #endif
    ALIAS "__NR_mmap" "__NR3264_mmap" ;;
    ALIAS "__NR_fadvise64" "__NR3264_fadvise64" ;;
    #if (Defined "__NR3264_stat") #then
      ALIAS "__NR_stat" "__NR3264_stat" ;;
      ALIAS "__NR_lstat" "__NR3264_lstat" ;; End
    #endif End
  #else
    ALIAS "__NR_fcntl64" "__NR3264_fcntl" ;;
    ALIAS "__NR_statfs64" "__NR3264_statfs" ;;
    ALIAS "__NR_fstatfs64" "__NR3264_fstatfs" ;;
    ALIAS "__NR_truncate64" "__NR3264_truncate" ;;
    ALIAS "__NR_ftruncate64" "__NR3264_ftruncate" ;;
    ALIAS "__NR_llseek" "__NR3264_lseek" ;;
    ALIAS "__NR_sendfile64" "__NR3264_sendfile" ;;
    #if (COr (Defined "__ARCH_WANT_NEW_STAT") (Defined "__ARCH_WANT_STAT64")) #then
      ALIAS "__NR_fstatat64" "__NR3264_fstatat" ;;
      ALIAS "__NR_fstat64" "__NR3264_fstat" ;; End
    #endif
    ALIAS "__NR_mmap2" "__NR3264_mmap" ;;
    ALIAS "__NR_fadvise64_64" "__NR3264_fadvise64" ;;
    #if (Defined "__NR3264_stat") #then
      ALIAS "__NR_stat64" "__NR3264_stat" ;;
      ALIAS "__NR_lstat64" "__NR3264_lstat" ;; End
    #endif End
  #endif k)%pp.

(** The whole file, from the first number on. *)
Definition unistd_h : pp unistd_line :=
  unistd_h_1 (unistd_h_2 (unistd_h_3 (unistd_h_4 (unistd_h_5 (unistd_h_6 (unistd_h_7 End)))))).

(** ** include/linux/syscalls.h: prototypes *)

(** The types of parameters; [Typedef] keeps the name of any other type. *)
Inductive ctype := Int | UInt | Long | ULong | Ptr | Typedef (name : string).

Inductive proto_line := PROTO (name : string) (params : list ctype).

(** Lines 316 to 462. *)
Definition syscalls_h_1 (k : pp proto_line) : pp proto_line := (
  PROTO "sys_io_setup" [UInt; Ptr] ;;
  PROTO "sys_io_destroy" [Typedef "aio_context_t"] ;;
  PROTO "sys_io_submit" [Typedef "aio_context_t"; Long; Ptr] ;;
  PROTO "sys_io_cancel" [Typedef "aio_context_t"; Ptr; Ptr] ;;
  PROTO "sys_io_getevents" [Typedef "aio_context_t"; Long; Long; Ptr; Ptr] ;;
  PROTO "sys_io_getevents_time32" [Typedef "__u32"; Typedef "__s32"; Typedef "__s32"; Ptr; Ptr] ;;
  PROTO "sys_io_pgetevents" [Typedef "aio_context_t"; Long; Long; Ptr; Ptr; Ptr] ;;
  PROTO "sys_io_pgetevents_time32" [Typedef "aio_context_t"; Long; Long; Ptr; Ptr; Ptr] ;;
  PROTO "sys_io_uring_setup" [Typedef "u32"; Ptr] ;;
  PROTO "sys_io_uring_enter" [UInt; Typedef "u32"; Typedef "u32"; Typedef "u32"; Ptr; Typedef "size_t"] ;;
  PROTO "sys_io_uring_register" [UInt; UInt; Ptr; UInt] ;;
  PROTO "sys_setxattr" [Ptr; Ptr; Ptr; Typedef "size_t"; Int] ;;
  PROTO "sys_lsetxattr" [Ptr; Ptr; Ptr; Typedef "size_t"; Int] ;;
  PROTO "sys_fsetxattr" [Int; Ptr; Ptr; Typedef "size_t"; Int] ;;
  PROTO "sys_getxattr" [Ptr; Ptr; Ptr; Typedef "size_t"] ;;
  PROTO "sys_lgetxattr" [Ptr; Ptr; Ptr; Typedef "size_t"] ;;
  PROTO "sys_fgetxattr" [Int; Ptr; Ptr; Typedef "size_t"] ;;
  PROTO "sys_listxattr" [Ptr; Ptr; Typedef "size_t"] ;;
  PROTO "sys_llistxattr" [Ptr; Ptr; Typedef "size_t"] ;;
  PROTO "sys_flistxattr" [Int; Ptr; Typedef "size_t"] ;;
  PROTO "sys_removexattr" [Ptr; Ptr] ;;
  PROTO "sys_lremovexattr" [Ptr; Ptr] ;;
  PROTO "sys_fremovexattr" [Int; Ptr] ;;
  PROTO "sys_getcwd" [Ptr; ULong] ;;
  PROTO "sys_lookup_dcookie" [Typedef "u64"; Ptr; Typedef "size_t"] ;;
  PROTO "sys_eventfd2" [UInt; Int] ;;
  PROTO "sys_epoll_create1" [Int] ;;
  PROTO "sys_epoll_ctl" [Int; Int; Int; Ptr] ;;
  PROTO "sys_epoll_pwait" [Int; Ptr; Int; Int; Ptr; Typedef "size_t"] ;;
  PROTO "sys_epoll_pwait2" [Int; Ptr; Int; Ptr; Ptr; Typedef "size_t"] ;;
  PROTO "sys_dup" [UInt] ;;
  PROTO "sys_dup3" [UInt; UInt; Int] ;;
  PROTO "sys_fcntl" [UInt; UInt; ULong] ;;
  #if (BitsPerLong 32) #then
    PROTO "sys_fcntl64" [UInt; UInt; ULong] ;; End
  #endif
  PROTO "sys_inotify_init1" [Int] ;;
  PROTO "sys_inotify_add_watch" [Int; Ptr; Typedef "u32"] ;;
  PROTO "sys_inotify_rm_watch" [Int; Typedef "__s32"] ;;
  PROTO "sys_ioctl" [UInt; UInt; ULong] ;;
  PROTO "sys_ioprio_set" [Int; Int; Int] ;;
  PROTO "sys_ioprio_get" [Int; Int] ;;
  PROTO "sys_flock" [UInt; UInt] ;;
  PROTO "sys_mknodat" [Int; Ptr; Typedef "umode_t"; UInt] ;;
  PROTO "sys_mkdirat" [Int; Ptr; Typedef "umode_t"] ;;
  PROTO "sys_unlinkat" [Int; Ptr; Int] ;;
  PROTO "sys_symlinkat" [Ptr; Int; Ptr] ;;
  PROTO "sys_linkat" [Int; Ptr; Int; Ptr; Int] ;;
  PROTO "sys_renameat" [Int; Ptr; Int; Ptr] ;;
  PROTO "sys_umount" [Ptr; Int] ;;
  PROTO "sys_mount" [Ptr; Ptr; Ptr; ULong; Ptr] ;;
  PROTO "sys_pivot_root" [Ptr; Ptr] ;;
  PROTO "sys_statfs" [Ptr; Ptr] ;;
  PROTO "sys_statfs64" [Ptr; Typedef "size_t"; Ptr] ;;
  PROTO "sys_fstatfs" [UInt; Ptr] ;;
  PROTO "sys_fstatfs64" [UInt; Typedef "size_t"; Ptr] ;;
  PROTO "sys_truncate" [Ptr; Long] ;;
  PROTO "sys_ftruncate" [UInt; Typedef "off_t"] ;;
  #if (BitsPerLong 32) #then
    PROTO "sys_truncate64" [Ptr; Typedef "loff_t"] ;;
    PROTO "sys_ftruncate64" [UInt; Typedef "loff_t"] ;; End
  #endif
  PROTO "sys_fallocate" [Int; Int; Typedef "loff_t"; Typedef "loff_t"] ;;
  PROTO "sys_faccessat" [Int; Ptr; Int] ;; k)%pp.

(** Lines 463 to 608. *)
Definition syscalls_h_2 (k : pp proto_line) : pp proto_line := (
  PROTO "sys_faccessat2" [Int; Ptr; Int; Int] ;;
  PROTO "sys_chdir" [Ptr] ;;
  PROTO "sys_fchdir" [UInt] ;;
  PROTO "sys_chroot" [Ptr] ;;
  PROTO "sys_fchmod" [UInt; Typedef "umode_t"] ;;
  PROTO "sys_fchmodat" [Int; Ptr; Typedef "umode_t"] ;;
  PROTO "sys_fchownat" [Int; Ptr; Typedef "uid_t"; Typedef "gid_t"; Int] ;;
  PROTO "sys_fchown" [UInt; Typedef "uid_t"; Typedef "gid_t"] ;;
  PROTO "sys_openat" [Int; Ptr; Int; Typedef "umode_t"] ;;
  PROTO "sys_openat2" [Int; Ptr; Ptr; Typedef "size_t"] ;;
  PROTO "sys_close" [UInt] ;;
  PROTO "sys_close_range" [UInt; UInt; UInt] ;;
  PROTO "sys_vhangup" [] ;;
  PROTO "sys_pipe2" [Ptr; Int] ;;
  PROTO "sys_quotactl" [UInt; Ptr; Typedef "qid_t"; Ptr] ;;
  PROTO "sys_quotactl_fd" [UInt; UInt; Typedef "qid_t"; Ptr] ;;
  PROTO "sys_getdents64" [UInt; Ptr; UInt] ;;
  PROTO "sys_llseek" [UInt; ULong; ULong; Ptr; UInt] ;;
  PROTO "sys_lseek" [UInt; Typedef "off_t"; UInt] ;;
  PROTO "sys_read" [UInt; Ptr; Typedef "size_t"] ;;
  PROTO "sys_write" [UInt; Ptr; Typedef "size_t"] ;;
  PROTO "sys_readv" [ULong; Ptr; ULong] ;;
  PROTO "sys_writev" [ULong; Ptr; ULong] ;;
  PROTO "sys_pread64" [UInt; Ptr; Typedef "size_t"; Typedef "loff_t"] ;;
  PROTO "sys_pwrite64" [UInt; Ptr; Typedef "size_t"; Typedef "loff_t"] ;;
  PROTO "sys_preadv" [ULong; Ptr; ULong; ULong; ULong] ;;
  PROTO "sys_pwritev" [ULong; Ptr; ULong; ULong; ULong] ;;
  PROTO "sys_sendfile64" [Int; Int; Ptr; Typedef "size_t"] ;;
  PROTO "sys_pselect6" [Int; Ptr; Ptr; Ptr; Ptr; Ptr] ;;
  PROTO "sys_pselect6_time32" [Int; Ptr; Ptr; Ptr; Ptr; Ptr] ;;
  PROTO "sys_ppoll" [Ptr; UInt; Ptr; Ptr; Typedef "size_t"] ;;
  PROTO "sys_ppoll_time32" [Ptr; UInt; Ptr; Ptr; Typedef "size_t"] ;;
  PROTO "sys_signalfd4" [Int; Ptr; Typedef "size_t"; Int] ;;
  PROTO "sys_vmsplice" [Int; Ptr; ULong; UInt] ;;
  PROTO "sys_splice" [Int; Ptr; Int; Ptr; Typedef "size_t"; UInt] ;;
  PROTO "sys_tee" [Int; Int; Typedef "size_t"; UInt] ;;
  PROTO "sys_readlinkat" [Int; Ptr; Ptr; Int] ;;
  PROTO "sys_newfstatat" [Int; Ptr; Ptr; Int] ;;
  PROTO "sys_newfstat" [UInt; Ptr] ;;
  #if (COr (Defined "__ARCH_WANT_STAT64") (Defined "__ARCH_WANT_COMPAT_STAT64")) #then
    PROTO "sys_fstat64" [ULong; Ptr] ;;
    PROTO "sys_fstatat64" [Int; Ptr; Ptr; Int] ;; End
  #endif
  PROTO "sys_sync" [] ;;
  PROTO "sys_fsync" [UInt] ;;
  PROTO "sys_fdatasync" [UInt] ;;
  PROTO "sys_sync_file_range2" [Int; UInt; Typedef "loff_t"; Typedef "loff_t"] ;;
  PROTO "sys_sync_file_range" [Int; Typedef "loff_t"; Typedef "loff_t"; UInt] ;;
  PROTO "sys_timerfd_create" [Int; Int] ;;
  PROTO "sys_timerfd_settime" [Int; Int; Ptr; Ptr] ;;
  PROTO "sys_timerfd_gettime" [Int; Ptr] ;;
  PROTO "sys_timerfd_gettime32" [Int; Ptr] ;;
  PROTO "sys_timerfd_settime32" [Int; Int; Ptr; Ptr] ;;
  PROTO "sys_utimensat" [Int; Ptr; Ptr; Int] ;;
  PROTO "sys_utimensat_time32" [UInt; Ptr; Ptr; Int] ;;
  PROTO "sys_acct" [Ptr] ;;
  PROTO "sys_capget" [Typedef "cap_user_header_t"; Typedef "cap_user_data_t"] ;;
  PROTO "sys_capset" [Typedef "cap_user_header_t"; Typedef "cap_user_data_t"] ;;
  PROTO "sys_personality" [UInt] ;;
  PROTO "sys_exit" [Int] ;;
  PROTO "sys_exit_group" [Int] ;;
  PROTO "sys_waitid" [Int; Typedef "pid_t"; Ptr; Int; Ptr] ;; k)%pp.

(** Lines 611 to 758. *)
Definition syscalls_h_3 (k : pp proto_line) : pp proto_line := (
  PROTO "sys_set_tid_address" [Ptr] ;;
  PROTO "sys_unshare" [ULong] ;;
  PROTO "sys_futex" [Ptr; Int; Typedef "u32"; Ptr; Ptr; Typedef "u32"] ;;
  PROTO "sys_futex_time32" [Ptr; Int; Typedef "u32"; Ptr; Ptr; Typedef "u32"] ;;
  PROTO "sys_get_robust_list" [Int; Ptr; Ptr] ;;
  PROTO "sys_set_robust_list" [Ptr; Typedef "size_t"] ;;
  PROTO "sys_nanosleep" [Ptr; Ptr] ;;
  PROTO "sys_nanosleep_time32" [Ptr; Ptr] ;;
  PROTO "sys_getitimer" [Int; Ptr] ;;
  PROTO "sys_setitimer" [Int; Ptr; Ptr] ;;
  PROTO "sys_kexec_load" [ULong; ULong; Ptr; ULong] ;;
  PROTO "sys_init_module" [Ptr; ULong; Ptr] ;;
  PROTO "sys_delete_module" [Ptr; UInt] ;;
  PROTO "sys_timer_create" [Typedef "clockid_t"; Ptr; Ptr] ;;
  PROTO "sys_timer_gettime" [Typedef "timer_t"; Ptr] ;;
  PROTO "sys_timer_getoverrun" [Typedef "timer_t"] ;;
  PROTO "sys_timer_settime" [Typedef "timer_t"; Int; Ptr; Ptr] ;;
  PROTO "sys_timer_delete" [Typedef "timer_t"] ;;
  PROTO "sys_clock_settime" [Typedef "clockid_t"; Ptr] ;;
  PROTO "sys_clock_gettime" [Typedef "clockid_t"; Ptr] ;;
  PROTO "sys_clock_getres" [Typedef "clockid_t"; Ptr] ;;
  PROTO "sys_clock_nanosleep" [Typedef "clockid_t"; Int; Ptr; Ptr] ;;
  PROTO "sys_timer_gettime32" [Typedef "timer_t"; Ptr] ;;
  PROTO "sys_timer_settime32" [Typedef "timer_t"; Int; Ptr; Ptr] ;;
  PROTO "sys_clock_settime32" [Typedef "clockid_t"; Ptr] ;;
  PROTO "sys_clock_gettime32" [Typedef "clockid_t"; Ptr] ;;
  PROTO "sys_clock_getres_time32" [Typedef "clockid_t"; Ptr] ;;
  PROTO "sys_clock_nanosleep_time32" [Typedef "clockid_t"; Int; Ptr; Ptr] ;;
  PROTO "sys_syslog" [Int; Ptr; Int] ;;
  PROTO "sys_ptrace" [Long; Long; ULong; ULong] ;;
  PROTO "sys_sched_setparam" [Typedef "pid_t"; Ptr] ;;
  PROTO "sys_sched_setscheduler" [Typedef "pid_t"; Int; Ptr] ;;
  PROTO "sys_sched_getscheduler" [Typedef "pid_t"] ;;
  PROTO "sys_sched_getparam" [Typedef "pid_t"; Ptr] ;;
  PROTO "sys_sched_setaffinity" [Typedef "pid_t"; UInt; Ptr] ;;
  PROTO "sys_sched_getaffinity" [Typedef "pid_t"; UInt; Ptr] ;;
  PROTO "sys_sched_yield" [] ;;
  PROTO "sys_sched_get_priority_max" [Int] ;;
  PROTO "sys_sched_get_priority_min" [Int] ;;
  PROTO "sys_sched_rr_get_interval" [Typedef "pid_t"; Ptr] ;;
  PROTO "sys_sched_rr_get_interval_time32" [Typedef "pid_t"; Ptr] ;;
  PROTO "sys_restart_syscall" [] ;;
  PROTO "sys_kill" [Typedef "pid_t"; Int] ;;
  PROTO "sys_tkill" [Typedef "pid_t"; Int] ;;
  PROTO "sys_tgkill" [Typedef "pid_t"; Typedef "pid_t"; Int] ;;
  PROTO "sys_sigaltstack" [Ptr; Ptr] ;;
  PROTO "sys_rt_sigsuspend" [Ptr; Typedef "size_t"] ;;
  #if (CNot (Defined "CONFIG_ODD_RT_SIGACTION")) #then
    PROTO "sys_rt_sigaction" [Int; Ptr; Ptr; Typedef "size_t"] ;; End
  #endif
  PROTO "sys_rt_sigprocmask" [Int; Ptr; Ptr; Typedef "size_t"] ;;
  PROTO "sys_rt_sigpending" [Ptr; Typedef "size_t"] ;;
  PROTO "sys_rt_sigtimedwait" [Ptr; Ptr; Ptr; Typedef "size_t"] ;;
  PROTO "sys_rt_sigtimedwait_time32" [Ptr; Ptr; Ptr; Typedef "size_t"] ;;
  PROTO "sys_rt_sigqueueinfo" [Typedef "pid_t"; Int; Ptr] ;;
  PROTO "sys_setpriority" [Int; Int; Int] ;;
  PROTO "sys_getpriority" [Int; Int] ;;
  PROTO "sys_reboot" [Int; Int; UInt; Ptr] ;;
  PROTO "sys_setregid" [Typedef "gid_t"; Typedef "gid_t"] ;;
  PROTO "sys_setgid" [Typedef "gid_t"] ;;
  PROTO "sys_setreuid" [Typedef "uid_t"; Typedef "uid_t"] ;;
  PROTO "sys_setuid" [Typedef "uid_t"] ;;
  PROTO "sys_setresuid" [Typedef "uid_t"; Typedef "uid_t"; Typedef "uid_t"] ;;
  PROTO "sys_getresuid" [Ptr; Ptr; Ptr] ;;
  PROTO "sys_setresgid" [Typedef "gid_t"; Typedef "gid_t"; Typedef "gid_t"] ;;
  PROTO "sys_getresgid" [Ptr; Ptr; Ptr] ;;
  PROTO "sys_setfsuid" [Typedef "uid_t"] ;;
  PROTO "sys_setfsgid" [Typedef "gid_t"] ;;
  PROTO "sys_times" [Ptr] ;;
  PROTO "sys_setpgid" [Typedef "pid_t"; Typedef "pid_t"] ;;
  PROTO "sys_getpgid" [Typedef "pid_t"] ;;
  PROTO "sys_getsid" [Typedef "pid_t"] ;;
  PROTO "sys_setsid" [] ;; k)%pp.

(** Lines 759 to 904. *)
Definition syscalls_h_4 (k : pp proto_line) : pp proto_line := (
  PROTO "sys_getgroups" [Int; Ptr] ;;
  PROTO "sys_setgroups" [Int; Ptr] ;;
  PROTO "sys_newuname" [Ptr] ;;
  PROTO "sys_sethostname" [Ptr; Int] ;;
  PROTO "sys_setdomainname" [Ptr; Int] ;;
  PROTO "sys_getrlimit" [UInt; Ptr] ;;
  PROTO "sys_setrlimit" [UInt; Ptr] ;;
  PROTO "sys_getrusage" [Int; Ptr] ;;
  PROTO "sys_umask" [Int] ;;
  PROTO "sys_prctl" [Int; ULong; ULong; ULong; ULong] ;;
  PROTO "sys_getcpu" [Ptr; Ptr; Ptr] ;;
  PROTO "sys_gettimeofday" [Ptr; Ptr] ;;
  PROTO "sys_settimeofday" [Ptr; Ptr] ;;
  PROTO "sys_adjtimex" [Ptr] ;;
  PROTO "sys_adjtimex_time32" [Ptr] ;;
  PROTO "sys_getpid" [] ;;
  PROTO "sys_getppid" [] ;;
  PROTO "sys_getuid" [] ;;
  PROTO "sys_geteuid" [] ;;
  PROTO "sys_getgid" [] ;;
  PROTO "sys_getegid" [] ;;
  PROTO "sys_gettid" [] ;;
  PROTO "sys_sysinfo" [Ptr] ;;
  PROTO "sys_write_kv" [Int; Int] ;;
  PROTO "sys_read_kv" [Int] ;;
  PROTO "sys_mq_open" [Ptr; Int; Typedef "umode_t"; Ptr] ;;
  PROTO "sys_mq_unlink" [Ptr] ;;
  PROTO "sys_mq_timedsend" [Typedef "mqd_t"; Ptr; Typedef "size_t"; UInt; Ptr] ;;
  PROTO "sys_mq_timedreceive" [Typedef "mqd_t"; Ptr; Typedef "size_t"; Ptr; Ptr] ;;
  PROTO "sys_mq_notify" [Typedef "mqd_t"; Ptr] ;;
  PROTO "sys_mq_getsetattr" [Typedef "mqd_t"; Ptr; Ptr] ;;
  PROTO "sys_mq_timedreceive_time32" [Typedef "mqd_t"; Ptr; UInt; Ptr; Ptr] ;;
  PROTO "sys_mq_timedsend_time32" [Typedef "mqd_t"; Ptr; UInt; UInt; Ptr] ;;
  PROTO "sys_msgget" [Typedef "key_t"; Int] ;;
  PROTO "sys_old_msgctl" [Int; Int; Ptr] ;;
  PROTO "sys_msgctl" [Int; Int; Ptr] ;;
  PROTO "sys_msgrcv" [Int; Ptr; Typedef "size_t"; Long; Int] ;;
  PROTO "sys_msgsnd" [Int; Ptr; Typedef "size_t"; Int] ;;
  PROTO "sys_semget" [Typedef "key_t"; Int; Int] ;;
  PROTO "sys_semctl" [Int; Int; Int; ULong] ;;
  PROTO "sys_old_semctl" [Int; Int; Int; ULong] ;;
  PROTO "sys_semtimedop" [Int; Ptr; UInt; Ptr] ;;
  PROTO "sys_semtimedop_time32" [Int; Ptr; UInt; Ptr] ;;
  PROTO "sys_semop" [Int; Ptr; UInt] ;;
  PROTO "sys_shmget" [Typedef "key_t"; Typedef "size_t"; Int] ;;
  PROTO "sys_old_shmctl" [Int; Int; Ptr] ;;
  PROTO "sys_shmctl" [Int; Int; Ptr] ;;
  PROTO "sys_shmat" [Int; Ptr; Int] ;;
  PROTO "sys_shmdt" [Ptr] ;;
  PROTO "sys_socket" [Int; Int; Int] ;;
  PROTO "sys_socketpair" [Int; Int; Int; Ptr] ;;
  PROTO "sys_bind" [Int; Ptr; Int] ;;
  PROTO "sys_listen" [Int; Int] ;;
  PROTO "sys_accept" [Int; Ptr; Ptr] ;;
  PROTO "sys_connect" [Int; Ptr; Int] ;;
  PROTO "sys_getsockname" [Int; Ptr; Ptr] ;;
  PROTO "sys_getpeername" [Int; Ptr; Ptr] ;;
  PROTO "sys_sendto" [Int; Ptr; Typedef "size_t"; UInt; Ptr; Int] ;;
  PROTO "sys_recvfrom" [Int; Ptr; Typedef "size_t"; UInt; Ptr; Ptr] ;;
  PROTO "sys_setsockopt" [Int; Int; Int; Ptr; Int] ;;
  PROTO "sys_getsockopt" [Int; Int; Int; Ptr; Ptr] ;;
  PROTO "sys_shutdown" [Int; Int] ;;
  PROTO "sys_sendmsg" [Int; Ptr; UInt] ;;
  PROTO "sys_recvmsg" [Int; Ptr; UInt] ;;
  PROTO "sys_readahead" [Int; Typedef "loff_t"; Typedef "size_t"] ;;
  PROTO "sys_brk" [ULong] ;;
  PROTO "sys_munmap" [ULong; Typedef "size_t"] ;;
  PROTO "sys_mremap" [ULong; ULong; ULong; ULong; ULong] ;;
  PROTO "sys_add_key" [Ptr; Ptr; Ptr; Typedef "size_t"; Typedef "key_serial_t"] ;;
  PROTO "sys_request_key" [Ptr; Ptr; Ptr; Typedef "key_serial_t"] ;;
  PROTO "sys_keyctl" [Int; ULong; ULong; ULong; ULong] ;;
  #if (Defined "CONFIG_CLONE_BACKWARDS") #then
    PROTO "sys_clone" [ULong; ULong; Ptr; ULong; Ptr] ;; End
  #else
    #if (Defined "CONFIG_CLONE_BACKWARDS3") #then
      PROTO "sys_clone" [ULong; ULong; Int; Ptr; Ptr; ULong] ;; End
    #else
      PROTO "sys_clone" [ULong; ULong; Ptr; Ptr; ULong] ;; End
    #endif End
  #endif
  PROTO "sys_clone3" [Ptr; Typedef "size_t"] ;;
  PROTO "sys_execve" [Ptr; Ptr; Ptr] ;; k)%pp.

(** Lines 907 to 1054. *)
Definition syscalls_h_5 (k : pp proto_line) : pp proto_line := (
  PROTO "sys_fadvise64_64" [Int; Typedef "loff_t"; Typedef "loff_t"; Int] ;;
  PROTO "sys_swapon" [Ptr; Int] ;;
  PROTO "sys_swapoff" [Ptr] ;;
  PROTO "sys_mprotect" [ULong; Typedef "size_t"; ULong] ;;
  PROTO "sys_msync" [ULong; Typedef "size_t"; Int] ;;
  PROTO "sys_mlock" [ULong; Typedef "size_t"] ;;
  PROTO "sys_munlock" [ULong; Typedef "size_t"] ;;
  PROTO "sys_mlockall" [Int] ;;
  PROTO "sys_munlockall" [] ;;
  PROTO "sys_mincore" [ULong; Typedef "size_t"; Ptr] ;;
  PROTO "sys_madvise" [ULong; Typedef "size_t"; Int] ;;
  PROTO "sys_process_madvise" [Int; Ptr; Typedef "size_t"; Int; UInt] ;;
  PROTO "sys_process_mrelease" [Int; UInt] ;;
  PROTO "sys_remap_file_pages" [ULong; ULong; ULong; ULong; ULong] ;;
  PROTO "sys_mbind" [ULong; ULong; ULong; Ptr; ULong; UInt] ;;
  PROTO "sys_get_mempolicy" [Ptr; Ptr; ULong; ULong; ULong] ;;
  PROTO "sys_set_mempolicy" [Int; Ptr; ULong] ;;
  PROTO "sys_migrate_pages" [Typedef "pid_t"; ULong; Ptr; Ptr] ;;
  PROTO "sys_move_pages" [Typedef "pid_t"; ULong; Ptr; Ptr; Ptr; Int] ;;
  PROTO "sys_rt_tgsigqueueinfo" [Typedef "pid_t"; Typedef "pid_t"; Int; Ptr] ;;
  PROTO "sys_perf_event_open" [Ptr; Typedef "pid_t"; Int; Int; ULong] ;;
  PROTO "sys_accept4" [Int; Ptr; Ptr; Int] ;;
  PROTO "sys_recvmmsg" [Int; Ptr; UInt; UInt; Ptr] ;;
  PROTO "sys_recvmmsg_time32" [Int; Ptr; UInt; UInt; Ptr] ;;
  PROTO "sys_wait4" [Typedef "pid_t"; Ptr; Int; Ptr] ;;
  PROTO "sys_prlimit64" [Typedef "pid_t"; UInt; Ptr; Ptr] ;;
  PROTO "sys_fanotify_init" [UInt; UInt] ;;
  #if (Defined "CONFIG_ARCH_SPLIT_ARG64") #then
    PROTO "sys_fanotify_mark" [Int; UInt; UInt; UInt; Int; Ptr] ;; End
  #else
    PROTO "sys_fanotify_mark" [Int; UInt; Typedef "u64"; Int; Ptr] ;; End
  #endif
  PROTO "sys_name_to_handle_at" [Int; Ptr; Ptr; Ptr; Int] ;;
  PROTO "sys_open_by_handle_at" [Int; Ptr; Int] ;;
  PROTO "sys_clock_adjtime" [Typedef "clockid_t"; Ptr] ;;
  PROTO "sys_clock_adjtime32" [Typedef "clockid_t"; Ptr] ;;
  PROTO "sys_syncfs" [Int] ;;
  PROTO "sys_setns" [Int; Int] ;;
  PROTO "sys_pidfd_open" [Typedef "pid_t"; UInt] ;;
  PROTO "sys_sendmmsg" [Int; Ptr; UInt; UInt] ;;
  PROTO "sys_process_vm_readv" [Typedef "pid_t"; Ptr; ULong; Ptr; ULong; ULong] ;;
  PROTO "sys_process_vm_writev" [Typedef "pid_t"; Ptr; ULong; Ptr; ULong; ULong] ;;
  PROTO "sys_kcmp" [Typedef "pid_t"; Typedef "pid_t"; Int; ULong; ULong] ;;
  PROTO "sys_finit_module" [Int; Ptr; Int] ;;
  PROTO "sys_sched_setattr" [Typedef "pid_t"; Ptr; UInt] ;;
  PROTO "sys_sched_getattr" [Typedef "pid_t"; Ptr; UInt; UInt] ;;
  PROTO "sys_renameat2" [Int; Ptr; Int; Ptr; UInt] ;;
  PROTO "sys_seccomp" [UInt; UInt; Ptr] ;;
  PROTO "sys_getrandom" [Ptr; Typedef "size_t"; UInt] ;;
  PROTO "sys_memfd_create" [Ptr; UInt] ;;
  PROTO "sys_bpf" [Int; Ptr; UInt] ;;
  PROTO "sys_execveat" [Int; Ptr; Ptr; Ptr; Int] ;;
  PROTO "sys_userfaultfd" [Int] ;;
  PROTO "sys_membarrier" [Int; UInt; Int] ;;
  PROTO "sys_mlock2" [ULong; Typedef "size_t"; Int] ;;
  PROTO "sys_copy_file_range" [Int; Ptr; Int; Ptr; Typedef "size_t"; UInt] ;;
  PROTO "sys_preadv2" [ULong; Ptr; ULong; ULong; ULong; Typedef "rwf_t"] ;;
  PROTO "sys_pwritev2" [ULong; Ptr; ULong; ULong; ULong; Typedef "rwf_t"] ;;
  PROTO "sys_pkey_mprotect" [ULong; Typedef "size_t"; ULong; Int] ;;
  PROTO "sys_pkey_alloc" [ULong; ULong] ;;
  PROTO "sys_pkey_free" [Int] ;;
  PROTO "sys_statx" [Int; Ptr; UInt; UInt; Ptr] ;;
  PROTO "sys_rseq" [Ptr; Typedef "uint32_t"; Int; Typedef "uint32_t"] ;;
  PROTO "sys_open_tree" [Int; Ptr; UInt] ;;
  PROTO "sys_move_mount" [Int; Ptr; Int; Ptr; UInt] ;;
  PROTO "sys_mount_setattr" [Int; Ptr; UInt; Ptr; Typedef "size_t"] ;;
  PROTO "sys_fsopen" [Ptr; UInt] ;;
  PROTO "sys_fsconfig" [Int; UInt; Ptr; Ptr; Int] ;; k)%pp.

(** Lines 1055 to 1201. *)
Definition syscalls_h_6 (k : pp proto_line) : pp proto_line := (
  PROTO "sys_fsmount" [Int; UInt; UInt] ;;
  PROTO "sys_fspick" [Int; Ptr; UInt] ;;
  PROTO "sys_pidfd_send_signal" [Int; Int; Ptr; UInt] ;;
  PROTO "sys_pidfd_getfd" [Int; Int; UInt] ;;
  PROTO "sys_landlock_create_ruleset" [Ptr; Typedef "size_t"; Typedef "__u32"] ;;
  PROTO "sys_landlock_add_rule" [Int; Typedef "enum landlock_rule_type"; Ptr; Typedef "__u32"] ;;
  PROTO "sys_landlock_restrict_self" [Int; Typedef "__u32"] ;;
  PROTO "sys_memfd_secret" [UInt] ;;
  PROTO "sys_ioperm" [ULong; ULong; Int] ;;
  PROTO "sys_pciconfig_read" [ULong; ULong; ULong; ULong; Ptr] ;;
  PROTO "sys_pciconfig_write" [ULong; ULong; ULong; ULong; Ptr] ;;
  PROTO "sys_pciconfig_iobase" [Long; ULong; ULong] ;;
  PROTO "sys_spu_run" [Int; Ptr; Ptr] ;;
  PROTO "sys_spu_create" [Ptr; UInt; Typedef "umode_t"; Int] ;;
  PROTO "sys_open" [Ptr; Int; Typedef "umode_t"] ;;
  PROTO "sys_link" [Ptr; Ptr] ;;
  PROTO "sys_unlink" [Ptr] ;;
  PROTO "sys_mknod" [Ptr; Typedef "umode_t"; UInt] ;;
  PROTO "sys_chmod" [Ptr; Typedef "umode_t"] ;;
  PROTO "sys_chown" [Ptr; Typedef "uid_t"; Typedef "gid_t"] ;;
  PROTO "sys_mkdir" [Ptr; Typedef "umode_t"] ;;
  PROTO "sys_rmdir" [Ptr] ;;
  PROTO "sys_lchown" [Ptr; Typedef "uid_t"; Typedef "gid_t"] ;;
  PROTO "sys_access" [Ptr; Int] ;;
  PROTO "sys_rename" [Ptr; Ptr] ;;
  PROTO "sys_symlink" [Ptr; Ptr] ;;
  #if (COr (Defined "__ARCH_WANT_STAT64") (Defined "__ARCH_WANT_COMPAT_STAT64")) #then
    PROTO "sys_stat64" [Ptr; Ptr] ;;
    PROTO "sys_lstat64" [Ptr; Ptr] ;; End
  #endif
  PROTO "sys_pipe" [Ptr] ;;
  PROTO "sys_dup2" [UInt; UInt] ;;
  PROTO "sys_epoll_create" [Int] ;;
  PROTO "sys_inotify_init" [] ;;
  PROTO "sys_eventfd" [UInt] ;;
  PROTO "sys_signalfd" [Int; Ptr; Typedef "size_t"] ;;
  PROTO "sys_sendfile" [Int; Int; Ptr; Typedef "size_t"] ;;
  PROTO "sys_newstat" [Ptr; Ptr] ;;
  PROTO "sys_newlstat" [Ptr; Ptr] ;;
  PROTO "sys_fadvise64" [Int; Typedef "loff_t"; Typedef "size_t"; Int] ;;
  PROTO "sys_alarm" [UInt] ;;
  PROTO "sys_getpgrp" [] ;;
  PROTO "sys_pause" [] ;;
  PROTO "sys_time" [Ptr] ;;
  PROTO "sys_time32" [Ptr] ;;
  #if (Defined "__ARCH_WANT_SYS_UTIME") #then
    PROTO "sys_utime" [Ptr; Ptr] ;;
    PROTO "sys_utimes" [Ptr; Ptr] ;;
    PROTO "sys_futimesat" [Int; Ptr; Ptr] ;; End
  #endif
  PROTO "sys_futimesat_time32" [UInt; Ptr; Ptr] ;;
  PROTO "sys_utime32" [Ptr; Ptr] ;;
  PROTO "sys_utimes_time32" [Ptr; Ptr] ;;
  PROTO "sys_creat" [Ptr; Typedef "umode_t"] ;;
  PROTO "sys_getdents" [UInt; Ptr; UInt] ;;
  PROTO "sys_select" [Int; Ptr; Ptr; Ptr; Ptr] ;;
  PROTO "sys_poll" [Ptr; UInt; Int] ;;
  PROTO "sys_epoll_wait" [Int; Ptr; Int; Int] ;;
  PROTO "sys_ustat" [UInt; Ptr] ;;
  PROTO "sys_vfork" [] ;;
  PROTO "sys_recv" [Int; Ptr; Typedef "size_t"; UInt] ;;
  PROTO "sys_send" [Int; Ptr; Typedef "size_t"; UInt] ;;
  PROTO "sys_oldumount" [Ptr] ;;
  PROTO "sys_uselib" [Ptr] ;;
  PROTO "sys_sysfs" [Int; ULong; ULong] ;;
  PROTO "sys_fork" [] ;;
  PROTO "sys_stime" [Ptr] ;;
  PROTO "sys_stime32" [Ptr] ;;
  PROTO "sys_sigpending" [Ptr] ;;
  PROTO "sys_sigprocmask" [Int; Ptr; Ptr] ;;
  #if (Defined "CONFIG_OLD_SIGSUSPEND") #then
    PROTO "sys_sigsuspend" [Typedef "old_sigset_t"] ;; End
  #endif
  #if (Defined "CONFIG_OLD_SIGSUSPEND3") #then
    PROTO "sys_sigsuspend" [Int; Int; Typedef "old_sigset_t"] ;; End
  #endif
  #if (Defined "CONFIG_OLD_SIGACTION") #then
    PROTO "sys_sigaction" [Int; Ptr; Ptr] ;; End
  #endif
  PROTO "sys_sgetmask" [] ;;
  PROTO "sys_ssetmask" [Int] ;; k)%pp.

(** Lines 1202 to 1285. *)
Definition syscalls_h_7 (k : pp proto_line) : pp proto_line := (
  PROTO "sys_signal" [Int; Typedef "__sighandler_t"] ;;
  PROTO "sys_nice" [Int] ;;
  PROTO "sys_kexec_file_load" [Int; Int; ULong; Ptr; ULong] ;;
  PROTO "sys_waitpid" [Typedef "pid_t"; Ptr; Int] ;;
  #if (Defined "CONFIG_HAVE_UID16") #then
    PROTO "sys_chown16" [Ptr; Typedef "old_uid_t"; Typedef "old_gid_t"] ;;
    PROTO "sys_lchown16" [Ptr; Typedef "old_uid_t"; Typedef "old_gid_t"] ;;
    PROTO "sys_fchown16" [UInt; Typedef "old_uid_t"; Typedef "old_gid_t"] ;;
    PROTO "sys_setregid16" [Typedef "old_gid_t"; Typedef "old_gid_t"] ;;
    PROTO "sys_setgid16" [Typedef "old_gid_t"] ;;
    PROTO "sys_setreuid16" [Typedef "old_uid_t"; Typedef "old_uid_t"] ;;
    PROTO "sys_setuid16" [Typedef "old_uid_t"] ;;
    PROTO "sys_setresuid16" [Typedef "old_uid_t"; Typedef "old_uid_t"; Typedef "old_uid_t"] ;;
    PROTO "sys_getresuid16" [Ptr; Ptr; Ptr] ;;
    PROTO "sys_setresgid16" [Typedef "old_gid_t"; Typedef "old_gid_t"; Typedef "old_gid_t"] ;;
    PROTO "sys_getresgid16" [Ptr; Ptr; Ptr] ;;
    PROTO "sys_setfsuid16" [Typedef "old_uid_t"] ;;
    PROTO "sys_setfsgid16" [Typedef "old_gid_t"] ;;
    PROTO "sys_getgroups16" [Int; Ptr] ;;
    PROTO "sys_setgroups16" [Int; Ptr] ;;
    PROTO "sys_getuid16" [] ;;
    PROTO "sys_geteuid16" [] ;;
    PROTO "sys_getgid16" [] ;;
    PROTO "sys_getegid16" [] ;; End
  #endif
  PROTO "sys_socketcall" [Int; Ptr] ;;
  PROTO "sys_stat" [Ptr; Ptr] ;;
  PROTO "sys_lstat" [Ptr; Ptr] ;;
  PROTO "sys_fstat" [UInt; Ptr] ;;
  PROTO "sys_readlink" [Ptr; Ptr; Int] ;;
  PROTO "sys_old_select" [Ptr] ;;
  PROTO "sys_old_readdir" [UInt; Ptr; UInt] ;;
  PROTO "sys_gethostname" [Ptr; Int] ;;
  PROTO "sys_uname" [Ptr] ;;
  PROTO "sys_olduname" [Ptr] ;;
  #if (Defined "__ARCH_WANT_SYS_OLD_GETRLIMIT") #then
    PROTO "sys_old_getrlimit" [UInt; Ptr] ;; End
  #endif
  PROTO "sys_ipc" [UInt; Int; ULong; ULong; Ptr; Long] ;;
  PROTO "sys_mmap_pgoff" [ULong; ULong; ULong; ULong; ULong; ULong] ;;
  PROTO "sys_old_mmap" [Ptr] ;;
  PROTO "sys_ni_syscall" [] ;; k)%pp.

(** All prototypes of handlers. *)
Definition syscalls_h : pp proto_line :=
  syscalls_h_1 (syscalls_h_2 (syscalls_h_3 (syscalls_h_4 (syscalls_h_5 (syscalls_h_6 (syscalls_h_7 End)))))).

(** ** kernel/sys_ni.c *)

Inductive ni_line := COND_SYSCALL (name : string) | COND_SYSCALL_COMPAT (name : string).

(** Lines 39 to 187. *)
Definition sys_ni_c_1 : list ni_line :=
  [COND_SYSCALL "io_setup";
   COND_SYSCALL_COMPAT "io_setup";
   COND_SYSCALL "io_destroy";
   COND_SYSCALL "io_submit";
   COND_SYSCALL_COMPAT "io_submit";
   COND_SYSCALL "io_cancel";
   COND_SYSCALL "io_getevents_time32";
   COND_SYSCALL "io_getevents";
   COND_SYSCALL "io_pgetevents_time32";
   COND_SYSCALL "io_pgetevents";
   COND_SYSCALL_COMPAT "io_pgetevents";
   COND_SYSCALL_COMPAT "io_pgetevents_time64";
   COND_SYSCALL "io_uring_setup";
   COND_SYSCALL "io_uring_enter";
   COND_SYSCALL "io_uring_register";
   COND_SYSCALL "lookup_dcookie";
   COND_SYSCALL_COMPAT "lookup_dcookie";
   COND_SYSCALL "eventfd2";
   COND_SYSCALL "epoll_create1";
   COND_SYSCALL "epoll_ctl";
   COND_SYSCALL "epoll_pwait";
   COND_SYSCALL_COMPAT "epoll_pwait";
   COND_SYSCALL "epoll_pwait2";
   COND_SYSCALL_COMPAT "epoll_pwait2";
   COND_SYSCALL "inotify_init1";
   COND_SYSCALL "inotify_add_watch";
   COND_SYSCALL "inotify_rm_watch";
   COND_SYSCALL "ioprio_set";
   COND_SYSCALL "ioprio_get";
   COND_SYSCALL "flock";
   COND_SYSCALL "quotactl";
   COND_SYSCALL "quotactl_fd";
   COND_SYSCALL "signalfd4";
   COND_SYSCALL_COMPAT "signalfd4";
   COND_SYSCALL "timerfd_create";
   COND_SYSCALL "timerfd_settime";
   COND_SYSCALL "timerfd_settime32";
   COND_SYSCALL "timerfd_gettime";
   COND_SYSCALL "timerfd_gettime32";
   COND_SYSCALL "acct";
   COND_SYSCALL "capget";
   COND_SYSCALL "capset";
   COND_SYSCALL "clone3";
   COND_SYSCALL "futex";
   COND_SYSCALL "futex_time32";
   COND_SYSCALL "set_robust_list";
   COND_SYSCALL_COMPAT "set_robust_list";
   COND_SYSCALL "get_robust_list";
   COND_SYSCALL_COMPAT "get_robust_list";
   COND_SYSCALL "kexec_load";
   COND_SYSCALL_COMPAT "kexec_load";
   COND_SYSCALL "init_module";
   COND_SYSCALL "delete_module";
   COND_SYSCALL "syslog";
   COND_SYSCALL "setregid";
   COND_SYSCALL "setgid";
   COND_SYSCALL "setreuid";
   COND_SYSCALL "setuid";
   COND_SYSCALL "setresuid";
   COND_SYSCALL "getresuid";
   COND_SYSCALL "setresgid";
   COND_SYSCALL "getresgid";
   COND_SYSCALL "setfsuid";
   COND_SYSCALL "setfsgid";
   COND_SYSCALL "setgroups";
   COND_SYSCALL "getgroups"].

(** Lines 194 to 343. *)
Definition sys_ni_c_2 : list ni_line :=
  [COND_SYSCALL "write_kv";
   COND_SYSCALL "read_kv";
   COND_SYSCALL "mq_open";
   COND_SYSCALL_COMPAT "mq_open";
   COND_SYSCALL "mq_unlink";
   COND_SYSCALL "mq_timedsend";
   COND_SYSCALL "mq_timedsend_time32";
   COND_SYSCALL "mq_timedreceive";
   COND_SYSCALL "mq_timedreceive_time32";
   COND_SYSCALL "mq_notify";
   COND_SYSCALL_COMPAT "mq_notify";
   COND_SYSCALL "mq_getsetattr";
   COND_SYSCALL_COMPAT "mq_getsetattr";
   COND_SYSCALL "msgget";
   COND_SYSCALL "old_msgctl";
   COND_SYSCALL "msgctl";
   COND_SYSCALL_COMPAT "msgctl";
   COND_SYSCALL_COMPAT "old_msgctl";
   COND_SYSCALL "msgrcv";
   COND_SYSCALL_COMPAT "msgrcv";
   COND_SYSCALL "msgsnd";
   COND_SYSCALL_COMPAT "msgsnd";
   COND_SYSCALL "semget";
   COND_SYSCALL "old_semctl";
   COND_SYSCALL "semctl";
   COND_SYSCALL_COMPAT "semctl";
   COND_SYSCALL_COMPAT "old_semctl";
   COND_SYSCALL "semtimedop";
   COND_SYSCALL "semtimedop_time32";
   COND_SYSCALL "semop";
   COND_SYSCALL "shmget";
   COND_SYSCALL "old_shmctl";
   COND_SYSCALL "shmctl";
   COND_SYSCALL_COMPAT "shmctl";
   COND_SYSCALL_COMPAT "old_shmctl";
   COND_SYSCALL "shmat";
   COND_SYSCALL_COMPAT "shmat";
   COND_SYSCALL "shmdt";
   COND_SYSCALL "socket";
   COND_SYSCALL "socketpair";
   COND_SYSCALL "bind";
   COND_SYSCALL "listen";
   COND_SYSCALL "accept";
   COND_SYSCALL "connect";
   COND_SYSCALL "getsockname";
   COND_SYSCALL "getpeername";
   COND_SYSCALL "setsockopt";
   COND_SYSCALL_COMPAT "setsockopt";
   COND_SYSCALL "getsockopt";
   COND_SYSCALL_COMPAT "getsockopt";
   COND_SYSCALL "sendto";
   COND_SYSCALL "shutdown";
   COND_SYSCALL "recvfrom";
   COND_SYSCALL_COMPAT "recvfrom";
   COND_SYSCALL "sendmsg";
   COND_SYSCALL_COMPAT "sendmsg";
   COND_SYSCALL "recvmsg";
   COND_SYSCALL_COMPAT "recvmsg";
   COND_SYSCALL "mremap";
   COND_SYSCALL "add_key";
   COND_SYSCALL "request_key";
   COND_SYSCALL "keyctl";
   COND_SYSCALL_COMPAT "keyctl";
   COND_SYSCALL "landlock_create_ruleset";
   COND_SYSCALL "landlock_add_rule";
   COND_SYSCALL "landlock_restrict_self";
   COND_SYSCALL "fadvise64_64";
   COND_SYSCALL_COMPAT "fadvise64_64";
   COND_SYSCALL "swapon";
   COND_SYSCALL "swapoff";
   COND_SYSCALL "mprotect";
   COND_SYSCALL "msync";
   COND_SYSCALL "mlock";
   COND_SYSCALL "munlock";
   COND_SYSCALL "mlockall";
   COND_SYSCALL "munlockall";
   COND_SYSCALL "mincore";
   COND_SYSCALL "madvise";
   COND_SYSCALL "process_madvise";
   COND_SYSCALL "process_mrelease";
   COND_SYSCALL "remap_file_pages";
   COND_SYSCALL "mbind";
   COND_SYSCALL "get_mempolicy";
   COND_SYSCALL "set_mempolicy";
   COND_SYSCALL "migrate_pages";
   COND_SYSCALL "move_pages";
   COND_SYSCALL "perf_event_open";
   COND_SYSCALL "accept4";
   COND_SYSCALL "recvmmsg";
   COND_SYSCALL "recvmmsg_time32";
   COND_SYSCALL_COMPAT "recvmmsg_time32";
   COND_SYSCALL_COMPAT "recvmmsg_time64";
   COND_SYSCALL "fanotify_init";
   COND_SYSCALL "fanotify_mark";
   COND_SYSCALL "name_to_handle_at";
   COND_SYSCALL "open_by_handle_at";
   COND_SYSCALL_COMPAT "open_by_handle_at";
   COND_SYSCALL "sendmmsg";
   COND_SYSCALL_COMPAT "sendmmsg";
   COND_SYSCALL "process_vm_readv";
   COND_SYSCALL_COMPAT "process_vm_readv";
   COND_SYSCALL "process_vm_writev";
   COND_SYSCALL_COMPAT "process_vm_writev";
   COND_SYSCALL "kcmp";
   COND_SYSCALL "finit_module";
   COND_SYSCALL "seccomp";
   COND_SYSCALL "memfd_create";
   COND_SYSCALL "bpf"].

(** Lines 346 to 483. *)
Definition sys_ni_c_3 : list ni_line :=
  [COND_SYSCALL "execveat";
   COND_SYSCALL "userfaultfd";
   COND_SYSCALL "membarrier";
   COND_SYSCALL "mlock2";
   COND_SYSCALL "copy_file_range";
   COND_SYSCALL "pkey_mprotect";
   COND_SYSCALL "pkey_alloc";
   COND_SYSCALL "pkey_free";
   COND_SYSCALL "memfd_secret";
   COND_SYSCALL "pciconfig_read";
   COND_SYSCALL "pciconfig_write";
   COND_SYSCALL "pciconfig_iobase";
   COND_SYSCALL "socketcall";
   COND_SYSCALL_COMPAT "socketcall";
   COND_SYSCALL_COMPAT "fanotify_mark";
   COND_SYSCALL "vm86old";
   COND_SYSCALL "modify_ldt";
   COND_SYSCALL "vm86";
   COND_SYSCALL "kexec_file_load";
   COND_SYSCALL "s390_pci_mmio_read";
   COND_SYSCALL "s390_pci_mmio_write";
   COND_SYSCALL "s390_ipc";
   COND_SYSCALL_COMPAT "s390_ipc";
   COND_SYSCALL "rtas";
   COND_SYSCALL "spu_run";
   COND_SYSCALL "spu_create";
   COND_SYSCALL "subpage_prot";
   COND_SYSCALL "epoll_create";
   COND_SYSCALL "inotify_init";
   COND_SYSCALL "eventfd";
   COND_SYSCALL "signalfd";
   COND_SYSCALL_COMPAT "signalfd";
   COND_SYSCALL "fadvise64";
   COND_SYSCALL "epoll_wait";
   COND_SYSCALL "recv";
   COND_SYSCALL_COMPAT "recv";
   COND_SYSCALL "send";
   COND_SYSCALL "uselib";
   COND_SYSCALL "time32";
   COND_SYSCALL "stime32";
   COND_SYSCALL "utime32";
   COND_SYSCALL "adjtimex_time32";
   COND_SYSCALL "sched_rr_get_interval_time32";
   COND_SYSCALL "nanosleep_time32";
   COND_SYSCALL "rt_sigtimedwait_time32";
   COND_SYSCALL_COMPAT "rt_sigtimedwait_time32";
   COND_SYSCALL "timer_settime32";
   COND_SYSCALL "timer_gettime32";
   COND_SYSCALL "clock_settime32";
   COND_SYSCALL "clock_gettime32";
   COND_SYSCALL "clock_getres_time32";
   COND_SYSCALL "clock_nanosleep_time32";
   COND_SYSCALL "utimes_time32";
   COND_SYSCALL "futimesat_time32";
   COND_SYSCALL "pselect6_time32";
   COND_SYSCALL_COMPAT "pselect6_time32";
   COND_SYSCALL "ppoll_time32";
   COND_SYSCALL_COMPAT "ppoll_time32";
   COND_SYSCALL "utimensat_time32";
   COND_SYSCALL "clock_adjtime32";
   COND_SYSCALL "sgetmask";
   COND_SYSCALL "ssetmask";
   COND_SYSCALL "sysfs";
   COND_SYSCALL "ipc";
   COND_SYSCALL_COMPAT "ipc";
   COND_SYSCALL "chown16";
   COND_SYSCALL "fchown16";
   COND_SYSCALL "getegid16";
   COND_SYSCALL "geteuid16";
   COND_SYSCALL "getgid16";
   COND_SYSCALL "getgroups16";
   COND_SYSCALL "getresgid16";
   COND_SYSCALL "getresuid16";
   COND_SYSCALL "getuid16";
   COND_SYSCALL "lchown16";
   COND_SYSCALL "setfsgid16";
   COND_SYSCALL "setfsuid16";
   COND_SYSCALL "setgid16";
   COND_SYSCALL "setgroups16";
   COND_SYSCALL "setregid16";
   COND_SYSCALL "setresgid16";
   COND_SYSCALL "setresuid16";
   COND_SYSCALL "setreuid16";
   COND_SYSCALL "setuid16";
   COND_SYSCALL "rseq"].

Definition sys_ni_c : list ni_line := sys_ni_c_1 ++ sys_ni_c_2 ++ sys_ni_c_3.

(** ** arch/x86/entry/syscalls/syscall_64.tbl *)

Inductive abi := Common | Abi64 | X32.
#[global] Instance abi_eq_dec : EqDecision abi.
Proof. solve_decision. Defined.

(** A line: number, ABI, name and, where the call has one, its entry point. *)
Record tbl_line := Tbl { t_nr : Z; t_abi : abi; t_name : string; t_entry : option string }.

(** Lines 11 to 158. *)
Definition syscall_64_tbl_1 : list tbl_line :=
  [Tbl 0 Common "read" (Some "sys_read");
   Tbl 1 Common "write" (Some "sys_write");
   Tbl 2 Common "open" (Some "sys_open");
   Tbl 3 Common "close" (Some "sys_close");
   Tbl 4 Common "stat" (Some "sys_newstat");
   Tbl 5 Common "fstat" (Some "sys_newfstat");
   Tbl 6 Common "lstat" (Some "sys_newlstat");
   Tbl 7 Common "poll" (Some "sys_poll");
   Tbl 8 Common "lseek" (Some "sys_lseek");
   Tbl 9 Common "mmap" (Some "sys_mmap");
   Tbl 10 Common "mprotect" (Some "sys_mprotect");
   Tbl 11 Common "munmap" (Some "sys_munmap");
   Tbl 12 Common "brk" (Some "sys_brk");
   Tbl 13 Abi64 "rt_sigaction" (Some "sys_rt_sigaction");
   Tbl 14 Common "rt_sigprocmask" (Some "sys_rt_sigprocmask");
   Tbl 15 Abi64 "rt_sigreturn" (Some "sys_rt_sigreturn");
   Tbl 16 Abi64 "ioctl" (Some "sys_ioctl");
   Tbl 17 Common "pread64" (Some "sys_pread64");
   Tbl 18 Common "pwrite64" (Some "sys_pwrite64");
   Tbl 19 Abi64 "readv" (Some "sys_readv");
   Tbl 20 Abi64 "writev" (Some "sys_writev");
   Tbl 21 Common "access" (Some "sys_access");
   Tbl 22 Common "pipe" (Some "sys_pipe");
   Tbl 23 Common "select" (Some "sys_select");
   Tbl 24 Common "sched_yield" (Some "sys_sched_yield");
   Tbl 25 Common "mremap" (Some "sys_mremap");
   Tbl 26 Common "msync" (Some "sys_msync");
   Tbl 27 Common "mincore" (Some "sys_mincore");
   Tbl 28 Common "madvise" (Some "sys_madvise");
   Tbl 29 Common "shmget" (Some "sys_shmget");
   Tbl 30 Common "shmat" (Some "sys_shmat");
   Tbl 31 Common "shmctl" (Some "sys_shmctl");
   Tbl 32 Common "dup" (Some "sys_dup");
   Tbl 33 Common "dup2" (Some "sys_dup2");
   Tbl 34 Common "pause" (Some "sys_pause");
   Tbl 35 Common "nanosleep" (Some "sys_nanosleep");
   Tbl 36 Common "getitimer" (Some "sys_getitimer");
   Tbl 37 Common "alarm" (Some "sys_alarm");
   Tbl 38 Common "setitimer" (Some "sys_setitimer");
   Tbl 39 Common "getpid" (Some "sys_getpid");
   Tbl 40 Common "sendfile" (Some "sys_sendfile64");
   Tbl 41 Common "socket" (Some "sys_socket");
   Tbl 42 Common "connect" (Some "sys_connect");
   Tbl 43 Common "accept" (Some "sys_accept");
   Tbl 44 Common "sendto" (Some "sys_sendto");
   Tbl 45 Abi64 "recvfrom" (Some "sys_recvfrom");
   Tbl 46 Abi64 "sendmsg" (Some "sys_sendmsg");
   Tbl 47 Abi64 "recvmsg" (Some "sys_recvmsg");
   Tbl 48 Common "shutdown" (Some "sys_shutdown");
   Tbl 49 Common "bind" (Some "sys_bind");
   Tbl 50 Common "listen" (Some "sys_listen");
   Tbl 51 Common "getsockname" (Some "sys_getsockname");
   Tbl 52 Common "getpeername" (Some "sys_getpeername");
   Tbl 53 Common "socketpair" (Some "sys_socketpair");
   Tbl 54 Abi64 "setsockopt" (Some "sys_setsockopt");
   Tbl 55 Abi64 "getsockopt" (Some "sys_getsockopt");
   Tbl 56 Common "clone" (Some "sys_clone");
   Tbl 57 Common "fork" (Some "sys_fork");
   Tbl 58 Common "vfork" (Some "sys_vfork");
   Tbl 59 Abi64 "execve" (Some "sys_execve");
   Tbl 60 Common "exit" (Some "sys_exit");
   Tbl 61 Common "wait4" (Some "sys_wait4");
   Tbl 62 Common "kill" (Some "sys_kill");
   Tbl 63 Common "uname" (Some "sys_newuname");
   Tbl 64 Common "semget" (Some "sys_semget");
   Tbl 65 Common "semop" (Some "sys_semop");
   Tbl 66 Common "semctl" (Some "sys_semctl");
   Tbl 67 Common "shmdt" (Some "sys_shmdt");
   Tbl 68 Common "msgget" (Some "sys_msgget");
   Tbl 69 Common "msgsnd" (Some "sys_msgsnd");
   Tbl 70 Common "msgrcv" (Some "sys_msgrcv");
   Tbl 71 Common "msgctl" (Some "sys_msgctl");
   Tbl 72 Common "fcntl" (Some "sys_fcntl");
   Tbl 73 Common "flock" (Some "sys_flock");
   Tbl 74 Common "fsync" (Some "sys_fsync");
   Tbl 75 Common "fdatasync" (Some "sys_fdatasync");
   Tbl 76 Common "truncate" (Some "sys_truncate");
   Tbl 77 Common "ftruncate" (Some "sys_ftruncate");
   Tbl 78 Common "getdents" (Some "sys_getdents");
   Tbl 79 Common "getcwd" (Some "sys_getcwd");
   Tbl 80 Common "chdir" (Some "sys_chdir");
   Tbl 81 Common "fchdir" (Some "sys_fchdir");
   Tbl 82 Common "rename" (Some "sys_rename");
   Tbl 83 Common "mkdir" (Some "sys_mkdir");
   Tbl 84 Common "rmdir" (Some "sys_rmdir");
   Tbl 85 Common "creat" (Some "sys_creat");
   Tbl 86 Common "link" (Some "sys_link");
   Tbl 87 Common "unlink" (Some "sys_unlink");
   Tbl 88 Common "symlink" (Some "sys_symlink");
   Tbl 89 Common "readlink" (Some "sys_readlink");
   Tbl 90 Common "chmod" (Some "sys_chmod");
   Tbl 91 Common "fchmod" (Some "sys_fchmod");
   Tbl 92 Common "chown" (Some "sys_chown");
   Tbl 93 Common "fchown" (Some "sys_fchown");
   Tbl 94 Common "lchown" (Some "sys_lchown");
   Tbl 95 Common "umask" (Some "sys_umask");
   Tbl 96 Common "gettimeofday" (Some "sys_gettimeofday");
   Tbl 97 Common "getrlimit" (Some "sys_getrlimit");
   Tbl 98 Common "getrusage" (Some "sys_getrusage");
   Tbl 99 Common "sysinfo" (Some "sys_sysinfo");
   Tbl 100 Common "times" (Some "sys_times");
   Tbl 101 Abi64 "ptrace" (Some "sys_ptrace");
   Tbl 102 Common "getuid" (Some "sys_getuid");
   Tbl 103 Common "syslog" (Some "sys_syslog");
   Tbl 104 Common "getgid" (Some "sys_getgid");
   Tbl 105 Common "setuid" (Some "sys_setuid");
   Tbl 106 Common "setgid" (Some "sys_setgid");
   Tbl 107 Common "geteuid" (Some "sys_geteuid");
   Tbl 108 Common "getegid" (Some "sys_getegid");
   Tbl 109 Common "setpgid" (Some "sys_setpgid");
   Tbl 110 Common "getppid" (Some "sys_getppid");
   Tbl 111 Common "getpgrp" (Some "sys_getpgrp");
   Tbl 112 Common "setsid" (Some "sys_setsid");
   Tbl 113 Common "setreuid" (Some "sys_setreuid");
   Tbl 114 Common "setregid" (Some "sys_setregid");
   Tbl 115 Common "getgroups" (Some "sys_getgroups");
   Tbl 116 Common "setgroups" (Some "sys_setgroups");
   Tbl 117 Common "setresuid" (Some "sys_setresuid");
   Tbl 118 Common "getresuid" (Some "sys_getresuid");
   Tbl 119 Common "setresgid" (Some "sys_setresgid");
   Tbl 120 Common "getresgid" (Some "sys_getresgid");
   Tbl 121 Common "getpgid" (Some "sys_getpgid");
   Tbl 122 Common "setfsuid" (Some "sys_setfsuid");
   Tbl 123 Common "setfsgid" (Some "sys_setfsgid");
   Tbl 124 Common "getsid" (Some "sys_getsid");
   Tbl 125 Common "capget" (Some "sys_capget");
   Tbl 126 Common "capset" (Some "sys_capset");
   Tbl 127 Abi64 "rt_sigpending" (Some "sys_rt_sigpending");
   Tbl 128 Abi64 "rt_sigtimedwait" (Some "sys_rt_sigtimedwait");
   Tbl 129 Abi64 "rt_sigqueueinfo" (Some "sys_rt_sigqueueinfo");
   Tbl 130 Common "rt_sigsuspend" (Some "sys_rt_sigsuspend");
   Tbl 131 Abi64 "sigaltstack" (Some "sys_sigaltstack");
   Tbl 132 Common "utime" (Some "sys_utime");
   Tbl 133 Common "mknod" (Some "sys_mknod");
   Tbl 134 Abi64 "uselib" None;
   Tbl 135 Common "personality" (Some "sys_personality");
   Tbl 136 Common "ustat" (Some "sys_ustat");
   Tbl 137 Common "statfs" (Some "sys_statfs");
   Tbl 138 Common "fstatfs" (Some "sys_fstatfs");
   Tbl 139 Common "sysfs" (Some "sys_sysfs");
   Tbl 140 Common "getpriority" (Some "sys_getpriority");
   Tbl 141 Common "setpriority" (Some "sys_setpriority");
   Tbl 142 Common "sched_setparam" (Some "sys_sched_setparam");
   Tbl 143 Common "sched_getparam" (Some "sys_sched_getparam");
   Tbl 144 Common "sched_setscheduler" (Some "sys_sched_setscheduler");
   Tbl 145 Common "sched_getscheduler" (Some "sys_sched_getscheduler");
   Tbl 146 Common "sched_get_priority_max" (Some "sys_sched_get_priority_max");
   Tbl 147 Common "sched_get_priority_min" (Some "sys_sched_get_priority_min")].

(** Lines 159 to 306. *)
Definition syscall_64_tbl_2 : list tbl_line :=
  [Tbl 148 Common "sched_rr_get_interval" (Some "sys_sched_rr_get_interval");
   Tbl 149 Common "mlock" (Some "sys_mlock");
   Tbl 150 Common "munlock" (Some "sys_munlock");
   Tbl 151 Common "mlockall" (Some "sys_mlockall");
   Tbl 152 Common "munlockall" (Some "sys_munlockall");
   Tbl 153 Common "vhangup" (Some "sys_vhangup");
   Tbl 154 Common "modify_ldt" (Some "sys_modify_ldt");
   Tbl 155 Common "pivot_root" (Some "sys_pivot_root");
   Tbl 156 Abi64 "_sysctl" (Some "sys_ni_syscall");
   Tbl 157 Common "prctl" (Some "sys_prctl");
   Tbl 158 Common "arch_prctl" (Some "sys_arch_prctl");
   Tbl 159 Common "adjtimex" (Some "sys_adjtimex");
   Tbl 160 Common "setrlimit" (Some "sys_setrlimit");
   Tbl 161 Common "chroot" (Some "sys_chroot");
   Tbl 162 Common "sync" (Some "sys_sync");
   Tbl 163 Common "acct" (Some "sys_acct");
   Tbl 164 Common "settimeofday" (Some "sys_settimeofday");
   Tbl 165 Common "mount" (Some "sys_mount");
   Tbl 166 Common "umount2" (Some "sys_umount");
   Tbl 167 Common "swapon" (Some "sys_swapon");
   Tbl 168 Common "swapoff" (Some "sys_swapoff");
   Tbl 169 Common "reboot" (Some "sys_reboot");
   Tbl 170 Common "sethostname" (Some "sys_sethostname");
   Tbl 171 Common "setdomainname" (Some "sys_setdomainname");
   Tbl 172 Common "iopl" (Some "sys_iopl");
   Tbl 173 Common "ioperm" (Some "sys_ioperm");
   Tbl 174 Abi64 "create_module" None;
   Tbl 175 Common "init_module" (Some "sys_init_module");
   Tbl 176 Common "delete_module" (Some "sys_delete_module");
   Tbl 177 Abi64 "get_kernel_syms" None;
   Tbl 178 Abi64 "query_module" None;
   Tbl 179 Common "quotactl" (Some "sys_quotactl");
   Tbl 180 Abi64 "nfsservctl" None;
   Tbl 181 Common "getpmsg" None;
   Tbl 182 Common "putpmsg" None;
   Tbl 183 Common "afs_syscall" None;
   Tbl 184 Common "tuxcall" None;
   Tbl 185 Common "security" None;
   Tbl 186 Common "gettid" (Some "sys_gettid");
   Tbl 187 Common "readahead" (Some "sys_readahead");
   Tbl 188 Common "setxattr" (Some "sys_setxattr");
   Tbl 189 Common "lsetxattr" (Some "sys_lsetxattr");
   Tbl 190 Common "fsetxattr" (Some "sys_fsetxattr");
   Tbl 191 Common "getxattr" (Some "sys_getxattr");
   Tbl 192 Common "lgetxattr" (Some "sys_lgetxattr");
   Tbl 193 Common "fgetxattr" (Some "sys_fgetxattr");
   Tbl 194 Common "listxattr" (Some "sys_listxattr");
   Tbl 195 Common "llistxattr" (Some "sys_llistxattr");
   Tbl 196 Common "flistxattr" (Some "sys_flistxattr");
   Tbl 197 Common "removexattr" (Some "sys_removexattr");
   Tbl 198 Common "lremovexattr" (Some "sys_lremovexattr");
   Tbl 199 Common "fremovexattr" (Some "sys_fremovexattr");
   Tbl 200 Common "tkill" (Some "sys_tkill");
   Tbl 201 Common "time" (Some "sys_time");
   Tbl 202 Common "futex" (Some "sys_futex");
   Tbl 203 Common "sched_setaffinity" (Some "sys_sched_setaffinity");
   Tbl 204 Common "sched_getaffinity" (Some "sys_sched_getaffinity");
   Tbl 205 Abi64 "set_thread_area" None;
   Tbl 206 Abi64 "io_setup" (Some "sys_io_setup");
   Tbl 207 Common "io_destroy" (Some "sys_io_destroy");
   Tbl 208 Common "io_getevents" (Some "sys_io_getevents");
   Tbl 209 Abi64 "io_submit" (Some "sys_io_submit");
   Tbl 210 Common "io_cancel" (Some "sys_io_cancel");
   Tbl 211 Abi64 "get_thread_area" None;
   Tbl 212 Common "lookup_dcookie" (Some "sys_lookup_dcookie");
   Tbl 213 Common "epoll_create" (Some "sys_epoll_create");
   Tbl 214 Abi64 "epoll_ctl_old" None;
   Tbl 215 Abi64 "epoll_wait_old" None;
   Tbl 216 Common "remap_file_pages" (Some "sys_remap_file_pages");
   Tbl 217 Common "getdents64" (Some "sys_getdents64");
   Tbl 218 Common "set_tid_address" (Some "sys_set_tid_address");
   Tbl 219 Common "restart_syscall" (Some "sys_restart_syscall");
   Tbl 220 Common "semtimedop" (Some "sys_semtimedop");
   Tbl 221 Common "fadvise64" (Some "sys_fadvise64");
   Tbl 222 Abi64 "timer_create" (Some "sys_timer_create");
   Tbl 223 Common "timer_settime" (Some "sys_timer_settime");
   Tbl 224 Common "timer_gettime" (Some "sys_timer_gettime");
   Tbl 225 Common "timer_getoverrun" (Some "sys_timer_getoverrun");
   Tbl 226 Common "timer_delete" (Some "sys_timer_delete");
   Tbl 227 Common "clock_settime" (Some "sys_clock_settime");
   Tbl 228 Common "clock_gettime" (Some "sys_clock_gettime");
   Tbl 229 Common "clock_getres" (Some "sys_clock_getres");
   Tbl 230 Common "clock_nanosleep" (Some "sys_clock_nanosleep");
   Tbl 231 Common "exit_group" (Some "sys_exit_group");
   Tbl 232 Common "epoll_wait" (Some "sys_epoll_wait");
   Tbl 233 Common "epoll_ctl" (Some "sys_epoll_ctl");
   Tbl 234 Common "tgkill" (Some "sys_tgkill");
   Tbl 235 Common "utimes" (Some "sys_utimes");
   Tbl 236 Abi64 "vserver" None;
   Tbl 237 Common "mbind" (Some "sys_mbind");
   Tbl 238 Common "set_mempolicy" (Some "sys_set_mempolicy");
   Tbl 239 Common "get_mempolicy" (Some "sys_get_mempolicy");
   Tbl 240 Common "mq_open" (Some "sys_mq_open");
   Tbl 241 Common "mq_unlink" (Some "sys_mq_unlink");
   Tbl 242 Common "mq_timedsend" (Some "sys_mq_timedsend");
   Tbl 243 Common "mq_timedreceive" (Some "sys_mq_timedreceive");
   Tbl 244 Abi64 "mq_notify" (Some "sys_mq_notify");
   Tbl 245 Common "mq_getsetattr" (Some "sys_mq_getsetattr");
   Tbl 246 Abi64 "kexec_load" (Some "sys_kexec_load");
   Tbl 247 Abi64 "waitid" (Some "sys_waitid");
   Tbl 248 Common "add_key" (Some "sys_add_key");
   Tbl 249 Common "request_key" (Some "sys_request_key");
   Tbl 250 Common "keyctl" (Some "sys_keyctl");
   Tbl 251 Common "ioprio_set" (Some "sys_ioprio_set");
   Tbl 252 Common "ioprio_get" (Some "sys_ioprio_get");
   Tbl 253 Common "inotify_init" (Some "sys_inotify_init");
   Tbl 254 Common "inotify_add_watch" (Some "sys_inotify_add_watch");
   Tbl 255 Common "inotify_rm_watch" (Some "sys_inotify_rm_watch");
   Tbl 256 Common "migrate_pages" (Some "sys_migrate_pages");
   Tbl 257 Common "openat" (Some "sys_openat");
   Tbl 258 Common "mkdirat" (Some "sys_mkdirat");
   Tbl 259 Common "mknodat" (Some "sys_mknodat");
   Tbl 260 Common "fchownat" (Some "sys_fchownat");
   Tbl 261 Common "futimesat" (Some "sys_futimesat");
   Tbl 262 Common "newfstatat" (Some "sys_newfstatat");
   Tbl 263 Common "unlinkat" (Some "sys_unlinkat");
   Tbl 264 Common "renameat" (Some "sys_renameat");
   Tbl 265 Common "linkat" (Some "sys_linkat");
   Tbl 266 Common "symlinkat" (Some "sys_symlinkat");
   Tbl 267 Common "readlinkat" (Some "sys_readlinkat");
   Tbl 268 Common "fchmodat" (Some "sys_fchmodat");
   Tbl 269 Common "faccessat" (Some "sys_faccessat");
   Tbl 270 Common "pselect6" (Some "sys_pselect6");
   Tbl 271 Common "ppoll" (Some "sys_ppoll");
   Tbl 272 Common "unshare" (Some "sys_unshare");
   Tbl 273 Abi64 "set_robust_list" (Some "sys_set_robust_list");
   Tbl 274 Abi64 "get_robust_list" (Some "sys_get_robust_list");
   Tbl 275 Common "splice" (Some "sys_splice");
   Tbl 276 Common "tee" (Some "sys_tee");
   Tbl 277 Common "sync_file_range" (Some "sys_sync_file_range");
   Tbl 278 Abi64 "vmsplice" (Some "sys_vmsplice");
   Tbl 279 Abi64 "move_pages" (Some "sys_move_pages");
   Tbl 280 Common "utimensat" (Some "sys_utimensat");
   Tbl 281 Common "epoll_pwait" (Some "sys_epoll_pwait");
   Tbl 282 Common "signalfd" (Some "sys_signalfd");
   Tbl 283 Common "timerfd_create" (Some "sys_timerfd_create");
   Tbl 284 Common "eventfd" (Some "sys_eventfd");
   Tbl 285 Common "fallocate" (Some "sys_fallocate");
   Tbl 286 Common "timerfd_settime" (Some "sys_timerfd_settime");
   Tbl 287 Common "timerfd_gettime" (Some "sys_timerfd_gettime");
   Tbl 288 Common "accept4" (Some "sys_accept4");
   Tbl 289 Common "signalfd4" (Some "sys_signalfd4");
   Tbl 290 Common "eventfd2" (Some "sys_eventfd2");
   Tbl 291 Common "epoll_create1" (Some "sys_epoll_create1");
   Tbl 292 Common "dup3" (Some "sys_dup3");
   Tbl 293 Common "pipe2" (Some "sys_pipe2");
   Tbl 294 Common "inotify_init1" (Some "sys_inotify_init1");
   Tbl 295 Abi64 "preadv" (Some "sys_preadv")].

(** Lines 307 to 375. *)
Definition syscall_64_tbl_3 : list tbl_line :=
  [Tbl 296 Abi64 "pwritev" (Some "sys_pwritev");
   Tbl 297 Abi64 "rt_tgsigqueueinfo" (Some "sys_rt_tgsigqueueinfo");
   Tbl 298 Common "perf_event_open" (Some "sys_perf_event_open");
   Tbl 299 Abi64 "recvmmsg" (Some "sys_recvmmsg");
   Tbl 300 Common "fanotify_init" (Some "sys_fanotify_init");
   Tbl 301 Common "fanotify_mark" (Some "sys_fanotify_mark");
   Tbl 302 Common "prlimit64" (Some "sys_prlimit64");
   Tbl 303 Common "name_to_handle_at" (Some "sys_name_to_handle_at");
   Tbl 304 Common "open_by_handle_at" (Some "sys_open_by_handle_at");
   Tbl 305 Common "clock_adjtime" (Some "sys_clock_adjtime");
   Tbl 306 Common "syncfs" (Some "sys_syncfs");
   Tbl 307 Abi64 "sendmmsg" (Some "sys_sendmmsg");
   Tbl 308 Common "setns" (Some "sys_setns");
   Tbl 309 Common "getcpu" (Some "sys_getcpu");
   Tbl 310 Abi64 "process_vm_readv" (Some "sys_process_vm_readv");
   Tbl 311 Abi64 "process_vm_writev" (Some "sys_process_vm_writev");
   Tbl 312 Common "kcmp" (Some "sys_kcmp");
   Tbl 313 Common "finit_module" (Some "sys_finit_module");
   Tbl 314 Common "sched_setattr" (Some "sys_sched_setattr");
   Tbl 315 Common "sched_getattr" (Some "sys_sched_getattr");
   Tbl 316 Common "renameat2" (Some "sys_renameat2");
   Tbl 317 Common "seccomp" (Some "sys_seccomp");
   Tbl 318 Common "getrandom" (Some "sys_getrandom");
   Tbl 319 Common "memfd_create" (Some "sys_memfd_create");
   Tbl 320 Common "kexec_file_load" (Some "sys_kexec_file_load");
   Tbl 321 Common "bpf" (Some "sys_bpf");
   Tbl 322 Abi64 "execveat" (Some "sys_execveat");
   Tbl 323 Common "userfaultfd" (Some "sys_userfaultfd");
   Tbl 324 Common "membarrier" (Some "sys_membarrier");
   Tbl 325 Common "mlock2" (Some "sys_mlock2");
   Tbl 326 Common "copy_file_range" (Some "sys_copy_file_range");
   Tbl 327 Abi64 "preadv2" (Some "sys_preadv2");
   Tbl 328 Abi64 "pwritev2" (Some "sys_pwritev2");
   Tbl 329 Common "pkey_mprotect" (Some "sys_pkey_mprotect");
   Tbl 330 Common "pkey_alloc" (Some "sys_pkey_alloc");
   Tbl 331 Common "pkey_free" (Some "sys_pkey_free");
   Tbl 332 Common "statx" (Some "sys_statx");
   Tbl 333 Common "io_pgetevents" (Some "sys_io_pgetevents");
   Tbl 334 Common "rseq" (Some "sys_rseq");
   Tbl 424 Common "pidfd_send_signal" (Some "sys_pidfd_send_signal");
   Tbl 425 Common "io_uring_setup" (Some "sys_io_uring_setup");
   Tbl 426 Common "io_uring_enter" (Some "sys_io_uring_enter");
   Tbl 427 Common "io_uring_register" (Some "sys_io_uring_register");
   Tbl 428 Common "open_tree" (Some "sys_open_tree");
   Tbl 429 Common "move_mount" (Some "sys_move_mount");
   Tbl 430 Common "fsopen" (Some "sys_fsopen");
   Tbl 431 Common "fsconfig" (Some "sys_fsconfig");
   Tbl 432 Common "fsmount" (Some "sys_fsmount");
   Tbl 433 Common "fspick" (Some "sys_fspick");
   Tbl 434 Common "pidfd_open" (Some "sys_pidfd_open");
   Tbl 435 Common "clone3" (Some "sys_clone3");
   Tbl 436 Common "close_range" (Some "sys_close_range");
   Tbl 437 Common "openat2" (Some "sys_openat2");
   Tbl 438 Common "pidfd_getfd" (Some "sys_pidfd_getfd");
   Tbl 439 Common "faccessat2" (Some "sys_faccessat2");
   Tbl 440 Common "process_madvise" (Some "sys_process_madvise");
   Tbl 441 Common "epoll_pwait2" (Some "sys_epoll_pwait2");
   Tbl 442 Common "mount_setattr" (Some "sys_mount_setattr");
   Tbl 443 Common "quotactl_fd" (Some "sys_quotactl_fd");
   Tbl 444 Common "landlock_create_ruleset" (Some "sys_landlock_create_ruleset");
   Tbl 445 Common "landlock_add_rule" (Some "sys_landlock_add_rule");
   Tbl 446 Common "landlock_restrict_self" (Some "sys_landlock_restrict_self");
   Tbl 447 Common "memfd_secret" (Some "sys_memfd_secret");
   Tbl 448 Common "process_mrelease" (Some "sys_process_mrelease");
   Tbl 449 Common "write_kv" (Some "sys_write_kv");
   Tbl 450 Common "read_kv" (Some "sys_read_kv");
   Tbl 451 Common "set_thread_socket_attrs" (Some "sys_set_thread_socket_attrs")].

(** Lines 383 to 418. *)
Definition syscall_64_tbl_4 : list tbl_line :=
  [Tbl 512 X32 "rt_sigaction" (Some "compat_sys_rt_sigaction");
   Tbl 513 X32 "rt_sigreturn" (Some "compat_sys_x32_rt_sigreturn");
   Tbl 514 X32 "ioctl" (Some "compat_sys_ioctl");
   Tbl 515 X32 "readv" (Some "sys_readv");
   Tbl 516 X32 "writev" (Some "sys_writev");
   Tbl 517 X32 "recvfrom" (Some "compat_sys_recvfrom");
   Tbl 518 X32 "sendmsg" (Some "compat_sys_sendmsg");
   Tbl 519 X32 "recvmsg" (Some "compat_sys_recvmsg");
   Tbl 520 X32 "execve" (Some "compat_sys_execve");
   Tbl 521 X32 "ptrace" (Some "compat_sys_ptrace");
   Tbl 522 X32 "rt_sigpending" (Some "compat_sys_rt_sigpending");
   Tbl 523 X32 "rt_sigtimedwait" (Some "compat_sys_rt_sigtimedwait_time64");
   Tbl 524 X32 "rt_sigqueueinfo" (Some "compat_sys_rt_sigqueueinfo");
   Tbl 525 X32 "sigaltstack" (Some "compat_sys_sigaltstack");
   Tbl 526 X32 "timer_create" (Some "compat_sys_timer_create");
   Tbl 527 X32 "mq_notify" (Some "compat_sys_mq_notify");
   Tbl 528 X32 "kexec_load" (Some "compat_sys_kexec_load");
   Tbl 529 X32 "waitid" (Some "compat_sys_waitid");
   Tbl 530 X32 "set_robust_list" (Some "compat_sys_set_robust_list");
   Tbl 531 X32 "get_robust_list" (Some "compat_sys_get_robust_list");
   Tbl 532 X32 "vmsplice" (Some "sys_vmsplice");
   Tbl 533 X32 "move_pages" (Some "sys_move_pages");
   Tbl 534 X32 "preadv" (Some "compat_sys_preadv64");
   Tbl 535 X32 "pwritev" (Some "compat_sys_pwritev64");
   Tbl 536 X32 "rt_tgsigqueueinfo" (Some "compat_sys_rt_tgsigqueueinfo");
   Tbl 537 X32 "recvmmsg" (Some "compat_sys_recvmmsg_time64");
   Tbl 538 X32 "sendmmsg" (Some "compat_sys_sendmmsg");
   Tbl 539 X32 "process_vm_readv" (Some "sys_process_vm_readv");
   Tbl 540 X32 "process_vm_writev" (Some "sys_process_vm_writev");
   Tbl 541 X32 "setsockopt" (Some "sys_setsockopt");
   Tbl 542 X32 "getsockopt" (Some "sys_getsockopt");
   Tbl 543 X32 "io_setup" (Some "compat_sys_io_setup");
   Tbl 544 X32 "io_submit" (Some "compat_sys_io_submit");
   Tbl 545 X32 "execveat" (Some "compat_sys_execveat");
   Tbl 546 X32 "preadv2" (Some "compat_sys_preadv64v2");
   Tbl 547 X32 "pwritev2" (Some "compat_sys_pwritev64v2")].

Definition syscall_64_tbl : list tbl_line := syscall_64_tbl_1 ++ syscall_64_tbl_2 ++ syscall_64_tbl_3 ++ syscall_64_tbl_4.
