(* ===== verification/Syscalls.v ===== *)
(** * System calls: from a number to a handler

    What the lines of SyscallTables.v mean.  [Unistd]: the preprocessor over
    include/uapi/asm-generic/unistd.h, in any configuration, and a static analysis of the
    file with which theorems about every configuration are proved.  [Ni]: which handlers
    may be missing (kernel/sys_ni.c).  [Wrapper]: the conversion of arguments by
    SYSCALL_DEFINEx (include/linux/syscalls.h).  [Dispatch]: a call by number, composed
    with the key-value store of KvStore.v; [X86]: the table of x86-64. *)

From stdpp Require Import sorting.
From S2P Require Import Prelude KvStore SyscallTables.

Module Unistd.

(** A configuration: __BITS_PER_LONG and the macros defined before the file is read. *)
Record config := Config { bits : Z; extern : string -> bool }.

(** A macro stands for a number or for another macro; macros are expanded when used. *)
Record ustate := UState { macros : gmap string (Z + string); table : list (Z * string) }.

Definition value (m : gmap string (Z + string)) (x : string) : option Z :=
  match m !! x with
  | Some (inl n) => Some n
  | Some (inr y) => match m !! y with Some (inl n) => Some n | _ => None end
  | None => None
  end.

(** The conditions of #if, #ifdef and #ifndef. *)
Fixpoint cond_holds (cfg : config) (m : gmap string (Z + string)) (c : cond) : bool :=
  match c with
  | Defined x => extern cfg x || bool_decide (is_Some (m !! x))
  | BitsPerLong n => bits cfg =? n
  | CNot d => negb (cond_holds cfg m d)
  | COr d e => cond_holds cfg m d || cond_holds cfg m e
  | CAnd d e => cond_holds cfg m d && cond_holds cfg m e
  end.

(** [__BITS_PER_LONG == 32 || defined(__SYSCALL_COMPAT)] and [__SYSCALL_COMPAT]. *)
Definition is_compat (cfg : config) : bool := extern cfg "__SYSCALL_COMPAT".
Definition is_32 (cfg : config) : bool := (bits cfg =? 32) || is_compat cfg.

(** The handler that an entry names, by __SC_3264, __SC_COMP and __SC_COMP_3264. *)
Definition sc_3264 (b32 : bool) (s32 s64 : string) : string := if b32 then s32 else s64.
Definition sc_comp (compat : bool) (sys comp : string) : string := if compat then comp else sys.
Definition sc_comp_3264 (b32 compat : bool) (s32 s64 comp : string) : string :=
  if compat then comp else sc_3264 b32 s32 s64.

(** An entry line: its macro and the handler. *)
Definition sc_entry (b32 compat : bool) (l : unistd_line) : option (string * string) :=
  match l with
  | SYSCALL nr sym => Some (nr, sym)
  | SC_3264 nr s32 s64 => Some (nr, sc_3264 b32 s32 s64)
  | SC_COMP nr sys comp => Some (nr, sc_comp compat sys comp)
  | SC_COMP_3264 nr s32 s64 comp => Some (nr, sc_comp_3264 b32 compat s32 s64 comp)
  | DEFINE _ _ | ALIAS _ _ | UNDEF _ => None
  end.

(** One line; [None]: an entry whose macro has no number, which does not compile. *)
Definition read_line (cfg : config) (l : unistd_line) (s : ustate) : option ustate :=
  match l with
  | DEFINE x n => Some (UState (<[x := inl n]> (macros s)) (table s))
  | ALIAS x y => Some (UState (<[x := inr y]> (macros s)) (table s))
  | UNDEF x => Some (UState (delete x (macros s)) (table s))
  | _ =>
      '(nr, sym) ← sc_entry (is_32 cfg) (is_compat cfg) l;
      n ← value (macros s) nr;
      Some (UState (macros s) (table s ++ [(n, sym)]))
  end.

Fixpoint read_file (cfg : config) (p : pp unistd_line) (s : ustate) : option ustate :=
  match p with
  | End => Some s
  | Line l k => s' ← read_line cfg l s; read_file cfg k s'
  | If c t e k =>
      s' ← read_file cfg (if cond_holds cfg (macros s) c then t else e) s; read_file cfg k s'
  end.

(** The whole file, read in a configuration. *)
Definition unistd (cfg : config) : option ustate := read_file cfg unistd_h (UState ∅ []).

(** ** Static analysis

    [scan lo last p]: whatever the conditions evaluate to, [p] compiles, and its entries
    have ascending numbers from [lo] on; the result is a bound of the numbers.  Every entry
    must follow the definition of its macro, which is [last]. *)
Fixpoint scan (lo : Z) (last : option (string * Z)) (p : pp unistd_line) : option Z :=
  match p with
  | End => Some lo
  | Line (DEFINE x n) k => scan lo (Some (x, n)) k
  | Line (ALIAS _ _) k | Line (UNDEF _) k => scan lo None k
  | Line l k =>
      match sc_entry false false l, last with
      | Some (nr, _), Some (x, n) =>
          if String.eqb nr x && (lo <=? n) then scan (n + 1) last k else None
      | _, _ => None
      end
  | If _ t e k =>
      match scan lo None t, scan lo None e with
      | Some a, Some b => scan (Z.max a b) None k
      | _, _ => None
      end
  end.

(** [entries b32 compat last p]: the entries [p] can have under some conditions;
    [always b32 compat last p]: those it has under all. *)
Fixpoint entries (b32 compat : bool) (last : option (string * Z)) (p : pp unistd_line)
    : list (Z * string) :=
  match p with
  | End => []
  | Line (DEFINE x n) k => entries b32 compat (Some (x, n)) k
  | Line l k =>
      match sc_entry b32 compat l, last with
      | Some (_, sym), Some (_, n) => (n, sym) :: entries b32 compat last k
      | _, _ => entries b32 compat None k
      end
  | If _ t e k => entries b32 compat None t ++ entries b32 compat None e ++ entries b32 compat None k
  end.

Fixpoint always (b32 compat : bool) (last : option (string * Z)) (p : pp unistd_line)
    : list (Z * string) :=
  match p with
  | End => []
  | Line (DEFINE x n) k => always b32 compat (Some (x, n)) k
  | Line l k =>
      match sc_entry b32 compat l, last with
      | Some (_, sym), Some (_, n) => (n, sym) :: always b32 compat last k
      | _, _ => always b32 compat None k
      end
  | If _ _ _ k => always b32 compat None k
  end.

(** [final x v p]: the number of macro [x] after [p], known before to be [v]. *)
Fixpoint final (x : string) (v : option Z) (p : pp unistd_line) : option Z :=
  match p with
  | End => v
  | Line (DEFINE y n) k => final x (if String.eqb y x then Some n else v) k
  | Line (ALIAS y _) k | Line (UNDEF y) k => final x (if String.eqb y x then None else v) k
  | Line _ k => final x v k
  | If _ t e k =>
      match final x v t, final x v e with
      | Some a, Some b => final x (if a =? b then Some a else None) k
      | _, _ => final x None k
      end
  end.

Definition last_ok (last : option (string * Z)) (s : ustate) : Prop :=
  match last with Some (x, n) => macros s !! x = Some (inl n) | None => True end.

(** Strictly ascending numbers in [lo, hi). *)
Definition ascends (lo hi : Z) (o : list (Z * string)) : Prop :=
  StronglySorted Z.lt o.*1 /\ Forall (fun n => lo <= n < hi) o.*1 /\ lo <= hi.

Lemma ascends_nil lo : ascends lo lo [].
Proof. split_and!; [constructor|constructor|lia]. Qed.

Lemma ascends_app lo mid hi o o' : ascends lo mid o -> ascends mid hi o' -> ascends lo hi (o ++ o').
Proof.
  intros (S1 & F1 & L1) (S2 & F2 & L2). unfold ascends. rewrite fmap_app. split_and!; [|..|lia].
  - apply StronglySorted_app_2; [|done..]. rewrite Forall_forall in F1, F2.
    intros x y Hx Hy. specialize (F1 _ Hx). specialize (F2 _ Hy). simpl in *. lia.
  - apply Forall_app. split; eapply Forall_impl; [exact F1| |exact F2|]; simpl; lia.
Qed.

Lemma ascends_le lo hi hi' o : ascends lo hi o -> hi <= hi' -> ascends lo hi' o.
Proof.
  intros (S1 & F1 & L1) H. split_and!; [done| |lia]. eapply Forall_impl; [exact F1|]. simpl; lia.
Qed.

(** The analysis is sound: what a file that passes [scan] adds to the table. *)
Definition adds (cfg : config) (lo hi : Z) (last : option (string * Z)) (p : pp unistd_line)
    (o : list (Z * string)) : Prop :=
  ascends lo hi o /\ o ⊆ entries (is_32 cfg) (is_compat cfg) last p /\
  always (is_32 cfg) (is_compat cfg) last p ⊆ o.

Lemma entry_line cfg l nr sym s n :
  sc_entry (is_32 cfg) (is_compat cfg) l = Some (nr, sym) -> macros s !! nr = Some (inl n) ->
  read_line cfg l s = Some (UState (macros s) (table s ++ [(n, sym)])).
Proof.
  intros He Hn. destruct l; try discriminate; unfold read_line; rewrite He; simpl;
    unfold value; by rewrite Hn.
Qed.

Lemma entry_any b32 compat l nr sym :
  sc_entry false false l = Some (nr, sym) -> exists sym', sc_entry b32 compat l = Some (nr, sym').
Proof. destruct l; simpl; naive_solver. Qed.

Lemma adds_entry cfg lo hi n nr sym l k o :
  sc_entry (is_32 cfg) (is_compat cfg) l = Some (nr, sym) -> lo <= n ->
  adds cfg (n + 1) hi (Some (nr, n)) k o ->
  adds cfg lo hi (Some (nr, n)) (Line l k) ((n, sym) :: o).
Proof.
  intros He Hlo (A & S1 & S2). split_and!.
  - apply (ascends_app lo (n + 1) hi [(n, sym)] o); [|done]. split_and!; [| |lia].
    + repeat constructor.
    + constructor; [simpl; lia|constructor].
  - destruct l; try discriminate; cbn [entries]; rewrite He; set_solver.
  - destruct l; try discriminate; cbn [always]; rewrite He; set_solver.
Qed.

Lemma adds_if cfg lo a b hi c t e k last o1 o2 (w : bool) :
  adds cfg lo (if w then a else b) None (if w then t else e) o1 ->
  adds cfg (Z.max a b) hi None k o2 -> adds cfg lo hi last (If c t e k) (o1 ++ o2).
Proof.
  intros (A1 & S1 & _) (A2 & S2 & S2'). split_and!; cbn [entries always].
  - eapply ascends_app; [|exact A2]. eapply ascends_le; [exact A1|]. destruct w; lia.
  - destruct w; set_solver.
  - set_solver.
Qed.

Lemma scan_sound cfg p : forall lo last hi s,
  scan lo last p = Some hi -> last_ok last s ->
  exists s' o, read_file cfg p s = Some s' /\ table s' = table s ++ o /\ adds cfg lo hi last p o.
Proof.
  induction p as [|l k IH|c t IHt e IHe k IHk]; intros lo last hi s H Hl.
  - injection H as <-. exists s, []. rewrite app_nil_r. split_and!; [done..|].
    split_and!; [apply ascends_nil|set_solver..].
  - destruct (sc_entry false false l) as [[nr sym0]|] eqn:E0.
    + destruct (entry_any (is_32 cfg) (is_compat cfg) _ _ _ E0) as [sym Es].
      assert (exists x n, last = Some (x, n) /\ nr = x /\ lo <= n /\ scan (n + 1) last k = Some hi)
        as (x & n & -> & -> & Hlo & Hk).
      { destruct l; try discriminate; cbn [scan] in H; rewrite E0 in H; destruct last as [[x n]|];
          try discriminate; destruct (String.eqb_spec nr x); simpl in H; try discriminate;
          destruct (Z.leb_spec lo n); try discriminate; eauto 10. }
      cbn [last_ok] in Hl. destruct (IH _ _ _ (UState (macros s) (table s ++ [(n, sym)])) Hk Hl)
        as (s' & o & R & T & A).
      exists s', ((n, sym) :: o). cbn [read_file]. rewrite (entry_line _ _ _ _ _ _ Es Hl).
      split_and!; [exact R|rewrite T; simpl; by rewrite <- app_assoc|by eapply adds_entry].
    + destruct l as [x n|x y|x| | | |]; try discriminate; cbn [scan] in H;
        eapply IH in H as (s' & o & R & T & A); try (exists s', o; split_and!; [exact R|exact T|exact A]);
        cbn [last_ok macros]; [apply lookup_insert_eq|done..].
  - cbn [scan] in H. destruct (scan lo None t) as [a|] eqn:Ht; [|done].
    destruct (scan lo None e) as [b|] eqn:He; [|done].
    set (w := cond_holds cfg (macros s) c).
    assert (exists s1 o1, read_file cfg (if w then t else e) s = Some s1 /\
      table s1 = table s ++ o1 /\ adds cfg lo (if w then a else b) None (if w then t else e) o1)
      as (s1 & o1 & R1 & T1 & A1).
    { destruct w; [by eapply IHt|by eapply IHe]. }
    destruct (IHk _ _ _ s1 H I) as (s' & o & R & T & A).
    exists s', (o1 ++ o). cbn [read_file]. fold w. rewrite R1.
    split_and!; [exact R|by rewrite T, T1, app_assoc|by eapply adds_if].
Qed.

Lemma final_sound cfg x p : forall v s s',
  (forall n, v = Some n -> macros s !! x = Some (inl n)) -> read_file cfg p s = Some s' ->
  forall n, final x v p = Some n -> macros s' !! x = Some (inl n).
Proof.
  induction p as [|l k IH|c t IHt e IHe k IHk]; intros v s s' Hv R n Hn.
  - injection R as <-. by apply Hv.
  - cbn [read_file] in R. apply bind_Some in R as (s1 & R1 & R2). revert n Hn.
    destruct l as [y m|y z|y| | | |]; cbn [final]; refine (IH _ _ _ _ R2);
      cbn [read_line] in R1; simplify_option_eq; repeat case_match; simplify_option_eq; try done;
      intros n' Hn'; cbn [macros];
      destruct (String.eqb_spec y x) as [->|Hne]; simplify_eq;
      rewrite ?lookup_insert_eq, ?lookup_insert_ne, ?lookup_delete_ne by done; auto.
  - cbn [read_file] in R. apply bind_Some in R as (s1 & R1 & R2). cbn [final] in Hn.
    set (w := cond_holds cfg (macros s) c) in R1.
    assert (forall m, final x v (if w then t else e) = Some m -> macros s1 !! x = Some (inl m)) as H1
      by (destruct w; [by eapply IHt|by eapply IHe]).
    destruct (final x v t) as [a|] eqn:Ht; [destruct (final x v e) as [b|] eqn:He|];
      revert n Hn; refine (IHk _ _ _ _ R2); try done.
    intros m. destruct (Z.eqb_spec a b) as [->|]; [|done]. intros [= ->].
    destruct w; auto.
Qed.

Lemma scan_unistd : scan 0 None unistd_h = Some 452.
Proof. vm_compute. reflexivity. Qed.

Lemma final_unistd : final "__NR_syscalls" None unistd_h = Some 452.
Proof. vm_compute. reflexivity. Qed.

(** The file in any configuration. *)
Lemma unistd_reads cfg : exists s, unistd cfg = Some s /\ adds cfg 0 452 None unistd_h (table s).
Proof.
  destruct (scan_sound cfg unistd_h 0 None 452 (UState ∅ []) scan_unistd I)
    as (s & o & R & T & A). exists s. split; [exact R|]. by rewrite T.
Qed.

(** (C40) In every configuration (word size, compatibility table, whatever optional calls
    the architecture wants) unistd.h compiles: every entry follows the definition of its
    number, the numbers are strictly ascending, so that no call hides another, and all are
    below __NR_syscalls, the size of the table. *)
Theorem syscall_numbers_distinct cfg :
  exists s nr, unistd cfg = Some s /\ value (macros s) "__NR_syscalls" = Some nr /\
  StronglySorted Z.lt (table s).*1 /\ NoDup (table s).*1 /\
  Forall (fun n => 0 <= n < nr) (table s).*1.
Proof.
  destruct (unistd_reads cfg) as (s & R & (S1 & F1 & _) & _). exists s, 452.
  split_and!; try done.
  - unfold value. by rewrite (final_sound cfg "__NR_syscalls" unistd_h None (UState ∅ []) s
      (fun n H => ltac:(discriminate H)) R 452 final_unistd).
  - clear R F1. induction S1 as [|x l S IH F]; constructor; [|done].
    rewrite Forall_forall in F. intros Hx. specialize (F x Hx). lia.
Qed.

(** The entries of any configuration are among those the analysis lists, and have those it
    lists as unconditional. *)
Lemma table_bounds cfg s :
  unistd cfg = Some s ->
  table s ⊆ entries (is_32 cfg) (is_compat cfg) None unistd_h /\
  always (is_32 cfg) (is_compat cfg) None unistd_h ⊆ table s /\
  StronglySorted Z.lt (table s).*1.
Proof.
  intros H. destruct (unistd_reads cfg) as (s' & R & (S1 & _) & A & B). simplify_eq. done.
Qed.

(** The first entry with a number: in a table of ascending numbers the only one. *)
Fixpoint lookup_nr (nr : Z) (t : list (Z * string)) : option string :=
  match t with
  | [] => None
  | (n, sym) :: t' => if n =? nr then Some sym else lookup_nr nr t'
  end.

Lemma lookup_nr_elem nr sym t :
  StronglySorted Z.lt t.*1 -> (nr, sym) ∈ t -> lookup_nr nr t = Some sym.
Proof.
  induction t as [|[n x] t IH]; intros HS; [by intros ?%not_elem_of_nil|].
  inv HS as [|? ? HS' HF]. intros [[= -> ->]|H]%elem_of_cons; simpl; [by rewrite Z.eqb_refl|].
  destruct (Z.eqb_spec n nr) as [->|]; [|auto]. rewrite Forall_forall in HF.
  assert (nr < nr); [|lia]. apply HF, list_elem_of_fmap. by exists (nr, sym).
Qed.

Lemma lookup_nr_None nr t : nr ∉ t.*1 -> lookup_nr nr t = None.
Proof.
  induction t as [|[n x] t IH]; [done|]. simpl. rewrite not_elem_of_cons. intros [Hne H].
  destruct (Z.eqb_spec n nr) as [->|]; [done|auto].
Qed.
End Unistd.

(** ** Handlers that may be missing (kernel/sys_ni.c) *)
Module Ni.

(** sys_ni_syscall *)
Definition sys_ni_syscall : Z := - ENOSYS.

(** The symbols made weak aliases of sys_ni_syscall by the two macros. *)
Definition cond_syscall (l : ni_line) : string :=
  match l with
  | COND_SYSCALL name => "sys_" +:+ name
  | COND_SYSCALL_COMPAT name => "compat_sys_" +:+ name
  end.

Inductive target := Handler (sym : string) | NotImplemented.

(** What a symbol of the table is linked to, given the symbols that some object of the
    kernel defines; [None]: an undefined reference. *)
Definition link_symbol (defined : string -> bool) (sym : string) : option target :=
  if defined sym then Some (Handler sym)
  else if existsb (String.eqb sym) (cond_syscall <$> sys_ni_c) then Some NotImplemented
  else None.
End Ni.

(** ** Conversion of arguments (include/linux/syscalls.h) *)
Module Wrapper.
Import Unistd.

Definition SYSCALL_DEFINE_MAXARGS : nat := 6.

(** The prototype of a handler in a configuration. *)
Fixpoint find_proto (cfg : config) (sym : string) (p : pp proto_line) : option (list ctype) :=
  match p with
  | End => None
  | Line (PROTO name params) k => if String.eqb name sym then Some params else find_proto cfg sym k
  | If c t e k =>
      match find_proto cfg sym (if cond_holds cfg ∅ c then t else e) with
      | Some params => Some params
      | None => find_proto cfg sym k
      end
  end.

(** __SC_CAST: a register converted to the type of a parameter, on a machine with longs of
    [w] bits; [typedef] converts to the types this header does not define. *)
Definition sc_cast (w : Z) (typedef : string -> Z -> Z) (t : ctype) (a : Z) : Z :=
  match t with
  | Int => wraps 32 a
  | UInt => wrapu 32 a
  | Long => wraps w a
  | ULong | Ptr => wrapu w a
  | Typedef name => typedef name a
  end.

(** __se_sys##name: the converted arguments passed to __do_sys##name. *)
Definition se_sys (w : Z) (typedef : string -> Z -> Z) (params : list ctype) (args : list Z)
    : list Z :=
  zip_with (sc_cast w typedef) params args.

(** A 64-bit argument of a call on a 32-bit machine takes two parameters, in an order that
    depends on the byte order; SC_VAL64 puts them together, in a type of 64 bits. *)
Definition SC_ARG64 (little_endian : bool) (lo hi : Z) : list Z :=
  if little_endian then [lo; hi] else [hi; lo].
Definition SC_VAL64 (hi lo : Z) : Z := Z.lor (wrapu 64 (Z.shiftl hi 32)) lo.

(** ksys_personality: the old personality, and the one of the task afterwards. *)
Definition ksys_personality (current personality : Z) : Z * Z :=
  (current, if personality =? 0xffffffff then current else personality).

(** All prototypes, under whatever conditions. *)
Fixpoint all_protos (p : pp proto_line) : list (string * list ctype) :=
  match p with
  | End => []
  | Line (PROTO name params) k => (name, params) :: all_protos k
  | If _ t e k => all_protos t ++ all_protos e ++ all_protos k
  end.

(** [sure_proto sym p]: the prototype found whatever the conditions, if there is one. *)
Fixpoint sure_proto (sym : string) (p : pp proto_line) : option (list ctype) :=
  match p with
  | End => None
  | Line (PROTO name params) k => if String.eqb name sym then Some params else sure_proto sym k
  | If _ t e k =>
      if existsb (fun q => String.eqb q.1 sym) (all_protos t ++ all_protos e) then None
      else sure_proto sym k
  end.

Lemma find_proto_elem cfg sym p params :
  find_proto cfg sym p = Some params -> (sym, params) ∈ all_protos p.
Proof.
  induction p as [|[name ps] k IH|c t IHt e IHe k IHk]; simpl; [done| |].
  - destruct (String.eqb_spec name sym) as [->|]; [intros [= ->]; by left|]. right; auto.
  - rewrite !elem_of_app. destruct (find_proto cfg sym (if cond_holds cfg ∅ c then t else e)) eqn:E; [|naive_solver].
    intros [= ->]. destruct (cond_holds cfg ∅ c); auto.
Qed.

Lemma sure_proto_sound cfg sym p params :
  sure_proto sym p = Some params -> find_proto cfg sym p = Some params.
Proof.
  induction p as [|[name ps] k IH|c t IHt e IHe k IHk]; simpl; [done| |].
  - destruct (String.eqb name sym); auto.
  - destruct (existsb _ _) eqn:X; [done|]. intros H.
    destruct (find_proto cfg sym (if cond_holds cfg ∅ c then t else e)) as [ps|] eqn:E; [|auto].
    apply find_proto_elem in E. exfalso. apply Bool.not_true_iff_false in X. apply X.
    apply existsb_exists. exists (sym, ps). split; [|apply String.eqb_refl].
    apply list_elem_of_In, elem_of_app. destruct (cond_holds cfg ∅ c); auto.
Qed.

Definition split64 (little_endian : bool) (x : Z) : list Z :=
  SC_ARG64 little_endian (x mod 2 ^ 32) (x / 2 ^ 32).

(** A 64-bit value split over two registers in the order of SC_ARG64 comes together in
    SC_VAL64, with garbage in the upper halves of the registers ignored by the conversion
    to u32. *)
Theorem split_argument_roundtrip little_endian x g1 g2 w typedef :
  in_u 64 x -> (forall a, typedef "u32" a = wrapu 32 a) ->
  let u32 := Typedef "u32" in
  match se_sys w typedef [u32; u32]
          (zip_with (fun a g => a + g * 2 ^ 32) (split64 little_endian x) [g1; g2]) with
  | [a; b] => if little_endian then SC_VAL64 b a = x else SC_VAL64 a b = x
  | _ => False
  end.
Proof.
  intros Hx Ht. assert (forall a g, in_u 32 a -> typedef "u32" (a + g * 2 ^ 32) = a) as T.
  { intros a g Ha. rewrite Ht. unfold wrapu. rewrite Z.mod_add by done. by apply Z.mod_small. }
  assert (in_u 32 (x mod 2 ^ 32)) as Hl by (apply Z.mod_pos_bound; lia).
  assert (in_u 32 (x / 2 ^ 32)) as Hh.
  { unfold in_u in *. split; [apply Z.div_pos; lia|apply Z.div_lt_upper_bound; lia]. }
  assert (SC_VAL64 (x / 2 ^ 32) (x mod 2 ^ 32) = x) as V.
  { unfold SC_VAL64. rewrite Z.shiftl_mul_pow2 by lia. unfold in_u in *.
    rewrite wrapu_id by (unfold in_u; lia). rewrite <- Z.land_ones by lia.
    rewrite <- Z.shiftr_div_pow2, <- Z.shiftl_mul_pow2 by lia. apply Z.bits_inj'. intros n Hn.
    rewrite Z.lor_spec, Z.land_spec, Z.shiftl_spec, Z.testbit_ones_nonneg by lia.
    destruct (Z.ltb_spec n 32); [by rewrite Z.testbit_neg_r, andb_true_r by lia|].
    rewrite Z.shiftr_spec by lia. rewrite andb_false_r, orb_false_r. f_equal. lia. }
  destruct little_endian; simpl; by rewrite !T.
Qed.

(** The prototypes by name. *)
Definition protos_map : gmap string (list ctype) := list_to_map (all_protos syscalls_h).

(** Handlers that architectures declare themselves. *)
Definition arch_handlers : list string := ["sys_mmap"; "sys_mmap2"; "sys_rt_sigreturn"].

Definition declared_ok (sym : string) : bool :=
  match protos_map !! sym with
  | Some params => (length params <=? SYSCALL_DEFINE_MAXARGS)%nat
  | None => false
  end || bool_decide (sym ∈ arch_handlers) || String.eqb sym "sys_set_thread_socket_attrs".

Lemma entries_declared b32 :
  forallb (fun q => declared_ok q.2) (entries b32 false None unistd_h) = true.
Proof. destruct b32; vm_compute; reflexivity. Qed.

(** Every handler in the native table of any configuration has a prototype in
    syscalls.h, of at most six parameters, or is one of three that architectures declare;
    the only other exception is the handler of set_thread_socket_attrs. *)
Theorem handlers_declared cfg s n sym :
  unistd cfg = Some s -> is_compat cfg = false -> (n, sym) ∈ table s ->
  (exists params, (sym, params) ∈ all_protos syscalls_h /\
     (length params <= SYSCALL_DEFINE_MAXARGS)%nat) \/
  sym ∈ arch_handlers \/ sym = "sys_set_thread_socket_attrs".
Proof.
  intros H Hc Hin. destruct (table_bounds cfg s H) as (Hs & _). rewrite Hc in Hs.
  pose proof (entries_declared (is_32 cfg)) as D. rewrite forallb_forall in D.
  specialize (D (n, sym) (proj1 (list_elem_of_In _ _) (Hs _ Hin))).
  unfold declared_ok in D. apply orb_prop in D as [[D|D]%orb_prop|D]; cbn [snd] in D.
  - left. destruct (protos_map !! sym) as [params|] eqn:E; [|done]. exists params.
    split; [by apply elem_of_list_to_map_2 in E|]. by apply Nat.leb_le.
  - right; left. by apply bool_decide_eq_true in D.
  - right; right. by apply String.eqb_eq.
Qed.
End Wrapper.

(** ** A call by its number *)
Module Dispatch.
Import Unistd Ni Wrapper.

(** A kernel: its configuration, the symbols its objects define, the conversion to types
    of other headers, and its handlers on some state. *)
Section Dispatch.
Context {S : Type} (cfg : config) (typedef : string -> Z -> Z) (defined : string -> bool).
Context (handler : string -> list Z -> S -> option (Z * S)).

(** The call with number [nr] and the registers [args]; numbers without an entry go to
    sys_ni_syscall; [None]: the kernel does not link, or the handler has no prototype. *)
Definition do_syscall (nr : Z) (args : list Z) (s : S) : option (Z * S) :=
  u ← unistd cfg;
  match lookup_nr nr (table u) with
  | None => Some (sys_ni_syscall, s)
  | Some sym =>
      match link_symbol defined sym with
      | None => None
      | Some NotImplemented => Some (sys_ni_syscall, s)
      | Some (Handler h) =>
          params ← find_proto cfg h syscalls_h;
          handler h (se_sys (bits cfg) typedef params args) s
      end
  end.

(** A handler that every configuration has, and whose prototype is unconditional. *)
Lemma do_syscall_sure nr sym params args s :
  (nr, sym) ∈ always (is_32 cfg) (is_compat cfg) None unistd_h ->
  sure_proto sym syscalls_h = Some params -> defined sym = true ->
  do_syscall nr args s = handler sym (se_sys (bits cfg) typedef params args) s.
Proof.
  intros Ha Hp Hd. unfold do_syscall. destruct (unistd_reads cfg) as (u & R & _).
  rewrite R. cbn [mbind option_bind]. destruct (table_bounds cfg u R) as (_ & Hin & HS).
  rewrite (lookup_nr_elem nr sym _ HS (Hin _ Ha)). unfold link_symbol. rewrite Hd.
  by rewrite (sure_proto_sound cfg sym _ _ Hp).
Qed.

Lemma do_syscall_link nr sym args s :
  (nr, sym) ∈ always (is_32 cfg) (is_compat cfg) None unistd_h -> defined sym = false ->
  do_syscall nr args s =
  if existsb (String.eqb sym) (cond_syscall <$> sys_ni_c) then Some (- ENOSYS, s) else None.
Proof.
  intros Ha Hd. unfold do_syscall. destruct (unistd_reads cfg) as (u & R & _).
  rewrite R. cbn [mbind option_bind]. destruct (table_bounds cfg u R) as (_ & Hin & HS).
  rewrite (lookup_nr_elem nr sym _ HS (Hin _ Ha)). unfold link_symbol. rewrite Hd.
  by destruct (existsb _ _).
Qed.

Definition same_entry (p q : Z * string) : bool := (p.1 =? q.1) && String.eqb p.2 q.2.

Lemma same_entry_elem p (l : list (Z * string)) : existsb (same_entry p) l = true -> p ∈ l.
Proof.
  intros ([n x] & Hin & H)%existsb_exists. apply list_elem_of_In in Hin.
  destruct p as [m y]. apply andb_prop in H as [H1%Z.eqb_eq H2%String.eqb_eq]. by simplify_eq/=.
Qed.

(** The three calls of this kernel are in every table. *)
Definition new_entries : list (Z * string) :=
  [(449, "sys_write_kv"); (450, "sys_read_kv"); (451, "sys_set_thread_socket_attrs")].

Lemma new_calls b32 compat : new_entries ⊆ always b32 compat None unistd_h.
Proof.
  assert (forallb (fun q => existsb (same_entry q) (always b32 compat None unistd_h)) new_entries
          = true) as H by (destruct b32, compat; vm_compute; reflexivity).
  rewrite forallb_forall in H. intros q Hq%list_elem_of_In. by apply same_entry_elem, H.
Qed.

(** What is not there: a number outside the table of the configuration answers
    -ENOSYS and changes nothing; so do the calls of the key-value store in a kernel that
    is built without them; but a kernel without set_thread_socket_attrs does not link. *)
Theorem syscall_not_implemented args s :
  (forall nr, nr < 0 \/ 452 <= nr -> do_syscall nr args s = Some (- ENOSYS, s)) /\
  (defined "sys_write_kv" = false -> do_syscall 449 args s = Some (- ENOSYS, s)) /\
  (defined "sys_read_kv" = false -> do_syscall 450 args s = Some (- ENOSYS, s)) /\
  (defined "sys_set_thread_socket_attrs" = false -> do_syscall 451 args s = None).
Proof.
  split_and!.
  - intros nr Hnr. unfold do_syscall. destruct (unistd_reads cfg) as (u & -> & (_ & F & _) & _).
    cbn [mbind option_bind]. rewrite lookup_nr_None; [done|].
    rewrite Forall_forall in F. intros Hx%F. simpl in Hx. lia.
  - intros Hd. rewrite (do_syscall_link 449 "sys_write_kv") by (done || (apply new_calls; unfold new_entries; set_solver)).
    by vm_compute.
  - intros Hd. rewrite (do_syscall_link 450 "sys_read_kv") by (done || (apply new_calls; unfold new_entries; set_solver)).
    by vm_compute.
  - intros Hd. rewrite (do_syscall_link 451 "sys_set_thread_socket_attrs")
      by (done || (apply new_calls; unfold new_entries; set_solver)). by vm_compute.
Qed.
End Dispatch.

(** The handlers of the key-value store, called by task [t]. *)
Definition kv_handler (t : nat) (kmalloc_ok : bool) (sym : string) (args : list Z)
    (s : KvStore.ksys) : option (Z * KvStore.ksys) :=
  if String.eqb sym "sys_write_kv" then
    match args with [k; v] => KvStore.sys_write_kv t kmalloc_ok k v s | _ => None end
  else if String.eqb sym "sys_read_kv" then
    match args with [k] => r ← KvStore.sys_read_kv t k s; Some (r, s) | _ => None end
  else None.

Section KvCalls.
Context (cfg : config) (typedef : string -> Z -> Z) (defined : string -> bool).
Context (Hwrite : defined "sys_write_kv" = true) (Hread : defined "sys_read_kv" = true).

Lemma do_write_kv t ok k v s :
  do_syscall cfg typedef defined (kv_handler t ok) 449 [k; v] s =
  KvStore.sys_write_kv t ok (wraps 32 k) (wraps 32 v) s.
Proof.
  rewrite (do_syscall_sure cfg typedef defined _ 449 "sys_write_kv" [Int; Int]); [done| |by vm_compute|done].
  apply new_calls. unfold new_entries. set_solver.
Qed.

Lemma do_read_kv t ok k s :
  do_syscall cfg typedef defined (kv_handler t ok) 450 [k] s =
  (r ← KvStore.sys_read_kv t (wraps 32 k) s; Some (r, s)).
Proof.
  rewrite (do_syscall_sure cfg typedef defined _ 450 "sys_read_kv" [Int]); [done| |by vm_compute|done].
  apply new_calls. unfold new_entries. set_solver.
Qed.

(** (C3) The key-value store through its numbers, in every configuration: for a task with a
    table, call 449 with registers (k, v) succeeds if memory can be had, and call 450 with
    any register that has the low 32 bits of k then returns v as an int; the upper halves
    of the registers make no difference. *)
Theorem kv_by_number t s k v :
  KvStore.ksys_wf s -> is_Some (KvStore.k_task s !! t) ->
  exists s', do_syscall cfg typedef defined (kv_handler t true) 449 [k; v] s = Some (0, s') /\
  forall ok k', wrapu 32 k' = wrapu 32 k ->
    do_syscall cfg typedef defined (kv_handler t ok) 450 [k'] s' = Some (wraps 32 v, s').
Proof.
  intros [Ht Hh] [a Ha]. destruct (Ht t a Ha) as [kv Hkv]. specialize (Hh a kv Hkv).
  set (w := KvStore.write_kv true (wraps 32 k) (wraps 32 v) kv).
  assert (w.1 = 0) as H0 by (unfold w, KvStore.write_kv; by destruct (KvStore.hlist_assign _ _ _)).
  exists (KvStore.KSys (<[a := w.2]> (KvStore.k_heap s)) (KvStore.k_task s)). split.
  - rewrite do_write_kv. unfold KvStore.sys_write_kv. rewrite Ha, Hkv. fold w.
    destruct w as [r kv']. simpl in *. by rewrite H0.
  - intros ok k' Hk. rewrite do_read_kv. assert (wraps 32 k' = wraps 32 k) as ->.
    { unfold wraps, wrapu in *. rewrite <- (Z.add_mod_idemp_l k'), Hk by done.
      by rewrite Z.add_mod_idemp_l. }
    unfold KvStore.sys_read_kv, KvStore.kv_of; simpl. rewrite Ha, lookup_insert_eq. simpl. f_equal.
    pose proof (KvStore.exec_wf (KvStore.CWrite true (wraps 32 k) (wraps 32 v)) kv Hh) as Hw.
    pose proof (KvStore.write_abs true (wraps 32 k) (wraps 32 v) kv Hh) as Habs.
    cbn [KvStore.exec] in Hw. fold w in Hw, Habs. f_equal.
    pose proof (KvStore.read_kv_spec (wraps 32 k) w.2 Hw) as Hr.
    inv Hr as [| |? ? ? L|? ? ? L]; rewrite Habs, lookup_insert_eq in L; by simplify_eq.
Qed.
End KvCalls.

(** A configuration of a 64-bit kernel that has all its calls. *)
Definition cfg64 : config := Config 64 (fun x => String.eqb x "__ARCH_WANT_SYS_CLONE3").

Lemma kv_by_number_witness :
  exists s', do_syscall cfg64 (fun _ a => a) (fun _ => true) (kv_handler 10 true) 449 [5; 7]
    KvStore.ksys1 = Some (0, s') /\
  do_syscall cfg64 (fun _ a => a) (fun _ => true) (kv_handler 10 false) 450 [2 ^ 32 + 5] s' =
    Some (7, s').
Proof.
  assert (KvStore.ksys_wf KvStore.ksys1) as Hwf.
  { split; simpl.
    - intros t a [<- <-]%lookup_singleton_Some. rewrite lookup_singleton_eq. by eexists.
    - intros a kv [<- <-]%lookup_singleton_Some. apply KvStore.kv_init_wf. }
  destruct (kv_by_number cfg64 (fun _ a => a) (fun _ => true) eq_refl eq_refl 10 KvStore.ksys1 5 7 Hwf
    (ex_intro _ 1%nat eq_refl)) as (s' & Hs & Hr).
  exists s'. split; [exact Hs|]. by apply Hr.
Defined.

Lemma syscall_not_implemented_witness :
  do_syscall cfg64 (fun _ a => a) (fun _ => false) (kv_handler 10 true) 999 [] KvStore.ksys1 =
    Some (-38, KvStore.ksys1) /\
  do_syscall cfg64 (fun _ a => a) (fun _ => false) (kv_handler 10 true) 451 [] KvStore.ksys1 = None.
Proof.
  destruct (syscall_not_implemented cfg64 (fun _ a => a) (fun _ => false) (kv_handler 10 true) []
    KvStore.ksys1) as (H1 & _ & _ & H2).
  split; [apply H1; right; lia|by apply H2].
Defined.

Lemma handlers_declared_witness :
  exists s, unistd cfg64 = Some s /\ (449, "sys_write_kv") ∈ table s /\
  exists params, ("sys_write_kv", params) ∈ all_protos syscalls_h.
Proof.
  destruct (unistd_reads cfg64) as (s & R & _). exists s.
  assert ((449, "sys_write_kv") ∈ table s) as Hin.
  { apply (table_bounds cfg64 s R), new_calls. clear. unfold new_entries. set_solver. }
  split; [exact R|]. split; [exact Hin|].
  destruct (handlers_declared cfg64 s 449 "sys_write_kv" R eq_refl Hin)
    as [(params & Hp & _)|[Hc|Hc]]; [by exists params| |discriminate Hc].
  do 3 (apply elem_of_cons in Hc as [Hc|Hc]; [discriminate Hc|]).
  destruct (not_elem_of_nil _ Hc).
Defined.
End Dispatch.

(** ** The table of x86-64 (arch/x86/entry/syscalls/syscall_64.tbl) *)
Module X86.
Import Unistd Dispatch.

(** Native tasks see the lines "common" and "64", x32 tasks "common" and "x32". *)
Definition serves (a : abi) (l : tbl_line) : bool :=
  bool_decide (t_abi l = Common) || bool_decide (t_abi l = a).

Fixpoint x86_entry (a : abi) (nr : Z) (t : list tbl_line) : option tbl_line :=
  match t with
  | [] => None
  | l :: t' => if (t_nr l =? nr) && serves a l then Some l else x86_entry a nr t'
  end.

Fixpoint ascending (lo : Z) (t : list tbl_line) : bool :=
  match t with [] => true | l :: t' => (lo <=? t_nr l) && ascending (t_nr l + 1) t' end.

Lemma ascending_sorted t : forall lo,
  ascending lo t = true -> StronglySorted Z.lt (t_nr <$> t) /\ Forall (fun l => lo <= t_nr l) t.
Proof.
  induction t as [|l t IH]; intros lo; cbn [ascending]; [by repeat constructor|].
  intros [Hl%Z.leb_le Ht]%andb_prop. destruct (IH _ Ht) as [HS HF]. split.
  - constructor; [done|]. apply Forall_fmap. eapply Forall_impl; [exact HF|]. simpl; lia.
  - constructor; [done|]. eapply Forall_impl; [exact HF|]. simpl; lia.
Qed.

(** The line that a generic entry from 424 on must have. *)
Definition matches (q : Z * string) (l : tbl_line) : bool :=
  (t_nr l =? q.1) && bool_decide (t_abi l = Common) &&
  match t_entry l with Some sym => String.eqb sym q.2 | None => false end.

Definition line_ok (l : tbl_line) : bool :=
  Bool.eqb (bool_decide (t_abi l = X32)) ((512 <=? t_nr l) && (t_nr l <=? 547)) &&
  negb ((387 <=? t_nr l) && (t_nr l <=? 423)).

(** The entry points of the new calls, for tasks of either ABI. *)
Definition new_lines (a : abi) : list (option string) :=
  (fun q => x86_entry a q.1 syscall_64_tbl ≫= t_entry) <$> new_entries.

Lemma lines_ok : forallb line_ok syscall_64_tbl = true.
Proof. vm_compute. reflexivity. Qed.

Lemma generic_in_tbl :
  forallb (fun q => (q.1 <? 424) || existsb (matches q) syscall_64_tbl)
    (entries false false None unistd_h) = true.
Proof. vm_compute. reflexivity. Qed.

(** The table of x86-64 is consistent: its numbers are strictly ascending, so a number
    has one meaning; exactly the lines 512 to 547 are for x32 only, and 387 to 423 are not
    used, as the file asks; and from 424 on, where all architectures share the numbers,
    every entry of the generic 64-bit table has its line here with the same handler; the new
    calls are there for both ABIs. *)
Theorem x86_table_consistent :
  StronglySorted Z.lt (t_nr <$> syscall_64_tbl) /\
  (forall l, l ∈ syscall_64_tbl ->
     (t_abi l = X32 <-> 512 <= t_nr l <= 547) /\ ~ 387 <= t_nr l <= 423) /\
  (forall a, new_lines a = Some <$> new_entries.*2) /\
  (forall cfg s n sym, is_32 cfg = false -> is_compat cfg = false -> unistd cfg = Some s ->
     (n, sym) ∈ table s -> 424 <= n ->
     exists l, l ∈ syscall_64_tbl /\ t_nr l = n /\ t_abi l = Common /\ t_entry l = Some sym).
Proof.
  split_and!.
  - apply (ascending_sorted _ 0). vm_compute. reflexivity.
  - intros l Hl%list_elem_of_In. pose proof lines_ok as H. rewrite forallb_forall in H.
    specialize (H l Hl). unfold line_ok in H. apply andb_prop in H as [H1%eqb_prop H2%negb_true_iff].
    apply andb_false_iff in H2. rewrite !Z.leb_gt in H2. split; [|lia].
    rewrite <- (bool_decide_eq_true (t_abi l = X32)), H1, andb_true_iff, !Z.leb_le. lia.
  - intros []; vm_compute; reflexivity.
  - intros cfg s n sym H32 Hc R Hin Hn. destruct (table_bounds cfg s R) as (Hs & _).
    rewrite H32, Hc in Hs. pose proof generic_in_tbl as H. rewrite forallb_forall in H.
    specialize (H (n, sym) (proj1 (list_elem_of_In _ _) (Hs _ Hin))). cbn [fst snd] in H.
    apply orb_prop in H as [H%Z.ltb_lt|H]; [lia|].
    apply existsb_exists in H as (l & Hl%list_elem_of_In & Hm). exists l. unfold matches in Hm.
    destruct (t_entry l) as [sym'|]; [|by rewrite andb_false_r in Hm].
    apply andb_prop in Hm as [[H1%Z.eqb_eq H2%bool_decide_eq_true]%andb_prop H3%String.eqb_eq].
    simpl in *. by subst.
Qed.

Lemma x86_table_consistent_witness :
  exists s l, unistd cfg64 = Some s /\ l ∈ syscall_64_tbl /\ t_nr l = 451 /\ t_abi l = Common /\
  t_entry l = Some "sys_set_thread_socket_attrs".
Proof.
  destruct (unistd_reads cfg64) as (s & R & _). exists s.
  assert ((451, "sys_set_thread_socket_attrs") ∈ table s) as Hin.
  { apply (table_bounds cfg64 s R), new_calls. clear. unfold new_entries. set_solver. }
  destruct x86_table_consistent as (_ & _ & _ & H).
  assert (424 <= 451) as Hn by lia.
  destruct (H cfg64 s 451 "sys_set_thread_socket_attrs" eq_refl eq_refl R Hin Hn) as (l & Hl).
  exists l. split; [exact R|exact Hl].
Defined.
End X86.
